(* ===== verification/_CoqProject ===== *)
-Q . S2P
Prelude.v
Bufpipe.v
Errs.v
Pool.v
PoolInv.v
PoolWait.v
PoolView.v
PoolThms.v
PoolRoom.v
PoolQuiet.v
PoolWork.v
WorkerPool.v
Lines.v
Liblzma.v
SmallLzma.v
Lib.v
Sha256.v
XzConst.v
Literal.v
World.v
LibIndex.v
Stream.v
StreamPump.v
StreamTerm.v
StreamRuns.v
PipeClose.v
Ioutil.v
LzmaAlone.v
PipePump.v
Writer.v
WriterBlock.v
WriterSync.v
WriterNew.v
WriterSession.v
WriterTotal.v
WriterRuns.v
AsyncWriter.v
AsyncInv.v
AsyncFlow.v
AsyncMain.v
AsyncWorkers.v
AsyncMonitor.v
AsyncOut.v
AsyncLive.v
AsyncAwake.v
AsyncEnd.v
AsyncFinish.v
AsyncThms.v
AsyncSettle.v
AsyncMoves.v
AsyncCustody.v
AsyncCaller.v
AsyncCost.v
AsyncFinite.v
AsyncRuns.v
SeekIndex.v
SeekRuns.v
XzReader.v
Xzpipe.v
ReaderParse.v
ReaderSession.v
ReaderRuns.v
FileParse.v
ExactLzma.v
FileRuns.v
XzpipeRuns.v
