(* ===== verification/Prelude.v ===== *)
(** * goxz: compression of xz and lzma files in Go, verified

    The program is a Go package around the C library liblzma. The package [lib]
    wraps the library's data structures and its coders; [lzma] is a reader and a
    writer of the old LZMA_ALONE format; [xz] writes xz files, block by block,
    synchronously or with a pool of goroutines, reads them, and decodes the index
    of a file from its end.

    ** What is a parameter

    Three things the code calls are not in the repository. They are type classes
    here, with their documented behaviour as a second class of laws:
    liblzma ([Liblzma], [LiblzmaSpec], [LiblzmaIdle], [IndexDecoderSpec],
    [LiblzmaDecodes]), the
    pipes of [golib/bufpipe] ([Bufpipe], [BufpipeSpec], [BufpipeIo],
    [BufpipeClose], [BufpipeCloseSpec]), and [golib/errs], [golib/ioutil]
    ([Errs], [Ioutil]). [SmallLzma], [ExactLzma], [Bufpipe.Plain],
    [Errs.PlainErrs] and [Ioutil] also have concrete instances, on which the code
    runs: the files named [...Runs] evaluate it and apply the theorems there. The
    caller's [io.Reader] and [io.Writer] are the classes [IoReader] and
    [IoWriter]. The standard library of Go is modelled where the code uses it.

    ** How the code is modelled

    A function body is a computation in the monad [M] of this file: it changes the
    state it can reach, and returns, panics, or runs out of fuel in a loop that Go
    does not bound. [defer] is [with_defer], [defer errs.Recover(&err)] is
    [Errs.with_recover]. Integers wrap around explicitly ([int64], [uint32], ...).
    Objects behind pointers live in the heaps of [World.world], so that two
    pointers to one pipe or one block are one object.

    ** The files, and what each group of theorems shows

    - [Pool], [PoolInv], [PoolWait], [PoolView], [PoolThms] (xz/pool.go, pipePool): a mutex and
      two condition variables guard three sets of pipes. A method is one step, or
      one step per stretch between two [Wait]s; [pstep] is the transition relation
      of any number of goroutines. In every reachable state the sets are well
      formed, no wake-up is lost, a reserved index is never blocked, a closed pool
      is drained, a terminated one hands out nothing. Three files are what a client
      needs of it: [PoolView], what a call does to the ready and the active pipes;
      [PoolRoom], who sleeps and why, and how many pipes there are; [PoolQuiet],
      what any operation does to a goroutine that waits, invariant or not.
    - [WorkerPool] (xz/pool.go, workerPool): the number of workers is exactly what
      was asked for, and the end callback runs once, after the last worker.
    - [Liblzma], [Lib], [World], [LibIndex] (lib/*.go without base.go): the wrappers.
      Header sizes and encodings; no sequence of operations on indexes,
      finalizers included, uses a freed index or frees one twice.
    - [Stream], [StreamPump], [StreamTerm] (lib/base.go, lib/container.go):
      [Process] loses, duplicates and reorders nothing, ends only in the cases its
      comments list, and does end.
    - [LzmaAlone] (lzma/): whole sessions of the writer and of the reader.
    - [Sha256], [XzConst], [Literal] (xz/const.go, xz/literal.go): the literal block
      is byte for byte the reference definition, its size is what was computed in
      advance, and an LZMA2 reader gives its input back.
    - [Lines], [PipePump]: [ProcessPipe] between linear pipes.
    - [Writer], [WriterBlock], [WriterSync], [WriterNew], [WriterSession],
      [WriterTotal] (xz/writer.go): the encoding of a block, the invariant of the
      synchronous writer, the file that a session leaves ([sync_session_file]), and
      that a session ends ([sync_session_returns]).
    - [PipeClose], [AsyncWriter], [AsyncInv], [AsyncFlow], [AsyncMain],
      [AsyncWorkers], [AsyncMonitor], [AsyncOut], [AsyncEnd], [AsyncFinish],
      [AsyncThms] (xz/writer.go): the asynchronous writer. The caller, the
      workers, the goroutine [writer], the monitor and the one that waits for the
      workers are points of their code; [AsyncWriter.astep] runs one of them up
      to its next operation on what they share. The invariant of [AsyncInv] says
      where each block is on its way through the two pools; each of the next
      files shows that the steps of one goroutine keep it. Once the writer stops,
      either an error is on its way to the caller, who cannot miss it, or the
      output is complete and nobody touches it any more ([AsyncOut.bad],
      [AsyncOut.good]). So whatever the interleaving is, a session that succeeds
      leaves the file that a synchronous one leaves ([async_session_file]).
    - [AsyncLive], [AsyncAwake], [AsyncSettle], [AsyncMoves] (xz/writer.go): the
      asynchronous writer does not deadlock ([async_never_stuck]). [AsyncLive] keeps
      the books while the writer runs: who is inside which call of a pool, that no
      pipe is lost, that there are as many workers as pipes may be made.
      [AsyncAwake] shows that then not everybody sleeps: the block that the writer
      waits for is in the queue, and a worker is free for it, or a worker has it,
      and its index is let through. [AsyncSettle] has the little that holds in every
      state, also after an error, and that is enough for the caller to come back.
    - [PoolWork], [AsyncCustody], [AsyncCaller], [AsyncCost], [AsyncFinite]
      (xz/writer.go): every run of the asynchronous writer is finite
      ([async_terminates]). [AsyncCost.cost] bounds the work that a state still
      allows: the bytes to write, the ready pipes, the points of the goroutines and
      how often they may go to sleep. Each step lowers it, or a goroutine that was
      woken in vain goes back to sleep, which lowers the number of woken ones. It
      rests on two invariants of all states, failed ones included: the pipe that a
      goroutine works on is active and its own ([AsyncCustody]), and a pipe with
      room has room when the caller comes to fill it ([AsyncCaller]). With
      [async_never_stuck], every session comes to its end.
    - [XzReader], [ReaderParse], [ReaderSession] (xz/reader.go): [parsed] is the
      grammar of xz files as a relation on the bytes consumed, the bytes produced
      and a phase; [Read] refines it ([xz_reader_parses]).
    - [FileParse] (xz/writer.go, xz/reader.go): the writer and the reader together.
      The file of a session that succeeded, in either mode, is [parsed] to its end,
      and its blocks hold what was written ([xz_roundtrip]); the laws of
      [LiblzmaDecodes] say that each decoder of liblzma undoes its encoder, and
      [ExactLzma] is a library that satisfies them.
    - [SeekIndex] (xz/index.go, xz/seek_reader.go): decoding of the indexes of a
      file, which as written always fails on a file that is not empty.
    - [Xzpipe] (cmd/xzpipe.go): the command, from its arguments on, with
      [flag.FlagSet.Parse] and [io.Copy]. Compression is a session of the
      asynchronous writer; it ends, and leaves the xz file of the standard input
      ([xzpipe_compresses]). Decompression as written never ends
      ([decompress_hangs]).

    This file has what all of them share: the values of Go, the monad with its
    rules, [extends] (more fuel changes nothing), and lemmas on lists and integers.

    ** Fuel

    Loops take the fuel that is left. [Process] and [ProcessPipe] have theorems
    that some fuel is enough ([StreamTerm.Process_terminates], [PipePump.pipe_fuel]);
    [WriterBlock.block_fuel] and [WriterSync.write_fuel] are enough for a block
    and for the loop of [Write]; the literal encoder computes its own.
    [extends] lifts a result to any larger fuel.

    ** Not modelled

    In the asynchronous writer the encoding of a block is one step, taken when its
    input is complete (or, when it fails, at any time before); the code begins
    earlier and waits for the bytes inside [ProcessPipe]. The asynchronous mode of
    the reader is empty in the source, and its unused methods are left out: nothing
    calls them, and nothing makes the pools and channels that they use. A caller of
    the asynchronous writer gives up at the first error: the [Close] that
    [cmd/xzpipe.go] still makes then, before its panic, is left out. The finalizers
    of the runtime are calls of [End] at any time in [LibIndex], and otherwise left
    out. Memory exhaustion is the failing allocation that liblzma reports. *)

From Stdlib Require Export ZArith Lia String.
From stdpp Require Export base option numbers list gmap strings.

#[global] Open Scope Z_scope.
#[global] Open Scope list_scope.

(** * Go values *)

(** A Go byte is kept as an integer; [is_byte] says that it is in range. *)
Definition is_byte (b : Z) : Prop := 0 <= b < 256.

(** [len(s)] of a Go slice or string, as a Go [int]. *)
Definition zlen {A} (l : list A) : Z := Z.of_nat (length l).

(** [s[i]] and [s[i] = x]: [None] when the index is out of range. *)
Definition zget {A} (l : list A) (i : Z) : option A :=
  if 0 <=? i then l !! Z.to_nat i else None.
Definition zset {A} (l : list A) (i : Z) (x : A) : option (list A) :=
  if (0 <=? i) && (i <? zlen l) then Some (<[Z.to_nat i := x]> l) else None.
(** [s[i:]] and [s[:i]] on a slice whose capacity is its length. *)
Definition zdrop {A} (l : list A) (i : Z) : option (list A) :=
  if (0 <=? i) && (i <=? zlen l) then Some (drop (Z.to_nat i) l) else None.
Definition ztake {A} (l : list A) (i : Z) : option (list A) :=
  if (0 <=? i) && (i <=? zlen l) then Some (take (Z.to_nat i) l) else None.

(** [copy(dst[off:], src)] once the offset was checked: as many bytes as fit. *)
Definition overwrite {A} (l : list A) (off : Z) (bs : list A) : list A :=
  take (Z.to_nat off) l ++ bs ++ drop (Z.to_nat off + length bs) l.

(** Conversions between Go's and C's integer types, with the wrap-around of
    the language: [int]/[int64] are 64-bit two's complement. *)
Definition int64 (z : Z) : Z := (z + 2 ^ 63) mod 2 ^ 64 - 2 ^ 63.
Definition uint8 (z : Z) : Z := z mod 2 ^ 8.
Definition uint16 (z : Z) : Z := z mod 2 ^ 16.
Definition uint32 (z : Z) : Z := z mod 2 ^ 32.
Definition uint64 (z : Z) : Z := z mod 2 ^ 64.

(** Go's [error] interface: the standard library's sentinel errors, a
    liblzma status code wrapped as [lib.Error], or an error that the user's
    reader or writer made up. [nil] is [None]. *)
Inductive goerr : Type :=
| EOF
| ErrUnexpectedEOF
| ErrShortWrite
| ErrClosedPipe
| LibError (code : Z)
| OtherErr (n : N).

Abbreviation error := (option goerr).
Abbreviation nil_err := (@None goerr).

#[export] Instance goerr_eq_dec : EqDecision goerr.
Proof. solve_decision. Defined.

(** Addresses of objects. *)
Abbreviation loc := positive.

(** What a Go [panic] carries: an [error] value ([panic(nil)] included), a
    string, or a run-time error of the language. *)
Inductive rterr : Type := IndexOutOfRange | NilDereference | NilMapWrite | UseAfterFree.

Inductive panicval : Type :=
| PErr (e : error)
| PStr (s : string)
| PRun (r : rterr).

#[export] Instance rterr_eq_dec : EqDecision rterr.
Proof. solve_decision. Defined.
#[export] Instance panicval_eq_dec : EqDecision panicval.
Proof. solve_decision. Defined.

(** * The state-and-panic monad

    A Go function body is a function of the state it can reach. It returns,
    panics (the state keeps what was done before the panic), or, for a loop
    given too few iterations, runs out of fuel. *)
Inductive outcome (A : Type) : Type :=
| Ret (a : A)
| Pan (p : panicval)
| NoFuel.
Arguments Ret {A} a.
Arguments Pan {A} p.
Arguments NoFuel {A}.

Definition M (S A : Type) : Type := S -> outcome A * S.

#[export] Instance M_ret S : MRet (M S) := fun A a s => (Ret a, s).
#[export] Instance M_bind S : MBind (M S) := fun A B k m s =>
  match m s with
  | (Ret a, s') => k a s'
  | (Pan p, s') => (Pan p, s')
  | (NoFuel, s') => (NoFuel, s')
  end.

Definition panic {S A} (p : panicval) : M S A := fun s => (Pan p, s).
Definition no_fuel {S A} : M S A := fun s => (NoFuel, s).
Definition get {S} : M S S := fun s => (Ret s, s).
Definition put {S} (s : S) : M S unit := fun _ => (Ret tt, s).
Definition modify {S} (f : S -> S) : M S unit := fun s => (Ret tt, f s).

(** Run a computation on a part of the state. *)
Definition zoom {S T A} (proj : S -> T) (inj : T -> S -> S) (m : M T A) : M S A :=
  fun s => let '(o, t) := m (proj s) in (o, inj t s).

(** [defer d] before [m]: [d] runs when [m] returns or panics; a panic of [d]
    replaces the outcome. *)
Definition with_defer {S A} (d : M S unit) (m : M S A) : M S A := fun s =>
  match m s with
  | (NoFuel, s') => (NoFuel, s')
  | (o, s') => match d s' with
               | (Ret _, s'') => (o, s'')
               | (Pan p, s'') => (Pan p, s'')
               | (NoFuel, s'') => (NoFuel, s'')
               end
  end.

(** A computation on a local variable. *)
Definition on_local {S B A} (b : B) (m : M B A) : M S (A * B) :=
  fun s => match m b with
           | (Ret a, b') => (Ret (a, b'), s)
           | (Pan p, _) => (Pan p, s)
           | (NoFuel, _) => (NoFuel, s)
           end.

(** A stateless call. *)
Definition call {S A} (o : outcome A) : M S A := fun s => (o, s).

Section monad_lemmas.
Context {S : Type}.

Lemma bind_run {A B} (m : M S A) (k : A -> M S B) s :
  (m ≫= k) s = match m s with
               | (Ret a, s') => k a s'
               | (Pan p, s') => (Pan p, s')
               | (NoFuel, s') => (NoFuel, s')
               end.
Proof. reflexivity. Qed.

Lemma bind_ret {A B} (m : M S A) (k : A -> M S B) s a s' :
  m s = (Ret a, s') -> (m ≫= k) s = k a s'.
Proof. intros H. rewrite bind_run, H. done. Qed.

Lemma bind_bind {A B C} (m : M S A) (f : A -> M S B) (k : B -> M S C) s :
  ((m ≫= f) ≫= k) s = (m ≫= fun a => f a ≫= k) s.
Proof. rewrite !bind_run. by destruct (m s) as [[| |] ?]. Qed.

Lemma bind_local {A B C} (b : B) (m : M B A) (k : A * B -> M S C) s a b' :
  m b = (Ret a, b') -> (on_local b m ≫= k) s = k (a, b') s.
Proof. intros H. rewrite bind_run. unfold on_local. by rewrite H. Qed.

Lemma bind_call {A C} (a : A) (k : A -> M S C) s : (call (Ret a) ≫= k) s = k a s.
Proof. done. Qed.

Lemma bind_get {C} (k : S -> M S C) s : (get ≫= k) s = k s s.
Proof. done. Qed.

Lemma bind_put {C} (k : unit -> M S C) s s' : (put s' ≫= k) s = k tt s'.
Proof. done. Qed.

Lemma bind_mret {A C} (a : A) (k : A -> M S C) s : (mret a ≫= k) s = k a s.
Proof. done. Qed.

Lemma bind_panic {A B} (m : M S A) (k : A -> M S B) s p s' :
  m s = (Pan p, s') -> (m ≫= k) s = (Pan p, s').
Proof. intros H. rewrite bind_run, H. done. Qed.

End monad_lemmas.

(** * Fuel

    [m'] extends [m]: where [m] does not run out of fuel, it does the same. *)
Definition extends {S A} (m m' : M S A) : Prop := forall s, (m s).1 <> NoFuel -> m' s = m s.

Lemma extends_refl {S A} (m : M S A) : extends m m.
Proof. done. Qed.

Lemma extends_no_fuel {S A} (m : M S A) : extends no_fuel m.
Proof. intros s H. by destruct H. Qed.

Lemma extends_bind {S A B} (m m' : M S A) (k k' : A -> M S B) :
  extends m m' -> (forall a, extends (k a) (k' a)) -> extends (m ≫= k) (m' ≫= k').
Proof.
  intros Hm Hk s. rewrite !bind_run. intros H.
  rewrite Hm by (intros E; by destruct (m s) as [[| |] ?]).
  destruct (m s) as [[a|p|] s']; [by apply Hk|done|done].
Qed.

Lemma extends_defer {S A} (d : M S unit) (m m' : M S A) : extends m m' -> extends (with_defer d m) (with_defer d m').
Proof.
  intros Hm s H. unfold with_defer in *.
  by rewrite Hm by (intros E; by destruct (m s) as [[| |] ?]).
Qed.

Lemma extends_run {S A} (m m' : M S A) s o s' : extends m m' -> m s = (o, s') -> o <> NoFuel -> m' s = (o, s').
Proof. intros Hm E Ho. rewrite Hm; by rewrite E. Qed.

(** [fuel] has, for each recursive computation, that more fuel extends it. *)
Create HintDb fuel.
#[export] Hint Resolve le_n_S le_S_n Nat.le_refl : fuel.

(** [extends] along the structure of two bodies. *)
Ltac extends_step :=
  lazymatch goal with
  | |- extends ?m ?m => apply extends_refl
  | |- extends no_fuel _ => apply extends_no_fuel
  | |- extends (_ ≫= _) _ => apply extends_bind; [|intros ?]
  | |- extends (with_defer _ _) _ => apply extends_defer
  | |- extends (match ?x with _ => _ end) _ => destruct x
  | |- extends _ _ => solve [auto with fuel]
  end.
Ltac extends := repeat extends_step.

(** [x] of an [option], or the panic of an index expression. *)
Definition index_or {S A} (o : option A) : M S A :=
  match o with Some a => mret a | None => panic (PRun IndexOutOfRange) end.

(** A run is its outcome and its final state. *)
Lemma run_eta {S A} (m : M S A) s o : (m s).1 = o -> m s = (o, (m s).2).
Proof. intros <-. by destruct (m s). Qed.

Lemma run_unit {A} (m : M unit A) o : (m tt).1 = o -> m tt = (o, tt).
Proof. intros <-. by destruct (m tt) as [? []]. Qed.

(** * Lists and lengths *)

Lemma zlen_nil {A} : zlen (@nil A) = 0.
Proof. done. Qed.

Lemma zlen_cons {A} (x : A) l : zlen (x :: l) = 1 + zlen l.
Proof. unfold zlen. cbn [length]. lia. Qed.

Lemma zlen_app {A} (l k : list A) : zlen (l ++ k) = zlen l + zlen k.
Proof. unfold zlen. rewrite length_app. lia. Qed.

Lemma zlen_nonneg {A} (l : list A) : 0 <= zlen l.
Proof. unfold zlen. lia. Qed.

Lemma zlen_replicate {A} n (x : A) : zlen (replicate n x) = Z.of_nat n.
Proof. unfold zlen. by rewrite length_replicate. Qed.

Lemma zlen_insert {A} (l : list A) i x : zlen (<[i:=x]> l) = zlen l.
Proof. unfold zlen. by rewrite length_insert. Qed.

Lemma zlen_take {A} (l : list A) n : 0 <= n <= zlen l -> zlen (take (Z.to_nat n) l) = n.
Proof. unfold zlen. intros H. rewrite length_take. lia. Qed.

Lemma zlen_drop {A} (l : list A) n : 0 <= n <= zlen l -> zlen (drop (Z.to_nat n) l) = zlen l - n.
Proof. unfold zlen. intros H. rewrite length_drop. lia. Qed.

Lemma zlen_overwrite {A} (l : list A) off bs :
  0 <= off -> off + zlen bs <= zlen l -> zlen (overwrite l off bs) = zlen l.
Proof.
  unfold overwrite, zlen. intros H1 H2. rewrite !length_app, length_take, length_drop. lia.
Qed.

Lemma take_overwrite {A} (l : list A) off bs :
  0 <= off <= zlen l ->
  take (Z.to_nat off + length bs) (overwrite l off bs) = take (Z.to_nat off) l ++ bs.
Proof.
  intros H. unfold overwrite, zlen in *. rewrite app_assoc, take_app_length'; [done|].
  rewrite length_app, length_take. lia.
Qed.

(** Integers that fit keep their value. *)
Lemma int64_id z : - 2 ^ 63 <= z < 2 ^ 63 -> int64 z = z.
Proof. intros H. unfold int64. rewrite Z.mod_small; lia. Qed.

Lemma uint64_id z : 0 <= z < 2 ^ 64 -> uint64 z = z.
Proof. intros H. by apply Z.mod_small. Qed.

Lemma uint32_id z : 0 <= z < 2 ^ 32 -> uint32 z = z.
Proof. intros H. by apply Z.mod_small. Qed.

Lemma uint16_id z : 0 <= z < 2 ^ 16 -> uint16 z = z.
Proof. intros H. by apply Z.mod_small. Qed.

(** A window at the end of a known prefix. *)
Lemma zdrop_app {A} (pre l : list A) : zdrop (pre ++ l) (zlen pre) = Some l.
Proof.
  unfold zdrop. pose proof (zlen_nonneg pre). pose proof (zlen_nonneg l).
  rewrite (proj2 (Z.leb_le 0 _)) by done.
  rewrite (proj2 (Z.leb_le _ _)) by (rewrite zlen_app; lia). cbn. f_equal.
  apply drop_app_length'. unfold zlen. lia.
Qed.

Lemma overwrite_app {A} (pre old bs post : list A) :
  length old = length bs ->
  overwrite (pre ++ old ++ post) (zlen pre) bs = pre ++ bs ++ post.
Proof.
  intros H. unfold overwrite, zlen. rewrite Nat2Z.id, take_app_length. f_equal. f_equal.
  rewrite <- H, app_assoc, drop_app_length' by (by rewrite length_app). done.
Qed.

Lemma zset_app {A} (pre post : list A) x y :
  zset (pre ++ x :: post) (zlen pre) y = Some (pre ++ y :: post).
Proof.
  unfold zset. pose proof (zlen_nonneg pre). pose proof (zlen_nonneg post).
  rewrite (proj2 (Z.leb_le 0 _)) by done.
  rewrite (proj2 (Z.ltb_lt _ _)) by (rewrite zlen_app, zlen_cons; lia). cbn. f_equal.
  unfold zlen. rewrite Nat2Z.id. by rewrite insert_app_r_alt, Nat.sub_diag by lia.
Qed.

(** * Sums over a map *)

Section msum.
Context {A : Type}.
Implicit Types (f g : positive -> A -> Z) (m : gmap positive A).

Definition msum f m : Z := map_fold (fun k x acc => f k x + acc) 0 m.

Lemma msum_insert f k x m : m !! k = None -> msum f (<[k := x]> m) = f k x + msum f m.
Proof. intros H. unfold msum. rewrite map_fold_insert_L; [done| |done]. intros. lia. Qed.

Lemma msum_delete f k x m : m !! k = Some x -> msum f m = f k x + msum f (delete k m).
Proof. intros H. rewrite <- msum_insert, insert_delete_id by (rewrite ?lookup_delete_eq; done). done. Qed.

Lemma msum_put f k x y m : m !! k = Some x -> msum f (<[k := y]> m) = msum f m - f k x + f k y.
Proof.
  intros H. rewrite (msum_delete f k x m H), <- insert_delete_eq, msum_insert by apply lookup_delete_eq. lia.
Qed.

Lemma msum_ext f g m : (forall k x, m !! k = Some x -> f k x = g k x) -> msum f m = msum g m.
Proof.
  induction m as [|k x m Hk IH] using map_ind; intros H; [done|]. rewrite !msum_insert by done.
  rewrite (H k x) by apply lookup_insert_eq. rewrite IH; [done|]. intros k' x' Hx. apply H.
  rewrite lookup_insert_ne; [done|]. intros ->. congruence.
Qed.

Lemma msum_nonneg f m : (forall k x, 0 <= f k x) -> 0 <= msum f m.
Proof.
  intros H. induction m as [|k x m Hk IH] using map_ind; [done|]. rewrite msum_insert by done. pose proof (H k x). lia.
Qed.

Lemma msum_spread f a n (X : gset positive) m :
  (forall k x, 0 <= f k x) -> (forall k, f k a <= n) -> msum f (gset_to_gmap a X ∪ m) <= msum f m + n * Z.of_nat (size X).
Proof.
  intros Hf Ha. induction X as [|k X Hk IH] using set_ind_L.
  - rewrite gset_to_gmap_empty, map_empty_union, size_empty. lia.
  - rewrite gset_to_gmap_union_singleton, <- insert_union_l, size_union, size_singleton by set_solver.
    set (M := gset_to_gmap a X ∪ m) in *. pose proof (Ha k) as Hak. assert (HM : msum f (<[k := a]> M) <= f k a + msum f M); [|lia].
    destruct (M !! k) as [x|] eqn:Hx; [|by rewrite msum_insert]. rewrite (msum_put f k x a M Hx). pose proof (Hf k x). lia.
Qed.

End msum.

Create HintDb zlen.
#[export] Hint Rewrite @zlen_nil @zlen_cons @zlen_app @zlen_replicate @zlen_insert : zlen.

(** * Tactics *)

(** Compute lengths of lists in the goal and close it by arithmetic. *)
Ltac zlen_lia :=
  autorewrite with zlen;
  repeat match goal with
         | |- context [zlen ?l] => lazymatch goal with
                                  | _ : 0 <= zlen l |- _ => fail
                                  | _ => pose proof (zlen_nonneg l)
                                  end
         end; lia.

(** Unfold the monad's plumbing in the goal. *)
Ltac mrun := cbv [mbind M_bind mret M_ret get put modify panic no_fuel]; cbn.
Ltac mrun_in H := cbv [mbind M_bind mret M_ret get put modify panic no_fuel] in H; cbn in H.
