(* ===== verification/Bufpipe.v ===== *)
(** Byte slices of Go, and the interface of [golib/bufpipe]. The package is
    not part of the repository: its type and its methods are parameters, the
    class [Bufpipe], and what the code relies on is the class [BufpipeSpec]. *)

From S2P Require Import Prelude.

(** * Byte slices

    A slice is a window onto a backing array that starts at the window and
    ends at the slice's capacity. *)
Record slice : Type := Slice { s_arr : list Z; s_len : Z }.

Definition slice_cap (s : slice) : Z := zlen (s_arr s).
Definition slice_bytes (s : slice) : list Z := take (Z.to_nat (s_len s)) (s_arr s).
Definition slice_wf (s : slice) : Prop := 0 <= s_len s <= slice_cap s.

(** [make([]byte, n)] *)
Definition make_slice (n : Z) : slice := Slice (replicate (Z.to_nat n) 0) n.

(** [s[:n]] *)
Definition reslice (s : slice) (n : Z) : option slice :=
  if bool_decide (0 <= n <= slice_cap s) then Some (Slice (s_arr s) n) else None.

(** * The interface *)

(** What [ReadSlices] returns: the two parts of the readable bytes and an
    error. [WriteSlices] returns two windows of the free space; the model keeps
    their lengths, and [bp_Poke] is what the memory becomes when the holder of
    the first window writes bytes at its beginning. [bp_Store] is the same for
    the slice that [Buffer] returns, at an offset. *)
Class Bufpipe : Type := {
  BufferPipe : Type;
  LineMono : Z;
  LineDual : Z;
  RingPoll : Z;
  RingBlock : Z;
  NewBufferPipe : slice -> Z -> BufferPipe;
  bp_Mode : BufferPipe -> Z;
  bp_Capacity : BufferPipe -> Z;
  bp_Buffer : BufferPipe -> slice;
  bp_Pointers : BufferPipe -> Z * Z;
  bp_Length : BufferPipe -> Z;
  bp_Closed : BufferPipe -> bool;
  bp_ReadSlices : BufferPipe -> list Z * list Z * error;
  bp_WriteSlices : BufferPipe -> Z * Z * error;
  bp_ReadMark : BufferPipe -> Z -> BufferPipe;
  bp_WriteMark : BufferPipe -> Z -> BufferPipe;
  bp_Write : BufferPipe -> list Z -> (Z * error) * BufferPipe;
  bp_Rollback : BufferPipe -> BufferPipe;
  bp_Reset : BufferPipe -> BufferPipe;
  bp_Close : BufferPipe -> BufferPipe;
  bp_Poke : BufferPipe -> list Z -> BufferPipe;
  bp_Store : BufferPipe -> Z -> list Z -> BufferPipe;
  (** The methods the code also calls on a nil [*BufferPipe]. *)
  bp_nil_Length : Z;
  bp_nil_ReadSlices : list Z * list Z * error;
  bp_nil_WriteSlices : Z * Z * error;
}.

(** The bytes that were written and not read yet. *)
Definition bp_Data {BP : Bufpipe} (p : BufferPipe) : list Z :=
  let '(lo, hi, _) := bp_ReadSlices p in lo ++ hi.

(** For a pipe of a linear mode: the array, and what was written into it
    since the last [Reset]. *)
Definition bp_array {BP : Bufpipe} (p : BufferPipe) : list Z := s_arr (bp_Buffer p).
Definition bp_rdPtr {BP : Bufpipe} (p : BufferPipe) : Z := (bp_Pointers p).1.
Definition bp_wrPtr {BP : Bufpipe} (p : BufferPipe) : Z := (bp_Pointers p).2.
Definition bp_Written {BP : Bufpipe} (p : BufferPipe) : list Z :=
  take (Z.to_nat (bp_wrPtr p)) (bp_array p).

(** The linear modes: one end writes and the other reads, without wrapping. *)
Definition is_line {BP : Bufpipe} (m : Z) : Prop := m = LineMono \/ m = LineDual.

(** Documented behaviour. *)
Class BufpipeSpec {BP : Bufpipe} : Prop := {
  modes_distinct : NoDup [LineMono; LineDual; RingPoll; RingBlock];

  (* A pipe created over a slice has its length as its capacity and keeps its mode. *)
  new_mode s m : bp_Mode (NewBufferPipe s m) = m;
  new_capacity s m : slice_wf s -> bp_Capacity (NewBufferPipe s m) = s_len s;
  reset_mode p : bp_Mode (bp_Reset p) = bp_Mode p;
  reset_capacity p : bp_Capacity (bp_Reset p) = bp_Capacity p;
  close_mode p : bp_Mode (bp_Close p) = bp_Mode p;
  close_capacity p : bp_Capacity (bp_Close p) = bp_Capacity p;
  readmark_mode p k : bp_Mode (bp_ReadMark p k) = bp_Mode p;
  readmark_capacity p k : bp_Capacity (bp_ReadMark p k) = bp_Capacity p;
  readmark_closed p k : bp_Closed (bp_ReadMark p k) = bp_Closed p;
  writemark_mode p k : bp_Mode (bp_WriteMark p k) = bp_Mode p;
  writemark_capacity p k : bp_Capacity (bp_WriteMark p k) = bp_Capacity p;
  poke_mode p bs : bp_Mode (bp_Poke p bs) = bp_Mode p;
  poke_capacity p bs : bp_Capacity (bp_Poke p bs) = bp_Capacity p;
  (* Bytes stored through [Buffer] change the memory only. *)
  store_mode p off bs : bp_Mode (bp_Store p off bs) = bp_Mode p;
  store_closed p off bs : bp_Closed (bp_Store p off bs) = bp_Closed p;

  (* The methods accept a nil receiver: an empty pipe. *)
  nil_length : bp_nil_Length = 0;
  nil_read_slices : bp_nil_ReadSlices.1 = ([], []);
  nil_write_slices : bp_nil_WriteSlices.1 = (0, 0);

  (* A ring in polling mode: [ReadSlices] and [WriteSlices] show the readable
     bytes and the free space, the first window is empty only if there is
     none, and the marks move bytes in and out in order. *)
  ring_new_data s : bp_Data (NewBufferPipe s RingPoll) = [];
  ring_length p : bp_Mode p = RingPoll -> bp_Length p = zlen (bp_Data p);
  ring_read_first p : bp_Mode p = RingPoll -> bp_Data p <> [] -> (bp_ReadSlices p).1.1 <> [];
  ring_write_first p : bp_Mode p = RingPoll ->
    0 <= (bp_WriteSlices p).1.1 /\
    zlen (bp_Data p) + (bp_WriteSlices p).1.1 <= bp_Capacity p /\
    (zlen (bp_Data p) < bp_Capacity p -> 0 < (bp_WriteSlices p).1.1);
  ring_read_mark p k : bp_Mode p = RingPoll -> 0 <= k <= zlen (bp_Data p) ->
    bp_Data (bp_ReadMark p k) = drop (Z.to_nat k) (bp_Data p);
  ring_write_mark p bs k : bp_Mode p = RingPoll -> 0 <= k <= zlen bs ->
    zlen bs <= (bp_WriteSlices p).1.1 ->
    bp_Data (bp_WriteMark (bp_Poke p bs) k) = bp_Data p ++ take (Z.to_nat k) bs;

  (* A line: written until it is full or closed, then read. What is read
     before the close, in the dual mode, is not part of these laws. *)
  line_ptrs p : is_line (bp_Mode p) -> 0 <= bp_rdPtr p <= bp_wrPtr p /\ bp_wrPtr p <= bp_Capacity p;
  line_buffer p : is_line (bp_Mode p) -> zlen (bp_array p) = bp_Capacity p /\ s_len (bp_Buffer p) = bp_Capacity p;
  line_length p : is_line (bp_Mode p) -> bp_Length p = bp_wrPtr p - bp_rdPtr p;
  line_new s m : is_line m ->
    bp_Pointers (NewBufferPipe s m) = (0, 0) /\ bp_Closed (NewBufferPipe s m) = false;
  line_reset p : is_line (bp_Mode p) -> bp_Pointers (bp_Reset p) = (0, 0) /\ bp_Closed (bp_Reset p) = false;
  line_close p : is_line (bp_Mode p) -> bp_Pointers (bp_Close p) = bp_Pointers p /\
    bp_array (bp_Close p) = bp_array p /\ bp_Closed (bp_Close p) = true;
  line_write_closed p bs : is_line (bp_Mode p) -> bp_Closed p = true ->
    bp_Write p bs = ((0, Some ErrClosedPipe), p);
  line_write p bs : is_line (bp_Mode p) -> bp_Closed p = false ->
    let '((n, err), p') := bp_Write p bs in
    n = Z.min (zlen bs) (bp_Capacity p - bp_wrPtr p) /\
    err = (if n <? zlen bs then Some ErrShortWrite else None) /\
    bp_Written p' = bp_Written p ++ take (Z.to_nat n) bs /\
    bp_Pointers p' = (bp_rdPtr p, bp_wrPtr p + n) /\
    bp_Mode p' = bp_Mode p /\ bp_Capacity p' = bp_Capacity p /\ bp_Closed p' = false;
  line_read_slices p : is_line (bp_Mode p) -> bp_Closed p = true ->
    bp_ReadSlices p = (drop (Z.to_nat (bp_rdPtr p)) (bp_Written p), [],
                       if bp_rdPtr p =? bp_wrPtr p then Some EOF else None);
  line_read_mark p k : is_line (bp_Mode p) -> 0 <= k <= bp_wrPtr p - bp_rdPtr p ->
    bp_Pointers (bp_ReadMark p k) = (bp_rdPtr p + k, bp_wrPtr p) /\
    bp_array (bp_ReadMark p k) = bp_array p;
  line_write_slices p : is_line (bp_Mode p) -> bp_Closed p = false ->
    bp_WriteSlices p = (bp_Capacity p - bp_wrPtr p, 0,
                        if bp_wrPtr p =? bp_Capacity p then Some ErrShortWrite else None);
  line_poke p bs : is_line (bp_Mode p) -> bp_wrPtr p + zlen bs <= bp_Capacity p ->
    bp_Pointers (bp_Poke p bs) = bp_Pointers p /\
    bp_array (bp_Poke p bs) = overwrite (bp_array p) (bp_wrPtr p) bs /\
    bp_Closed (bp_Poke p bs) = bp_Closed p;
  line_write_mark p k : is_line (bp_Mode p) -> 0 <= k <= bp_Capacity p - bp_wrPtr p ->
    bp_Pointers (bp_WriteMark p k) = (bp_rdPtr p, bp_wrPtr p + k) /\
    bp_array (bp_WriteMark p k) = bp_array p /\ bp_Closed (bp_WriteMark p k) = bp_Closed p;
  line_store p off bs : bp_Mode p = LineMono -> 0 <= off -> off + zlen bs <= bp_Capacity p ->
    bp_Pointers (bp_Store p off bs) = bp_Pointers p /\
    bp_array (bp_Store p off bs) = overwrite (bp_array p) off bs /\
    bp_Closed (bp_Store p off bs) = bp_Closed p /\
    bp_Mode (bp_Store p off bs) = LineMono /\ bp_Capacity (bp_Store p off bs) = bp_Capacity p;
  line_rollback p : bp_Mode p = LineMono -> bp_rdPtr p = 0 ->
    bp_Pointers (bp_Rollback p) = (0, 0) /\ bp_array (bp_Rollback p) = bp_array p /\
    bp_Closed (bp_Rollback p) = bp_Closed p /\
    bp_Mode (bp_Rollback p) = LineMono /\ bp_Capacity (bp_Rollback p) = bp_Capacity p;

  (* The contract of io.Writer: a count within the slice. *)
  pipe_write_count p bs : 0 <= (bp_Write p bs).1.1 <= zlen bs;
}.
Arguments BufpipeSpec : clear implicits.

(** * Slices *)

Lemma make_slice_wf n : 0 <= n -> slice_wf (make_slice n).
Proof. intros H. unfold slice_wf, slice_cap, zlen; cbn. rewrite length_replicate. lia. Qed.

Lemma reslice_wf s n s' : reslice s n = Some s' -> slice_wf s' /\ s_len s' = n.
Proof. unfold reslice. case_bool_decide; [intros [= <-]|done]. done. Qed.

Lemma reslice_fits s n : 0 <= n <= slice_cap s -> is_Some (reslice s n).
Proof. intros H. unfold reslice. rewrite bool_decide_eq_true_2 by done. eauto. Qed.

(** * A concrete pipe

    An array with its two pointers, enough to run the code that uses the
    interface on concrete inputs. A ring keeps its unread bytes at the front of
    the array, so it has a single window. The observers clip the fields, so
    that every value of the type behaves like a pipe. [fault] is the error the
    pipe was closed with. *)
Module Plain.

Record t : Type := T {
  buf : list Z; size : nat; mode : Z; is_closed : bool; rdp : nat; wrp : nat; fault : error }.

Definition ring (p : t) : bool := 2 <=? mode p.
Definition fill (bs : list Z) (n : nat) : list Z := take n (bs ++ replicate n 0).
Definition arr (p : t) : list Z := fill (buf p) (size p).
Definition wr (p : t) : nat := Nat.min (wrp p) (size p).
Definition rd (p : t) : nat := if ring p then 0%nat else Nat.min (rdp p) (wr p).
Definition data (p : t) : list Z := drop (rd p) (take (wr p) (arr p)).
Definition room (p : t) : nat := (size p - wr p)%nat.
Definition full_err (p : t) : error :=
  if is_closed p then Some ErrClosedPipe
  else if Nat.eqb (wr p) (size p) then Some ErrShortWrite else None.
Definition mark_read (p : t) (k : Z) : t :=
  if ring p then T (drop (Z.to_nat k) (data p)) (size p) (mode p) (is_closed p)
                   0 (wr p - Z.to_nat k) (fault p)
  else T (buf p) (size p) (mode p) (is_closed p) (rd p + Z.to_nat k) (wr p) (fault p).
Definition store (p : t) (off : Z) (bs : list Z) : t :=
  T (overwrite (arr p) off bs) (size p) (mode p) (is_closed p) (rd p) (wr p) (fault p).
Definition poke (p : t) (bs : list Z) : t := store p (Z.of_nat (wr p)) bs.
Definition mark_write (p : t) (k : Z) : t :=
  T (buf p) (size p) (mode p) (is_closed p) (rd p) (wr p + Z.to_nat k) (fault p).
Definition write (p : t) (bs : list Z) : (Z * error) * t :=
  if is_closed p then ((0, Some ErrClosedPipe), p)
  else let k := Z.min (zlen bs) (Z.of_nat (room p)) in
       ((k, if k <? zlen bs then Some ErrShortWrite else None),
        mark_write (poke p (take (Z.to_nat k) bs)) k).

#[export] Instance bufpipe : Bufpipe := {
  BufferPipe := t;
  LineMono := 0;
  LineDual := 1;
  RingPoll := 2;
  RingBlock := 3;
  NewBufferPipe s m := T (s_arr s) (Z.to_nat (s_len s)) m false 0 0 None;
  bp_Mode := mode;
  bp_Capacity p := Z.of_nat (size p);
  bp_Buffer p := Slice (arr p) (Z.of_nat (size p));
  bp_Pointers p := (Z.of_nat (rd p), Z.of_nat (wr p));
  bp_Length p := zlen (data p);
  bp_Closed := is_closed;
  bp_ReadSlices p := (data p, [], if Nat.eqb (rd p) (wr p) && is_closed p then Some EOF else None);
  bp_WriteSlices p := (Z.of_nat (room p), 0, full_err p);
  bp_ReadMark := mark_read;
  bp_WriteMark := mark_write;
  bp_Write := write;
  bp_Rollback p := T (buf p) (size p) (mode p) (is_closed p) (rd p) 0 (fault p);
  bp_Reset p := T (buf p) (size p) (mode p) false 0 0 None;
  bp_Close p := T (buf p) (size p) (mode p) true (rd p) (wr p) (fault p);
  bp_Poke := poke;
  bp_Store := store;
  bp_nil_Length := 0;
  bp_nil_ReadSlices := ([], [], None);
  bp_nil_WriteSlices := (0, 0, None);
}.

Lemma fill_length bs n : length (fill bs n) = n.
Proof. unfold fill. rewrite length_take, length_app, length_replicate. lia. Qed.

Lemma fill_id bs n : length bs = n -> fill bs n = bs.
Proof. intros <-. unfold fill. by rewrite take_app_length. Qed.

Lemma arr_length p : length (arr p) = size p.
Proof. apply fill_length. Qed.

Lemma wr_le p : (rd p <= wr p <= size p)%nat.
Proof. unfold rd, wr. destruct (ring p); lia. Qed.

Lemma data_length p : length (data p) = (wr p - rd p)%nat.
Proof. unfold data. rewrite length_drop, length_take, arr_length. pose proof (wr_le p). lia. Qed.

Lemma store_arr p off bs :
  0 <= off -> off + zlen bs <= Z.of_nat (size p) -> arr (store p off bs) = overwrite (arr p) off bs.
Proof.
  intros H1 H2. change (fill (overwrite (arr p) off bs) (size p) = overwrite (arr p) off bs).
  apply fill_id.
  apply Nat2Z.inj. pose proof (arr_length p) as Ha.
  change (zlen (overwrite (arr p) off bs) = Z.of_nat (size p)).
  rewrite zlen_overwrite; unfold zlen; rewrite ?Ha; done.
Qed.

Lemma wr_id p b m c r w e : (w <= size p)%nat -> wr (T b (size p) m c r w e) = w.
Proof. unfold wr; cbn. lia. Qed.

Lemma data_ring p : mode p = 2 -> data p = take (wr p) (arr p).
Proof. intros H. unfold data, rd, ring. rewrite H. by rewrite drop_0. Qed.

Lemma data_mark_read p k :
  mode p = 2 -> 0 <= k <= zlen (data p) -> data (mark_read p k) = drop (Z.to_nat k) (data p).
Proof.
  intros Hm. unfold zlen. rewrite data_length. intros Hk.
  assert (Hr : rd p = 0%nat) by (unfold rd, ring; by rewrite Hm).
  unfold mark_read. assert (ring p = true) as -> by (unfold ring; by rewrite Hm).
  rewrite data_ring by done. pose proof (wr_le p) as Hw.
  rewrite wr_id by lia. unfold arr at 1, fill; cbn [buf size].
  rewrite take_take, take_app_le, take_ge; [done| |];
    rewrite length_drop, data_length; lia.
Qed.

Lemma store_data p bs k :
  mode p = 2 -> 0 <= k <= zlen bs -> zlen bs <= Z.of_nat (room p) ->
  data (mark_write (poke p bs) k) = data p ++ take (Z.to_nat k) bs.
Proof.
  intros Hm Hk Hr. unfold zlen, room in *. pose proof (wr_le p) as Hw.
  rewrite !data_ring by done. unfold poke.
  change (arr (mark_write (store p (Z.of_nat (wr p)) bs) k)) with (arr (store p (Z.of_nat (wr p)) bs)).
  rewrite store_arr by (unfold zlen; lia).
  assert (wr (mark_write (store p (Z.of_nat (wr p)) bs) k) = (wr p + Z.to_nat k)%nat) as ->
    by (unfold mark_write, store, wr in *; cbn; lia).
  unfold overwrite. rewrite Nat2Z.id.
  rewrite take_app_ge by (rewrite length_take, arr_length; lia).
  f_equal. rewrite length_take, arr_length, take_app_le by lia. f_equal. lia.
Qed.

Lemma mark_write_ptrs p k :
  0 <= k <= Z.of_nat (size p) - Z.of_nat (wr p) -> ring p = false ->
  rd (mark_write p k) = rd p /\ Z.of_nat (wr (mark_write p k)) = Z.of_nat (wr p) + k.
Proof.
  intros Hk Hr. pose proof (wr_le p). unfold mark_write, rd, wr, ring in *; cbn. rewrite Hr in *.
  unfold wr; cbn. lia.
Qed.

Lemma store_ptrs p off bs : ring p = false -> rd (store p off bs) = rd p /\ wr (store p off bs) = wr p.
Proof.
  intros Hr. pose proof (wr_le p). unfold store, rd, wr, ring in *; cbn. rewrite Hr in *.
  unfold wr; cbn. lia.
Qed.

Lemma write_line p bs :
  ring p = false -> is_closed p = false ->
  let '((n, err), p') := write p bs in
  n = Z.min (zlen bs) (Z.of_nat (size p) - Z.of_nat (wr p)) /\
  err = (if n <? zlen bs then Some ErrShortWrite else None) /\
  take (wr p') (arr p') = take (wr p) (arr p) ++ take (Z.to_nat n) bs /\
  (Z.of_nat (rd p'), Z.of_nat (wr p')) = (Z.of_nat (rd p), Z.of_nat (wr p) + n) /\
  mode p' = mode p /\ size p' = size p /\ is_closed p' = false.
Proof.
  intros Hr Hc. unfold write. rewrite Hc. pose proof (wr_le p) as Hw. unfold room.
  rewrite Nat2Z.inj_sub by lia. set (n := Z.min _ _).
  assert (Hn : 0 <= n <= Z.of_nat (size p) - Z.of_nat (wr p)) by (unfold n, zlen; lia).
  assert (Hl : length (take (Z.to_nat n) bs) = Z.to_nat n)
    by (rewrite length_take; unfold n, zlen in *; lia).
  set (q := poke p (take (Z.to_nat n) bs)).
  destruct (store_ptrs p (Z.of_nat (wr p)) (take (Z.to_nat n) bs) Hr) as [E1 E2].
  fold (poke p (take (Z.to_nat n) bs)) in E1, E2. fold q in E1, E2.
  destruct (mark_write_ptrs q n) as [F1 F2]; [unfold q, poke, store at 1; cbn; lia|done|].
  split; [done|]. split; [done|]. split_and!; try done; [|congruence].
  change (arr (mark_write q n)) with (arr q). unfold q, poke.
  rewrite store_arr by (unfold zlen; lia).
  assert (wr (mark_write q n) = (Z.to_nat (Z.of_nat (wr p)) + length (take (Z.to_nat n) bs))%nat) as E
    by lia.
  unfold q, poke in E. rewrite E, take_overwrite; [by rewrite Nat2Z.id|].
  unfold zlen. rewrite arr_length. lia.
Qed.

Lemma line_ring p : mode p = 0 \/ mode p = 1 -> ring p = false.
Proof. unfold ring. by intros [-> | ->]. Qed.

Lemma mark_read_line p k :
  ring p = false -> 0 <= k <= Z.of_nat (wr p) - Z.of_nat (rd p) ->
  Z.of_nat (rd (mark_read p k)) = Z.of_nat (rd p) + k /\ wr (mark_read p k) = wr p.
Proof.
  intros Hr Hk. pose proof (wr_le p). unfold mark_read. rewrite Hr.
  unfold wr, rd, ring in *; cbn. rewrite Hr in *. unfold wr in *; cbn. lia.
Qed.

Lemma eqb_inj a b : (Z.of_nat a =? Z.of_nat b) = Nat.eqb a b.
Proof. apply eq_true_iff_eq. rewrite Z.eqb_eq, Nat.eqb_eq. lia. Qed.

(** Unfold the instance of a law and open its hypotheses. *)
Ltac law := intros; unfold bp_Data, bp_Written, bp_rdPtr, bp_wrPtr, bp_array in *;
  cbn [BufferPipe LineMono LineDual RingPoll RingBlock NewBufferPipe bp_Mode bp_Capacity bp_Buffer
       bp_Pointers bp_Length bp_Closed bp_ReadSlices bp_WriteSlices bp_ReadMark bp_WriteMark bp_Write
       bp_Rollback bp_Reset bp_Close bp_Poke bp_Store bufpipe fst snd s_arr s_len] in *;
  rewrite ?app_nil_r in *.

#[export] Instance bufpipe_spec : BufpipeSpec bufpipe.
Proof.
  split; try done.
  all: try (intros p k; cbn; unfold mark_read; by destruct (ring p)).
  all: law; try match goal with
    | H : is_line (mode ?p) |- _ => pose proof (line_ring p H)
    | H : mode ?p = 0 |- _ => pose proof (line_ring p (or_introl H)) end;
    try match goal with p : t |- _ => pose proof (wr_le p) end.
  - repeat (apply NoDup_cons; split; [set_solver|]). apply NoDup_nil_2.
  - match goal with H : slice_wf _ |- _ => destruct H end. cbn. lia.
  - done.
  - done.
  - unfold zlen. rewrite data_length. unfold room. assert (rd p = 0%nat); [|split_and!; lia].
    unfold rd, ring. match goal with H : mode p = 2 |- _ => by rewrite H end.
  - by apply data_mark_read.
  - by apply store_data.
  - lia.
  - unfold zlen. by rewrite arr_length.
  - unfold zlen. rewrite data_length. lia.
  - split; [|done]. unfold rd, ring, wr. cbn. by destruct (2 <=? m).
  - split; [|done]. unfold rd, ring, wr. cbn. by destruct (2 <=? mode p).
  - split_and!; try done. f_equal; f_equal; unfold rd, wr, ring in *; cbn;
      match goal with H : (2 <=? mode p) = false |- _ => rewrite H in * end; unfold wr; cbn; lia.
  - unfold write. by case_match.
  - match goal with Hc : is_closed p = false, Hr : ring p = false |- _ =>
      pose proof (write_line p bs Hr Hc) as Hwl end.
    destruct (write p bs) as [[n err] p']. rewrite !Nat2Z.id.
    destruct Hwl as (E1 & E2 & E3 & E4 & E5 & E6 & E7). rewrite E5, E6. split_and!; done.
  - rewrite !Nat2Z.id, eqb_inj. unfold data.
    match goal with Hc : is_closed p = true |- _ => rewrite Hc, andb_true_r; done end.
  - match goal with Hk : 0 <= k <= _, Hr : ring p = false |- _ =>
      destruct (mark_read_line p k Hr Hk) as [E1 E2]; rewrite E1, E2; unfold mark_read; by rewrite Hr end.
  - unfold room, full_err. rewrite Nat2Z.inj_sub, eqb_inj by lia.
    match goal with Hc : is_closed p = false |- _ => by rewrite Hc end.
  - match goal with Hr : ring p = false |- _ =>
      destruct (store_ptrs p (Z.of_nat (wr p)) bs Hr) as [E1 E2] end.
    unfold poke. rewrite E1, E2. split_and!; [done| |done]. apply store_arr; lia.
  - match goal with Hr : ring p = false, Hk : 0 <= k <= _ |- _ =>
      destruct (mark_write_ptrs p k Hk Hr) as [E1 E2] end.
    by rewrite E1, E2.
  - match goal with Hr : ring p = false |- _ =>
      destruct (store_ptrs p off bs Hr) as [E1 E2] end.
    rewrite E1, E2. split_and!; try done. by apply store_arr.
  - split_and!; try done. unfold rd, ring, wr in *; cbn.
    match goal with H : (2 <=? mode p) = false |- _ => rewrite H end. unfold wr; cbn. f_equal; lia.
  - unfold write. pose proof (zlen_nonneg bs). case_match; cbn; lia.
Qed.

End Plain.
