(* ===== verification/Errs.v ===== *)
(** The interface of [golib/errs], the package the code uses to turn panics
    into error results. It is not part of the repository, so its functions are
    parameters, and [ErrsSpec] is what the code relies on. *)

From S2P Require Import Prelude.

Class Errs : Type := {
  (** [errs.Panic(err)] *)
  errs_Panic : error -> outcome unit;
  (** [errs.Assert(cond, err)] *)
  errs_Assert : bool -> error -> outcome unit;
  (** [errs.Ignore(err, errs...)] *)
  errs_Ignore : error -> list error -> error;
  (** [errs.Match(err, errs...)] *)
  errs_Match : error -> list error -> bool;
  (** [errs.Convert(err, newErr, errs...)] *)
  errs_Convert : error -> error -> list error -> error;
  (** [errs.First(errs...)] *)
  errs_First : list error -> error;
  (** [defer errs.Recover(&err)]: for a panic value and the value that [err]
      has, the value it gets when the panic is stopped, or [None] when the
      panic goes on. *)
  errs_Recover : panicval -> error -> option error;
}.

(** Documented behaviour. *)
Class ErrsSpec (E : Errs) : Prop := {
  Panic_nil : errs_Panic None = Ret tt;
  Panic_err e : errs_Panic (Some e) = Pan (PErr (Some e));
  Assert_true e : errs_Assert true e = Ret tt;
  Assert_false e : errs_Assert false e = Pan (PErr e);
  Ignore_in e es : e ∈ es -> errs_Ignore e es = None;
  Ignore_notin e es : e ∉ es -> errs_Ignore e es = e;
  Match_spec e es : errs_Match e es = true <-> e ∈ es;
  Convert_in e e' es : e ∈ es -> errs_Convert e e' es = e';
  Convert_notin e e' es : e ∉ es -> errs_Convert e e' es = e;
  First_nil : errs_First [] = None;
  First_cons e es : errs_First (e :: es) = match e with Some _ => e | None => errs_First es end;
  Recover_err e cur : errs_Recover (PErr (Some e)) cur = Some (Some e);
  Recover_nil cur : errs_Recover (PErr None) cur = Some cur;
  (** A run-time error goes on as a panic or becomes an error, never nil. *)
  Recover_run r cur : errs_Recover (PRun r) cur <> Some None;
  (** So does a panic with a string. *)
  Recover_str s cur : errs_Recover (PStr s) cur <> Some None;
}.

Create HintDb errs.
#[export] Hint Rewrite @Panic_nil @Panic_err @Assert_true @Assert_false @First_nil @First_cons
  @Recover_err @Recover_nil using typeclasses eauto : errs.

(** [defer errs.Recover(&err)] around a body that returns [(A, error)]. [named]
    reads the named results at the moment of the panic. *)
Definition with_recover {E : Errs} {S A} (named : S -> A) (m : M S (A * error)) : M S (A * error) :=
  fun s => match m s with
           | (Pan p, s') => match errs_Recover p None with
                            | Some e => (Ret (named s', e), s')
                            | None => (Pan p, s')
                            end
           | r => r
           end.

Section lemmas.
Context {E : Errs} {ES : ErrsSpec E}.

Lemma Ignore_nil es : errs_Ignore None es = None.
Proof. destruct (decide (None ∈ es)); [by apply Ignore_in|by apply Ignore_notin]. Qed.

Lemma Ignore_spec e es : errs_Ignore e es = if decide (e ∈ es) then None else e.
Proof. case_decide; [by apply Ignore_in|by apply Ignore_notin]. Qed.

Lemma Convert_spec e e' es : errs_Convert e e' es = if decide (e ∈ es) then e' else e.
Proof. case_decide; [by apply Convert_in|by apply Convert_notin]. Qed.

Lemma Match_eq e es : errs_Match e es = bool_decide (e ∈ es).
Proof.
  apply eq_true_iff_eq. rewrite Match_spec. by rewrite bool_decide_eq_true.
Qed.

Lemma Panic_spec e :
  errs_Panic e = match e with None => Ret tt | Some _ => Pan (PErr e) end.
Proof. destruct e; [apply Panic_err|apply Panic_nil]. Qed.

Lemma Assert_spec c e : errs_Assert c e = if c then Ret tt else Pan (PErr e).
Proof. destruct c; [apply Assert_true|apply Assert_false]. Qed.

Lemma recover_err {S A} (named : S -> A) (m : M S (A * error)) s e s' :
  m s = (Pan (PErr (Some e)), s') -> with_recover named m s = (Ret (named s', Some e), s').
Proof. intros H. unfold with_recover. by rewrite H, Recover_err. Qed.

(** A panic that [errs.Recover] cannot turn into success. *)
Definition error_panic (p : panicval) : Prop := (exists e, p = PErr (Some e)) \/ (exists r, p = PRun r).

(** A panic with anything but a nil error. *)
Lemma Recover_loud p err : p <> PErr None -> errs_Recover p None = Some err -> err <> None.
Proof.
  intros Hp H ->. destruct p as [[e|]|s|r]; [by rewrite Recover_err in H|done|by apply Recover_str in H|by apply Recover_run in H].
Qed.

Lemma recovered_ret {S A} (named : S -> A) (m : M S (A * error)) s a s' :
  with_recover named m s = (Ret (a, None), s') -> (forall p s1, m s = (Pan p, s1) -> error_panic p) ->
  m s = (Ret (a, None), s').
Proof.
  unfold with_recover. destruct (m s) as [[r|p|] s1]; intros H Hp; [done| |done].
  destruct (Hp p s1 eq_refl) as [[e ->]|[r ->]]; [by rewrite Recover_err in H|].
  pose proof (Recover_run r None). destruct (errs_Recover (PRun r) None) as [[e|]|]; [done|congruence|done].
Qed.
End lemmas.

(** * A concrete instance *)
Module PlainErrs.

Fixpoint first (es : list error) : error :=
  match es with
  | [] => None
  | e :: es => match e with Some _ => e | None => first es end
  end.

#[export] Instance errs : Errs := {
  errs_Panic e := match e with None => Ret tt | Some _ => Pan (PErr e) end;
  errs_Assert c e := if c then Ret tt else Pan (PErr e);
  errs_Ignore e es := if decide (e ∈ es) then None else e;
  errs_Match e es := bool_decide (e ∈ es);
  errs_Convert e e' es := if decide (e ∈ es) then e' else e;
  errs_First := first;
  errs_Recover p cur := match p with
                        | PErr (Some e) => Some (Some e)
                        | PErr None => Some cur
                        | _ => None
                        end;
}.

#[export] Instance errs_spec : ErrsSpec errs.
Proof.
  split; intros; cbn; try done; try (by rewrite decide_True by done);
    try (by rewrite decide_False by done). by rewrite bool_decide_eq_true.
Qed.

End PlainErrs.
