(* ===== verification/Pool.v ===== *)
(** [xz/pool.go], the pool of pipes: a mutex and two condition variables guard
    three sets of pipes.

    Every method of [pipePool] runs with the mutex held, so a method is one
    atomic step, or one step per stretch between two [Wait]s. A stretch is a
    computation over [poolst]; [psys] adds the goroutines that are parked in a
    [Wait], and [pstep] is the transition relation of all goroutines. *)

From S2P Require Import Prelude Bufpipe.

(** Names of goroutines. *)
Abbreviation tid := nat.

(** The three sets of a pool, by name. *)
Inductive sel : Type := SFree | SReady | SActive.

#[export] Instance sel_eq_dec : EqDecision sel.
Proof. solve_decision. Defined.

Section pool.
Context {BP : Bufpipe} {D : Type}.

(** * Data *)

Record pipe : Type := Pipe { p_buf : BufferPipe; p_idx : Z; p_data : option D }.

(** [map[int64]*pipe]; [None] is the nil map. *)
Definition pipeSet : Type := option (gmap Z loc).

(** [sync.Cond]: the goroutines parked in [Wait], and those that a [Signal]
    or a [Broadcast] released and that did not retake the mutex yet. *)
Record cond : Type := Cond { parked : list tid; woken : list tid }.

Record pipePool : Type := PipePool {
  len : Z;
  cap : Z;
  closed : bool;
  free : pipeSet;
  ready : pipeSet;
  active : pipeSet;
  wrCond : cond;
  rdCond : cond;
  waitIdx : Z;
  wrWaitCnt : Z;
  rdWaitCnt : Z;
}.

(** The pool with the heap its pipes live in. *)
Record poolst : Type := PoolSt { pp : pipePool; heap : gmap loc pipe }.

(** Choices the language leaves open: which key a [range] over a map visits
    first, and which parked goroutine a [Signal] releases. Every choice of the
    run-time system is some value of this record. *)
Record choice : Type := Choice { ch_key : Z; ch_sig : nat }.

Definition set_len v p := PipePool v (cap p) (closed p) (free p) (ready p) (active p)
  (wrCond p) (rdCond p) (waitIdx p) (wrWaitCnt p) (rdWaitCnt p).
Definition set_cap v p := PipePool (len p) v (closed p) (free p) (ready p) (active p)
  (wrCond p) (rdCond p) (waitIdx p) (wrWaitCnt p) (rdWaitCnt p).
Definition set_closed v p := PipePool (len p) (cap p) v (free p) (ready p) (active p)
  (wrCond p) (rdCond p) (waitIdx p) (wrWaitCnt p) (rdWaitCnt p).
Definition set_free v p := PipePool (len p) (cap p) (closed p) v (ready p) (active p)
  (wrCond p) (rdCond p) (waitIdx p) (wrWaitCnt p) (rdWaitCnt p).
Definition set_ready v p := PipePool (len p) (cap p) (closed p) (free p) v (active p)
  (wrCond p) (rdCond p) (waitIdx p) (wrWaitCnt p) (rdWaitCnt p).
Definition set_active v p := PipePool (len p) (cap p) (closed p) (free p) (ready p) v
  (wrCond p) (rdCond p) (waitIdx p) (wrWaitCnt p) (rdWaitCnt p).
Definition set_wrCond v p := PipePool (len p) (cap p) (closed p) (free p) (ready p) (active p)
  v (rdCond p) (waitIdx p) (wrWaitCnt p) (rdWaitCnt p).
Definition set_rdCond v p := PipePool (len p) (cap p) (closed p) (free p) (ready p) (active p)
  (wrCond p) v (waitIdx p) (wrWaitCnt p) (rdWaitCnt p).
Definition set_waitIdx v p := PipePool (len p) (cap p) (closed p) (free p) (ready p) (active p)
  (wrCond p) (rdCond p) v (wrWaitCnt p) (rdWaitCnt p).
Definition set_wrWaitCnt v p := PipePool (len p) (cap p) (closed p) (free p) (ready p) (active p)
  (wrCond p) (rdCond p) (waitIdx p) v (rdWaitCnt p).
Definition set_rdWaitCnt v p := PipePool (len p) (cap p) (closed p) (free p) (ready p) (active p)
  (wrCond p) (rdCond p) (waitIdx p) (wrWaitCnt p) v.

(** Updates of the pool part and of the heap part of the state. *)
Definition upd (f : pipePool -> pipePool) : M poolst unit :=
  modify (fun s => PoolSt (f (pp s)) (heap s)).
Definition upd_pipe (l : loc) (f : pipe -> pipe) : M poolst unit :=
  modify (fun s => PoolSt (pp s) (alter f l (heap s))).

(** * Condition variables *)

Definition park (t : tid) (c : cond) : cond := Cond (parked c ++ [t]) (woken c).

Definition Signal (ch : choice) (c : cond) : cond :=
  let i := (ch_sig ch mod length (parked c))%nat in
  match parked c !! i with
  | Some t => Cond (delete i (parked c)) (woken c ++ [t])
  | None => c
  end.

Definition Broadcast (c : cond) : cond := Cond [] (woken c ++ parked c).

Definition unwake (t : tid) (c : cond) : cond :=
  Cond (parked c) (filter (fun u => u <> t) (woken c)).

(** * [pipeSet] *)

Definition entries (m : pipeSet) : gmap Z loc := default ∅ m.

(** [p.idx]: Go pointers are valid, so the default is never used. *)
Definition idx_of (h : gmap loc pipe) (l : loc) : Z := default (-1) (p_idx <$> h !! l).

(** [len(m)]. *)
Definition set_size (m : pipeSet) : Z := Z.of_nat (size (entries m)).

Definition remove (h : gmap loc pipe) (m : pipeSet) (p : option loc) : bool * pipeSet :=
  match p with
  | Some l => (bool_decide (is_Some (entries m !! idx_of h l)), delete (idx_of h l) <$> m)
  | None => (false, m)
  end.

(** The first pipe that [range] visits. *)
Definition range_first (ch : choice) (m : gmap Z loc) : option loc :=
  match m !! ch_key ch with
  | Some l => Some l
  | None => snd <$> head (map_to_list m)
  end.

Definition pop (ch : choice) (h : gmap loc pipe) (m : pipeSet) : option loc * pipeSet :=
  match range_first ch (entries m) with
  | Some l => (Some l, delete (idx_of h l) <$> m)
  | None => (None, m)
  end.

(** A write to the nil map panics. *)
Definition push (h : gmap loc pipe) (m : pipeSet) (p : option loc) : outcome pipeSet :=
  match p with
  | None => Ret m
  | Some l => match m with
              | Some g => Ret (Some (<[idx_of h l := l]> g))
              | None => Pan (PRun NilMapWrite)
              end
  end.

Definition close_pipe (p : pipe) : pipe := Pipe (bp_Close (p_buf p)) (p_idx p) (p_data p).

(** [pipeSet.close]: closes every pipe of the set. *)
Definition close_set (m : pipeSet) (h : gmap loc pipe) : gmap loc pipe :=
  foldr (fun l => alter close_pipe l) h (map_to_list (entries m)).*2.

(** * [pipePool]: the operations *)

Definition newPipePool : pipePool :=
  PipePool 0 0 false (Some ∅) (Some ∅) (Some ∅) (Cond [] []) (Cond [] []) (-1) 0 0.

Definition lift {A} (o : outcome A) : M poolst A := fun s => (o, s).

(** [make([]byte, n)] panics on a negative length. *)
Definition go_make (n : Z) : M poolst slice :=
  if n <? 0 then panic (PRun IndexOutOfRange) else mret (make_slice n).

(** [new(pipe)] over a new buffer; the pool counts it. *)
Definition alloc_pipe (size mode : Z) : M poolst loc :=
  buf ← go_make size;
  s ← get;
  let l := fresh (dom (heap s)) in
  put (PoolSt (pp s) (<[l := Pipe (NewBufferPipe buf mode) 0 None]> (heap s)));;
  upd (fun p => set_len (len p + 1) p);;
  mret l.

(** A pipe of the free set is made fit for the request: recut, reallocated or
    reset. *)
Definition recycle_pipe (l : loc) (size mode : Z) : M poolst unit :=
  s ← get;
  match heap s !! l with
  | None => panic (PRun NilDereference)
  | Some p =>
      let b := p_buf p in
      if negb (bp_Capacity b =? size) || negb (bp_Mode b =? mode) then
        if size <=? slice_cap (bp_Buffer b) then
          match reslice (bp_Buffer b) size with
          | Some buf => upd_pipe l (fun p => Pipe (NewBufferPipe buf mode) (p_idx p) (p_data p))
          | None => panic (PRun IndexOutOfRange)
          end
        else
          buf ← go_make size;
          upd_pipe l (fun p => Pipe (NewBufferPipe buf mode) (p_idx p) (p_data p))
      else
        upd_pipe l (fun p => Pipe (bp_Reset b) (p_idx p) (p_data p))
  end.

(** A pipe for a writer: one of the free set, or a new one. *)
Definition acquire_pipe (ch : choice) (size mode : Z) : M poolst loc :=
  s ← get;
  let '(p, free') := pop ch (heap s) (free (pp s)) in
  upd (set_free free');;
  match p with
  | None => alloc_pipe size mode
  | Some l => recycle_pipe l size mode;; mret l
  end.

(** [p.idx, p.data = idx, data], and the pipe enters the ready set. *)
Definition publish_pipe (ch : choice) (l : loc) (idx : Z) (data : option D)
  : M poolst (option loc) :=
  upd_pipe l (fun p => Pipe (p_buf p) idx data);;
  s ← get;
  match entries (ready (pp s)) !! idx with
  | Some _ => panic (PStr "pipe with this index already exists")
  | None =>
      r ← lift (push (heap s) (ready (pp s)) (Some l));
      upd (set_ready r);;
      upd (fun p => set_rdCond (Signal ch (rdCond p)) p);;
      mret (Some l)
  end.

(** [getWriter] after its wait loop. *)
Definition getWriter_body (ch : choice) (idx size mode : Z) (data : option D)
  : M poolst (option loc) :=
  s ← get;
  if closed (pp s) then mret None else
  l ← acquire_pipe ch size mode;
  publish_pipe ch l idx data.

(** The condition of [getWriter]'s wait loop. *)
Definition wr_blocked (idx : Z) (p : pipePool) : bool :=
  negb (closed p) && negb (idx =? waitIdx p) && (set_size (free p) =? 0) && (cap p <=? len p).

(** One stretch of [getWriter]'s loop: [None] when the goroutine parks. *)
Definition getWriter_loop (ch : choice) (t : tid) (idx size mode : Z) (data : option D)
  : M poolst (option (option loc)) :=
  s ← get;
  if wr_blocked idx (pp s) then
    upd (fun p => set_wrWaitCnt (wrWaitCnt p + 1) p);;
    upd (fun p => set_wrCond (park t (wrCond p)) p);;
    mret None
  else
    p ← getWriter_body ch idx size mode data;
    mret (Some p).

Definition getWriter (ch : choice) (t : tid) (idx size mode : Z) (data : option D)
  : M poolst (option (option loc)) :=
  if idx <? 0 then panic (PStr "identifier index must be non-negative")
  else getWriter_loop ch t idx size mode data.

(** [getWriter] after [wrCond.Wait()] returned. *)
Definition getWriter_resume (ch : choice) (t : tid) (idx size mode : Z) (data : option D)
  : M poolst (option (option loc)) :=
  upd (fun p => set_wrCond (unwake t (wrCond p)) p);;
  upd (fun p => set_wrWaitCnt (wrWaitCnt p - 1) p);;
  getWriter_loop ch t idx size mode data.

(** [getReader] after its wait loop. *)
Definition getReader_body (ch : choice) (idx : Z) : M poolst (option loc) :=
  s ← get;
  p ← (if 0 <=? idx then
         let p := entries (ready (pp s)) !! idx in
         upd (set_ready (remove (heap s) (ready (pp s)) p).2);;
         upd (set_waitIdx (-1));;
         mret p
       else
         let '(p, r) := pop ch (heap s) (ready (pp s)) in
         upd (set_ready r);;
         mret p);
  s ← get;
  a ← lift (push (heap s) (active (pp s)) p);
  upd (set_active a);;
  mret p.

(** [doWait], and the condition of [getReader]'s wait loop. *)
Definition rd_wait (idx : Z) (p : pipePool) : bool :=
  if 0 <=? idx then bool_decide (entries (ready p) !! idx = None)
  else set_size (ready p) =? 0.

Definition rd_blocked (idx : Z) (p : pipePool) : bool := negb (closed p) && rd_wait idx p.

Definition getReader_loop (ch : choice) (t : tid) (idx : Z) : M poolst (option (option loc)) :=
  s ← get;
  if rd_blocked idx (pp s) then
    upd (fun p => set_rdWaitCnt (rdWaitCnt p + 1) p);;
    upd (fun p => set_rdCond (park t (rdCond p)) p);;
    mret None
  else
    p ← getReader_body ch idx;
    mret (Some p).

Definition getReader (ch : choice) (t : tid) (idx : Z) : M poolst (option (option loc)) :=
  s ← get;
  (if 0 <=? idx then
     if 0 <=? waitIdx (pp s) then panic (PStr "already waiting on an index identifier")
     else
       upd (set_waitIdx idx);;
       upd (fun p => set_wrCond (Broadcast (wrCond p)) p)
   else mret tt);;
  getReader_loop ch t idx.

Definition getReader_resume (ch : choice) (t : tid) (idx : Z) : M poolst (option (option loc)) :=
  upd (fun p => set_rdCond (unwake t (rdCond p)) p);;
  upd (fun p => set_rdWaitCnt (rdWaitCnt p - 1) p);;
  getReader_loop ch t idx.

(** [restore]: [p] is a pointer, so it may be nil. *)
Definition restore (ch : choice) (p : option loc) : M poolst unit :=
  s ← get;
  let '(ok, a) := remove (heap s) (active (pp s)) p in
  upd (set_active a);;
  if negb ok then panic (PStr "pipe is not active in this pool") else
  match p with
  | None => panic (PRun NilDereference)
  | Some l =>
      upd_pipe l close_pipe;;
      s ← get;
      if len (pp s) <=? cap (pp s) then
        f ← lift (push (heap s) (free (pp s)) p);
        upd (set_free f);;
        upd (fun p => set_wrCond (Signal ch (wrCond p)) p)
      else
        upd (fun p => set_len (len p - 1) p)
  end.

Definition setCapacity (cnt : Z) : M poolst unit :=
  upd (set_cap cnt);;
  upd (fun p => set_wrCond (Broadcast (wrCond p)) p).

Definition getStats : M poolst (Z * Z) :=
  s ← get;
  mret (wrWaitCnt (pp s), rdWaitCnt (pp s)).

(** [m.close()] of one of the sets. *)
Definition close_pipes (sel : pipePool -> pipeSet) : M poolst unit :=
  modify (fun s => PoolSt (pp s) (close_set (sel (pp s)) (heap s))).

Definition interrupt : M poolst unit :=
  close_pipes ready;;
  close_pipes active.

Definition wake_all : M poolst unit :=
  upd (set_closed true);;
  upd (fun p => set_wrCond (Broadcast (wrCond p)) p);;
  upd (fun p => set_rdCond (Broadcast (rdCond p)) p).

Definition close : M poolst unit := wake_all.

Definition terminate : M poolst unit :=
  close_pipes ready;;
  close_pipes active;;
  upd (set_ready None);;
  wake_all.

(** * The goroutines around a pool *)

(** A call that may park, with its arguments. *)
Inductive call : Type :=
| CWriter (idx size mode : Z) (data : option D)
| CReader (idx : Z).

Inductive req : Type :=
| RRestore (p : option loc)
| RSetCapacity (cnt : Z)
| RInterrupt
| RClose
| RTerminate.

(** [pending] holds the calls that are inside a [Wait]. *)
Record psys : Type := PSys { base : poolst; pending : gmap tid call }.

Definition run_call (ch : choice) (t : tid) (c : call) : M poolst (option (option loc)) :=
  match c with
  | CWriter idx size mode data => getWriter ch t idx size mode data
  | CReader idx => getReader ch t idx
  end.

Definition resume_call (ch : choice) (t : tid) (c : call) : M poolst (option (option loc)) :=
  match c with
  | CWriter idx size mode data => getWriter_resume ch t idx size mode data
  | CReader idx => getReader_resume ch t idx
  end.

Definition run_req (ch : choice) (r : req) : M poolst unit :=
  match r with
  | RRestore p => restore ch p
  | RSetCapacity cnt => setCapacity cnt
  | RInterrupt => interrupt
  | RClose => close
  | RTerminate => terminate
  end.

(** A goroutine that did not return from the call is in [pending]. *)
Definition settle (t : tid) (c : call) (o : outcome (option (option loc)))
  (pend : gmap tid call) : gmap tid call :=
  match o with
  | Ret None => <[t := c]> pend
  | _ => delete t pend
  end.

(** The condition variable a call waits on. *)
Definition cond_of (c : call) (p : pipePool) : cond :=
  match c with CWriter _ _ _ _ => wrCond p | CReader _ => rdCond p end.

(** What the callers promise: about the calls they start, and about the other
    requests they make. *)
Record discipline : Type := Discipline {
  ok_call : psys -> tid -> call -> Prop;
  ok_req : psys -> req -> Prop;
}.

(** Transitions of the pool, for callers that keep to a discipline. *)
Inductive pstep (ok : discipline) : psys -> psys -> Prop :=
| step_call ch t c b pend :
    pend !! t = None ->
    ok_call ok (PSys b pend) t c ->
    pstep ok (PSys b pend)
      (let r := run_call ch t c b in PSys r.2 (settle t c r.1 pend))
| step_resume ch t c b pend :
    pend !! t = Some c ->
    t ∈ woken (cond_of c (pp b)) ->
    pstep ok (PSys b pend)
      (let r := resume_call ch t c b in PSys r.2 (settle t c r.1 pend))
| step_req ch r b pend :
    ok_req ok (PSys b pend) r ->
    pstep ok (PSys b pend) (PSys (run_req ch r b).2 pend).

Definition psys0 : psys := PSys (PoolSt newPipePool ∅) ∅.

Definition reachable (ok : discipline) (s : psys) : Prop := rtc (pstep ok) psys0 s.

(** A goroutine restores a pipe only while it holds it, so the active pipe of
    that index is the very pipe restored. *)
Definition restores_own (s : psys) (r : req) : Prop :=
  match r with
  | RRestore (Some l) =>
      forall l', entries (active (pp (base s))) !! idx_of (heap (base s)) l = Some l' -> l' = l
  | _ => True
  end.

(** The discipline common to all the theorems: buffers have a size, pipes are
    restored by their holder. *)
Definition call_size (c : call) : Prop :=
  match c with CWriter _ size _ _ => 0 <= size | CReader _ => True end.

Definition owned : discipline := Discipline (fun _ _ c => call_size c) restores_own.

(** * Structural invariant *)

Definition set_of (x : sel) (p : pipePool) : pipeSet :=
  match x with SFree => free p | SReady => ready p | SActive => active p end.

Definition with_set (x : sel) (m : pipeSet) (p : pipePool) : pipePool :=
  match x with SFree => set_free m p | SReady => set_ready m p | SActive => set_active m p end.

(** No set holds the pipe: some goroutine is working on it. *)
Definition detached (l : loc) (b : poolst) : Prop :=
  is_Some (heap b !! l) /\ forall x k, entries (set_of x (pp b)) !! k <> Some l.

Definition total_size (p : pipePool) : Z :=
  set_size (free p) + set_size (ready p) + set_size (active p).

(** [n] pipes are out of the three sets and are still counted in [len]. *)
Record core (n : Z) (b : poolst) : Prop := Core {
  core_idx x k l :
    entries (set_of x (pp b)) !! k = Some l ->
    exists p, heap b !! l = Some p /\ p_idx p = k;
  core_disj x y k k' l :
    entries (set_of x (pp b)) !! k = Some l ->
    entries (set_of y (pp b)) !! k' = Some l -> x = y;
  core_len : total_size (pp b) + n <= len (pp b);
  core_free : is_Some (free (pp b));
  core_active : is_Some (active (pp b));
  core_ready : ready (pp b) = None -> closed (pp b) = true;
}.

End pool.
