(* ===== verification/PoolInv.v ===== *)
(** The structural invariant of the pipe pool, and the primitives that keep it. *)

From S2P Require Import Prelude Bufpipe Pool.

Section core.
Context {BP : Bufpipe} {D : Type}.
Implicit Types (b : @poolst BP D) (h : gmap loc (@pipe BP D)) (p : pipePool).

Lemma set_size_nonneg (m : pipeSet) : 0 <= set_size m.
Proof. unfold set_size. lia. Qed.

Lemma set_size_insert (m : gmap Z loc) k l :
  set_size (Some (<[k:=l]> m)) <= set_size (Some m) + 1.
Proof.
  unfold set_size; cbn. destruct (m !! k) eqn:E.
  - rewrite map_size_insert_Some by eauto. lia.
  - rewrite map_size_insert_None by done. lia.
Qed.

Lemma set_size_delete (m : pipeSet) k l :
  entries m !! k = Some l -> set_size (delete k <$> m) = set_size m - 1.
Proof.
  destruct m as [g|]; cbn; [|done]. intros H. unfold set_size; cbn.
  assert (size g <> 0%nat) by (intros E; apply map_size_empty_inv in E; set_solver).
  rewrite map_size_delete_Some by eauto. lia.
Qed.

Lemma set_size_zero (m : pipeSet) : set_size m = 0 <-> entries m = ∅.
Proof. unfold set_size. rewrite <- map_size_empty_iff. lia. Qed.

Lemma entries_delete (m : pipeSet) k : entries (delete k <$> m) = delete k (entries m).
Proof. destruct m; cbn; [done|]. by rewrite delete_empty. Qed.

Lemma range_first_Some ch (m : gmap Z loc) l :
  range_first ch m = Some l -> exists k, m !! k = Some l.
Proof.
  unfold range_first. destruct (m !! ch_key ch) eqn:E; [naive_solver|].
  destruct (map_to_list m) as [|[k v] r] eqn:F; cbn; [done|]. intros [= <-].
  exists k. apply elem_of_map_to_list. rewrite F. left.
Qed.

Lemma range_first_None ch (m : gmap Z loc) : range_first ch m = None <-> m = ∅.
Proof.
  unfold range_first. split.
  - destruct (m !! ch_key ch); [done|].
    destruct (map_to_list m) eqn:F; cbn; [|done]. by apply map_to_list_empty_iff in F.
  - intros ->. by rewrite lookup_empty, map_to_list_empty.
Qed.

Lemma core_idx_of n b x k l :
  core n b -> entries (set_of x (pp b)) !! k = Some l -> idx_of (heap b) l = k.
Proof. intros C H. destruct (core_idx n b C x k l H) as (p&E&<-). unfold idx_of. by rewrite E. Qed.

(** What [pop] does to a set of the pool. *)
Lemma pop_Some n b ch x l m' :
  core n b -> pop ch (heap b) (set_of x (pp b)) = (Some l, m') ->
  exists k, entries (set_of x (pp b)) !! k = Some l /\ m' = delete k <$> set_of x (pp b).
Proof.
  intros C. unfold pop. destruct (range_first _ _) eqn:E; [|done]. intros [= <- <-].
  apply range_first_Some in E as [k Hk]. exists k. by rewrite (core_idx_of n b x k).
Qed.

Lemma pop_None h ch m m' :
  pop ch h m = (None, m') -> entries m = ∅ /\ m' = m.
Proof.
  unfold pop. destruct (range_first _ _) eqn:E; [done|]. intros [= <-].
  by apply range_first_None in E.
Qed.

(** ** The primitives keep [core] *)

(** [core] looks at the heap, the sets, [len] and [closed] only. *)
Lemma core_ext n b b' :
  heap b' = heap b -> (forall x, set_of x (pp b') = set_of x (pp b)) ->
  len (pp b') = len (pp b) -> (closed (pp b) = true -> closed (pp b') = true) ->
  core n b -> core n b'.
Proof.
  intros Hh Hs Hl Hc [I J L F A R].
  pose proof (Hs SFree) as HF. pose proof (Hs SReady) as HR. pose proof (Hs SActive) as HA.
  cbn in HF, HR, HA. split.
  - intros x k l. rewrite Hs, Hh. apply I.
  - intros x y k k' l. rewrite !Hs. apply J.
  - unfold total_size. rewrite HF, HR, HA, Hl. apply L.
  - by rewrite HF.
  - by rewrite HA.
  - rewrite HR. auto.
Qed.

End core.

(** The part of the state [core] looks at did not change. *)
Ltac same_core C := eapply core_ext; [| | | |exact C]; try done; try by intros [].

Section operations.
Context {BP : Bufpipe} {D : Type}.
Implicit Types (b : @poolst BP D) (h : gmap loc (@pipe BP D)) (p : pipePool).

Lemma core_weaken n n' b : n' <= n -> core n b -> core n' b.
Proof. intros H [I J L F A R]. split; auto; lia. Qed.

Lemma set_of_with x y m p : set_of x (with_set y m p) = if decide (x = y) then m else set_of x p.
Proof. by destruct x, y. Qed.

Lemma total_with x m p :
  total_size (with_set x m p) = total_size p - set_size (set_of x p) + set_size m.
Proof. destruct x; unfold total_size; cbn; lia. Qed.

Lemma len_with x m p : len (with_set x m p) = len p.
Proof. by destruct x. Qed.

Lemma closed_with x m p : closed (with_set x m p) = closed p.
Proof. by destruct x. Qed.

(** Taking a pipe out of a set. *)
Lemma core_delete n b x k l :
  core n b -> entries (set_of x (pp b)) !! k = Some l ->
  let b' := PoolSt (with_set x (delete k <$> set_of x (pp b)) (pp b)) (heap b) in
  core (n + 1) b' /\ detached l b'.
Proof.
  intros [I J L F A R] Hk b'.
  assert (forall y i, entries (set_of y (pp b')) !! i =
            if decide (y = x /\ i = k) then None else entries (set_of y (pp b)) !! i) as E.
  { intros y i. subst b'; cbn. rewrite set_of_with.
    destruct (decide (y = x)) as [->|Hne]; [rewrite entries_delete|].
    - rewrite lookup_delete. repeat case_decide; naive_solver.
    - case_decide; naive_solver. }
  split; [split|split].
  - intros y i l' H. rewrite E in H. case_decide; [done|]. by apply (I y).
  - intros y z i i' l' H1 H2. rewrite E in H1, H2. repeat case_decide; try done. eauto.
  - subst b'; cbn. rewrite total_with, len_with, (set_size_delete _ _ _ Hk). lia.
  - subst b'; cbn. destruct x; cbn; [|done..]. destruct F as [? ->]. by eexists.
  - subst b'; cbn. destruct x; cbn; [done..|]. destruct A as [? ->]. by eexists.
  - subst b'; cbn. rewrite closed_with. destruct x; cbn; try done.
    destruct (ready (pp b)) eqn:E'; cbn; [done|auto].
  - subst b'; cbn. destruct (I x k l Hk) as (p&?&_). eauto.
  - intros y i H. rewrite E in H. case_decide as Hd; [done|]. apply Hd.
    assert (y = x) as -> by eauto. split; [done|].
    destruct (I x i l H) as (p&Hp&<-). destruct (I x k l Hk) as (p'&Hp'&<-). congruence.
Qed.

(** Putting a pipe into a set, possibly over a pipe with the same index. *)
Lemma core_insert n b x l g :
  core (n + 1) b -> detached l b -> set_of x (pp b) = Some g ->
  core n (PoolSt (with_set x (Some (<[idx_of (heap b) l := l]> g)) (pp b)) (heap b)).
Proof.
  intros [I J L F A R] [[p Hp] Hd] Hg.
  set (b' := PoolSt _ _).
  assert (forall y i l', entries (set_of y (pp b')) !! i = Some l' ->
            (l' = l /\ y = x /\ i = idx_of (heap b) l) \/
            (l' <> l /\ entries (set_of y (pp b)) !! i = Some l')) as E.
  { intros y i l'. subst b'; cbn. rewrite set_of_with.
    destruct (decide (y = x)) as [->|Hne]; cbn.
    - rewrite lookup_insert. specialize (Hd x i). rewrite Hg in *; cbn in *.
      case_decide; naive_solver.
    - specialize (Hd y i). naive_solver. }
  split.
  - intros y i l' [(->&->&->)|(_&H)]%E; [|by apply (I y)].
    exists p. unfold idx_of; cbn. by rewrite Hp.
  - intros y z i i' l' [(->&->&->)|(N&H)]%E [(?&->&?)|(?&H')]%E; try done. eauto.
  - subst b'; cbn. rewrite total_with, len_with, Hg.
    pose proof (set_size_insert g (idx_of (heap b) l) l). lia.
  - subst b'; cbn. destruct x; cbn; eauto.
  - subst b'; cbn. destruct x; cbn; eauto.
  - subst b'; cbn. rewrite closed_with. destruct x; cbn; try done; auto.
Qed.

(** Changing a pipe that no set holds. *)
Lemma core_alter n b l f :
  core n b -> detached l b ->
  let b' := PoolSt (pp b) (alter f l (heap b)) in core n b' /\ detached l b'.
Proof.
  intros [I J L F A R] [[p Hp] Hd] b'. split; [split; auto|split].
  - intros x k l' H. destruct (I x k l' H) as (p'&Hp'&Hi). exists p'. split; [|done].
    cbn. rewrite lookup_alter_ne; [done|]. intros ->. by eapply Hd.
  - cbn. rewrite lookup_alter_eq, Hp. by eexists.
  - done.
Qed.

(** A new pipe. *)
Lemma core_new n b v :
  core n b ->
  let l := fresh (dom (heap b)) in
  let b' := PoolSt (set_len (len (pp b) + 1) (pp b)) (<[l := v]> (heap b)) in
  core (n + 1) b' /\ detached l b'.
Proof.
  intros [I J L F A R] l b'.
  assert (heap b !! l = None) as Hl by (apply not_elem_of_dom, is_fresh).
  assert (forall x, set_of x (pp b') = set_of x (pp b)) as Hs by (by intros []).
  split; [split|split].
  - intros x k l' H. rewrite Hs in H. destruct (I x k l' H) as (p'&Hp'&Hi).
    exists p'. split; [|done]. cbn. rewrite lookup_insert_ne; congruence.
  - intros x y k k' l'. rewrite !Hs. apply J.
  - unfold total_size in *; cbn. lia.
  - done.
  - done.
  - done.
  - cbn. rewrite lookup_insert_eq. eauto.
  - intros x k H. rewrite Hs in H. destruct (I x k l H) as (p'&?&_). congruence.
Qed.

(** Closing pipes keeps their indices. *)
Lemma close_set_lookup (m : pipeSet) h l :
  exists f : pipe -> pipe, (forall q, p_idx (f q) = p_idx q) /\ close_set m h !! l = f <$> h !! l.
Proof.
  unfold close_set. induction ((map_to_list (entries m)).*2) as [|l' r (f&Hf&IH)]; cbn.
  - exists id. split; [done|]. by destruct (h !! l).
  - rewrite lookup_alter. case_decide; [subst l'|by eauto].
    exists (close_pipe ∘ f). split; [intros q; by apply Hf|].
    rewrite IH. by destruct (h !! l).
Qed.

Lemma core_close_set n b m :
  core n b -> core n (PoolSt (pp b) (close_set m (heap b))).
Proof.
  intros [I J L F A R]. split; auto. intros x k l H.
  destruct (I x k l H) as (p&Hp&Hi). destruct (close_set_lookup m (heap b) l) as (f&Hf&E).
  exists (f p). cbn. rewrite E, Hp, Hf. done.
Qed.

(** ** The operations keep [core] *)

(** The effect of [getWriter]'s body that the wait bookkeeping depends on. *)
Definition budget (p : pipePool) : Z := set_size (free p) + Z.max 0 (cap p - len p).

Record same_waits (p p' : pipePool) : Prop := SameWaits {
  sw_closed : closed p' = closed p;
  sw_cap : cap p' = cap p;
  sw_waitIdx : waitIdx p' = waitIdx p;
  sw_wrCond : wrCond p' = wrCond p;
  sw_wrCnt : wrWaitCnt p' = wrWaitCnt p;
  sw_rdCnt : rdWaitCnt p' = rdWaitCnt p;
}.

Lemma alloc_pipe_core n b size mode o b' :
  core n b -> alloc_pipe size mode b = (o, b') ->
  match o with
  | Ret l => core (n + 1) b' /\ detached l b' /\ len (pp b') = len (pp b) + 1 /\ 0 <= size /\
             heap b' !! l = Some (Pipe (NewBufferPipe (make_slice size) mode) 0 None)
  | NoFuel => False
  | Pan _ => b' = b /\ size < 0
  end /\ free (pp b') = free (pp b) /\ ready (pp b') = ready (pp b) /\
  active (pp b') = active (pp b) /\ rdCond (pp b') = rdCond (pp b) /\
  same_waits (pp b) (pp b').
Proof.
  intros C. unfold alloc_pipe, go_make, upd. mrun.
  destruct (Z.ltb_spec size 0); mrun; intros [= <- <-]; cbn.
  - done.
  - destruct (core_new n b (Pipe (NewBufferPipe (make_slice size) mode) 0 None) C).
    split_and!; try done. by rewrite lookup_insert_eq.
Qed.

(** A pipe fits a request when its buffer has the size and the mode asked for,
    and, in a linear mode, is empty and open. *)
Definition fits (size mode : Z) (q : @pipe BP D) : Prop :=
  bp_Capacity (p_buf q) = size /\ bp_Mode (p_buf q) = mode /\
  (is_line mode -> bp_Pointers (p_buf q) = (0, 0) /\ bp_Closed (p_buf q) = false).

Lemma fits_new {BS : BufpipeSpec BP} s mode i d :
  slice_wf s -> fits (s_len s) mode (Pipe (NewBufferPipe s mode) i d).
Proof. intros H. split_and!; cbn; [by apply new_capacity|apply new_mode|apply line_new]. Qed.

Lemma upd_pipe_run l f b :
  upd_pipe l f b = (Ret tt, PoolSt (pp b) (alter f l (heap b))).
Proof. done. Qed.

Lemma recycle_pipe_core {BS : BufpipeSpec BP} n b l size mode o b' :
  core n b -> detached l b -> recycle_pipe l size mode b = (o, b') ->
  core n b' /\ detached l b' /\ pp b' = pp b /\ o <> NoFuel /\
  (0 <= size -> o = Ret tt /\ exists q, heap b' !! l = Some q /\ fits size mode q).
Proof.
  intros C Hd. unfold recycle_pipe, go_make. mrun.
  destruct Hd as [[q Hq] Hd]. rewrite Hq.
  assert (forall f, core n (PoolSt (pp b) (alter f l (heap b))) /\
                    detached l (PoolSt (pp b) (alter f l (heap b)))) as HA
    by (intros f; apply core_alter; [done|split; eauto]).
  assert (forall f, heap (PoolSt (pp b) (alter f l (heap b))) !! l = Some (f q)) as HL
    by (intros f; cbn; by rewrite lookup_alter_eq, Hq).
  assert (detached l b) as Hd' by (split; eauto).
  destruct (negb _ || negb _) eqn:E1; [destruct (Z.leb_spec size (slice_cap (bp_Buffer (p_buf q))))|].
  - destruct (reslice _ _) as [buf|] eqn:E2; mrun; rewrite ?upd_pipe_run; intros [= <- <-].
    + split_and!; [apply HA|apply HA|done|done|]. intros Hs. split; [done|]. eexists; split; [apply HL|].
      apply reslice_wf in E2 as [W <-]. by apply fits_new.
    + split_and!; auto. intros Hs. exfalso.
      destruct (reslice_fits (bp_Buffer (p_buf q)) size) as [? ?]; [lia|congruence].
  - destruct (Z.ltb_spec size 0); mrun; rewrite ?upd_pipe_run; intros [= <- <-].
    + split_and!; auto. lia.
    + split_and!; [apply HA|apply HA|done|done|]. intros Hs. split; [done|]. eexists; split; [apply HL|].
      by apply (fits_new (make_slice size)), make_slice_wf.
  - rewrite ?upd_pipe_run; intros [= <- <-].
    split_and!; [apply HA|apply HA|done|done|]. intros Hs. split; [done|]. eexists; split; [apply HL|].
    apply orb_false_iff in E1 as [E1 E2]. rewrite negb_false_iff, Z.eqb_eq in E1, E2.
    split_and!; cbn; [by rewrite reset_capacity|by rewrite reset_mode|].
    intros Hl. apply line_reset. by rewrite E2.
Qed.

Lemma budget_free p m :
  budget (set_free m p) = set_size m + Z.max 0 (cap p - len p).
Proof. done. Qed.

Lemma acquire_pipe_spec {BS : BufpipeSpec BP} b ch size mode o b' :
  core 0 b -> acquire_pipe ch size mode b = (o, b') ->
  core 0 b' /\ same_waits (pp b) (pp b') /\ ready (pp b') = ready (pp b) /\
  active (pp b') = active (pp b) /\ rdCond (pp b') = rdCond (pp b) /\
  len (pp b') <= len (pp b) + (if set_size (free (pp b)) =? 0 then 1 else 0) /\
  (0 <= size -> exists l q, o = Ret l /\ heap b' !! l = Some q /\ fits size mode q /\
     budget (pp b') <= Z.max 0 (budget (pp b) - 1)) /\
  match o with Ret l => core 1 b' /\ detached l b' | Pan _ => True | NoFuel => False end.
Proof.
  intros C. unfold acquire_pipe. mrun.
  destruct (pop ch (heap b) (free (pp b))) as [[l|] f] eqn:Hp; mrun.
  - apply (pop_Some 0 b ch SFree) in Hp as (k&Hk&->); [|done].
    destruct (core_delete 0 b SFree k l C Hk) as [C1 D1]; cbn in C1, D1.
    destruct (recycle_pipe l size mode _) as [r b1] eqn:Hr.
    destruct (recycle_pipe_core _ _ _ _ _ _ _ C1 D1 Hr) as (C2&D2&E2&N2&F2). cbn in E2.
    assert (budget (pp b1) <= Z.max 0 (budget (pp b) - 1)) as HB.
    { rewrite E2, budget_free. apply set_size_delete in Hk. cbn in Hk. unfold budget. rewrite Hk. lia. }
    assert (core 0 b1) as C3 by (eapply core_weaken; [|done]; lia).
    assert (len (pp b1) <= len (pp b) + (if set_size (free (pp b)) =? 0 then 1 else 0)) as HL.
    { rewrite E2. cbn. destruct (_ =? 0); lia. }
    destruct r as [[]|pv|]; intros [= <- <-]; rewrite ?E2; split_and!; try done.
    all: try (by rewrite <- E2).
    + intros Hs. destruct (F2 Hs) as [_ (q&?&?)]. rewrite <- E2. by exists l, q.
    + intros Hs. by destruct (F2 Hs).
  - apply pop_None in Hp as [E ->]. apply set_size_zero in E. intros H.
    assert (set_free (free (pp b)) (pp b) = pp b) as Hid by (by destruct (pp b)).
    unfold upd in H. mrun_in H. rewrite Hid in H.
    destruct b as [p h]; cbn in *.
    apply (alloc_pipe_core 0) in H as (H1&H2&H3&H4&H5&H6); [|done]; cbn in *.
    rewrite E. cbn.
    destruct o as [l|pv|]; [|destruct H1 as [-> ?]; cbn; split_and!; try done; lia|done].
    destruct H1 as (C1&D1&L1&S1&Q1). split_and!; try done.
    + eapply core_weaken; [|done]; lia.
    + lia.
    + intros _. eexists l, _. split_and!; try done; cbn.
      * by apply (fits_new (make_slice size)), make_slice_wf.
      * destruct H6 as [_ ? _ _ _ _]. unfold budget in *. rewrite H2, L1. lia.
Qed.

(** [getWriter] once it does not have to wait. *)
Lemma getWriter_body_spec {BS : BufpipeSpec BP} b ch idx size mode data o b' :
  core 0 b -> getWriter_body ch idx size mode data b = (o, b') ->
  core 0 b' /\ same_waits (pp b) (pp b') /\ active (pp b') = active (pp b) /\
  len (pp b') <= len (pp b) + (if set_size (free (pp b)) =? 0 then 1 else 0) /\
  (closed (pp b) = true -> b' = b /\ o = Ret None) /\
  (closed (pp b) = false -> 0 <= size -> budget (pp b') <= Z.max 0 (budget (pp b) - 1)) /\
  match o with
  | Ret None => closed (pp b) = true
  | Ret (Some l) =>
      entries (ready (pp b)) !! idx = None /\
      entries (ready (pp b')) = <[idx := l]> (entries (ready (pp b))) /\
      rdCond (pp b') = Signal ch (rdCond (pp b)) /\
      (exists q, heap b' !! l = Some q /\ p_idx q = idx /\ p_data q = data /\
         (0 <= size -> fits size mode q))
  | _ => rdCond (pp b') = rdCond (pp b) /\ ready (pp b') = ready (pp b)
  end.
Proof.
  intros C. unfold getWriter_body. mrun. destruct (closed (pp b)) eqn:Hcl.
  { intros [= <- <-]. split_and!; try done. destruct (_ =? 0); lia. }
  destruct (acquire_pipe ch size mode b) as [o1 b1] eqn:Ha.
  destruct (acquire_pipe_spec _ _ _ _ _ _ C Ha) as (C0&W&HR&HA&HC&HN&HB&Ho).
  destruct o1 as [l|pv|]; [|intros [= <- <-]; split_and!; try done; intros _ Hs;
    by destruct (HB Hs) as (?&?&?&?)|done].
  destruct Ho as [C1 D1]. unfold publish_pipe, lift, upd. mrun. rewrite HR.
  destruct D1 as [[q Hq] D1].
  destruct (core_alter 1 b1 l (fun r => Pipe (p_buf r) idx data) C1) as [C2 D2]; [by split; eauto|].
  destruct (entries (ready (pp b)) !! idx) eqn:Hready.
  { intros [= <- <-]; cbn. split_and!; try done.
    - eapply core_weaken; [|done]; lia.
    - intros _ Hs. by destruct (HB Hs) as (?&?&?&?&?&?). }
  destruct (ready (pp b)) as [g|] eqn:Eg;
    [|pose proof (core_ready _ _ C Eg); congruence].
  intros [= <- <-]; cbn in *. rewrite lookup_alter_eq, Hq in *; cbn in *.
  assert (idx_of (alter (fun r : pipe => Pipe (p_buf r) idx data) l
            (heap b1)) l = idx) as Hidx
    by (unfold idx_of; by rewrite lookup_alter_eq, Hq).
  rewrite Hidx. split_and!; try done.
  - eapply core_ext; [| | | |apply (core_insert 0 _ SReady l g C2 D2 HR)]; try done.
    intros []; cbn; by rewrite ?Hidx.
  - destruct W. split; cbn; done.
  - intros _ Hs. destruct (HB Hs) as (?&?&_&_&_&HB'). done.
  - by rewrite HC.
  - eexists. split_and!; try done. intros Hs.
    destruct (HB Hs) as (?&q'&[= <-]&Hq'&F&_). rewrite Hq in Hq'. injection Hq' as <-. done.
Qed.

(** [getReader] once it does not have to wait: it always returns, with a pipe
    of the ready set (the one asked for, when an index was given) moved to the
    active set. *)
Lemma getReader_body_spec b ch idx o b' :
  core 0 b -> getReader_body ch idx b = (o, b') ->
  core 0 b' /\ heap b' = heap b /\ closed (pp b') = closed (pp b) /\ cap (pp b') = cap (pp b) /\
  len (pp b') = len (pp b) /\ free (pp b') = free (pp b) /\ wrCond (pp b') = wrCond (pp b) /\
  rdCond (pp b') = rdCond (pp b) /\ wrWaitCnt (pp b') = wrWaitCnt (pp b) /\
  rdWaitCnt (pp b') = rdWaitCnt (pp b) /\
  waitIdx (pp b') = (if 0 <=? idx then -1 else waitIdx (pp b)) /\
  exists r, o = Ret r /\
  match r with
  | None => ready (pp b') = ready (pp b) /\ active (pp b') = active (pp b) /\
            if 0 <=? idx then entries (ready (pp b)) !! idx = None else entries (ready (pp b)) = ∅
  | Some l => exists k, entries (ready (pp b)) !! k = Some l /\ (0 <= idx -> k = idx) /\
              entries (ready (pp b')) = delete k (entries (ready (pp b))) /\
              entries (active (pp b')) = <[k := l]> (entries (active (pp b)))
  end.
Proof.
  intros C. unfold getReader_body, lift, upd.
  destruct (core_active _ _ C) as [ga HA].
  assert (forall k l w, entries (ready (pp b)) !! k = Some l ->
    core 0 (PoolSt (set_active (Some (<[k := l]> ga))
                     (set_waitIdx w (set_ready (delete k <$> ready (pp b)) (pp b)))) (heap b))) as HC.
  { intros k l w Hk. destruct (core_delete 0 b SReady k l C Hk) as [C1 D1].
    pose proof (core_insert 0 _ SActive l ga C1 D1 HA) as C2. cbn in C2.
    rewrite (core_idx_of 0 b SReady k l C Hk) in C2.
    same_core C2. }
  destruct (Z.leb_spec 0 idx); mrun.
  - destruct (entries (ready (pp b)) !! idx) as [l|] eqn:E; mrun.
    + rewrite HA, (core_idx_of 0 b SReady idx l C E). intros [= <- <-]; cbn.
      split_and!; try done; [by apply HC|]. exists (Some l). split; [done|]. exists idx.
      by rewrite entries_delete.
    + rewrite HA. intros [= <- <-]; cbn. split_and!; try done.
      * same_core C.
      * by exists None.
  - destruct (pop ch (heap b) (ready (pp b))) as [[l|] r] eqn:Hp; mrun; rewrite HA.
    + apply (pop_Some 0 b ch SReady) in Hp as (k&Hk&->); [|done]; cbn in *.
      rewrite (core_idx_of 0 b SReady k l C Hk). intros [= <- <-]; cbn.
      split_and!; try done.
      * eapply core_ext; [| | | |apply (HC k l (waitIdx (pp b)) Hk)]; try done; by intros [].
      * exists (Some l). split; [done|]. exists k. rewrite entries_delete.
        split_and!; try done. lia.
    + apply pop_None in Hp as [E ->]. intros [= <- <-]; cbn. split_and!; try done.
      * same_core C.
      * by exists None.
Qed.

Lemma restore_spec b ch r o b' pend :
  core 0 b -> restores_own (PSys b pend) (RRestore r) -> restore ch r b = (o, b') ->
  core 0 b' /\ cap (pp b') = cap (pp b) /\ closed (pp b') = closed (pp b) /\
  waitIdx (pp b') = waitIdx (pp b) /\ rdCond (pp b') = rdCond (pp b) /\
  ready (pp b') = ready (pp b) /\
  wrWaitCnt (pp b') = wrWaitCnt (pp b) /\ rdWaitCnt (pp b') = rdWaitCnt (pp b) /\
  match o with
  | Ret _ => exists l, r = Some l /\
      entries (active (pp b)) !! idx_of (heap b) l = Some l /\
      active (pp b') = delete (idx_of (heap b) l) <$> active (pp b) /\
      heap b' = alter close_pipe l (heap b) /\
      if len (pp b) <=? cap (pp b) then
        len (pp b') = len (pp b) /\ wrCond (pp b') = Signal ch (wrCond (pp b)) /\
        entries (free (pp b')) = <[idx_of (heap b) l := l]> (entries (free (pp b)))
      else
        len (pp b') = len (pp b) - 1 /\ wrCond (pp b') = wrCond (pp b) /\
        free (pp b') = free (pp b)
  | Pan _ => len (pp b') = len (pp b) /\ wrCond (pp b') = wrCond (pp b) /\
             free (pp b') = free (pp b) /\ active (pp b') = active (pp b) /\
             match r with
             | None => True
             | Some l => entries (active (pp b)) !! idx_of (heap b) l = None
             end
  | NoFuel => False
  end.
Proof.
  intros C Hown. unfold restore, remove, lift, upd, push. destruct r as [l|]; mrun.
  2:{ intros [= <- <-]; cbn. split_and!; try done. same_core C. }
  case_bool_decide as Hin; mrun.
  2:{ apply eq_None_not_Some in Hin.
      assert (delete (idx_of (heap b) l) <$> active (pp b) = active (pp b)) as E.
      { destruct (active (pp b)) as [g|]; cbn in *; [|done]. by rewrite delete_id. }
      intros [= <- <-]; cbn. rewrite E. split_and!; try done.
      same_core C. }
  destruct Hin as [l' Hl']. pose proof (Hown l' Hl') as ->; clear Hown.
  destruct (core_delete 0 b SActive _ l C Hl') as [C1 D1]; cbn in C1, D1.
  destruct (core_alter 1 _ l close_pipe C1 D1) as [C2 D2]; cbn in C2, D2.
  assert (idx_of (alter close_pipe l (heap b)) l = idx_of (heap b) l) as Hidx
    by (unfold idx_of; rewrite lookup_alter_eq; by destruct (heap b !! l)).
  destruct (core_free _ _ C) as [gf HF]. rewrite HF.
  destruct (Z.leb_spec (len (pp b)) (cap (pp b))); mrun; intros [= <- <-]; cbn.
  - split_and!; try done.
    + pose proof (core_insert 0 _ SFree l gf C2 D2 HF) as C3. cbn in C3.
      same_core C3.
    + exists l. by rewrite Hidx.
  - split_and!; try done.
    + pose proof C2 as [I J L F A R].
      split; auto; cbn in *; unfold total_size in *; cbn in *; lia.
    + by exists l.
Qed.

End operations.
