(* ===== verification/PoolWait.v ===== *)
(** The wait bookkeeping of the pipe pool: who is parked, who was released,
    and why no release of a writer is lost. *)

From S2P Require Import Prelude Bufpipe Pool PoolInv.

Section waits.
Context {BP : Bufpipe} {BS : BufpipeSpec BP} {D : Type}.
Implicit Types (b : @poolst BP D) (s : @psys BP D) (pend : gmap tid (@call D)).

(** * Condition variables *)

(** Everybody inside a [Wait] of the condition variable. *)
Definition members (c : cond) : list tid := parked c ++ woken c.
#[global] Arguments members : simpl never.

Lemma Signal_members ch c : members (Signal ch c) ≡ₚ members c.
Proof.
  unfold Signal, members. destruct (parked c !! _) as [t|] eqn:E; [|done]. cbn.
  pose proof (delete_Permutation _ _ _ E) as P.
  transitivity ((t :: delete (ch_sig ch mod length (parked c))%nat (parked c)) ++ woken c).
  - rewrite app_assoc, Permutation_app_comm. done.
  - by rewrite <- P.
Qed.

Lemma Signal_parked ch c :
  parked c <> [] ->
  length (woken (Signal ch c)) = S (length (woken c)) /\ parked (Signal ch c) ⊆ parked c.
Proof.
  intros H. unfold Signal.
  destruct (parked c !! _) as [t|] eqn:E.
  - cbn. rewrite length_app. cbn. split; [lia|]. apply sublist_subseteq, sublist_delete.
  - apply lookup_ge_None in E. exfalso.
    pose proof (Nat.mod_upper_bound (ch_sig ch) (length (parked c))).
    destruct (parked c); cbn in *; [done|lia].
Qed.

Lemma Signal_nil ch c : parked c = [] -> Signal ch c = c.
Proof. intros H. unfold Signal. by rewrite H, lookup_nil. Qed.

Lemma Broadcast_members c : members (Broadcast c) ≡ₚ members c.
Proof. unfold members, Broadcast. cbn. apply Permutation_app_comm. Qed.

Lemma park_members t c : members (park t c) ≡ₚ t :: members c.
Proof.
  unfold members, park. cbn. rewrite <- app_assoc, Permutation_middle. cbn. done.
Qed.

Lemma unwake_members t c :
  NoDup (members c) -> t ∈ woken c -> members c ≡ₚ t :: members (unwake t c).
Proof.
  intros N H. unfold members, unwake in *. cbn.
  apply NoDup_app in N as (_&_&N). rewrite Permutation_middle. f_equiv.
  induction (woken c) as [|u l IH]; [by apply not_elem_of_nil in H|].
  apply NoDup_cons in N as [Nu N]. rewrite filter_cons.
  destruct (decide (u = t)) as [->|Hne].
  - rewrite decide_False by auto. f_equiv. symmetry.
    assert (filter (fun v => v <> t) l = l) as ->; [|done].
    clear -Nu. induction l as [|v l IH]; [done|]. rewrite filter_cons.
    apply not_elem_of_cons in Nu as [? ?]. rewrite decide_True by auto. by rewrite IH.
  - rewrite decide_True by auto. apply elem_of_cons in H as [->|H]; [done|].
    rewrite (IH N H) at 1. apply Permutation_swap.
Qed.

(** * The invariant *)

Definition is_writer (c : @call D) : bool := match c with CWriter _ _ _ _ => true | _ => false end.

(** The members of a condition variable are the pending calls that wait on it. *)
Definition cond_ok (w : bool) (c : cond) (pend : gmap tid call) : Prop :=
  NoDup (members c) /\
  forall t, t ∈ members c <-> exists cl, pend !! t = Some cl /\ is_writer cl = w.

(** No release of a writer is lost. If writers stay parked then the pool is
    open, every pipe that is free or may still be allocated is spoken for by
    a released writer ([n] more may be), and no parked writer holds the index
    a reader waits for. *)
Definition no_lost_writer (n : Z) (p : pipePool) (pend : gmap tid (@call D)) : Prop :=
  parked (wrCond p) <> [] ->
  closed p = false /\ budget p <= Z.of_nat (length (woken (wrCond p))) + n /\
  forall t idx size mode data,
    t ∈ parked (wrCond p) -> pend !! t = Some (CWriter idx size mode data) -> idx <> waitIdx p.

Record waits (n : Z) (s : psys) : Prop := Waits {
  w_wr : cond_ok true (wrCond (pp (base s))) (pending s);
  w_rd : cond_ok false (rdCond (pp (base s))) (pending s);
  w_wrCnt : wrWaitCnt (pp (base s)) = zlen (members (wrCond (pp (base s))));
  w_rdCnt : rdWaitCnt (pp (base s)) = zlen (members (rdCond (pp (base s))));
  w_args t idx size mode data :
    pending s !! t = Some (CWriter idx size mode data) -> 0 <= idx /\ 0 <= size;
  w_lost : no_lost_writer n (pp (base s)) (pending s);
}.

Lemma cond_ok_perm w c c' pend : members c' ≡ₚ members c -> cond_ok w c pend -> cond_ok w c' pend.
Proof. intros P [N H]. split; [by rewrite P|]. intros t. rewrite P. apply H. Qed.

Lemma cond_ok_park w c pend t cl :
  pend !! t = None -> cond_ok w c pend -> is_writer cl = w ->
  cond_ok w (park t c) (<[t := cl]> pend).
Proof.
  intros Ht [N H] Hw.
  assert (t ∉ members c) as Hn by (rewrite H, Ht; naive_solver).
  split; [rewrite park_members; by apply NoDup_cons|].
  intros u. rewrite park_members, elem_of_cons, H, lookup_insert.
  case_decide; naive_solver.
Qed.

Lemma cond_ok_other w c pend t cl :
  pend !! t = None -> cond_ok w c pend -> is_writer cl <> w -> cond_ok w c (<[t := cl]> pend).
Proof.
  intros Ht [N H] Hw. split; [done|]. intros u. rewrite H, lookup_insert.
  case_decide; naive_solver.
Qed.

Lemma cond_ok_unwake w c pend t cl :
  pend !! t = Some cl -> is_writer cl = w -> t ∈ woken c -> cond_ok w c pend ->
  cond_ok w (unwake t c) (delete t pend) /\ zlen (members (unwake t c)) = zlen (members c) - 1.
Proof.
  intros Ht Hw Hin [N H]. pose proof (unwake_members t c N Hin) as P.
  split; [|unfold zlen; rewrite P; cbn; lia].
  rewrite P in N. apply NoDup_cons in N as [Nt N]. split; [done|].
  intros u. rewrite lookup_delete. destruct (decide (t = u)) as [->|Hne]; [naive_solver|].
  rewrite <- H, P, elem_of_cons. naive_solver.
Qed.

Lemma cond_ok_forget w c pend t cl :
  pend !! t = Some cl -> is_writer cl <> w -> cond_ok w c pend -> cond_ok w c (delete t pend).
Proof.
  intros Ht Hw [N H]. split; [done|]. intros u. rewrite H, lookup_delete.
  case_decide; naive_solver.
Qed.

(** * The operations keep the invariant *)

(** Operations that start or end no [Wait]. *)
Lemma waits_quiet n n' s b' :
  waits n s ->
  members (wrCond (pp b')) ≡ₚ members (wrCond (pp (base s))) ->
  members (rdCond (pp b')) ≡ₚ members (rdCond (pp (base s))) ->
  wrWaitCnt (pp b') = wrWaitCnt (pp (base s)) ->
  rdWaitCnt (pp b') = rdWaitCnt (pp (base s)) ->
  no_lost_writer n' (pp b') (pending s) ->
  waits n' (PSys b' (pending s)).
Proof.
  intros [W R CW CR A L] PW PR EW ER NL. split; cbn; try done.
  - by eapply cond_ok_perm.
  - by eapply cond_ok_perm.
  - rewrite EW, CW. unfold zlen. by rewrite PW.
  - rewrite ER, CR. unfold zlen. by rewrite PR.
Qed.

Lemma members_signal_or c c' ch :
  c' = c \/ c' = Signal ch c -> members c' ≡ₚ members c.
Proof. intros [->| ->]; [done|apply Signal_members]. Qed.

(** One stretch of [getWriter], entered with the slack of one pipe that a
    writer just released may still claim. *)
Lemma writer_stretch ch t idx size mode data b pend o b' :
  0 <= idx -> 0 <= size -> core 0 b -> waits 1 (PSys b pend) -> pend !! t = None ->
  getWriter_loop ch t idx size mode data b = (o, b') ->
  core 0 b' /\ waits 0 (PSys b' (settle t (CWriter idx size mode data) o pend)).
Proof.
  intros Hi Hs C W Ht. unfold getWriter_loop, upd. mrun.
  destruct (wr_blocked idx (pp b)) eqn:HB.
  - intros [= <- <-]. split; [same_core C|].
    unfold wr_blocked in HB. apply andb_true_iff in HB as [HB HB4].
    apply andb_true_iff in HB as [HB HB3]. apply andb_true_iff in HB as [HB1 HB2].
    rewrite negb_true_iff in HB1, HB2. apply Z.eqb_neq in HB2. apply Z.eqb_eq in HB3.
    apply Z.leb_le in HB4. destruct W as [WW WR CW CR A L]. cbn in *. split; cbn.
    + by apply cond_ok_park.
    + by apply cond_ok_other.
    + rewrite CW. unfold zlen. rewrite park_members. cbn. lia.
    + done.
    + intros u i s m d. rewrite lookup_insert. case_decide; [naive_solver|apply A].
    + intros _. split_and!; [done|unfold budget; cbn; rewrite HB3; lia|].
      intros u i s m d Hu. rewrite lookup_insert. case_decide as Hd; [naive_solver|].
      intros Hp. apply elem_of_app in Hu as [Hu|Hu%list_elem_of_singleton]; [|congruence].
      destruct L as (_&_&L); [by intros E; rewrite E in Hu; apply not_elem_of_nil in Hu|]. by eapply L.
  - intros H. destruct (getWriter_body _ _ _ _ _ b) as [r b1] eqn:Hg.
    destruct (getWriter_body_spec _ _ _ _ _ _ _ _ C Hg) as (C1&SW&_&_&HC&HO&HR).
    destruct SW as [E1 E2 E3 E4 E5 E6].
    assert (rdCond (pp b1) = rdCond (pp b) \/ rdCond (pp b1) = Signal ch (rdCond (pp b))) as ER.
    { destruct r as [[l|]|pv|]; [naive_solver| |naive_solver..].
      left. destruct (HC HR) as [-> _]. done. }
    assert (waits 0 (PSys b1 pend)) as W1.
    { apply (waits_quiet 1 0 (PSys b pend)); cbn; try done.
      - by rewrite E4.
      - by eapply members_signal_or.
      - pose proof (w_lost _ _ W) as L. cbn in L. intros Hp. rewrite E4 in *.
        destruct (L Hp) as (Lc&Lb&Li). rewrite E1, E3, Lc. split_and!; [done| |done].
        pose proof (HO Lc Hs). lia. }
    assert (delete t pend = pend) as Hd by (by apply delete_id).
    destruct r as [x|pv|]; injection H as <- <-; cbn; by rewrite Hd.
Qed.

(** One stretch of [getReader]. *)
Lemma reader_stretch ch t idx b pend o b' :
  core 0 b -> waits 0 (PSys b pend) -> pend !! t = None ->
  getReader_loop ch t idx b = (o, b') ->
  core 0 b' /\ waits 0 (PSys b' (settle t (CReader idx) o pend)).
Proof.
  intros C W Ht. unfold getReader_loop, upd. mrun.
  destruct (rd_blocked idx (pp b)) eqn:HB.
  - intros [= <- <-]. split; [same_core C|].
    destruct W as [WW WR CW CR A L]. cbn in *. split; cbn.
    + by apply cond_ok_other.
    + by apply cond_ok_park.
    + done.
    + rewrite CR. unfold zlen. rewrite park_members. cbn. lia.
    + intros u i s m d. rewrite lookup_insert. case_decide; [naive_solver|apply A].
    + intros Hp. destruct (L Hp) as (Lc&Lb&Li). split_and!; try done. intros u i s m d Hu.
      rewrite lookup_insert. case_decide; [naive_solver|]. by apply Li.
  - intros H. destruct (getReader_body ch idx b) as [r b1] eqn:Hg.
    destruct (getReader_body_spec _ _ _ _ _ C Hg) as (C1&_&E1&E2&E3&E4&E5&E6&E7&E8&E9&r0&->&_).
    injection H as <- <-. cbn. rewrite delete_id by done. split; [done|].
    apply (waits_quiet 0 0 (PSys b pend)); cbn; rewrite ?E5, ?E6; try done.
    intros Hp. rewrite E5 in Hp. destruct (w_lost _ _ W Hp) as (Lc&Lb&Li). cbn in *.
    unfold budget in *. rewrite E1, E2, E3, E4, E5. split_and!; try done.
    intros u i s m d Hu Hpd. rewrite E9. destruct (0 <=? idx); [|by eapply Li].
    destruct (w_args _ _ W u i s m d Hpd). lia.
Qed.

(** ** Transitions *)

(** The invariant of the pool's transition system. *)
Definition pool_inv (s : psys) : Prop := core 0 (base s) /\ waits 0 s.

Lemma no_lost_slack n n' p pend :
  n <= n' -> no_lost_writer n p pend -> no_lost_writer n' p pend.
Proof. intros Hn L Hp. destruct (L Hp) as (?&?&?). split_and!; [done|lia|done]. Qed.

Lemma waits_slack n n' s : n <= n' -> waits n s -> waits n' s.
Proof. intros Hn [W R CW CR A L]. split; try done. by eapply no_lost_slack. Qed.

Lemma no_lost_broadcast n p pend : parked (wrCond p) = [] -> no_lost_writer n p pend.
Proof. intros E Hp. by destruct (Hp E). Qed.

(** The side conditions of [waits_quiet] for an operation that broadcasts. *)
Ltac quiet_broadcast :=
  cbn; try done; first [by apply Broadcast_members|by apply no_lost_broadcast].

Lemma writer_call_inv ch t idx size mode data b pend :
  core 0 b -> waits 0 (PSys b pend) -> pend !! t = None -> 0 <= size ->
  let r := getWriter ch t idx size mode data b in
  pool_inv (PSys r.2 (settle t (CWriter idx size mode data) r.1 pend)).
Proof.
  intros C W Ht Hs. unfold getWriter. destruct (Z.ltb_spec idx 0); cbn.
  - rewrite delete_id by done. split; done.
  - destruct (getWriter_loop ch t idx size mode data b) as [o b'] eqn:E.
    apply (writer_stretch ch t idx size mode data b); try done.
    eapply waits_slack; [|done]; lia.
Qed.

Lemma writer_resume_inv ch t idx size mode data b pend :
  core 0 b -> waits 0 (PSys b pend) -> pend !! t = Some (CWriter idx size mode data) ->
  t ∈ woken (wrCond (pp b)) ->
  let r := getWriter_resume ch t idx size mode data b in
  pool_inv (PSys r.2 (settle t (CWriter idx size mode data) r.1 pend)).
Proof.
  intros C [WW WR CW CR A L] Ht Hw. cbn in *. destruct (A t idx size mode data Ht).
  destruct (cond_ok_unwake true _ _ _ _ Ht eq_refl Hw WW) as [WW' Hlen].
  unfold getWriter_resume, upd. mrun.
  set (b1 := PoolSt _ (heap b)).
  assert (core 0 b1) as C1 by (same_core C).
  assert (waits 1 (PSys b1 (delete t pend))) as W1.
  { split; cbn; try done.
    - by eapply cond_ok_forget.
    - lia.
    - intros u i s m d. rewrite lookup_delete. case_decide; [done|apply A].
    - intros Hp. destruct (L Hp) as (Lc&Lb&Li). cbn. split_and!; [done| |].
      + unfold budget in *; cbn. destruct WW as [N _].
        pose proof (unwake_members t _ N Hw) as P. apply Permutation_length in P.
        unfold members in P. cbn in P. rewrite !length_app in P. unfold unwake in *; cbn in *. lia.
      + intros u i s m d Hu. rewrite lookup_delete. case_decide; [done|]. by apply Li. }
  destruct (getWriter_loop ch t idx size mode data b1) as [o b'] eqn:E.
  eapply writer_stretch in E; [|done..|by rewrite lookup_delete_eq].
  destruct E as [? E]. split; [done|]. cbn. destruct o as [[]| |]; cbn in *;
    rewrite ?delete_delete_eq, ?insert_delete_eq in E; done.
Qed.

Lemma reader_call_inv ch t idx b pend :
  core 0 b -> waits 0 (PSys b pend) -> pend !! t = None ->
  let r := getReader ch t idx b in
  pool_inv (PSys r.2 (settle t (CReader idx) r.1 pend)).
Proof.
  intros C W Ht. unfold getReader, upd. mrun. destruct (0 <=? idx).
  - destruct (0 <=? waitIdx (pp b)); mrun; [rewrite delete_id by done; split; done|].
    set (b1 := PoolSt _ (heap b)).
    assert (core 0 b1) as C1 by (same_core C).
    assert (waits 0 (PSys b1 pend)) as W1.
    { apply (waits_quiet 0 0 (PSys b pend)); quiet_broadcast. }
    destruct (getReader_loop ch t idx b1) as [o b'] eqn:E. by eapply reader_stretch in E.
  - destruct (getReader_loop ch t idx b) as [o b'] eqn:E. by eapply reader_stretch in E.
Qed.

Lemma reader_resume_inv ch t idx b pend :
  core 0 b -> waits 0 (PSys b pend) -> pend !! t = Some (CReader idx) ->
  t ∈ woken (rdCond (pp b)) ->
  let r := getReader_resume ch t idx b in
  pool_inv (PSys r.2 (settle t (CReader idx) r.1 pend)).
Proof.
  intros C [WW WR CW CR A L] Ht Hw. cbn in *.
  destruct (cond_ok_unwake false _ _ _ _ Ht eq_refl Hw WR) as [WR' Hlen].
  unfold getReader_resume, upd. mrun.
  set (b1 := PoolSt _ (heap b)).
  assert (core 0 b1) as C1 by (same_core C).
  assert (waits 0 (PSys b1 (delete t pend))) as W1.
  { split; cbn; try done.
    - by eapply cond_ok_forget.
    - lia.
    - intros u i s m d. rewrite lookup_delete. case_decide; [done|apply A].
    - intros Hp. destruct (L Hp) as (Lc&Lb&Li). split_and!; try done.
      intros u i s m d Hu. rewrite lookup_delete. case_decide; [done|]. by apply Li. }
  destruct (getReader_loop ch t idx b1) as [o b'] eqn:E.
  eapply reader_stretch in E; [|done..|by rewrite lookup_delete_eq].
  destruct E as [? E]. split; [done|]. cbn. destruct o as [[]| |]; cbn in *;
    rewrite ?delete_delete_eq, ?insert_delete_eq in E; done.
Qed.

Lemma restore_inv ch r b pend :
  core 0 b -> waits 0 (PSys b pend) -> restores_own (PSys b pend) (RRestore r) ->
  pool_inv (PSys (restore ch r b).2 pend).
Proof.
  intros C W Hown. destruct (restore ch r b) as [o b'] eqn:E. cbn.
  destruct (restore_spec _ _ _ _ _ _ C Hown E) as (C'&E1&E2&E3&E4&E5&E6&E7&Ho).
  split; [done|]. pose proof (w_lost _ _ W) as L. cbn in L.
  destruct o as [[]|pv|]; [|destruct Ho as (F1&F2&F3&_)|done].
  2:{ apply (waits_quiet 0 0 (PSys b pend)); cbn; rewrite ?F2, ?E4; try done.
      intros Hp. rewrite F2 in Hp. destruct (L Hp) as (Lc&Lb&Li).
      unfold budget in *. rewrite E1, E2, E3, F1, F2, F3. done. }
  destruct Ho as (l&->&Hl&HA&Hh&Ho). destruct (Z.leb_spec (len (pp b)) (cap (pp b))).
  - destruct Ho as (F1&F2&F3).
    apply (waits_quiet 0 0 (PSys b pend)); cbn; rewrite ?F2, ?E4; try done.
    + apply Signal_members.
    + intros Hp. rewrite F2 in *.
      assert (parked (wrCond (pp b)) <> []) as Hp' by (intros N; by rewrite Signal_nil in Hp).
      destruct (L Hp') as (Lc&Lb&Li). destruct (Signal_parked ch _ Hp') as [S1 S2].
      rewrite E2, E3, S1. split_and!; [done| |].
      * unfold budget in *. rewrite E1, F1.
        pose proof (set_size_insert (entries (free (pp b))) (idx_of (heap b) l) l) as HS.
        unfold set_size in *. cbn in HS. rewrite <- F3 in HS. lia.
      * intros u i s m d Hu. apply Li. by apply S2.
  - destruct Ho as (F1&F2&F3).
    apply (waits_quiet 0 0 (PSys b pend)); cbn; rewrite ?F2, ?E4; try done.
    intros Hp. rewrite F2 in Hp. destruct (L Hp) as (Lc&Lb&Li).
    unfold budget in *. rewrite E1, E2, E3, F1, F2, F3. split_and!; try done. lia.
Qed.

(** Closing pipes does not touch the pool. *)
Lemma close_pipes_inv f s :
  pool_inv s -> pool_inv (PSys (close_pipes f (base s)).2 (pending s)).
Proof.
  intros [C W]. split; [by apply core_close_set|].
  destruct W. by split.
Qed.

Lemma wake_all_inv s :
  pool_inv s -> pool_inv (PSys (wake_all (base s)).2 (pending s)).
Proof.
  intros [C W]. split.
  - same_core C.
  - apply (waits_quiet 0 0 s); quiet_broadcast.
Qed.

Lemma core_drop_ready b :
  core 0 b -> core 0 (PoolSt (set_closed true (set_ready None (pp b))) (heap b)).
Proof.
  intros [I J L F A R]. split; cbn; try done.
  - intros [] k l; [apply (I SFree)|done|apply (I SActive)].
  - intros [] [] k k' l; try done; [apply (J SFree SActive)|apply (J SActive SFree)].
  - unfold total_size in *; cbn. pose proof (set_size_nonneg (ready (pp b))).
    assert (set_size None = 0) by done. lia.
Qed.

Lemma terminate_inv s :
  pool_inv s -> pool_inv (PSys (terminate (base s)).2 (pending s)).
Proof.
  intros H. pose proof (close_pipes_inv ready _ H) as H1.
  pose proof (close_pipes_inv active _ H1) as [C2 W2]. clear H H1. unfold terminate, upd. mrun.
  set (b2 := (close_pipes active _).2) in *. cbn in b2.
  split.
  - apply core_drop_ready in C2. same_core C2.
  - apply (waits_quiet 0 0 _ _ W2); quiet_broadcast.
Qed.

Lemma req_inv ch r b pend :
  pool_inv (PSys b pend) -> restores_own (PSys b pend) r ->
  pool_inv (PSys (run_req ch r b).2 pend).
Proof.
  intros H Hok. destruct r as [p|cnt| | |]; cbn.
  - destruct H. by apply restore_inv.
  - destruct H as [C W]. split.
    + same_core C.
    + apply (waits_quiet 0 0 _ _ W); quiet_broadcast.
  - apply (close_pipes_inv ready) in H. by apply (close_pipes_inv active) in H.
  - by apply wake_all_inv in H.
  - by apply terminate_inv in H.
Qed.

Lemma pool_inv0 : pool_inv psys0.
Proof.
  split; [split|split]; cbn; try done.
  - by intros [] k l.
  - by intros [] y k k' l.
  - split; [apply NoDup_nil_2|]. intros t. split; [by intros ?%elem_of_nil|].
    intros (?&?&_). by rewrite lookup_empty in *.
  - split; [apply NoDup_nil_2|]. intros t. split; [by intros ?%elem_of_nil|].
    intros (?&?&_). by rewrite lookup_empty in *.
Qed.

Lemma pool_step_inv s s' : pool_inv s -> pstep owned s s' -> pool_inv s'.
Proof.
  intros [C W] H. destruct H as [ch t c b pend Ht Hok|ch t c b pend Ht Hw|ch r b pend Hok].
  - destruct c as [idx size mode data|idx]; [by apply writer_call_inv|by apply reader_call_inv].
  - destruct c as [idx size mode data|idx]; [by apply writer_resume_inv|by apply reader_resume_inv].
  - by apply req_inv.
Qed.

Lemma reachable_inv s : reachable owned s -> pool_inv s.
Proof.
  intros H. unfold reachable in H.
  assert (forall s0, pool_inv s0 -> rtc (pstep owned) s0 s -> pool_inv s) as G.
  { intros s0 H0 R. induction R; eauto using pool_step_inv. }
  eapply G; [apply pool_inv0|done].
Qed.

End waits.
