(* ===== verification/PoolView.v ===== *)
(** A call of the pipe pool as its client sees it: what the call did to the ready
    and the active pipes, the bookkeeping of the condition variables left out. *)

From S2P Require Import Prelude Bufpipe Pool PoolInv.

Section view.
Context {BP : Bufpipe} {D : Type}.
Implicit Types (b : @poolst BP D) (s : @psys BP D).

(** A goroutine begins a call, or goes on with the one it is parked in once it
    was woken; there is no step while it sleeps. *)
Definition enter (ch : choice) (t : tid) (c : @call D) (s : @psys BP D) :
    option (outcome (option (option loc)) * @psys BP D) :=
  match pending s !! t with
  | None =>
      let r := run_call ch t c (base s) in Some (r.1, PSys r.2 (settle t c r.1 (pending s)))
  | Some _ =>
      if decide (t ∈ woken (cond_of c (pp (base s)))) then
        let r := resume_call ch t c (base s) in Some (r.1, PSys r.2 (settle t c r.1 (pending s)))
      else None
  end.

(** A request that never parks. *)
Definition request (ch : choice) (r : req) (s : @psys BP D) : outcome unit * @psys BP D :=
  let x := run_req ch r (base s) in (x.1, PSys x.2 (pending s)).

(** The pipes are what they were. *)
Record same_store (b b' : @poolst BP D) : Prop := SameStore {
  ss_heap : heap b' = heap b;
  ss_ready : entries (ready (pp b')) = entries (ready (pp b));
  ss_active : entries (active (pp b')) = entries (active (pp b));
  ss_closed : closed (pp b') = closed (pp b);
}.

(** [l] is a new ready pipe for the index [idx]. *)
Record new_pipe (idx size mode : Z) (data : option D) (l : loc) (b b' : @poolst BP D) : Prop := NewPipe {
  np_open : closed (pp b) = false;
  np_open' : closed (pp b') = false;
  np_fresh : entries (ready (pp b)) !! idx = None;
  np_ready : entries (ready (pp b')) = <[idx := l]> (entries (ready (pp b)));
  np_active : entries (active (pp b')) = entries (active (pp b));
  np_pipe : exists q, heap b' !! l = Some q /\ p_idx q = idx /\ p_data q = data /\ (0 <= size -> fits size mode q);
  np_heap l' : l' <> l -> heap b' !! l' = heap b !! l';
  np_not_ready k : entries (ready (pp b)) !! k <> Some l;
  np_not_active k : entries (active (pp b)) !! k <> Some l;
}.

(** [l], filed under [k], went from the ready pipes to the active ones. *)
Record taken (k : Z) (l : loc) (b b' : @poolst BP D) : Prop := Taken {
  tk_was : entries (ready (pp b)) !! k = Some l;
  tk_ready : entries (ready (pp b')) = delete k (entries (ready (pp b)));
  tk_active : entries (active (pp b')) = <[k := l]> (entries (active (pp b)));
  tk_heap : heap b' = heap b;
  tk_closed : closed (pp b') = closed (pp b);
}.

Lemma same_store_trans b1 b2 b3 : same_store b1 b2 -> same_store b2 b3 -> same_store b1 b3.
Proof. intros [] []. split; congruence. Qed.

(** ** getWriter *)

Lemma recycle_heap (l : loc) size mode b o b' l' :
  recycle_pipe l size mode b = (o, b') -> l' <> l -> heap b' !! l' = heap b !! l'.
Proof.
  assert (forall f : pipe -> pipe, l' <> l -> heap (PoolSt (pp b) (alter f l (heap b))) !! l' = heap b !! l') as HA
    by (intros f Hne; cbn [heap]; by rewrite lookup_alter_ne).
  unfold recycle_pipe, go_make. mrun. destruct (heap b !! l); [|by intros [= _ <-]].
  destruct (negb _ || negb _); [destruct (_ <=? _); [destruct (reslice _ _)|destruct (_ <? _)]|];
    rewrite ?upd_pipe_run; intros [= _ <-]; auto.
Qed.

Lemma acquire_heap ch size mode b l b' l' :
  acquire_pipe ch size mode b = (Ret l, b') -> l' <> l -> heap b' !! l' = heap b !! l'.
Proof.
  unfold acquire_pipe. mrun. destruct (pop ch (heap b) (free (pp b))) as [[k|] f]; intros H Hne.
  - mrun_in H. destruct (recycle_pipe k size mode _) as [[[]|p|] b1] eqn:Hr; try done.
    injection H as <- <-. by apply (recycle_heap _ _ _ _ _ _ l') in Hr.
  - unfold alloc_pipe, go_make, upd in H. mrun_in H. destruct (size <? 0); [done|].
    injection H as <- <-. cbn. by rewrite lookup_insert_ne.
Qed.

Lemma writer_body_heap ch idx size mode data b l b' l' :
  getWriter_body ch idx size mode data b = (Ret (Some l), b') -> l' <> l -> heap b' !! l' = heap b !! l'.
Proof.
  unfold getWriter_body. mrun. destruct (closed (pp b)); [done|].
  destruct (acquire_pipe ch size mode b) as [[k|p|] b1] eqn:Ha; [|done|done].
  unfold publish_pipe, lift, upd. mrun. intros H Hne. destruct (entries (ready (pp b1)) !! idx); [done|].
  destruct (ready (pp b1)); [|done]. injection H as <- <-. cbn. rewrite lookup_alter_ne by done.
  by eapply acquire_heap.
Qed.

Lemma writer_body_view {BS : BufpipeSpec BP} ch idx size mode data b o b' :
  core 0 b -> getWriter_body ch idx size mode data b = (o, b') ->
  core 0 b' /\
  match o with
  | Ret None => same_store b b' /\ closed (pp b) = true
  | Ret (Some l) => new_pipe idx size mode data l b b'
  | Pan _ => True
  | NoFuel => False
  end.
Proof.
  intros C H. destruct (getWriter_body_spec _ _ _ _ _ _ _ _ C H) as (C1&W&HA&_&HC&_&HR).
  split; [done|]. destruct o as [[l|]|p|]; [| |done|].
  - destruct HR as (Hf&Hr&_&q&Hq).
    assert (Hcl : closed (pp b) = false) by (destruct (closed (pp b)); [by destruct HC|done]).
    assert (Hl : entries (set_of SReady (pp b')) !! idx = Some l) by (cbn [set_of]; by rewrite Hr, lookup_insert_eq).
    split; try done.
    + by rewrite (sw_closed _ _ W).
    + by rewrite HA.
    + by exists q.
    + intros l' Hne. by eapply writer_body_heap.
    + intros k Hk. destruct (decide (k = idx)) as [->|Hne]; [congruence|].
      assert (entries (set_of SReady (pp b')) !! k = Some l) as Hk' by (cbn [set_of]; by rewrite Hr, lookup_insert_ne).
      destruct (core_idx _ _ C1 _ _ _ Hk') as (p1&Hp1&?). destruct (core_idx _ _ C1 _ _ _ Hl) as (p2&Hp2&?). congruence.
    + intros k Hk. assert (entries (set_of SActive (pp b')) !! k = Some l) as Hk' by (cbn [set_of]; by rewrite HA).
      by pose proof (core_disj _ _ C1 SActive SReady k idx l Hk' Hl).
  - destruct (HC HR) as [-> _]. by split.
  - unfold getWriter_body in H. revert H. mrun. destruct HR as [_ HR]. clear - C BS.
    destruct (closed (pp b)); [done|]. destruct (acquire_pipe ch size mode b) as [[k|p|] b1] eqn:Ha; [|done|].
    + unfold publish_pipe, lift, upd. mrun. destruct (entries (ready (pp b1)) !! idx); [done|]. by destruct (ready (pp b1)).
    + intros _. by destruct (acquire_pipe_spec _ _ _ _ _ _ C Ha) as (_&_&_&_&_&_&_&?).
Qed.

Lemma writer_loop_view {BS : BufpipeSpec BP} ch t idx size mode data b o b' :
  core 0 b -> getWriter_loop ch t idx size mode data b = (o, b') ->
  core 0 b' /\
  match o with
  | Ret None => same_store b b'
  | Ret (Some None) => same_store b b' /\ closed (pp b) = true
  | Ret (Some (Some l)) => new_pipe idx size mode data l b b'
  | Pan _ => True
  | NoFuel => False
  end.
Proof.
  intros C. unfold getWriter_loop, upd. mrun. destruct (wr_blocked idx (pp b)).
  { intros [= <- <-]. split; [same_core C|done]. }
  destruct (getWriter_body ch idx size mode data b) as [r b1] eqn:E.
  destruct (writer_body_view _ _ _ _ _ _ _ _ C E) as [C1 HR].
  destruct r as [[l|]|p|]; intros [= <- <-]; by split.
Qed.

Lemma enter_writer {BS : BufpipeSpec BP} ch t idx size mode data s o s' :
  core 0 (base s) -> enter ch t (CWriter idx size mode data) s = Some (o, s') ->
  core 0 (base s') /\
  match o with
  | Ret None => same_store (base s) (base s')
  | Ret (Some None) => same_store (base s) (base s') /\ closed (pp (base s)) = true
  | Ret (Some (Some l)) => new_pipe idx size mode data l (base s) (base s')
  | Pan _ => True
  | NoFuel => False
  end.
Proof.
  intros C. unfold enter. destruct (pending s !! t).
  - case_decide; [|done]. cbn [resume_call]. intros [= <- <-]. cbn [base].
    unfold getWriter_resume, upd. mrun. set (b1 := PoolSt _ _).
    assert (C1 : core 0 b1) by same_core C.
    pose proof (writer_loop_view ch t idx size mode data b1 _ _ C1 (surjective_pairing _)) as [C2 HR].
    split; [done|]. destruct (getWriter_loop ch t idx size mode data b1).1 as [[[l|]|]|p|]; [| | |done|done].
    + by destruct HR.
    + by destruct HR as [[] ?].
    + by destruct HR.
  - cbn [run_call]. intros [= <- <-]. cbn [base]. unfold getWriter. destruct (idx <? 0); [by split|].
    apply (writer_loop_view ch t idx size mode data _ _ _ C). apply surjective_pairing.
Qed.

(** A request for a new index and a sensible size does not panic. *)
Lemma writer_loop_total {BS : BufpipeSpec BP} ch t idx size mode data b :
  core 0 b -> 0 <= size -> entries (ready (pp b)) !! idx = None ->
  exists r, (getWriter_loop ch t idx size mode data b).1 = Ret r.
Proof.
  intros C Hs Hn. unfold getWriter_loop, upd. mrun. destruct (wr_blocked idx (pp b)); [by eexists|].
  unfold getWriter_body. mrun. destruct (closed (pp b)) eqn:Hcl; [by eexists|].
  destruct (acquire_pipe ch size mode b) as [o1 b1] eqn:Ha.
  destruct (acquire_pipe_spec _ _ _ _ _ _ C Ha) as (_&_&HR&_&_&_&HB&_).
  destruct (HB Hs) as (l&q&->&_). unfold publish_pipe, lift, upd. mrun. rewrite HR, Hn.
  destruct (ready (pp b)) eqn:Er; [by eexists|]. by rewrite (core_ready _ _ C Er) in Hcl.
Qed.

Lemma enter_writer_total {BS : BufpipeSpec BP} ch t idx size mode data s o s' :
  core 0 (base s) -> 0 <= idx -> 0 <= size -> entries (ready (pp (base s))) !! idx = None ->
  enter ch t (CWriter idx size mode data) s = Some (o, s') -> exists r, o = Ret r.
Proof.
  intros C Hi Hs Hn. unfold enter. destruct (pending s !! t).
  - case_decide; [|done]. cbn [resume_call]. intros [= <- <-].
    unfold getWriter_resume, upd. mrun. apply writer_loop_total; [same_core C|done|done].
  - cbn [run_call]. intros [= <- <-]. unfold getWriter. rewrite (proj2 (Z.ltb_ge _ _)) by done.
    by apply writer_loop_total.
Qed.

(** ** getReader *)

Lemma reader_loop_view ch t idx b o b' :
  core 0 b -> getReader_loop ch t idx b = (o, b') ->
  core 0 b' /\
  match o with
  | Ret None => same_store b b'
  | Ret (Some None) => same_store b b' /\ closed (pp b) = true /\
      if 0 <=? idx then entries (ready (pp b)) !! idx = None else entries (ready (pp b)) = ∅
  | Ret (Some (Some l)) => exists k, (0 <= idx -> k = idx) /\ taken k l b b'
  | _ => False
  end.
Proof.
  intros C. unfold getReader_loop, upd. mrun. destruct (rd_blocked idx (pp b)) eqn:Hb.
  { intros [= <- <-]. split; [same_core C|done]. }
  destruct (getReader_body ch idx b) as [r b1] eqn:E.
  destruct (getReader_body_spec _ _ _ _ _ C E) as (C1&Hh&Hcl&_&_&_&_&_&_&_&_&p&->&HR).
  intros [= <- <-]. split; [done|]. destruct p as [l|].
  - destruct HR as (k&Hk&Hi&Hr&Ha). by exists k.
  - destruct HR as (Hr&Ha&Hn). split; [|split].
    + split; congruence.
    + unfold rd_blocked in Hb. destruct (closed (pp b)); [done|]. cbn in Hb. unfold rd_wait in Hb.
      destruct (0 <=? idx); [by rewrite Hn in Hb|]. apply set_size_zero in Hn. by rewrite Hn in Hb.
    + done.
Qed.

Lemma enter_reader ch t idx s o s' :
  core 0 (base s) -> enter ch t (CReader idx) s = Some (o, s') ->
  core 0 (base s') /\
  match o with
  | Ret None => same_store (base s) (base s')
  | Ret (Some None) => same_store (base s) (base s') /\ closed (pp (base s)) = true /\
      if 0 <=? idx then entries (ready (pp (base s))) !! idx = None else entries (ready (pp (base s))) = ∅
  | Ret (Some (Some l)) => exists k, (0 <= idx -> k = idx) /\ taken k l (base s) (base s')
  | Pan p => same_store (base s) (base s') /\ p <> PErr None
  | NoFuel => False
  end.
Proof.
  intros C. assert (HL : forall b1 r, core 0 b1 -> same_store (base s) b1 -> getReader_loop ch t idx b1 = r ->
    core 0 r.2 /\
    match r.1 with
    | Ret None => same_store (base s) r.2
    | Ret (Some None) => same_store (base s) r.2 /\ closed (pp (base s)) = true /\
        if 0 <=? idx then entries (ready (pp (base s))) !! idx = None else entries (ready (pp (base s))) = ∅
    | Ret (Some (Some l)) => exists k, (0 <= idx -> k = idx) /\ taken k l (base s) r.2
    | Pan p => same_store (base s) r.2 /\ p <> PErr None
    | NoFuel => False
    end).
  { intros b1 [o1 b2] C1 S1 E. destruct (reader_loop_view _ _ _ _ _ _ C1 E) as [C2 HR]. split; [done|].
    pose proof S1 as [S11 S12 S13 S14]. cbn [fst snd].
    destruct o1 as [[[l|]|]|p|]; [| | |done|done].
    - destruct HR as (k&Hi&[]). exists k. split; [done|]. split; congruence.
    - destruct HR as (S2&Hc&Hn). rewrite S14 in Hc. rewrite S12 in Hn. split; [by eapply same_store_trans|done].
    - by eapply same_store_trans. }
  unfold enter. destruct (pending s !! t).
  - case_decide; [|done]. cbn [resume_call]. intros [= <- <-]. cbn [base].
    unfold getReader_resume, upd. mrun. eapply HL; [|..|reflexivity]; [same_core C|done].
  - cbn [run_call]. intros [= <- <-]. cbn [base]. unfold getReader, upd. mrun.
    destruct (0 <=? idx); mrun; [|by eapply HL].
    destruct (0 <=? waitIdx (pp (base s))); mrun; [by split|]. eapply HL; [|..|reflexivity]; [same_core C|done].
Qed.

(** ** The requests *)

Lemma restore_loud ch o b p b' : restore ch o b = (Pan p, b') -> p <> PErr None.
Proof.
  unfold restore. mrun. destruct (remove _ _ _) as [[] a]; unfold upd; mrun; [|by intros [= <- _]].
  destruct o as [l|]; mrun; [|by intros [= <- _]]. unfold upd_pipe. mrun. case_match; [|done].
  unfold push, lift. destruct (free _); mrun; [done|by intros [= <- _]].
Qed.

Lemma request_restore ch l s o s' :
  core 0 (base s) -> (forall l', entries (active (pp (base s))) !! idx_of (heap (base s)) l = Some l' -> l' = l) ->
  request ch (RRestore (Some l)) s = (o, s') ->
  core 0 (base s') /\
  match o with
  | Ret _ => entries (active (pp (base s'))) = delete (idx_of (heap (base s)) l) (entries (active (pp (base s)))) /\
      entries (ready (pp (base s'))) = entries (ready (pp (base s))) /\
      heap (base s') = alter close_pipe l (heap (base s)) /\ closed (pp (base s')) = closed (pp (base s))
  | Pan p => p <> PErr None
  | NoFuel => False
  end.
Proof.
  intros C Hown. unfold request. cbn [run_req]. intros [= <- <-]. cbn [base].
  destruct (restore ch (Some l) (base s)) as [o b'] eqn:E. cbn [fst snd].
  destruct (restore_spec (base s) ch (Some l) o b' (pending s) C Hown E) as (C1&_&Hcl&_&_&Hr&_&_&HR). split; [done|].
  destruct o as [[]|p|]; [|by eapply restore_loud|done]. destruct HR as (l'&[= <-]&_&Ha&Hh&_).
  by rewrite Ha, entries_delete, Hr.
Qed.

Lemma request_quiet ch r s :
  core 0 (base s) -> (exists n, r = RSetCapacity n) ->
  exists s', request ch r s = (Ret tt, s') /\ core 0 (base s') /\ same_store (base s) (base s').
Proof. intros C [n ->]. eexists. split; [reflexivity|]. split; [same_core C|done]. Qed.

Lemma request_close ch s :
  core 0 (base s) ->
  exists s', request ch RClose s = (Ret tt, s') /\ core 0 (base s') /\ closed (pp (base s')) = true /\
    heap (base s') = heap (base s) /\ ready (pp (base s')) = ready (pp (base s)) /\
    active (pp (base s')) = active (pp (base s)).
Proof. intros C. eexists. split; [reflexivity|]. split; [same_core C|done]. Qed.

End view.
