(* ===== verification/PoolThms.v ===== *)
(** What the pipe pool promises: the invariants of its reachable states, the
    fairness of its wake-ups, the order of its pipes and its shutdown. *)

From S2P Require Import Prelude Bufpipe Pool PoolInv PoolWait.

Section readers.
Context {BP : Bufpipe} {BS : BufpipeSpec BP} {D : Type}.
Implicit Types (b : @poolst BP D) (s : @psys BP D) (pend : gmap tid (@call D)).

(** * No release of a reader is lost *)

(** Workers: every reader takes any pipe. *)
Definition any_readers : discipline (D := D) :=
  Discipline
    (fun _ _ c => call_size c /\ match c with CReader idx => idx < 0 | _ => True end)
    restores_own.

Definition no_lost_any (n : Z) (s : @psys BP D) : Prop :=
  (forall t idx, pending s !! t = Some (CReader idx) -> idx < 0) /\
  (parked (rdCond (pp (base s))) <> [] ->
   closed (pp (base s)) = false /\
   set_size (ready (pp (base s))) <= Z.of_nat (length (woken (rdCond (pp (base s))))) + n).

Lemma settle_reader t c o pend u idx :
  settle t c o pend !! u = Some (CReader idx) ->
  (c = CReader idx /\ u = t) \/ pend !! u = Some (CReader idx).
Proof.
  destruct o as [[]| |]; cbn; rewrite ?lookup_delete, ?lookup_insert; case_decide; naive_solver.
Qed.

(** What a writer's stretch does to the readers' side. *)
Lemma writer_stretch_readers ch t idx size mode data b o b' :
  core 0 b -> getWriter_loop ch t idx size mode data b = (o, b') ->
  closed (pp b') = closed (pp b) /\
  ((rdCond (pp b') = rdCond (pp b) /\ ready (pp b') = ready (pp b)) \/
   (rdCond (pp b') = Signal ch (rdCond (pp b)) /\
    exists l, entries (ready (pp b')) = <[idx := l]> (entries (ready (pp b))))).
Proof.
  intros C. unfold getWriter_loop, upd. mrun. destruct (wr_blocked idx (pp b)).
  { intros [= <- <-]. cbn. auto. }
  destruct (getWriter_body _ _ _ _ _ b) as [r b1] eqn:Hg.
  destruct (getWriter_body_spec _ _ _ _ _ _ _ _ C Hg) as (_&SW&_&_&HC&_&HR).
  destruct r as [[l|]|pv|]; intros [= <- <-]; (split; [apply SW|]).
  - destruct HR as (_&HR1&HR2&_). eauto.
  - destruct (HC HR) as [-> _]. auto.
  - destruct HR. auto.
  - destruct HR. auto.
Qed.

Lemma writer_any n t c o b b' ch idx pend :
  is_writer c = true -> no_lost_any n (PSys b pend) -> closed (pp b') = closed (pp b) ->
  ((rdCond (pp b') = rdCond (pp b) /\ ready (pp b') = ready (pp b)) \/
   (rdCond (pp b') = Signal ch (rdCond (pp b)) /\
    exists l, entries (ready (pp b')) = <[idx := l]> (entries (ready (pp b))))) ->
  no_lost_any n (PSys b' (settle t c o pend)).
Proof.
  intros Hc [HA HL] Ecl H. split; cbn in *.
  { intros u i Hu. apply settle_reader in Hu as [[-> _]|Hu]; [done|]. by eapply HA. }
  rewrite Ecl. destruct H as [[-> ->]|[-> [l Hl]]]; [done|]. intros Hp.
  assert (parked (rdCond (pp b)) <> []) as Hp' by (intros N; by rewrite Signal_nil in Hp).
  destruct (HL Hp') as [? HB]. destruct (Signal_parked ch _ Hp') as [-> _]. split; [done|].
  pose proof (set_size_insert (entries (ready (pp b))) idx l) as HS.
  unfold set_size in *. cbn in HS. rewrite <- Hl in HS. lia.
Qed.

Lemma reader_stretch_any ch t idx b pend o b' :
  idx < 0 -> core 0 b -> pend !! t = None -> no_lost_any 1 (PSys b pend) ->
  getReader_loop ch t idx b = (o, b') ->
  no_lost_any 0 (PSys b' (settle t (CReader idx) o pend)).
Proof.
  intros Hi C Ht [HA HL]. unfold getReader_loop, upd. mrun.
  destruct (rd_blocked idx (pp b)) eqn:HB.
  - intros [= <- <-]. cbn. split; cbn.
    { intros u i. rewrite lookup_insert. case_decide; [naive_solver|apply HA]. }
    intros _. unfold rd_blocked, rd_wait in HB. apply andb_true_iff in HB as [HB1 HB2].
    rewrite negb_true_iff in HB1. destruct (Z.leb_spec 0 idx); [lia|]. apply Z.eqb_eq in HB2.
    split; [done|lia].
  - intros H. destruct (getReader_body ch idx b) as [r b1] eqn:Hg.
    destruct (getReader_body_spec _ _ _ _ _ C Hg) as (_&_&E1&_&_&_&_&E6&_&_&_&r0&->&Hr).
    injection H as <- <-. cbn. rewrite delete_id by done. split; [done|]. cbn in *.
    rewrite E1, E6. intros Hp. destruct (HL Hp) as [Hc HS]. split; [done|].
    unfold set_size in *. destruct r0 as [l|].
    + destruct Hr as (k&Hk&_&Hd&_). rewrite Hd, map_size_delete_Some by eauto.
      enough (size (entries (ready (pp b))) <> 0%nat) by lia.
      intros E. apply map_size_empty_inv in E. by rewrite E in Hk.
    + destruct (Z.leb_spec 0 idx); [lia|]. destruct Hr as (->&_&->). rewrite map_size_empty. lia.
Qed.

Lemma no_lost_any_step s s' :
  pool_inv s -> no_lost_any 0 s -> pstep any_readers s s' -> no_lost_any 0 s'.
Proof.
  intros [C W] L H.
  destruct H as [ch t c b pend Ht [Hok Hi]|ch t c b pend Ht Hw|ch r b pend Hok]; cbn in C.
  - destruct c as [idx size mode data|idx]; cbn.
    + unfold getWriter. destruct (idx <? 0); [apply (writer_any 0 t _ _ b b ch idx); auto|].
      destruct (getWriter_loop _ _ _ _ _ _ b) as [o b'] eqn:E.
      apply writer_stretch_readers in E as [? ?]; [|done]. by eapply writer_any.
    + unfold getReader. mrun. destruct (Z.leb_spec 0 idx); [lia|].
      destruct (getReader_loop ch t idx b) as [o b'] eqn:E.
      eapply reader_stretch_any; eauto. destruct L as [LA LL]. split; [done|].
      intros Hp. destruct (LL Hp). split; [done|lia].
  - destruct c as [idx size mode data|idx]; cbn in *.
    + unfold getWriter_resume, upd. mrun.
      destruct (getWriter_loop _ _ _ _ _ _ _) as [o b'] eqn:E.
      apply writer_stretch_readers in E as [? ?];
        [|same_core C].
      by eapply writer_any.
    + destruct L as [LA LL]. pose proof (LA _ _ Ht) as Hi. unfold getReader_resume, upd. mrun.
      destruct (getReader_loop ch t idx _) as [o b'] eqn:E.
      destruct (w_rd _ _ W) as [N _]. cbn in N, Hw.
      pose proof (unwake_members t _ N Hw) as P. apply Permutation_length in P.
      assert (no_lost_any 0 (PSys b' (settle t (CReader idx) o (delete t pend)))) as G.
      { eapply reader_stretch_any; [done| |apply lookup_delete_eq| |exact E].
        - same_core C.
        - split; cbn in *.
          + intros u i. rewrite lookup_delete. case_decide; [done|apply LA].
          + intros Hp. destruct (LL Hp) as [? HB]. split; [done|].
            unfold members in P. cbn in P. rewrite !length_app in P. unfold unwake in *; cbn in *. lia. }
      destruct o as [[]| |]; cbn in *; rewrite ?delete_delete_eq, ?insert_delete_eq in G; done.
  - destruct L as [LA LL]. destruct r as [p|cnt| | |]; cbn in *.
    + destruct (restore ch p b) as [o b'] eqn:E.
      destruct (restore_spec b ch p o b' pend C Hok E) as (_&_&E2&_&E4&E5&_). split; [done|]; cbn.
      by rewrite E2, E4, E5.
    + by split.
    + by split.
    + split; [done|]. cbn. done.
    + split; [done|]. cbn. done.
Qed.

(** The one goroutine [t0] that reads from the pool. *)
Definition one_reader (t0 : tid) : discipline (D := D) :=
  Discipline
    (fun _ t c => call_size c /\ match c with CReader _ => t = t0 | _ => True end)
    restores_own.

Definition no_lost_one (t0 : tid) (s : @psys BP D) : Prop :=
  (forall t idx, pending s !! t = Some (CReader idx) -> t = t0) /\
  (t0 ∈ parked (rdCond (pp (base s))) ->
   closed (pp (base s)) = false /\
   forall idx, pending s !! t0 = Some (CReader idx) -> rd_wait idx (pp (base s)) = true).

Lemma parked_one t0 s :
  waits 0 s -> (forall t idx, pending s !! t = Some (CReader idx) -> t = t0) ->
  t0 ∈ parked (rdCond (pp (base s))) -> parked (rdCond (pp (base s))) = [t0].
Proof.
  intros W H Hin. destruct (w_rd _ _ W) as [N M]. unfold members in *.
  apply NoDup_app in N as (N&_&_).
  assert (forall t, t ∈ parked (rdCond (pp (base s))) -> t = t0) as HA.
  { intros t Ht. destruct (proj1 (M t)) as ([|i]&Hp&Hw); [apply elem_of_app; auto|done|eauto]. }
  destruct (parked (rdCond (pp (base s)))) as [|x [|y l]]; [by apply not_elem_of_nil in Hin| |].
  - f_equal. apply HA. left.
  - exfalso. apply NoDup_cons in N as [Nx _]. apply Nx.
    rewrite (HA x) by left. rewrite (HA y) by (right; left). left.
Qed.

Lemma Signal_one ch c t0 : parked c = [t0] -> parked (Signal ch c) = [].
Proof. intros H. unfold Signal. rewrite H. cbn [length]. by rewrite Nat.mod_1_r. Qed.

Lemma writer_one t0 t c o b b' ch idx pend :
  (t0 ∈ parked (rdCond (pp b)) -> parked (rdCond (pp b)) = [t0]) ->
  is_writer c = true -> no_lost_one t0 (PSys b pend) -> closed (pp b') = closed (pp b) ->
  ((rdCond (pp b') = rdCond (pp b) /\ ready (pp b') = ready (pp b)) \/
   (rdCond (pp b') = Signal ch (rdCond (pp b)) /\
    exists l, entries (ready (pp b')) = <[idx := l]> (entries (ready (pp b))))) ->
  no_lost_one t0 (PSys b' (settle t c o pend)).
Proof.
  intros H1 Hc [HA HL] Ecl H. split; cbn in *.
  { intros u i Hu. apply settle_reader in Hu as [[-> _]|Hu]; [done|]. by eapply HA. }
  rewrite Ecl. destruct H as [[-> HR]|[-> [l Hl]]].
  - intros Hp. destruct (HL Hp) as [? Hi]. split; [done|]. intros i Hi'.
    apply settle_reader in Hi' as [[-> _]|Hi']; [done|]. specialize (Hi _ Hi').
    unfold rd_wait in *. by rewrite HR.
  - intros Hp.
    assert (t0 ∈ parked (rdCond (pp b))) as Hp'.
    { destruct (decide (parked (rdCond (pp b)) = [])) as [E|E].
      - by rewrite Signal_nil in Hp.
      - by apply (proj2 (Signal_parked ch _ E)). }
    rewrite (Signal_one ch _ _ (H1 Hp')) in Hp. by apply not_elem_of_nil in Hp.
Qed.

Lemma reader_stretch_one ch t0 idx b pend o b' :
  core 0 b -> no_lost_one t0 (PSys b pend) -> getReader_loop ch t0 idx b = (o, b') ->
  t0 ∉ parked (rdCond (pp b)) ->
  no_lost_one t0 (PSys b' (settle t0 (CReader idx) o pend)).
Proof.
  intros C [HA HL] H Hn. split; cbn.
  { intros u i Hu. apply settle_reader in Hu as [[_ ->]|Hu]; [done|]. by eapply HA. }
  revert H. unfold getReader_loop, upd. mrun. destruct (rd_blocked idx (pp b)) eqn:HB.
  - intros [= <- <-] _. cbn. apply andb_true_iff in HB as [HB1 HB2].
    rewrite negb_true_iff in HB1. split; [done|]. intros i. rewrite lookup_insert_eq. by intros [= ->].
  - intros H. destruct (getReader_body ch idx b) as [r b1] eqn:Hg.
    destruct (getReader_body_spec _ _ _ _ _ C Hg) as (_&_&E1&_&_&_&_&E6&_&_&_&r0&->&Hr).
    injection H as <- <-. by rewrite E6.
Qed.

Lemma no_lost_one_step t0 s s' :
  pool_inv s -> no_lost_one t0 s -> pstep (one_reader t0) s s' -> no_lost_one t0 s'.
Proof.
  intros [C W] L H. pose proof (parked_one t0 s W (proj1 L)) as P1.
  destruct H as [ch t c b pend Ht [Hok Hi]|ch t c b pend Ht Hw|ch r b pend Hok]; cbn in C, P1.
  - destruct c as [idx size mode data|idx]; cbn.
    + unfold getWriter. destruct (idx <? 0); [apply (writer_one t0 t _ _ b b ch idx); auto|].
      destruct (getWriter_loop _ _ _ _ _ _ b) as [o b'] eqn:E.
      apply writer_stretch_readers in E as [? ?]; [|done]. eapply writer_one; eauto.
    + subst t.
      assert (t0 ∉ parked (rdCond (pp b))) as Hn.
      { intros Hin. destruct (proj1 (proj2 (w_rd _ _ W) t0)) as (?&E&_); [|cbn in E; congruence].
        apply elem_of_app. by left. }
      unfold getReader, upd. mrun. destruct (0 <=? idx).
      * destruct (0 <=? waitIdx (pp b)); mrun; [by rewrite delete_id|].
        destruct (getReader_loop ch t0 idx _) as [o b'] eqn:E.
        eapply reader_stretch_one; [| |exact E|done]; [|done].
        same_core C.
      * destruct (getReader_loop ch t0 idx b) as [o b'] eqn:E.
        by eapply reader_stretch_one.
  - destruct c as [idx size mode data|idx]; cbn in *.
    + unfold getWriter_resume, upd. mrun.
      destruct (getWriter_loop _ _ _ _ _ _ _) as [o b'] eqn:E.
      apply writer_stretch_readers in E as [? ?];
        [|same_core C].
      by eapply writer_one; [| | |exact H|exact H0].
    + destruct L as [LA LL]. pose proof (LA _ _ Ht) as ->.
      assert (t0 ∉ parked (rdCond (pp b))) as Hn.
      { destruct (w_rd _ _ W) as [N _]. cbn in N. unfold members in N.
        apply NoDup_app in N as (_&N&_). intros Hin. by apply (N t0). }
      unfold getReader_resume, upd. mrun.
      destruct (getReader_loop ch t0 idx _) as [o b'] eqn:E.
      eapply reader_stretch_one; [| |exact E|done]; [|split; [done|]; cbn; done].
      same_core C.
  - destruct L as [LA LL]. destruct r as [p|cnt| | |]; cbn in *.
    + destruct (restore ch p b) as [o b'] eqn:E.
      destruct (restore_spec b ch p o b' pend C Hok E) as (_&_&E2&_&E4&E5&_). split; [done|]; cbn.
      rewrite E2, E4. unfold rd_wait in *. by rewrite E5.
    + by split.
    + by split.
    + split; [done|]. cbn. by intros ?%elem_of_nil.
    + split; [done|]. cbn. by intros ?%elem_of_nil.
Qed.

End readers.

Section promises.
Context {BP : Bufpipe} {BS : BufpipeSpec BP} {D : Type}.
Implicit Types (b : @poolst BP D) (s : @psys BP D) (pend : gmap tid (@call D)).

Lemma pstep_mono (ok ok' : discipline) s s' :
  (forall s t c, ok_call ok s t c -> ok_call ok' s t c) ->
  (forall s r, ok_req ok s r -> ok_req ok' s r) ->
  pstep ok s s' -> pstep ok' s s'.
Proof. intros HC HR []; econstructor; eauto. Qed.

Lemma any_inv s : reachable any_readers s -> pool_inv s /\ no_lost_any 0 s.
Proof.
  intros H. unfold reachable in H.
  assert (forall s0, pool_inv s0 -> no_lost_any 0 s0 -> rtc (pstep any_readers) s0 s ->
            pool_inv s /\ no_lost_any 0 s) as G.
  { clear H. intros s0 H0 L0 R. induction R as [|s1 s2 s3 R1 R2 IH]; [done|]. apply IH.
    - eapply pool_step_inv; [done|]. eapply pstep_mono; [..|done]; [by intros ??? []|done].
    - by eapply no_lost_any_step. }
  eapply G; [apply pool_inv0|split; cbn; [|done]|done]. intros t idx. by rewrite lookup_empty.
Qed.

Lemma one_inv t0 s : reachable (one_reader t0) s -> pool_inv s /\ no_lost_one t0 s.
Proof.
  intros H. unfold reachable in H.
  assert (forall s0, pool_inv s0 -> no_lost_one t0 s0 -> rtc (pstep (one_reader t0)) s0 s ->
            pool_inv s /\ no_lost_one t0 s) as G.
  { clear H. intros s0 H0 L0 R. induction R as [|s1 s2 s3 R1 R2 IH]; [done|]. apply IH.
    - eapply pool_step_inv; [done|]. eapply pstep_mono; [..|done]; [by intros ??? []|done].
    - by eapply no_lost_one_step. }
  eapply G; [apply pool_inv0|split; cbn|done].
  - intros t idx. by rewrite lookup_empty.
  - by intros ?%not_elem_of_nil.
Qed.

(** The calls of one kind that are inside a [Wait]. *)
Definition waiting (w : bool) (pend : gmap tid (@call D)) : gmap tid call :=
  filter (fun '(_, c) => is_writer c = w) pend.

Lemma members_waiting w c pend : cond_ok w c pend -> zlen (members c) = Z.of_nat (size (waiting w pend)).
Proof.
  intros [N H]. unfold zlen. f_equal. rewrite <- size_dom.
  rewrite <- (size_list_to_set (C := gset tid) _ N). f_equal. apply set_eq. intros t.
  rewrite elem_of_list_to_set, H, elem_of_dom. unfold waiting. split.
  - intros (cl&Hp&Hw). exists cl. by apply map_lookup_filter_Some.
  - intros [cl [Hp Hw]%map_lookup_filter_Some]. eauto.
Qed.

(** * Structure *)

(** C31: Whatever the goroutines do, and in whatever order they are scheduled,
    the three sets of a pool stay well formed: each pipe is filed under its own
    index, no pipe is in two sets, the sets never hold more pipes than [len]
    counts, and [ready] becomes the nil map only once the pool is closed. *)
Theorem pool_structure s : reachable owned s -> core 0 (base s).
Proof. intros H. by apply reachable_inv in H as [C _]. Qed.

(** C38: [getStats] returns the number of goroutines that are inside the wait
    loop of [getWriter] and of [getReader]: the two counters, which are
    incremented and decremented around every [Wait], never drift. *)
Theorem getStats_counts s :
  reachable owned s ->
  getStats (base s) =
    (Ret (Z.of_nat (size (waiting true (pending s))), Z.of_nat (size (waiting false (pending s)))),
     base s).
Proof.
  intros H. apply reachable_inv in H as [_ W]. unfold getStats. mrun.
  rewrite (w_wrCnt _ _ W), (w_rdCnt _ _ W).
  by rewrite (members_waiting _ _ _ (w_wr _ _ W)), (members_waiting _ _ _ (w_rd _ _ W)).
Qed.

(** * No goroutine sleeps through its wake-up *)

(** C30: A writer never stays parked while it could go on with nobody released:
    in a reachable state, if the loop condition of a parked [getWriter] is
    false, then some writer was already signalled and has still to run. *)
Theorem parked_writer_not_forgotten s t idx size mode data :
  reachable owned s ->
  t ∈ parked (wrCond (pp (base s))) ->
  pending s !! t = Some (CWriter idx size mode data) ->
  wr_blocked idx (pp (base s)) = false ->
  woken (wrCond (pp (base s))) <> [].
Proof.
  intros H Hin Hp HB. apply reachable_inv in H as [_ W].
  destruct (w_lost _ _ W) as (Lc&Lb&Li); [by intros E; rewrite E in Hin; apply not_elem_of_nil in Hin|].
  specialize (Li _ _ _ _ _ Hin Hp). unfold wr_blocked in HB. rewrite Lc in HB. cbn in HB.
  rewrite (proj2 (Z.eqb_neq _ _) Li) in HB. cbn in HB.
  intros E. rewrite E in Lb. cbn in Lb. unfold budget in Lb.
  pose proof (set_size_nonneg (free (pp (base s)))).
  destruct (Z.eqb_spec (set_size (free (pp (base s)))) 0); cbn in HB; [|lia].
  apply Z.leb_gt in HB. lia.
Qed.

(** C32: The same for the workers' pool, whose readers take any pipe: a parked
    reader whose loop condition is false is covered by a reader that was
    already signalled. *)
Theorem parked_reader_not_forgotten s t idx :
  reachable any_readers s ->
  t ∈ parked (rdCond (pp (base s))) ->
  pending s !! t = Some (CReader idx) ->
  rd_blocked idx (pp (base s)) = false ->
  woken (rdCond (pp (base s))) <> [].
Proof.
  intros H Hin Hp HB. apply any_inv in H as [_ [LA LL]].
  destruct LL as [Lc Lb]; [by intros E; rewrite E in Hin; apply not_elem_of_nil in Hin|].
  specialize (LA _ _ Hp). unfold rd_blocked, rd_wait in HB. rewrite Lc in HB. cbn in HB.
  destruct (Z.leb_spec 0 idx); [lia|]. apply Z.eqb_neq in HB.
  intros E. rewrite E in Lb. cbn in Lb. pose proof (set_size_nonneg (ready (pp (base s)))). lia.
Qed.

(** C33: A pool with a single reading goroutine, which may ask for an index,
    never leaves that goroutine parked when the pipe it waits for is ready or
    the pool is closed. *)
Theorem single_reader_parked_blocked t0 s idx :
  reachable (one_reader t0) s ->
  t0 ∈ parked (rdCond (pp (base s))) ->
  pending s !! t0 = Some (CReader idx) ->
  rd_blocked idx (pp (base s)) = true.
Proof.
  intros H Hin Hp. apply one_inv in H as [_ [LA LL]].
  destruct (LL Hin) as [Lc Lb]. unfold rd_blocked. by rewrite Lc, (Lb _ Hp).
Qed.

(** * What the calls return *)

(** C35: [getWriter] that does not park returns a pipe only from an open pool;
    the pipe carries the requested index and data, its buffer has exactly the
    requested size and mode whether it was recut, reset or newly allocated, in a
    linear mode it is empty and open, and it is in the ready set and in no other
    set. *)
Theorem getWriter_pipe s ch t idx size mode data l b' :
  reachable owned s -> 0 <= size ->
  getWriter ch t idx size mode data (base s) = (Ret (Some (Some l)), b') ->
  closed (pp (base s)) = false /\ 0 <= idx /\
  exists q, heap b' !! l = Some q /\ p_idx q = idx /\ p_data q = data /\ fits size mode q /\
  entries (ready (pp b')) = <[idx := l]> (entries (ready (pp (base s)))) /\
  (forall k, entries (free (pp b')) !! k <> Some l) /\
  (forall k, entries (active (pp b')) !! k <> Some l).
Proof.
  intros H Hs E. apply reachable_inv in H as [C _]. unfold getWriter in E.
  destruct (Z.ltb_spec idx 0) as [|Hi]; [done|].
  unfold getWriter_loop, upd in E. mrun_in E.
  destruct (wr_blocked idx (pp (base s))); [done|].
  destruct (getWriter_body _ _ _ _ _ _) as [r b1] eqn:Hg.
  destruct (getWriter_body_spec _ _ _ _ _ _ _ _ C Hg) as (C1&_&_&_&HC&_&HR).
  destruct r as [[l'|]|pv|]; try done. injection E as -> ->.
  destruct HR as (_&Hr&_&q&Hq&Hqi&Hqd&Hf).
  assert (closed (pp (base s)) = false) as Hcl.
  { destruct (closed (pp (base s))); [|done]. by destruct HC. }
  split_and!; try done. exists q. split_and!; try done; [by apply Hf|..].
  all: intros k Hk; assert (entries (set_of SReady (pp b')) !! idx = Some l) as Hl
    by (cbn [set_of]; by rewrite Hr, lookup_insert_eq).
  - by pose proof (core_disj _ _ C1 SFree SReady k idx l Hk Hl).
  - by pose proof (core_disj _ _ C1 SActive SReady k idx l Hk Hl).
Qed.

(** What a [getReader] that did not park gives, from the state it found. *)
Definition reader_got (idx : Z) b (r : option loc) b' : Prop :=
  (0 <= idx -> waitIdx (pp b') = -1) /\
  match r with
  | Some l => exists k q, heap b' !! l = Some q /\ p_idx q = k /\ (0 <= idx -> k = idx) /\
      entries (ready (pp b)) !! k = Some l /\
      entries (ready (pp b')) = delete k (entries (ready (pp b))) /\
      entries (active (pp b')) = <[k := l]> (entries (active (pp b)))
  | None => closed (pp b) = true /\
      if 0 <=? idx then entries (ready (pp b)) !! idx = None else entries (ready (pp b)) = ∅
  end.

Lemma getReader_loop_got ch t idx b r b' :
  core 0 b -> getReader_loop ch t idx b = (Ret (Some r), b') -> reader_got idx b r b'.
Proof.
  intros C E. unfold getReader_loop, upd in E. mrun_in E.
  destruct (rd_blocked idx (pp b)) eqn:HB; [done|].
  destruct (getReader_body ch idx b) as [o b1] eqn:Hg.
  destruct (getReader_body_spec _ _ _ _ _ C Hg) as (C1&Hh&_&_&_&_&_&_&_&_&HW&r0&->&Hr).
  injection E as -> ->. split.
  { intros Hi. rewrite HW. by destruct (Z.leb_spec 0 idx); [|lia]. }
  destruct r as [l|].
  - destruct Hr as (k&Hk&Hi&Hr&Ha).
    assert (entries (set_of SActive (pp b')) !! k = Some l) as Hl
      by (cbn [set_of]; by rewrite Ha, lookup_insert_eq).
    destruct (core_idx _ _ C1 SActive k l Hl) as (q&Hq&Hk'). exists k, q. by split_and!.
  - destruct Hr as (_&_&Hr). split; [|done].
    unfold rd_blocked, rd_wait in HB. destruct (closed (pp b)); [done|]. cbn in HB.
    destruct (0 <=? idx).
    + by rewrite bool_decide_eq_false in HB.
    + unfold set_size in HB. by rewrite Hr, map_size_empty in HB.
Qed.

(** [getReader] that does not park moves a ready pipe to the active set and
    returns it. Asked for an index, it returns the pipe of that index and
    clears the reservation; it returns nil only from a closed pool that has no
    such pipe. *)
Theorem getReader_pipe s ch t idx r b' :
  reachable owned s ->
  getReader ch t idx (base s) = (Ret (Some r), b') ->
  reader_got idx (base s) r b'.
Proof.
  intros H E. apply reachable_inv in H as [C _]. unfold getReader, upd in E. mrun_in E.
  destruct (0 <=? idx).
  - destruct (0 <=? waitIdx (pp (base s))); mrun_in E; [done|].
    apply getReader_loop_got in E; [done|].
    same_core C.
  - by apply getReader_loop_got in E.
Qed.


(** * Shutdown *)

(** A goroutine that reads from the pool until it gets nil, as the loop
    [for pp.iterReader(&p)] does; [chs] are the scheduler's choices, and [None]
    means that the goroutine parked. *)
Fixpoint drain (chs : list choice) (t : tid) b : option (list loc) * poolst :=
  match chs with
  | [] => (Some [], b)
  | ch :: chs =>
      match getReader ch t (-1) b with
      | (Ret (Some (Some l)), b1) =>
          let '(ls, b2) := drain chs t b1 in (cons l <$> ls, b2)
      | (Ret (Some None), b1) => (Some [], b1)
      | (_, b1) => (None, b1)
      end
  end.

Lemma closed_reader ch t idx b :
  core 0 b -> closed (pp b) = true -> idx < 0 \/ waitIdx (pp b) < 0 ->
  exists r b', getReader ch t idx b = (Ret (Some r), b') /\ reader_got idx b r b' /\
    core 0 b' /\ closed (pp b') = true.
Proof.
  intros C Hc Hw.
  assert (forall b0, core 0 b0 -> closed (pp b0) = true ->
    exists r b', getReader_loop ch t idx b0 = (Ret (Some r), b') /\ reader_got idx b0 r b' /\
      core 0 b' /\ closed (pp b') = true) as G.
  { intros b0 C0 Hc0. unfold getReader_loop, rd_blocked. mrun. rewrite Hc0. cbn.
    destruct (getReader_body ch idx b0) as [o b1] eqn:Hg.
    destruct (getReader_body_spec _ _ _ _ _ C0 Hg) as (C1&_&Hc1&_&_&_&_&_&_&_&_&r&->&_).
    exists r, b1. split_and!; try done; [|by rewrite Hc1].
    apply (getReader_loop_got ch t); [done|]. unfold getReader_loop, rd_blocked. mrun.
    rewrite Hc0. cbn. by rewrite Hg. }
  unfold getReader, upd. mrun. destruct (Z.leb_spec 0 idx); [|by apply G].
  destruct (Z.leb_spec 0 (waitIdx (pp b))); [lia|]. mrun.
  match goal with |- context [getReader_loop ch t idx ?x] => destruct (G x) as (r&b'&E&HR&HC) end.
  - same_core C.
  - done.
  - exists r, b'. split; [done|]. split; [exact HR|exact HC].
Qed.

(** C34: [close] lets the readers finish: from a closed pool, a reader that asks
    again and again never parks, gets each pipe that was ready exactly once,
    and then gets nil. *)
Theorem close_drains s t chs :
  reachable owned s -> closed (pp (base s)) = true ->
  length chs = size (entries (ready (pp (base s)))) ->
  exists ls b', drain chs t (base s) = (Some ls, b') /\
    ls ≡ₚ (map_to_list (entries (ready (pp (base s))))).*2 /\
    forall ch u, exists b'', getReader ch u (-1) b' = (Ret (Some None), b'').
Proof.
  intros H Hc. apply reachable_inv in H as [C _]. revert C Hc.
  generalize (base s). clear s. induction chs as [|ch chs IH]; intros b C Hc Hl; cbn in Hl.
  - symmetry in Hl. apply map_size_empty_inv in Hl. exists [], b. cbn.
    rewrite Hl, map_to_list_empty. split_and!; [done|done|]. intros ch u.
    destruct (closed_reader ch u (-1) b C Hc (or_introl eq_refl)) as ([l|]&b''&E&[_ G]&_); [|eauto].
    destruct G as (k&q&_&_&_&Hk&_). by rewrite Hl in Hk.
  - destruct (closed_reader ch t (-1) b C Hc (or_introl eq_refl)) as ([l|]&b1&E&[_ G]&C1&Hc1).
    2:{ destruct G as [_ G]. cbn in G. by rewrite G, map_size_empty in Hl. }
    destruct G as (k&q&_&_&_&Hk&Hd&_).
    destruct (IH b1 C1 Hc1) as (ls&b'&Hdr&Hp&HN).
    { rewrite Hd, map_size_delete_Some by eauto. lia. }
    exists (l :: ls), b'. cbn. rewrite E, Hdr. split_and!; [done| |done].
    rewrite Hp, Hd, <- (map_to_list_delete _ _ _ Hk). done.
Qed.


(** The pipes of a set. *)
Definition pipes_of (m : pipeSet) : list loc := (map_to_list (entries m)).*2.

Lemma close_set_spec n b x (h : gmap loc (@pipe BP D)) l :
  core n b ->
  close_set (set_of x (pp b)) h !! l =
    if decide (l ∈ pipes_of (set_of x (pp b))) then close_pipe <$> h !! l else h !! l.
Proof.
  intros C. unfold close_set, pipes_of.
  assert (NoDup (map_to_list (entries (set_of x (pp b)))).*2) as N.
  { apply NoDup_fmap_2_strong; [|apply NoDup_map_to_list].
    intros [k l1] [k' l2] H1%elem_of_map_to_list H2%elem_of_map_to_list. cbn. intros <-. f_equal.
    rewrite <- (core_idx_of n b x k l1), <- (core_idx_of n b x k' l1); done. }
  induction ((map_to_list (entries (set_of x (pp b)))).*2) as [|l' ls IH]; cbn.
  { case_decide as Hd; [by apply not_elem_of_nil in Hd|done]. }
  apply NoDup_cons in N as [Nl N]. specialize (IH N). destruct (decide (l' = l)) as [->|Hne].
  - rewrite lookup_alter_eq, IH, decide_False, decide_True by (done || left). done.
  - rewrite lookup_alter_ne, IH by done.
    destruct (decide (l ∈ ls)), (decide (l ∈ l' :: ls)); set_solver.
Qed.

(** [interrupt] closes exactly the pipes that are ready or active, each of
    them once, and changes nothing else: the pool keeps all its pipes and stays
    open for new writers and readers. *)
Theorem interrupt_closes s b' :
  reachable owned s -> interrupt (base s) = (Ret tt, b') ->
  pp b' = pp (base s) /\
  forall l, heap b' !! l =
    if decide (l ∈ pipes_of (ready (pp (base s))) \/ l ∈ pipes_of (active (pp (base s))))
    then close_pipe <$> heap (base s) !! l else heap (base s) !! l.
Proof.
  intros H. apply reachable_inv in H as [C _]. intros [= <-]. split; [done|]. intros l. cbn.
  rewrite (close_set_spec 0 (base s) SActive), (close_set_spec 0 (base s) SReady) by done. cbn.
  repeat case_decide; try tauto. exfalso.
  unfold pipes_of in *. set_unfold.
  destruct H as ([k1 l1]&->&G1%elem_of_map_to_list).
  destruct H0 as ([k2 l2]&E&G2%elem_of_map_to_list). cbn in E. subst l2.
  by pose proof (core_disj _ _ C SActive SReady k1 k2 l1 G1 G2).
Qed.

End promises.

(** * Concrete runs *)
Module Runs.
Import Plain.

Inductive label : Type :=
| LCall (ch : choice) (t : tid) (c : call (D := unit))
| LReq (ch : choice) (r : req).

Definition exec (s : @psys bufpipe unit) (lab : label) : psys :=
  match lab with
  | LCall ch t c =>
      let r := run_call ch t c (base s) in PSys r.2 (settle t c r.1 (pending s))
  | LReq ch r => PSys (run_req ch r (base s)).2 (pending s)
  end.

Definition enabled (ok : discipline) (s : @psys bufpipe unit) (lab : label) : Prop :=
  match lab with
  | LCall ch t c => pending s !! t = None /\ ok_call ok s t c
  | LReq ch r => ok_req ok s r
  end.

Fixpoint run_ok (ok : discipline) (s : psys) (labs : list label) : Prop :=
  match labs with
  | [] => True
  | lab :: labs => enabled ok s lab /\ run_ok ok (exec s lab) labs
  end.

Definition run (labs : list label) : psys := foldl exec psys0 labs.

Lemma run_reachable ok labs : run_ok ok psys0 labs -> reachable ok (run labs).
Proof.
  unfold reachable, run. generalize (@psys0 bufpipe unit).
  induction labs as [|lab labs IH]; intros s; cbn; [constructor|].
  intros [He Hr]. eapply rtc_l; [|apply IH, Hr]. destruct s as [b pend].
  destruct lab as [ch t c|ch r]; cbn in He.
  - destruct He. by apply (step_call ok ch t c b pend).
  - by apply (step_req ok ch r b pend).
Qed.

Definition ch0 : choice := Choice 0 0.

(** Three goroutines want a buffer of a pool of one; a reader takes the first
    pipe and gives it back. *)
Definition contended : list label :=
  [LReq ch0 (RSetCapacity 1);
   LCall ch0 1%nat (CWriter 0 4 0 None);
   LCall ch0 2%nat (CWriter 1 4 0 None);
   LCall ch0 3%nat (CWriter 2 4 0 None);
   LCall ch0 4%nat (CReader (-1));
   LReq ch0 (RRestore (Some 1%positive))].

(** Two workers wait for a pipe, and one arrives. *)
Definition workers : list label :=
  [LCall ch0 1%nat (CReader (-1));
   LCall ch0 2%nat (CReader (-1));
   LReq ch0 (RSetCapacity 1);
   LCall ch0 3%nat (CWriter 0 4 0 None)].

(** A reader waits for index 5 of a pool without capacity. *)
Definition indexed : list label := [LCall ch0 1%nat (CReader 5)].

(** Three pipes are ready, and the pool is closed. *)
Definition closing : list label :=
  [LReq ch0 (RSetCapacity 3);
   LCall ch0 1%nat (CWriter 0 4 0 None);
   LCall ch0 1%nat (CWriter 1 4 0 None);
   LCall ch0 1%nat (CWriter 2 4 0 None);
   LReq ch0 RClose].

Ltac run_tac := vm_compute; repeat split; intros; congruence.

Lemma contended_ok : reachable owned (run contended).
Proof. apply run_reachable. run_tac. Qed.

Lemma workers_ok : reachable any_readers (run workers).
Proof. apply run_reachable. run_tac. Qed.

Lemma indexed_ok : reachable (one_reader 1%nat) (run indexed).
Proof. apply run_reachable. run_tac. Qed.

Lemma closing_ok : reachable owned (run closing).
Proof. apply run_reachable. run_tac. Qed.

Lemma pool_structure_witness :
  parked (wrCond (pp (base (run contended)))) = [3%nat] /\ core 0 (base (run contended)).
Proof. split; [vm_compute; reflexivity|]. apply pool_structure, contended_ok. Defined.

Lemma getStats_counts_witness :
  (getStats (base (run contended))).1 = Ret (2, 0).
Proof. rewrite (getStats_counts _ contended_ok). vm_compute. reflexivity. Defined.

Lemma parked_writer_not_forgotten_witness :
  3%nat ∈ parked (wrCond (pp (base (run contended)))) /\
  woken (wrCond (pp (base (run contended)))) <> [].
Proof.
  split; [vm_compute; left|].
  apply (parked_writer_not_forgotten _ 3%nat 2 4 0 None contended_ok).
  - vm_compute. left.
  - vm_compute. reflexivity.
  - vm_compute. reflexivity.
Defined.

Lemma parked_reader_not_forgotten_witness :
  2%nat ∈ parked (rdCond (pp (base (run workers)))) /\
  woken (rdCond (pp (base (run workers)))) <> [].
Proof.
  split; [vm_compute; left|].
  apply (parked_reader_not_forgotten _ 2%nat (-1) workers_ok).
  - vm_compute. left.
  - vm_compute. reflexivity.
  - vm_compute. reflexivity.
Defined.

Lemma single_reader_parked_blocked_witness :
  rd_blocked 5 (pp (base (run indexed))) = true.
Proof.
  apply (single_reader_parked_blocked 1%nat _ 5 indexed_ok).
  - vm_compute. left.
  - vm_compute. reflexivity.
Defined.

(** The reader's pipe went back to the free set; the next writer recycles it. *)
Lemma getWriter_pipe_witness :
  let r := getWriter ch0 7%nat 9 4 0 None (base (run contended)) in
  r.1 = Ret (Some (Some 1%positive)) /\
  exists q, heap r.2 !! 1%positive = Some q /\ p_idx q = 9.
Proof.
  split; [vm_compute; reflexivity|].
  destruct (getWriter_pipe _ ch0 7%nat 9 4 0 None 1%positive
    (getWriter ch0 7%nat 9 4 0 None (base (run contended))).2 contended_ok) as (_&_&q&Hq&Hi&_);
    [lia|vm_compute; reflexivity|]. exists q. split; [exact Hq|exact Hi].
Defined.

Lemma getReader_pipe_witness :
  let r := getReader ch0 7%nat 2 (base (run closing)) in
  r.1 = Ret (Some (Some 3%positive)) /\ waitIdx (pp r.2) = -1.
Proof.
  split; [vm_compute; reflexivity|].
  destruct (getReader_pipe _ ch0 7%nat 2 (Some 3%positive)
    (getReader ch0 7%nat 2 (base (run closing))).2 closing_ok) as [Hw _];
    [vm_compute; reflexivity|]. apply Hw. lia.
Defined.


Lemma close_drains_witness :
  exists ls b', drain [ch0; ch0; ch0] 1%nat (base (run closing)) = (Some ls, b') /\
    ls ≡ₚ [1; 2; 3]%positive.
Proof.
  destruct (close_drains _ 1%nat [ch0; ch0; ch0] closing_ok) as (ls&b'&E&P&_);
    [vm_compute; reflexivity..|]. exists ls, b'. split; [exact E|].
  rewrite P. apply (bool_decide_unpack _). vm_compute. exact I.
Defined.


Lemma interrupt_closes_witness :
  pp (interrupt (base (run closing))).2 = pp (base (run closing)).
Proof.
  apply (interrupt_closes (run closing) (interrupt (base (run closing))).2 closing_ok eq_refl).
Defined.

End Runs.
