(* ===== verification/PoolRoom.v ===== *)
(** The pipe pool for a client that has to show that its goroutines do not wait
    for each other for ever: who sleeps and why, and how many pipes there are. *)

From S2P Require Import Prelude Bufpipe Pool PoolInv PoolWait PoolView PoolThms.

Section room.
Context {BP : Bufpipe} {BS : BufpipeSpec BP} {D : Type}.
Implicit Types (b : @poolst BP D) (s : @psys BP D).

(** * Steps *)

(** A call that is entered as it was begun is a step of the pool. *)
Lemma enter_step ok ch t c s o s' :
  (forall c', pending s !! t = Some c' -> c' = c) -> (pending s !! t = None -> ok_call ok s t c) ->
  enter ch t c s = Some (o, s') -> pstep ok s s' /\ pending s' = settle t c o (pending s).
Proof.
  intros Hc Hok. unfold enter. destruct (pending s !! t) as [c'|] eqn:Hp.
  - rewrite (Hc c' eq_refl) in Hp. case_decide as Hw; [|done]. intros [= <- <-]. split; [|done].
    destruct s as [b pend]. by apply (step_resume ok ch t c b pend).
  - intros [= <- <-]. split; [|done]. destruct s as [b pend]. by apply (step_call ok ch t c b pend), Hok.
Qed.

Lemma request_step ok ch r s o s' : ok_req ok s r -> request ch r s = (o, s') -> pstep ok s s' /\ pending s' = pending s.
Proof.
  intros Hr. unfold request. intros [= <- <-]. split; [|done]. destruct s as [b pend]. by apply (step_req ok ch r b pend).
Qed.

Lemma pstep_owned ok s s' : (forall s t c, ok_call ok s t c -> call_size c) -> (forall s r, ok_req ok s r -> restores_own s r) ->
  pstep ok s s' -> pstep owned s s'.
Proof. intros H1 H2. by apply pstep_mono. Qed.

Lemma any_step s s' : pool_inv s -> no_lost_any 0 s -> pstep any_readers s s' -> pool_inv s' /\ no_lost_any 0 s'.
Proof.
  intros I N H. split; [|by eapply no_lost_any_step].
  eapply pool_step_inv; [exact I|]. eapply pstep_owned; [..|exact H]; [by intros ??? []|done].
Qed.

Lemma one_step t0 s s' : pool_inv s -> no_lost_one t0 s -> pstep (one_reader t0) s s' -> pool_inv s' /\ no_lost_one t0 s'.
Proof.
  intros I N H. split; [|by eapply no_lost_one_step].
  eapply pool_step_inv; [exact I|]. eapply pstep_owned; [..|exact H]; [by intros ??? []|done].
Qed.

(** * Who sleeps *)

Lemma enter_asleep ch t c s :
  (forall c', pending s !! t = Some c' -> c' = c) -> enter ch t c s = None ->
  pending s !! t = Some c /\ t ∉ woken (cond_of c (pp (base s))).
Proof.
  intros Hc. unfold enter. destruct (pending s !! t) as [c'|] eqn:Hp; [|done]. rewrite (Hc c' eq_refl).
  by case_decide.
Qed.

Lemma asleep_parked t c s : waits 0 s -> pending s !! t = Some c -> t ∉ woken (cond_of c (pp (base s))) ->
  t ∈ parked (cond_of c (pp (base s))).
Proof.
  intros W Hp Hw. destruct c as [i n m d|i]; cbn [cond_of] in *.
  - assert (t ∈ members (wrCond (pp (base s)))) as [H|H]%elem_of_app; [|done|done].
    apply (proj2 (w_wr _ _ W)). by eexists.
  - assert (t ∈ members (rdCond (pp (base s)))) as [H|H]%elem_of_app; [|done|done].
    apply (proj2 (w_rd _ _ W)). by eexists.
Qed.

(** A writer sleeps only in an open pool, not while its index is waited for, and
    every pipe that is free or may be made is spoken for by a released writer. *)
Lemma writer_asleep t i n m d s :
  pool_inv s -> pending s !! t = Some (CWriter i n m d) -> t ∉ woken (wrCond (pp (base s))) ->
  closed (pp (base s)) = false /\ i <> waitIdx (pp (base s)) /\
  budget (pp (base s)) <= zlen (woken (wrCond (pp (base s)))).
Proof.
  intros [_ W] Hp Hw. pose proof (asleep_parked t _ s W Hp Hw) as H. cbn [cond_of] in H.
  destruct (w_lost _ _ W) as (L1 & L2 & L3); [by intros E0; rewrite E0 in H; apply elem_of_nil in H|].
  split; [done|]. split; [by eapply L3|]. unfold zlen. lia.
Qed.

Lemma any_asleep t i s :
  pool_inv s -> no_lost_any 0 s -> pending s !! t = Some (CReader i) -> t ∉ woken (rdCond (pp (base s))) ->
  closed (pp (base s)) = false /\ set_size (ready (pp (base s))) <= zlen (woken (rdCond (pp (base s)))).
Proof.
  intros [_ W] [_ N] Hp Hw. pose proof (asleep_parked t _ s W Hp Hw) as H. cbn [cond_of] in H.
  destruct N as (L1 & L2); [by intros E0; rewrite E0 in H; apply elem_of_nil in H|]. split; [done|]. unfold zlen. lia.
Qed.

Lemma one_asleep t i s :
  pool_inv s -> no_lost_one t s -> pending s !! t = Some (CReader i) -> t ∉ woken (rdCond (pp (base s))) ->
  closed (pp (base s)) = false /\ rd_wait i (pp (base s)) = true.
Proof.
  intros [_ W] [_ N] Hp Hw. pose proof (asleep_parked t _ s W Hp Hw) as H. cbn [cond_of] in H.
  destruct (N H) as (L1 & L2). by split; [|apply L2].
Qed.

(** A released goroutine is one that called. *)
Lemma woken_caller (w : bool) s : pool_inv s -> woken (if w then wrCond (pp (base s)) else rdCond (pp (base s))) <> [] ->
  exists t c, pending s !! t = Some c /\ is_writer c = w /\ t ∈ woken (cond_of c (pp (base s))).
Proof.
  intros [_ W] H. set (cd := if w then _ else _) in *.
  assert (cond_ok w cd (pending s)) as [_ M] by (destruct w; apply W).
  destruct (woken cd) as [|t r] eqn:Hw; [done|]. assert (t ∈ woken cd) as Ht by (rewrite Hw; left).
  destruct (proj1 (M t)) as (c & Hc & Hk); [apply elem_of_app; by right|]. exists t, c. split; [done|]. split; [done|].
  by destruct w, c; cbn.
Qed.

(** * How many pipes there are *)

Definition exact b : Prop := len (pp b) = total_size (pp b).

(** Where the pipe [l] came from. *)
Record made_room (idx : Z) (l : loc) b b' : Prop := MadeRoom {
  mr_cap : cap (pp b') = cap (pp b);
  mr_wait : waitIdx (pp b') = waitIdx (pp b);
  mr_from :
    (exists k, entries (free (pp b)) !! k = Some l /\ entries (free (pp b')) = delete k (entries (free (pp b))) /\
       len (pp b') = len (pp b)) \/
    (entries (free (pp b)) = ∅ /\ entries (free (pp b')) = ∅ /\ len (pp b') = len (pp b) + 1 /\
       (idx <> waitIdx (pp b) -> len (pp b) < cap (pp b)));
}.

(** No pipe was made and none was freed. *)
Record same_room b b' : Prop := SameRoom {
  sr_cap : cap (pp b') = cap (pp b);
  sr_len : len (pp b') = len (pp b);
  sr_free : entries (free (pp b')) = entries (free (pp b));
}.

Lemma acquire_from ch size mode b l b' :
  core 0 b -> acquire_pipe ch size mode b = (Ret l, b') ->
  (exists k, entries (free (pp b)) !! k = Some l /\ entries (free (pp b')) = delete k (entries (free (pp b))) /\
     len (pp b') = len (pp b)) \/
  (entries (free (pp b)) = ∅ /\ entries (free (pp b')) = ∅ /\ len (pp b') = len (pp b) + 1).
Proof.
  intros C. unfold acquire_pipe. mrun. destruct (pop ch (heap b) (free (pp b))) as [[k|] f] eqn:Hp; intros H.
  - apply (pop_Some 0 b ch SFree) in Hp as (i & Hi & ->); [|done]. destruct (core_delete 0 b SFree i k C Hi) as [C1 D1].
    unfold upd in H. mrun_in H. cbn in C1, D1. destruct (recycle_pipe k size mode _) as [r b1] eqn:Hr.
    destruct (recycle_pipe_core _ _ _ _ _ _ _ C1 D1 Hr) as (_ & _ & Hpp & _).
    destruct r as [[]|p|]; [|done|done]. injection H as <- <-. left. exists i. rewrite Hpp. cbn. by rewrite entries_delete.
  - apply pop_None in Hp as [Hf ->]. unfold upd in H. mrun_in H. right.
    apply (alloc_pipe_core 0) in H as (H1 & H2 & _); [|same_core C]. destruct H1 as (_ & _ & Hl & _).
    rewrite Hl, H2. by cbn.
Qed.

Lemma writer_loop_room ch t idx size mode data b o b' :
  core 0 b -> getWriter_loop ch t idx size mode data b = (o, b') ->
  match o with
  | Ret (Some (Some l)) => made_room idx l b b'
  | Ret _ => same_room b b' /\ waitIdx (pp b') = waitIdx (pp b)
  | _ => True
  end.
Proof.
  intros C. unfold getWriter_loop, upd. mrun. destruct (wr_blocked idx (pp b)) eqn:Hb; [by intros [= <- <-]|].
  destruct (getWriter_body ch idx size mode data b) as [r b1] eqn:Hg.
  destruct (getWriter_body_spec _ _ _ _ _ _ _ _ C Hg) as (_ & SW & _ & _ & HC & _ & HR).
  destruct r as [[l|]|p|]; intros [= <- <-]; [|by destruct (HC HR) as [-> _]|done|done].
  split; [apply SW|apply SW|]. revert Hg. unfold getWriter_body. mrun. destruct (closed (pp b)) eqn:Hcl; [done|].
  destruct (acquire_pipe ch size mode b) as [[k|p|] b2] eqn:Ha; [|done|done].
  pose proof (acquire_from _ _ _ _ _ _ C Ha) as Hf. unfold publish_pipe, lift, upd. mrun.
  destruct (entries (ready (pp b2)) !! idx); [done|]. destruct (ready (pp b2)); [|done]. intros [= -> <-]. cbn [pp free len set_ready set_rdCond].
  destruct Hf as [Hf|(F1 & F2 & F3)]; [by left|]. right. split_and!; [done..|]. intros Hi. unfold wr_blocked in Hb.
  rewrite Hcl, (proj2 (Z.eqb_neq _ _) Hi), (proj2 (set_size_zero _) F1) in Hb. cbn in Hb. lia.
Qed.

Lemma enter_writer_room ch t idx size mode data s o s' :
  core 0 (base s) -> enter ch t (CWriter idx size mode data) s = Some (o, s') ->
  match o with
  | Ret (Some (Some l)) => made_room idx l (base s) (base s')
  | Ret _ => same_room (base s) (base s') /\ waitIdx (pp (base s')) = waitIdx (pp (base s))
  | _ => True
  end.
Proof.
  intros C. unfold enter. destruct (pending s !! t).
  - case_decide; [|done]. cbn [resume_call]. intros [= <- <-]. cbn [base].
    unfold getWriter_resume, upd. mrun. set (b1 := PoolSt _ _). assert (C1 : core 0 b1) by same_core C.
    pose proof (writer_loop_room ch t idx size mode data b1 _ _ C1 (surjective_pairing _)) as HR.
    destruct (getWriter_loop ch t idx size mode data b1).1 as [[[l|]|]|p|]; [| | |done|done].
    + by destruct HR.
    + by destruct HR as [[] ?].
    + by destruct HR as [[] ?].
  - cbn [run_call]. intros [= <- <-]. cbn [base]. unfold getWriter. destruct (idx <? 0); [done|].
    apply (writer_loop_room ch t idx size mode data _ _ _ C). apply surjective_pairing.
Qed.

Lemma reader_loop_room ch t idx b o b' :
  core 0 b -> getReader_loop ch t idx b = (o, b') ->
  same_room b b' /\ waitIdx (pp b') = (match o with Ret (Some _) => if 0 <=? idx then -1 else waitIdx (pp b) | _ => waitIdx (pp b) end).
Proof.
  intros C. unfold getReader_loop, upd. mrun. destruct (rd_blocked idx (pp b)); [by intros [= <- <-]|].
  destruct (getReader_body ch idx b) as [r b1] eqn:E0.
  destruct (getReader_body_spec _ _ _ _ _ C E0) as (_ & _ & _ & H1 & H2 & H3 & _ & _ & _ & _ & H4 & p & -> & _).
  intros [= <- <-]. split; [|done]. split; [done|done|by rewrite H3].
Qed.

Lemma enter_reader_room ch t idx s o s' :
  core 0 (base s) -> enter ch t (CReader idx) s = Some (o, s') ->
  same_room (base s) (base s') /\
  match o with
  | Ret None => waitIdx (pp (base s')) =
      match pending s !! t with Some _ => waitIdx (pp (base s)) | None => if 0 <=? idx then idx else waitIdx (pp (base s)) end
  | Ret (Some _) => waitIdx (pp (base s')) = if 0 <=? idx then -1 else waitIdx (pp (base s))
  | _ => True
  end.
Proof.
  intros C. assert (HL : forall b1 r, core 0 b1 -> same_room (base s) b1 -> getReader_loop ch t idx b1 = r ->
    same_room (base s) r.2 /\ waitIdx (pp r.2) = (match r.1 with Ret (Some _) => if 0 <=? idx then -1 else waitIdx (pp b1) | _ => waitIdx (pp b1) end)).
  { intros b1 [o1 b2] C1 [S1 S2 S3] E0. destruct (reader_loop_room _ _ _ _ _ _ C1 E0) as [[R1 R2 R3] HR]. cbn [fst snd].
    split; [split; congruence|done]. }
  unfold enter. destruct (pending s !! t).
  - case_decide; [|done]. cbn [resume_call]. intros [= <- <-]. cbn [base]. unfold getReader_resume, upd. mrun.
    set (b1 := PoolSt _ _). destruct (HL b1 _ ltac:(same_core C) ltac:(done) eq_refl) as [H1 H2]. split; [done|].
    by destruct (getReader_loop ch t idx b1).1 as [[]| |].
  - cbn [run_call]. intros [= <- <-]. cbn [base]. unfold getReader, upd. mrun.
    destruct (0 <=? idx); mrun.
    + destruct (0 <=? waitIdx (pp (base s))); mrun; [done|]. set (b1 := PoolSt _ _).
      destruct (HL b1 _ ltac:(same_core C) ltac:(done) eq_refl) as [H1 H2]. split; [done|].
      by destruct (getReader_loop ch t idx b1).1 as [[]| |].
    + destruct (HL (base s) _ C ltac:(done) eq_refl) as [H1 H2]. split; [done|].
      by destruct (getReader_loop ch t idx (base s)).1 as [[]| |].
Qed.

(** ** The count stays exact *)

Lemma new_pipe_exact idx sz mode data l b b' :
  exact b -> new_pipe idx sz mode data l b b' -> made_room idx l b b' -> exact b'.
Proof.
  unfold exact, total_size, set_size. intros H N [_ _ F]. rewrite (np_ready _ _ _ _ _ _ _ N), (np_active _ _ _ _ _ _ _ N).
  rewrite map_size_insert_None by apply N. destruct F as [(k & F1 & -> & ->)|(F1 & -> & -> & _)].
  - rewrite map_size_delete_Some by eauto. assert (size (entries (free (pp b))) <> 0%nat); [|lia].
    intros E0. apply map_size_empty_inv in E0. by rewrite E0 in F1.
  - rewrite F1 in H. lia.
Qed.

Lemma taken_exact k l b b' :
  exact b -> taken k l b b' -> entries (active (pp b)) !! k = None -> same_room b b' -> exact b'.
Proof.
  unfold exact, total_size, set_size. intros H T Ha [_ -> ->]. rewrite (tk_ready _ _ _ _ T), (tk_active _ _ _ _ T).
  rewrite map_size_insert_None by done. rewrite map_size_delete_Some by (eexists; apply T).
  assert (size (entries (ready (pp b))) <> 0%nat); [|lia].
  intros E0. apply map_size_empty_inv in E0. pose proof (tk_was _ _ _ _ T) as Hw. by rewrite E0 in Hw.
Qed.

Lemma same_exact b b' : exact b -> same_store b b' -> same_room b b' -> exact b'.
Proof. unfold exact, total_size, set_size. intros H [_ -> -> _] [_ -> ->]. done. Qed.

(** What becomes of a restored pipe, of the index [k]. *)
Lemma request_restore_room ch l k s u s' :
  core 0 (base s) -> (forall l', entries (active (pp (base s))) !! idx_of (heap (base s)) l = Some l' -> l' = l) ->
  idx_of (heap (base s)) l = k -> request ch (RRestore (Some l)) s = (Ret u, s') ->
  entries (active (pp (base s))) !! k = Some l /\
  cap (pp (base s')) = cap (pp (base s)) /\ waitIdx (pp (base s')) = waitIdx (pp (base s)) /\
  ((len (pp (base s')) = len (pp (base s)) /\ entries (free (pp (base s'))) = <[k := l]> (entries (free (pp (base s))))) \/
   (len (pp (base s')) = len (pp (base s)) - 1 /\ entries (free (pp (base s'))) = entries (free (pp (base s))))).
Proof.
  intros C Hown <-. unfold request. cbn [run_req]. intros [= E1 <-]. cbn [base].
  destruct (restore ch (Some l) (base s)) as [o b'] eqn:E0. cbn [fst snd] in *. subst o.
  destruct (restore_spec (base s) ch (Some l) _ b' (pending s) C Hown E0) as (_ & H1 & _ & H2 & _ & _ & _ & _ & l' & [= <-] & Hl & _ & _ & HR).
  split; [done|]. split; [done|]. split; [done|]. destruct (_ <=? _).
  - destruct HR as (-> & _ & ->). by left.
  - destruct HR as (-> & _ & ->). by right.
Qed.

Lemma restored_exact k l b b' :
  exact b -> entries (active (pp b)) !! k = Some l -> entries (free (pp b)) !! k = None ->
  entries (active (pp b')) = delete k (entries (active (pp b))) -> entries (ready (pp b')) = entries (ready (pp b)) ->
  (len (pp b') = len (pp b) /\ entries (free (pp b')) = <[k := l]> (entries (free (pp b)))) \/
  (len (pp b') = len (pp b) - 1 /\ entries (free (pp b')) = entries (free (pp b))) -> exact b'.
Proof.
  unfold exact, total_size, set_size. intros H Ha Hf -> -> HR. rewrite map_size_delete_Some by eauto.
  assert (size (entries (active (pp b))) <> 0%nat).
  { intros E0. apply map_size_empty_inv in E0. by rewrite E0 in Ha. }
  destruct HR as [[-> ->]|[-> ->]]; [rewrite map_size_insert_None by done|]; lia.
Qed.

End room.
