(* ===== verification/PoolQuiet.v ===== *)
(** The pipe pool as a goroutine that waits for a pipe to write to sees it,
    whatever the others do: no operation forgets it, and once the pool is closed
    it is released. This needs nothing of the invariant of the pool, so it holds in
    a session that has failed too. *)

From S2P Require Import Prelude Bufpipe Pool PoolWait PoolView.

(** * Computations that move along a preorder, and need no fuel *)

Definition keeps {S A} (R : relation S) (m : M S A) : Prop := forall s, R s (m s).2 /\ (m s).1 <> NoFuel.

Section keeps.
Context {S : Type} (R : relation S) `{!PreOrder R}.

Lemma keeps_ret {A} (a : A) : keeps R (mret a).
Proof. intros s. by split. Qed.

Lemma keeps_get : keeps R get.
Proof. intros s. by split. Qed.

Lemma keeps_panic {A} p : keeps R (panic p : M S A).
Proof. intros s. by split. Qed.

Lemma keeps_bind {A B} (m : M S A) (k : A -> M S B) : keeps R m -> (forall a, keeps R (k a)) -> keeps R (m ≫= k).
Proof.
  intros Hm Hk s. rewrite bind_run. destruct (Hm s) as [H1 H2]. destruct (m s) as [[a|p|] s1]; [|done|done].
  destruct (Hk a s1) as [H3 H4]. split; [by etrans|done].
Qed.

Lemma keeps_modify f : (forall s, R s (f s)) -> keeps R (modify f).
Proof. intros Hf s. by split. Qed.

End keeps.

Section quiet.
Context {BP : Bufpipe} {D : Type}.
Implicit Types (b : @poolst BP D) (s : @psys BP D) (t : tid).

(** * What the operations do to those who wait to write *)

(** The same goroutines wait, and every pipe is still there. *)
Record quiet b b' : Prop := Quiet {
  qt_closed : closed (pp b') = closed (pp b);
  qt_wr : wrCond (pp b') = wrCond (pp b);
  qt_heap l : is_Some (heap b !! l) -> is_Some (heap b' !! l);
}.

#[export] Instance quiet_preorder : PreOrder quiet.
Proof. split; [done|]. intros b1 b2 b3 [H1 H2 H3] [K1 K2 K3]. split; [congruence|congruence|auto]. Qed.

(** Nobody begins to wait, and closing the pool releases all. *)
Record eases b b' : Prop := Eases {
  ea_members t : t ∈ members (wrCond (pp b)) -> t ∈ members (wrCond (pp b'));
  ea_parked : parked (wrCond (pp b)) = [] -> parked (wrCond (pp b')) = [];
  ea_closed : closed (pp b) = true -> closed (pp b') = true;
  ea_wake : closed (pp b') = true -> closed (pp b) = true \/ parked (wrCond (pp b')) = [];
  ea_heap l : is_Some (heap b !! l) -> is_Some (heap b' !! l);
}.

#[export] Instance eases_preorder : PreOrder eases.
Proof.
  split; [intros b; split; auto|]. intros b1 b2 b3 [H1 H2 H3 H4 H5] [K1 K2 K3 K4 K5]. split; auto.
  intros [H|H]%K4; [|by right]. destruct (H4 H); auto.
Qed.

Lemma quiet_eases b b' : quiet b b' -> eases b b'.
Proof. intros [H1 H2 H3]. split; rewrite ?H1, ?H2; auto. Qed.

Lemma wr_eases b b' :
  closed (pp b') = closed (pp b) -> heap b' = heap b ->
  (exists ch, wrCond (pp b') = Signal ch (wrCond (pp b))) \/ wrCond (pp b') = Broadcast (wrCond (pp b)) -> eases b b'.
Proof.
  intros Hc Hh [[ch Hw]|Hw]; split; rewrite ?Hc, ?Hh, ?Hw; auto.
  - intros t. by rewrite Signal_members.
  - intros H. by rewrite Signal_nil.
  - intros t. by rewrite Broadcast_members.
Qed.

(** ** Their parts *)

Lemma upd_quiet (f : pipePool -> pipePool) :
  (forall p, closed (f p) = closed p /\ wrCond (f p) = wrCond p) -> keeps quiet (upd (BP:=BP) (D:=D) f).
Proof. intros H. apply keeps_modify. intros b. destruct (H (pp b)). by split. Qed.

Lemma upd_pipe_quiet l f : keeps quiet (upd_pipe (BP:=BP) (D:=D) l f).
Proof.
  apply keeps_modify. intros b. split; [done|done|]. intros l'. cbn. rewrite lookup_alter. case_decide; [|done]. subst.
  intros [q ->]. by eexists.
Qed.

Lemma lift_quiet {A} (o : outcome A) : o <> NoFuel -> keeps quiet (lift (BP:=BP) (D:=D) o).
Proof. intros Ho b. by split. Qed.

Lemma go_make_quiet n : keeps quiet (go_make (BP:=BP) (D:=D) n).
Proof. unfold go_make. destruct (n <? 0); [apply keeps_panic, _|apply keeps_ret, _]. Qed.

Lemma push_fuel (h : gmap loc (@pipe BP D)) m p : push h m p <> NoFuel.
Proof. unfold push. by repeat case_match. Qed.

Lemma alloc_quiet size mode : keeps quiet (alloc_pipe (BP:=BP) (D:=D) size mode).
Proof.
  unfold alloc_pipe. apply keeps_bind; [apply _|apply go_make_quiet|]. intros buf. intros b. mrun. split; [|done].
  split; [done|done|]. intros l. cbn. intros [q Hq]. rewrite lookup_insert. case_decide; [by eexists|by exists q].
Qed.

Ltac quiet_step :=
  lazymatch goal with
  | |- keeps quiet (_ ≫= _) => apply keeps_bind; [apply _| |intros ?]
  | |- keeps quiet get => apply keeps_get, _
  | |- keeps quiet (mret _) => apply keeps_ret, _
  | |- keeps quiet (panic _) => apply keeps_panic, _
  | |- keeps quiet (upd _) => apply upd_quiet; done
  | |- keeps quiet (upd_pipe _ _) => apply upd_pipe_quiet
  | |- keeps quiet (lift (push _ _ _)) => apply lift_quiet, push_fuel
  | |- keeps quiet (go_make _) => apply go_make_quiet
  | |- keeps quiet (alloc_pipe _ _) => apply alloc_quiet
  | |- keeps quiet (match ?x with _ => _ end) => destruct x
  end.
Ltac quiet := repeat quiet_step.

Lemma getWriter_body_quiet ch idx size mode data : keeps quiet (getWriter_body (BP:=BP) (D:=D) ch idx size mode data).
Proof. unfold getWriter_body, acquire_pipe, recycle_pipe, publish_pipe. quiet. Qed.

Lemma getReader_body_quiet ch idx : keeps quiet (getReader_body (BP:=BP) (D:=D) ch idx).
Proof. unfold getReader_body. quiet. Qed.

Lemma reader_quiet ch t idx : idx < 0 ->
  keeps quiet (getReader (BP:=BP) (D:=D) ch t idx) /\ keeps quiet (getReader_resume (BP:=BP) (D:=D) ch t idx).
Proof.
  intros Hi. assert (HL : keeps quiet (getReader_loop (BP:=BP) (D:=D) ch t idx)).
  { unfold getReader_loop. quiet. apply getReader_body_quiet. }
  unfold getReader, getReader_resume. destruct (Z.leb_spec 0 idx); [lia|]. split; quiet; exact HL.
Qed.

Lemma close_pipes_quiet sel : keeps quiet (close_pipes (BP:=BP) (D:=D) sel).
Proof.
  apply keeps_modify. intros b. split; [done|done|]. intros l. cbn. unfold close_set.
  induction (map_to_list _).*2 as [|l' ls IH]; [done|]. intros Hl. cbn [foldr]. rewrite lookup_alter.
  case_decide; [|by apply IH]. subst. destruct (IH Hl) as [q ->]. by eexists.
Qed.

(** ** Requests *)

Lemma keeps_eases {A} (m : M (@poolst BP D) A) : keeps quiet m -> keeps eases m.
Proof. intros H b. destruct (H b). split; [by apply quiet_eases|done]. Qed.

Lemma wake_all_eases : keeps eases (wake_all (BP:=BP) (D:=D)).
Proof.
  intros b. split; [|done]. split; auto. intros t. change (wrCond (pp (wake_all b).2)) with (Broadcast (wrCond (pp b))).
  by rewrite Broadcast_members.
Qed.

Lemma restore_eases ch p : keeps eases (restore (BP:=BP) (D:=D) ch p).
Proof.
  unfold restore. apply keeps_bind; [apply _|apply keeps_get, _|]. intros b. destruct (remove _ _ _) as [ok a].
  apply keeps_bind; [apply _|by apply keeps_eases, upd_quiet|]. intros _. destruct (negb ok); [apply keeps_panic, _|].
  destruct p as [l|]; [|apply keeps_panic, _]. apply keeps_bind; [apply _|apply keeps_eases, upd_pipe_quiet|]. intros _.
  apply keeps_bind; [apply _|apply keeps_get, _|]. intros b1. destruct (_ <=? _); [|by apply keeps_eases, upd_quiet].
  apply keeps_bind; [apply _|apply keeps_eases, lift_quiet, push_fuel|]. intros f.
  apply keeps_bind; [apply _|by apply keeps_eases, upd_quiet|]. intros _. apply keeps_modify. intros b2.
  apply wr_eases; [done|done|]. left. by exists ch.
Qed.

Lemma request_eases ch r s o s' : request ch r s = (o, s') ->
  eases (base s) (base s') /\ pending s' = pending s /\ o <> NoFuel.
Proof.
  unfold request. intros [= <- <-]. cbn [base pending]. enough (H : keeps eases (run_req (BP:=BP) (D:=D) ch r)).
  { destruct (H (base s)). done. }
  destruct r as [p|cnt| | |]; cbn [run_req].
  - apply restore_eases.
  - unfold setCapacity. apply keeps_bind; [apply _|by apply keeps_eases, upd_quiet|]. intros _. apply keeps_modify.
    intros b. apply wr_eases; [done|done|by right].
  - unfold interrupt. apply keeps_bind; [apply _|apply keeps_eases, close_pipes_quiet|intros _; apply keeps_eases, close_pipes_quiet].
  - apply wake_all_eases.
  - unfold terminate. apply keeps_bind; [apply _|apply keeps_eases, close_pipes_quiet|intros _].
    apply keeps_bind; [apply _|apply keeps_eases, close_pipes_quiet|intros _].
    apply keeps_bind; [apply _|by apply keeps_eases, upd_quiet|intros _; apply wake_all_eases].
Qed.

(** * One writer *)

(** The goroutine [t], which only ever asks for a pipe to write to. *)
Record awaits t s : Prop := Awaits {
  aw_member : is_Some (pending s !! t) -> t ∈ members (wrCond (pp (base s)));
  aw_closed : closed (pp (base s)) = true -> parked (wrCond (pp (base s))) = [];
}.

(** It does not sleep in a closed pool. *)
Lemma awaits_run ch t idx size mode data s :
  awaits t s -> closed (pp (base s)) = true -> enter ch t (CWriter idx size mode data) s <> None.
Proof.
  intros [H1 H2] Hc. unfold enter. destruct (pending s !! t) as [c|] eqn:Hp; [|done]. cbn [cond_of].
  rewrite decide_True; [done|]. assert (Hm : t ∈ members (wrCond (pp (base s)))) by (apply H1; by eexists).
  unfold members in Hm. by rewrite (H2 Hc) in Hm.
Qed.

Lemma awaits_eases t s s' : awaits t s -> eases (base s) (base s') -> pending s' !! t = pending s !! t -> awaits t s'.
Proof.
  intros [H1 H2] Ea Hp. split.
  - rewrite Hp. intros H. by apply (ea_members _ _ Ea), H1.
  - intros H. destruct (ea_wake _ _ Ea H) as [H'|H']; [|done]. apply (ea_parked _ _ Ea), H2, H'.
Qed.

Lemma awaits_reader ch t u idx s o s' :
  awaits t s -> t <> u -> idx < 0 -> enter ch u (CReader idx) s = Some (o, s') ->
  awaits t s' /\ eases (base s) (base s') /\ o <> NoFuel.
Proof.
  intros A Hne Hi. destruct (reader_quiet ch u idx Hi) as [Q1 Q2]. unfold enter.
  assert (HS : forall m r, keeps quiet m -> m (base s) = r ->
    awaits t (PSys r.2 (settle u (CReader idx) r.1 (pending s))) /\ eases (base s) r.2 /\ r.1 <> NoFuel).
  { intros m r Hm <-. destruct (Hm (base s)) as [Hq Hf]. apply quiet_eases in Hq. split; [|done].
    eapply awaits_eases; [done|exact Hq|]. cbn. destruct (m (base s)).1 as [[?|]| |]; cbn;
      rewrite ?lookup_delete_ne, ?lookup_insert_ne by congruence; done. }
  destruct (pending s !! u); [case_decide; [|done]|]; intros [= <- <-];
    [exact (HS _ _ Q2 eq_refl)|exact (HS _ _ Q1 eq_refl)].
Qed.

Lemma awaits_writer ch t idx size mode data s o s' :
  awaits t s -> enter ch t (CWriter idx size mode data) s = Some (o, s') ->
  awaits t s' /\ closed (pp (base s')) = closed (pp (base s)) /\
  (forall l, is_Some (heap (base s) !! l) -> is_Some (heap (base s') !! l)) /\ o <> NoFuel.
Proof.
  intros [A1 A2].
  assert (HL : forall b (pend : gmap tid (@call D)), closed (pp b) = closed (pp (base s)) ->
    (forall l, is_Some (heap (base s) !! l) -> is_Some (heap b !! l)) ->
    (closed (pp b) = true -> parked (wrCond (pp b)) = []) ->
    let r := getWriter_loop ch t idx size mode data b in
    awaits t (PSys r.2 (settle t (CWriter idx size mode data) r.1 pend)) /\ closed (pp r.2) = closed (pp (base s)) /\
    (forall l, is_Some (heap (base s) !! l) -> is_Some (heap r.2 !! l)) /\ r.1 <> NoFuel).
  { intros b pend Hc Hh Hp. unfold getWriter_loop, upd. mrun. destruct (wr_blocked idx (pp b)) eqn:Hb.
    - split; [|done]. split; cbn; [intros _; rewrite park_members; by left|]. intros H. unfold wr_blocked in Hb.
      by rewrite H in Hb.
    - destruct (getWriter_body_quiet ch idx size mode data b) as [[Q1 Q2 Q3] Qf].
      destruct (getWriter_body ch idx size mode data b) as [[x|p|] b1]; cbn in *; [| |done];
        (split; [split; cbn; rewrite ?Q1, ?Q2; rewrite ?lookup_delete_eq; [by intros []|done]|]);
        (split; [congruence|]); (split; [auto|done]). }
  unfold enter. destruct (pending s !! t).
  - case_decide; [|done]. cbn [resume_call]. intros [= <- <-]. unfold getWriter_resume, upd. mrun. by apply HL.
  - cbn [run_call]. intros [= <- <-]. unfold getWriter. destruct (idx <? 0); [|by apply HL]. cbn.
    split; [split; cbn; [rewrite lookup_delete_eq; by intros []|done]|]. done.
Qed.

(** The pipe that a writer gets is there. *)
Lemma writer_pipe ch t idx size mode data s l s' :
  enter ch t (CWriter idx size mode data) s = Some (Ret (Some (Some l)), s') -> is_Some (heap (base s') !! l).
Proof.
  assert (HA : forall b b1, acquire_pipe ch size mode b = (Ret l, b1) -> is_Some (heap b1 !! l)).
  { intros b b1. unfold acquire_pipe, upd. mrun. destruct (pop ch (heap b) (free (pp b))) as [[k|] f]; mrun.
    - set (b2 := PoolSt _ (heap b)). intros H.
      assert (HQ : keeps quiet (recycle_pipe (BP:=BP) (D:=D) k size mode)) by (unfold recycle_pipe; quiet).
      destruct (HQ b2) as [Q _]. destruct (recycle_pipe k size mode b2) as [[u|p|] b3] eqn:Hr; [|done|done].
      injection H as -> <-. apply (qt_heap _ _ Q). revert Hr. unfold recycle_pipe. mrun.
      by destruct (heap b !! l).
    - unfold alloc_pipe, go_make, upd. mrun. destruct (size <? 0); [done|]. intros [= <- <-]. cbn.
      rewrite lookup_insert_eq. by eexists. }
  assert (HB : forall b b1, getWriter_loop ch t idx size mode data b = (Ret (Some (Some l)), b1) -> is_Some (heap b1 !! l)).
  { intros b b1. unfold getWriter_loop. mrun. destruct (wr_blocked idx (pp b)); [done|].
    unfold getWriter_body. mrun. destruct (closed (pp b)); [done|].
    destruct (acquire_pipe ch size mode b) as [[k|p|] b2] eqn:Ha; [|done|done].
    assert (HQ : keeps quiet (publish_pipe (BP:=BP) (D:=D) ch k idx data)) by (unfold publish_pipe; quiet).
    destruct (HQ b2) as [Q _]. destruct (publish_pipe ch k idx data b2) as [[x|p|] b3] eqn:Hp; [|done|done]. intros [= -> <-].
    apply (qt_heap _ _ Q), (HA b). rewrite Ha. do 2 f_equal. revert Hp. unfold publish_pipe, upd_pipe, lift, upd. mrun.
    destruct (entries _ !! idx); [done|]. destruct (ready (pp b2)); [by intros [= -> _]|done]. }
  unfold enter. destruct (pending s !! t).
  - case_decide; [|done]. cbn [resume_call]. intros [= Ho <-]. cbn [base]. revert Ho. unfold getWriter_resume, upd. mrun.
    intros Ho. eapply HB. by rewrite <- Ho, <- surjective_pairing.
  - cbn [run_call]. intros [= Ho <-]. cbn [base]. revert Ho. unfold getWriter. destruct (idx <? 0); [done|].
    intros Ho. eapply HB. by rewrite <- Ho, <- surjective_pairing.
Qed.

End quiet.
