(* ===== verification/PoolWork.v ===== *)
(** The work in a pipe pool: how many pipes are ready, and how a call that does
    not return goes to sleep. What is needed to see that goroutines that share a
    pool cannot run for ever. *)

From S2P Require Import Prelude Bufpipe Pool PoolInv PoolWait PoolView.

Section work.
Context {BP : Bufpipe} {D : Type}.
Implicit Types (b : @poolst BP D) (s : @psys BP D) (t u : tid).

(** The ready pipes. *)
Definition stock b : Z := set_size (ready (pp b)).

(** The goroutines that were released and did not run yet. *)
Definition wakes b : nat := (length (woken (wrCond (pp b))) + length (woken (rdCond (pp b))))%nat.

(** A goroutine that is not asleep in the pool may still go to sleep there. *)
Definition may_sleep t s : Z := match pending s !! t with Some _ => 0 | None => 1 end.

Lemma stock_nonneg b : 0 <= stock b.
Proof. unfold stock, set_size. lia. Qed.

Lemma may_sleep_range t s : 0 <= may_sleep t s <= 1.
Proof. unfold may_sleep. by destruct (pending s !! t). Qed.

(** ** Sleep *)

Lemma settle_others t u c o (pend : gmap tid (@call D)) : u <> t -> settle t c o pend !! u = pend !! u.
Proof. intros Hne. unfold settle. destruct o as [[r|]|p|]; by rewrite ?lookup_delete_ne, ?lookup_insert_ne by congruence. Qed.

Lemma enter_others ch t u c s o s' : enter ch t c s = Some (o, s') -> u <> t -> may_sleep u s' = may_sleep u s.
Proof.
  intros H Hne. unfold may_sleep. revert H. unfold enter. destruct (pending s !! t); [case_decide; [|done]|]; intros [= _ <-];
    cbn [pending]; by rewrite settle_others.
Qed.

Lemma unwake_fewer t c : t ∈ woken c -> (length (woken (unwake t c)) < length (woken c))%nat.
Proof. intros H. unfold unwake. cbn. apply (length_filter_lt _ _ t H). naive_solver. Qed.

(** A call that does not return sleeps, for the first time or because it was
    released in vain. *)
Lemma enter_sleeps ch t c s s' :
  enter ch t c s = Some (Ret None, s') ->
  may_sleep t s' = 0 /\ (may_sleep t s = 1 \/ may_sleep t s = 0 /\ (wakes (base s') < wakes (base s))%nat).
Proof.
  unfold enter, may_sleep. destruct (pending s !! t) as [c'|]; [|intros [= Ho <-]; cbn [pending]; rewrite Ho; cbn;
    rewrite lookup_insert_eq; auto].
  case_decide as Hw; [|done]. intros [= Ho <-]. cbn [pending base]. rewrite Ho. cbn. rewrite lookup_insert_eq. split; [done|right].
  split; [done|]. pose proof (unwake_fewer t _ Hw) as Hl. revert Ho. destruct c as [idx size mode data|idx]; cbn [resume_call cond_of] in *.
  - unfold getWriter_resume, getWriter_loop, upd. mrun. destruct (wr_blocked _ _); cbn; [unfold wakes; cbn in *; lia|].
    by destruct (getWriter_body _ _ _ _ _ _) as [[r|p|] b1].
  - unfold getReader_resume, getReader_loop, upd. mrun. destruct (rd_blocked _ _); cbn; [unfold wakes; cbn in *; lia|].
    by destruct (getReader_body _ _ _) as [[r|p|] b1].
Qed.

(** ** Stock *)

Lemma stock_same b b' : entries (ready (pp b')) = entries (ready (pp b)) -> stock b' = stock b.
Proof. unfold stock, set_size. by intros ->. Qed.

Lemma stock_new idx size mode data l b b' : new_pipe idx size mode data l b b' -> stock b' = stock b + 1.
Proof.
  intros N. unfold stock, set_size. rewrite (np_ready _ _ _ _ _ _ _ N), map_size_insert_None by apply N. lia.
Qed.

Lemma stock_taken k l b b' : taken k l b b' -> stock b' = stock b - 1.
Proof.
  intros T. pose proof (tk_was _ _ _ _ T) as Hk. unfold stock, set_size. rewrite (tk_ready _ _ _ _ T), map_size_delete_Some by (by eexists).
  assert (size (entries (ready (pp b))) <> 0%nat); [|lia]. intros H0%map_size_empty_inv. by rewrite H0 in Hk.
Qed.

Lemma enter_writer_stock {BS : BufpipeSpec BP} ch t idx size mode data s r s' :
  core 0 (base s) -> enter ch t (CWriter idx size mode data) s = Some (Ret r, s') ->
  stock (base s') = stock (base s) + match r with Some (Some _) => 1 | _ => 0 end.
Proof.
  intros C E0. destruct (enter_writer _ _ _ _ _ _ _ _ _ C E0) as [_ H]. destruct r as [[l|]|].
  - by eapply stock_new.
  - destruct H as [S _]. rewrite (stock_same _ _ (ss_ready _ _ S)). lia.
  - rewrite (stock_same _ _ (ss_ready _ _ H)). lia.
Qed.

Lemma enter_reader_stock ch t idx s o s' :
  core 0 (base s) -> enter ch t (CReader idx) s = Some (o, s') ->
  stock (base s') = stock (base s) - match o with Ret (Some (Some _)) => 1 | _ => 0 end.
Proof.
  intros C E0. destruct (enter_reader _ _ _ _ _ _ C E0) as [_ H]. destruct o as [[[l|]|]|p|].
  - destruct H as (k & _ & T). by eapply stock_taken.
  - destruct H as [S _]. rewrite (stock_same _ _ (ss_ready _ _ S)). lia.
  - rewrite (stock_same _ _ (ss_ready _ _ H)). lia.
  - destruct H as [S _]. rewrite (stock_same _ _ (ss_ready _ _ S)). lia.
  - done.
Qed.

Lemma restore_stock {BS : BufpipeSpec BP} ch l s o s' :
  core 0 (base s) -> (forall l', entries (active (pp (base s))) !! idx_of (heap (base s)) l = Some l' -> l' = l) ->
  request ch (RRestore (Some l)) s = (o, s') -> stock (base s') = stock (base s) /\ pending s' = pending s.
Proof.
  intros C Hown. unfold request. cbn [run_req]. intros [= _ <-]. split; [|done]. cbn [base].
  destruct (restore ch (Some l) (base s)) as [o' b'] eqn:E0.
  destruct (restore_spec (base s) ch (Some l) o' b' (pending s) C Hown E0) as (_ & _ & _ & _ & _ & Hr & _).
  apply stock_same. cbn [snd]. by rewrite Hr.
Qed.

(** The requests that come from no holder of a pipe. *)
Lemma request_stock ch r s :
  match r with RRestore _ => False | _ => True end ->
  stock (base (request ch r s).2) <= stock (base s) /\ pending (request ch r s).2 = pending s.
Proof.
  intros Hr. split; [|done]. destruct r as [p|n| | |]; try done. apply stock_nonneg.
Qed.

End work.
