(* ===== verification/WorkerPool.v ===== *)
(** [xz/pool.go], the pool of worker goroutines: it spawns and kills workers
    to reach a requested number, and a single monitor goroutine calls the [end]
    callback once all of them are gone. *)

From S2P Require Import Prelude.

(** A [killChan]; channels are compared by identity. *)
Abbreviation chan := positive.

(** * Data *)

(** [wp.work] and [wp.end] are callbacks: the goroutines that run [work] are
    [running], and [ended] counts the calls of [end]. [group] is the counter of
    the [sync.WaitGroup]; [once] says that [once.Do] ran its argument;
    [waiting] says that the goroutine of [monitor] is inside [group.Wait]. *)
Record workerPool : Type := WorkerPool {
  workers : list chan;
  wp_closed : bool;
  group : Z;
  once : bool;
  waiting : bool;
  has_end : bool;
  ended : nat;
  running : gset chan;
  closed_chans : gset chan;
  made : gset chan;
}.

Definition newWorkerPool (has_end : bool) : workerPool :=
  WorkerPool [] false 0 false false has_end 0 ∅ ∅ ∅.

(** * Operations *)

(** [monitor] starts the waiting goroutine. *)
Definition monitor : M workerPool unit := modify (fun w =>
  WorkerPool (workers w) (wp_closed w) (group w) (once w) true (has_end w) (ended w)
    (running w) (closed_chans w) (made w)).

(** [once.Do(f)] *)
Definition once_do (f : M workerPool unit) : M workerPool unit :=
  w ← get;
  if once w then mret tt
  else
    put (WorkerPool (workers w) (wp_closed w) (group w) true (waiting w) (has_end w) (ended w)
           (running w) (closed_chans w) (made w));;
    f.

(** One turn of the first loop of [setCapacity]: a new channel, [group.Add(1)],
    [go wp.work(...)], and the channel is recorded. *)
Definition spawn : M workerPool unit :=
  w ← get;
  let c := fresh (made w) in
  put (WorkerPool (workers w ++ [c]) (wp_closed w) (group w + 1) (once w) (waiting w) (has_end w)
         (ended w) ({[c]} ∪ running w) (closed_chans w) ({[c]} ∪ made w));;
  once_do monitor.

(** [close(c)] panics on a channel that is closed already. *)
Definition close_chan (c : chan) : M workerPool unit :=
  w ← get;
  if decide (c ∈ closed_chans w) then panic (PStr "close of closed channel")
  else put (WorkerPool (workers w) (wp_closed w) (group w) (once w) (waiting w) (has_end w)
              (ended w) (running w) ({[c]} ∪ closed_chans w) (made w)).

Definition set_workers (l : list chan) : M workerPool unit := modify (fun w =>
  WorkerPool l (wp_closed w) (group w) (once w) (waiting w) (has_end w) (ended w)
    (running w) (closed_chans w) (made w)).

(** One turn of the second loop: the newest worker is dropped and killed. The
    index is out of range when the list is empty. *)
Definition kill : M workerPool unit :=
  w ← get;
  match last (workers w) with
  | None => panic (PRun IndexOutOfRange)
  | Some c => set_workers (removelast (workers w));; close_chan c
  end.

Fixpoint spawn_loop (fuel : nat) (cnt : Z) : M workerPool unit :=
  w ← get;
  if zlen (workers w) <? cnt then
    match fuel with
    | O => no_fuel
    | S f => spawn;; spawn_loop f cnt
    end
  else mret tt.

Fixpoint kill_loop (fuel : nat) (cnt : Z) : M workerPool unit :=
  w ← get;
  if cnt <? zlen (workers w) then
    match fuel with
    | O => no_fuel
    | S f => kill;; kill_loop f cnt
    end
  else mret tt.

(** [fuel] bounds the turns of each loop. *)
Definition setCapacity (fuel : nat) (cnt : Z) : M workerPool unit :=
  w ← get;
  if wp_closed w then mret tt
  else spawn_loop fuel cnt;; kill_loop fuel cnt.

Fixpoint close_all (cs : list chan) : M workerPool unit :=
  match cs with
  | [] => mret tt
  | c :: cs => close_chan c;; close_all cs
  end.

Definition terminate : M workerPool unit :=
  modify (fun w => WorkerPool (workers w) true (group w) (once w) (waiting w) (has_end w) (ended w)
                     (running w) (closed_chans w) (made w));;
  w ← get;
  close_all (workers w);;
  set_workers [].

(** * The goroutines *)

(** A worker returns: its deferred [group.Done()] runs. *)
Definition worker_exit (c : chan) (w : workerPool) : workerPool :=
  WorkerPool (workers w) (wp_closed w) (group w - 1) (once w) (waiting w) (has_end w) (ended w)
    (running w ∖ {[c]}) (closed_chans w) (made w).

(** [group.Wait()] returned: the monitor calls [wp.end] if it is not nil. *)
Definition monitor_end (w : workerPool) : workerPool :=
  WorkerPool (workers w) (wp_closed w) (group w) (once w) false (has_end w)
    (if has_end w then S (ended w) else ended w) (running w) (closed_chans w) (made w).

(** Turns that are enough for both loops. *)
Definition turns (cnt : Z) (w : workerPool) : nat := (Z.to_nat cnt + length (workers w))%nat.

Inductive wstep : workerPool -> workerPool -> Prop :=
| w_setCapacity cnt w : 0 <= cnt -> wstep w (setCapacity (turns cnt w) cnt w).2
| w_terminate w : wstep w (terminate w).2
| w_exit c w : c ∈ running w -> wstep w (worker_exit c w)
| w_end w : waiting w = true -> group w = 0 -> wstep w (monitor_end w).

Definition wreachable (w : workerPool) : Prop :=
  exists e, rtc wstep (newWorkerPool e) w.

(** * The invariant *)

Record wp_inv (w : workerPool) : Prop := WpInv {
  wi_nodup : NoDup (workers w);
  wi_open c : c ∈ workers w -> c ∉ closed_chans w;
  wi_workers c : c ∈ workers w -> c ∈ made w;
  wi_closed c : c ∈ closed_chans w -> c ∈ made w;
  wi_running c : c ∈ running w -> c ∈ made w;
  wi_killed c : c ∈ made w -> c ∈ workers w \/ c ∈ closed_chans w;
  wi_group : group w = Z.of_nat (size (running w));
  wi_once : once w = false -> waiting w = false /\ ended w = 0%nat;
  wi_ended : waiting w = true -> ended w = 0%nat;
  wi_ended1 : (ended w <= 1)%nat;
}.

(** ** The loops *)

(** [n] spawns: the new workers come after the old ones. *)
Record spawned (w w' : workerPool) (new : list chan) : Prop := Spawned {
  sp_inv : wp_inv w';
  sp_workers : workers w' = workers w ++ new;
  sp_once : once w = true \/ new <> [] -> once w' = true;
  sp_closed : wp_closed w' = wp_closed w;
  sp_chans : closed_chans w' = closed_chans w;
  sp_running c : c ∈ running w' <-> c ∈ running w \/ c ∈ new;
  sp_end : has_end w' = has_end w;
}.

Lemma spawn_run w :
  wp_inv w -> exists w', spawn w = (Ret tt, w') /\ spawned w w' [fresh (made w)].
Proof.
  intros [N O Mw Mc Mr K G On E E1]. pose proof (is_fresh (made w)) as Hf.
  unfold spawn, once_do, monitor. mrun. set (c := fresh (made w)) in *.
  assert (c ∉ workers w) as F1 by (intros H; by apply Hf, Mw).
  assert (c ∉ closed_chans w) as F2 by (intros H; by apply Hf, Mc).
  assert (c ∉ running w) as F3 by (intros H; by apply Hf, Mr).
  assert (forall wt, (wt = true -> ended w = 0%nat) ->
    let w' := WorkerPool (workers w ++ [c]) (wp_closed w) (group w + 1) true wt (has_end w)
                (ended w) ({[c]} ∪ running w) (closed_chans w) ({[c]} ∪ made w) in
    spawned w w' [c]) as HI.
  { intros wt Hwt. split; [split|..]; cbn; try done.
    - apply NoDup_app. split_and!; [done| |apply NoDup_singleton].
      intros x Hx Hc%list_elem_of_singleton. by subst.
    - intros x [Hx|Hx%list_elem_of_singleton]%elem_of_app; [by apply O|by subst].
    - intros x [Hx%Mw|Hx%list_elem_of_singleton]%elem_of_app; set_solver.
    - intros x Hx%Mc. set_solver.
    - intros x [Hx%elem_of_singleton|Hx%Mr]%elem_of_union; set_solver.
    - intros x [Hx%elem_of_singleton|[Hx|Hx]%K]%elem_of_union; rewrite elem_of_app;
        rewrite list_elem_of_singleton; auto.
    - rewrite size_union, size_singleton by set_solver. lia.
    - intros x. rewrite elem_of_union, elem_of_singleton, list_elem_of_singleton. tauto. }
  destruct (once w) eqn:Eo; mrun; eexists; (split; [reflexivity|]); apply HI; [done|].
  intros _. by apply On.
Qed.

Lemma spawn_loop_run cnt : forall fuel w,
  wp_inv w -> cnt - zlen (workers w) <= Z.of_nat fuel ->
  exists w' new, spawn_loop fuel cnt w = (Ret tt, w') /\ spawned w w' new /\
    zlen (workers w') = Z.max cnt (zlen (workers w)).
Proof.
  assert (forall w, wp_inv w -> cnt <= zlen (workers w) ->
    exists w' new, (Ret tt, w) = (Ret tt, w') /\ spawned w w' new /\
      zlen (workers w') = Z.max cnt (zlen (workers w))) as Stop.
  { intros w I H. exists w, []. split; [done|]. split; [|lia].
    split; try done; [by rewrite app_nil_r|naive_solver|].
    intros c. rewrite elem_of_nil. tauto. }
  induction fuel as [|f IH]; intros w I Hf; cbn [spawn_loop]; mrun;
    destruct (Z.ltb_spec (zlen (workers w)) cnt) as [Hlt|Hge].
  - lia.
  - by apply Stop.
  - destruct (spawn_run w I) as (w1&E1&[I1 W1 O1 C1 X1 R1 N1]). rewrite E1.
    assert (zlen (workers w1) = zlen (workers w) + 1) as HL
      by (rewrite W1; unfold zlen; rewrite length_app; cbn; lia).
    destruct (IH w1 I1) as (w2&new&E2&[I2 W2 O2 C2 X2 R2 N2]&L2); [lia|].
    exists w2, (fresh (made w) :: new). split; [done|]. split; [|lia].
    split; try done.
    + by rewrite W2, W1, <- app_assoc.
    + intros _. apply O2. left. apply O1. by right.
    + by rewrite C2, C1.
    + by rewrite X2, X1.
    + intros c. rewrite R2, R1, list_elem_of_singleton, elem_of_cons. tauto.
    + by rewrite N2, N1.
  - by apply Stop.
Qed.

Lemma kill_run w :
  wp_inv w -> workers w <> [] ->
  exists w', kill w = (Ret tt, w') /\ wp_inv w' /\ workers w' = removelast (workers w) /\
    (exists c, last (workers w) = Some c /\ closed_chans w' = {[c]} ∪ closed_chans w) /\
    running w' = running w /\ wp_closed w' = wp_closed w /\ has_end w' = has_end w.
Proof.
  intros [N O Mw Mc Mr K G On E E1] Hne. unfold kill, close_chan, set_workers. mrun.
  destruct (last (workers w)) as [c|] eqn:Hl; [|by apply last_None in Hl].
  apply last_Some in Hl as [l Hl].
  assert (removelast (workers w) = l) as Hr by (rewrite Hl; apply removelast_last).
  rewrite Hl in N. apply NoDup_app in N as (N1&N2&_).
  mrun. rewrite decide_False by (apply O; rewrite Hl; set_solver).
  eexists. split; [reflexivity|]. cbn. rewrite Hr. split; [|split_and!; eauto].
  split; cbn; try done.
  - intros x Hx. specialize (N2 x Hx). specialize (O x). rewrite Hl in O. set_solver.
  - intros x Hx. apply Mw. rewrite Hl. set_solver.
  - intros x [->%elem_of_singleton|Hx%Mc]%elem_of_union; [apply Mw; rewrite Hl|]; set_solver.
  - intros x [Hx|Hx]%K; [|set_solver]. rewrite Hl in Hx. set_solver.
Qed.

Lemma kill_loop_run cnt : 0 <= cnt -> forall fuel w,
  wp_inv w -> zlen (workers w) - cnt <= Z.of_nat fuel ->
  exists w', kill_loop fuel cnt w = (Ret tt, w') /\ wp_inv w' /\
    workers w' = take (Z.to_nat cnt) (workers w) /\
    (forall c, c ∈ closed_chans w' <-> c ∈ closed_chans w \/ c ∈ drop (Z.to_nat cnt) (workers w)) /\
    running w' = running w /\ wp_closed w' = wp_closed w /\ has_end w' = has_end w.
Proof.
  intros Hcnt.
  assert (forall w, wp_inv w -> zlen (workers w) <= cnt ->
    exists w', (Ret tt, w) = (Ret tt, w') /\ wp_inv w' /\
      workers w' = take (Z.to_nat cnt) (workers w) /\
      (forall c, c ∈ closed_chans w' <-> c ∈ closed_chans w \/ c ∈ drop (Z.to_nat cnt) (workers w)) /\
      running w' = running w /\ wp_closed w' = wp_closed w /\ has_end w' = has_end w) as Stop.
  { intros w I H. exists w. unfold zlen in H.
    rewrite take_ge, drop_ge by lia. split_and!; try done. intros c. rewrite elem_of_nil. tauto. }
  induction fuel as [|f IH]; intros w I Hf; cbn [kill_loop]; mrun;
    destruct (Z.ltb_spec cnt (zlen (workers w))) as [Hlt|Hge]; [lia|by apply Stop| |by apply Stop].
  destruct (kill_run w I) as (w1&E1&I1&W1&(c&Hc&X1)&R1&C1&N1).
  { intros Hn. rewrite Hn in Hlt. unfold zlen in Hlt. cbn in Hlt. lia. }
  rewrite E1. apply last_Some in Hc as [l Hl].
  assert (workers w1 = l) as Hw1 by (rewrite W1, Hl; apply removelast_last).
  assert (zlen (workers w) = zlen l + 1) as HL by (rewrite Hl; unfold zlen; rewrite length_app; cbn; lia).
  destruct (IH w1 I1) as (w2&E2&I2&W2&X2&R2&C2&N2); [rewrite Hw1; lia|].
  exists w2. split_and!; try done.
  - rewrite W2, Hw1, Hl, take_app_le; [done|unfold zlen in *; lia].
  - intros x. rewrite X2, X1, Hw1, Hl, drop_app_le by (unfold zlen in *; lia). set_solver.
  - by rewrite R2, R1.
  - by rewrite C2, C1.
  - by rewrite N2, N1.
Qed.

(** ** The operations *)

Lemma setCapacity_run w fuel cnt :
  wp_inv w -> wp_closed w = false -> 0 <= cnt ->
  cnt - zlen (workers w) <= Z.of_nat fuel -> zlen (workers w) - cnt <= Z.of_nat fuel ->
  exists w' new, setCapacity fuel cnt w = (Ret tt, w') /\ wp_inv w' /\
    workers w' = take (Z.to_nat cnt) (workers w) ++ new /\ zlen (workers w') = cnt /\
    (forall c, c ∈ closed_chans w' <-> c ∈ closed_chans w \/ c ∈ drop (Z.to_nat cnt) (workers w)) /\
    (forall c, c ∈ running w' <-> c ∈ running w \/ c ∈ new) /\
    wp_closed w' = false /\ has_end w' = has_end w.
Proof.
  intros I Hc Hcnt H1 H2. unfold setCapacity. mrun. rewrite Hc.
  destruct (spawn_loop_run cnt fuel w I H1) as (w1&new&E1&[I1 W1 O1 C1 X1 R1 N1]&L1). rewrite E1.
  destruct (kill_loop_run cnt Hcnt fuel w1 I1) as (w2&E2&I2&W2&X2&R2&C2&N2).
  { destruct (Z.max_spec cnt (zlen (workers w))); lia. }
  rewrite E2. destruct (Z.leb_spec (zlen (workers w)) cnt) as [Hle|Hgt].
  - exists w2, new. assert (zlen (workers w1) = cnt) as HL by lia. unfold zlen in Hle, HL.
    rewrite W2, (take_ge (workers w1)) by lia. rewrite (take_ge (workers w)), (drop_ge (workers w)) by lia.
    split_and!; try done.
    + intros c. rewrite X2, X1, drop_ge by lia. done.
    + intros c. by rewrite R2, R1.
    + by rewrite C2, C1.
    + by rewrite N2, N1.
  - assert (new = []) as ->.
    { rewrite W1 in L1. unfold zlen in *. rewrite length_app in L1. destruct new; cbn in *; [done|lia]. }
    rewrite app_nil_r in W1. exists w2, []. rewrite W2, W1, app_nil_r. split_and!; try done.
    + unfold zlen in *. rewrite length_take. lia.
    + intros c. by rewrite X2, X1, W1.
    + intros c. rewrite R2, R1. done.
    + by rewrite C2, C1.
    + by rewrite N2, N1.
Qed.

Lemma close_all_run : forall cs w,
  NoDup cs -> (forall c, c ∈ cs -> c ∉ closed_chans w) ->
  close_all cs w =
    (Ret tt, WorkerPool (workers w) (wp_closed w) (group w) (once w) (waiting w) (has_end w)
               (ended w) (running w) (list_to_set cs ∪ closed_chans w) (made w)).
Proof.
  induction cs as [|c cs IH]; intros w N H; cbn.
  { mrun. rewrite union_empty_l_L. by destruct w. }
  apply NoDup_cons in N as [Nc N]. unfold close_chan. mrun.
  rewrite decide_False by (apply H; left). rewrite IH; cbn; [|done|].
  - do 2 f_equal. set_solver.
  - intros x Hx. specialize (H x). set_solver.
Qed.

Lemma terminate_run w :
  wp_inv w ->
  exists w', terminate w = (Ret tt, w') /\ wp_inv w' /\ workers w' = [] /\ wp_closed w' = true /\
    (forall c, c ∈ made w' -> c ∈ closed_chans w') /\ made w' = made w /\ running w' = running w.
Proof.
  intros [N O Mw Mc Mr K G On E E1]. unfold terminate, set_workers. mrun.
  rewrite close_all_run by done. cbn. eexists. split; [reflexivity|]. cbn.
  assert (forall c, c ∈ made w -> c ∈ (list_to_set (workers w) : gset chan) ∪ closed_chans w) as HK
    by (intros c [Hc|Hc]%K; set_solver).
  split_and!; try done. split; cbn; try done.
  - apply NoDup_nil_2.
  - intros c Hc. by apply elem_of_nil in Hc.
  - intros c Hc. by apply elem_of_nil in Hc.
  - intros c [Hc%elem_of_list_to_set|Hc]%elem_of_union; auto.
  - intros c Hc. right. by apply HK.
Qed.

Lemma turns_enough cnt w :
  0 <= cnt ->
  cnt - zlen (workers w) <= Z.of_nat (turns cnt w) /\
  zlen (workers w) - cnt <= Z.of_nat (turns cnt w).
Proof. unfold turns, zlen. lia. Qed.

Lemma worker_exit_inv c w : wp_inv w -> c ∈ running w -> wp_inv (worker_exit c w).
Proof.
  intros [N O Mw Mc Mr K G On E E1] Hc. split; cbn; try done.
  - intros x Hx. apply Mr. set_solver.
  - rewrite size_difference, size_singleton by set_solver.
    assert (size (running w) <> 0%nat) by (apply size_non_empty_iff; set_solver). lia.
Qed.

Lemma monitor_end_inv w : wp_inv w -> waiting w = true -> wp_inv (monitor_end w).
Proof.
  intros [N O Mw Mc Mr K G On E E1] Hw. specialize (E Hw). split; cbn; try done.
  - intros Ho. destruct (On Ho) as [? _]. congruence.
  - destruct (has_end w); lia.
Qed.

Lemma wstep_inv w w' : wp_inv w -> wstep w w' -> wp_inv w'.
Proof.
  intros I Hs. destruct Hs as [cnt w0 Hc|w0|c w0 Hc|w0 Hw Hg].
  - destruct (wp_closed w0) eqn:Ec.
    + unfold setCapacity. mrun. rewrite Ec. done.
    + destruct (turns_enough cnt w0 Hc).
      destruct (setCapacity_run w0 (turns cnt w0) cnt) as (w1&new&E&I1&_); try done. by rewrite E.
  - destruct (terminate_run w0 I) as (w1&E&I1&_). by rewrite E.
  - by apply worker_exit_inv.
  - by apply monitor_end_inv.
Qed.

Lemma wreachable_inv w : wreachable w -> wp_inv w.
Proof.
  intros [e H].
  assert (wp_inv (newWorkerPool e)) as I0.
  { split; cbn; try done; [apply NoDup_nil_2|..|lia]; intros c Hc; exfalso; set_solver. }
  revert I0. induction H; eauto using wstep_inv.
Qed.

(** * Theorems *)

(** C39: [setCapacity n] on an open pool ends with exactly [n] workers: it
    terminates, spawns only what is missing, and kills only the newest workers
    above [n], closing each kill channel once (closing one twice would panic). *)
Theorem wp_setCapacity_exact w cnt :
  wreachable w -> wp_closed w = false -> 0 <= cnt ->
  exists w' new, setCapacity (turns cnt w) cnt w = (Ret tt, w') /\
    workers w' = take (Z.to_nat cnt) (workers w) ++ new /\ zlen (workers w') = cnt /\
    (forall c, c ∈ closed_chans w' <-> c ∈ closed_chans w \/ c ∈ drop (Z.to_nat cnt) (workers w)) /\
    (forall c, c ∈ running w' <-> c ∈ running w \/ c ∈ new).
Proof.
  intros H%wreachable_inv Hc Hcnt. destruct (turns_enough cnt w Hcnt).
  destruct (setCapacity_run w (turns cnt w) cnt) as (w'&new&?&_&?&?&?&?&_); try done.
  by exists w', new.
Qed.

(** [terminate] kills every worker that was ever spawned and not killed
    before, each once, and from then on [setCapacity] spawns nobody. *)
Theorem wp_terminate_kills_all w :
  wreachable w ->
  exists w', terminate w = (Ret tt, w') /\ workers w' = [] /\
    (forall c, c ∈ running w' -> c ∈ closed_chans w') /\
    forall fuel cnt, setCapacity fuel cnt w' = (Ret tt, w').
Proof.
  intros H%wreachable_inv. destruct (terminate_run w H) as (w'&E&I&W&C&K&M&R).
  exists w'. split_and!; try done.
  - intros c Hc. by apply K, (wi_running _ I).
  - intros fuel cnt. unfold setCapacity. mrun. by rewrite C.
Qed.

(** ** The operations never call [end] *)

Lemma spawn_loop_ended cnt : forall fuel w, ended (spawn_loop fuel cnt w).2 = ended w.
Proof.
  induction fuel as [|f IH]; intros w; cbn [spawn_loop]; mrun; destruct (_ <? cnt); try done.
  unfold spawn, once_do, monitor. mrun. destruct (once w); mrun; by rewrite IH.
Qed.

Lemma close_chan_ended c w : ended (close_chan c w).2 = ended w.
Proof. unfold close_chan. mrun. by case_decide. Qed.

Lemma kill_ended w : ended (kill w).2 = ended w.
Proof.
  unfold kill, set_workers. mrun. destruct (last (workers w)); mrun; [by rewrite close_chan_ended|done].
Qed.

Lemma kill_loop_ended cnt : forall fuel w, ended (kill_loop fuel cnt w).2 = ended w.
Proof.
  induction fuel as [|f IH]; intros w; cbn [kill_loop]; mrun; destruct (cnt <? _); try done.
  pose proof (kill_ended w) as K. destruct (kill w) as [[]]; cbn in *; [by rewrite IH|done..].
Qed.

Lemma close_all_ended : forall cs w, ended (close_all cs w).2 = ended w.
Proof.
  induction cs as [|c cs IH]; intros w; cbn; mrun; [done|].
  pose proof (close_chan_ended c w) as K. destruct (close_chan c w) as [[]]; cbn in *; [by rewrite IH|done..].
Qed.

Lemma setCapacity_ended fuel cnt w : ended (setCapacity fuel cnt w).2 = ended w.
Proof.
  unfold setCapacity. mrun. destruct (wp_closed w); [done|].
  pose proof (spawn_loop_ended cnt fuel w) as K.
  destruct (spawn_loop fuel cnt w) as [[]]; cbn in *; [by rewrite kill_loop_ended|done..].
Qed.

Lemma terminate_ended w : ended (terminate w).2 = ended w.
Proof.
  unfold terminate, set_workers. mrun.
  match goal with |- context [close_all ?cs ?x] => pose proof (close_all_ended cs x) as K;
    destruct (close_all cs x) as [[]] end; done.
Qed.

(** ** The goroutine of [monitor] *)

(** Once a worker was spawned, the goroutine of [monitor] waits or is done. *)
Definition started (w : workerPool) : Prop :=
  (once w = true -> waiting w = true \/ ended w <> 0%nat) /\ (workers w <> [] -> once w = true).

Lemma spawn_started w : started w -> started (spawn w).2.
Proof.
  intros [H1 H2]. unfold spawn, once_do, monitor. mrun. cbn [once].
  destruct (once w) eqn:Ho; mrun; (split; cbn; [|done]); [by auto|by left].
Qed.

Lemma spawn_loop_started cnt : forall fuel w, started w -> started (spawn_loop fuel cnt w).2.
Proof.
  induction fuel as [|f IH]; intros w H; cbn [spawn_loop]; mrun; destruct (_ <? cnt); try done.
  pose proof (spawn_started w H) as K. destruct (spawn w) as [[]]; cbn in *; [by apply IH|done..].
Qed.

Lemma kill_started w : started w -> started (kill w).2.
Proof.
  intros [H1 H2]. unfold kill, set_workers, close_chan. mrun. destruct (last (workers w)) as [c|] eqn:Hl; mrun; [|by split].
  assert (Ho : once w = true) by (apply H2; by intros E; rewrite E in Hl).
  case_decide; (split; cbn; [by auto|done]).
Qed.

Lemma kill_loop_started cnt : forall fuel w, started w -> started (kill_loop fuel cnt w).2.
Proof.
  induction fuel as [|f IH]; intros w H; cbn [kill_loop]; mrun; destruct (cnt <? _); try done.
  pose proof (kill_started w H) as K. destruct (kill w) as [[]]; cbn in *; [by apply IH|done..].
Qed.

Lemma setCapacity_started fuel cnt w : started w -> started (setCapacity fuel cnt w).2.
Proof.
  intros H. unfold setCapacity. mrun. destruct (wp_closed w); [done|].
  pose proof (spawn_loop_started cnt fuel w H) as K.
  destruct (spawn_loop fuel cnt w) as [[]]; cbn in *; [by apply kill_loop_started|done..].
Qed.

(** ** Whatever the state, the loops end *)

Lemma spawn_grows w : exists w', spawn w = (Ret tt, w') /\ zlen (workers w') = zlen (workers w) + 1.
Proof.
  assert (HL : forall c, zlen (workers w ++ [c]) = zlen (workers w) + 1) by (intros c; rewrite zlen_app, zlen_cons, zlen_nil; lia).
  unfold spawn, once_do, monitor. mrun. destruct (once w); mrun; eexists; (split; [reflexivity|]); apply HL.
Qed.

Lemma spawn_loop_ends cnt : forall fuel w, cnt - zlen (workers w) <= Z.of_nat fuel ->
  exists w', spawn_loop fuel cnt w = (Ret tt, w') /\ zlen (workers w') = Z.max cnt (zlen (workers w)).
Proof.
  induction fuel as [|f IH]; intros w Hf; cbn [spawn_loop]; mrun; destruct (Z.ltb_spec (zlen (workers w)) cnt); try lia;
    try (exists w; split; [done|lia]).
  destruct (spawn_grows w) as (w1 & -> & L1). destruct (IH w1) as (w2 & -> & L2); [lia|]. exists w2. split; [done|lia].
Qed.

Lemma kill_loop_ends cnt : forall fuel w, 0 <= cnt -> zlen (workers w) - cnt <= Z.of_nat fuel ->
  (kill_loop fuel cnt w).1 <> NoFuel.
Proof.
  induction fuel as [|f IH]; intros w Hc Hf; cbn [kill_loop]; mrun; destruct (Z.ltb_spec cnt (zlen (workers w))); try done; [lia|].
  unfold kill, set_workers, close_chan. mrun. destruct (last (workers w)) as [c|] eqn:Hl; mrun; [|done].
  apply last_Some in Hl as [l Hl]. case_decide; [done|]. apply IH; [done|]. cbn. rewrite Hl, removelast_last.
  rewrite Hl, zlen_app, zlen_cons, zlen_nil in Hf. lia.
Qed.

Lemma setCapacity_ends n w : 0 <= n -> (setCapacity (turns n w) n w).1 <> NoFuel.
Proof.
  intros Hn. unfold setCapacity, turns. mrun. destruct (wp_closed w); [done|]. unfold zlen.
  destruct (spawn_loop_ends n (Z.to_nat n + length (workers w)) w) as (w1 & -> & L1); [unfold zlen; lia|].
  apply kill_loop_ends; [done|]. unfold zlen in *. lia.
Qed.

Lemma terminate_ends w : (terminate w).1 <> NoFuel.
Proof.
  assert (HC : forall cs x, (close_all cs x).1 <> NoFuel).
  { induction cs as [|c cs IH]; intros x; [done|]. cbn [close_all]. unfold close_chan. mrun. case_decide; [done|]. apply IH. }
  unfold terminate, set_workers. mrun.
  match goal with |- context [close_all ?cs ?x] => pose proof (HC cs x) as K; destruct (close_all cs x) as [[]] end; done.
Qed.

(** ** What is left to do *)

(** How often the goroutine of [monitor] may still begin to wait, and end. *)
Definition naps (w : workerPool) : Z := (if once w then 0 else 2) + (if waiting w then 1 else 0).

Lemma naps_nonneg w : 0 <= naps w.
Proof. unfold naps. destruct (once w), (waiting w); lia. Qed.

Lemma spawn_effect w :
  exists c, running (spawn w).2 = {[c]} ∪ running w /\ naps (spawn w).2 <= naps w.
Proof.
  exists (fresh (made w)). unfold spawn, once_do, monitor, naps. mrun.
  destruct (once w), (waiting w); mrun; (split; [done|]); lia.
Qed.

(** The loop starts no more than what is missing. *)
Lemma spawn_loop_effect cnt : forall fuel w,
  Z.of_nat (size (running (spawn_loop fuel cnt w).2 ∖ running w)) <= Z.max 0 (cnt - zlen (workers w)) /\
  naps (spawn_loop fuel cnt w).2 <= naps w.
Proof.
  assert (HS : forall n w, Z.of_nat (size (running w ∖ running w)) <= Z.max 0 n /\ naps w <= naps w).
  { intros n w. rewrite difference_diag_L, size_empty. lia. }
  induction fuel as [|f IH]; intros w; cbn [spawn_loop]; mrun; destruct (Z.ltb_spec (zlen (workers w)) cnt); try apply HS.
  destruct (spawn_effect w) as (c & Hr & Hn). destruct (spawn_grows w) as (w1 & E1 & L1). rewrite E1 in *. cbn in *.
  destruct (IH w1) as [K1 K2]. split; [|lia]. set (w2 := (spawn_loop f cnt w1).2) in *.
  assert (Hsub : running w2 ∖ running w ⊆ {[c]} ∪ (running w2 ∖ running w1)).
  { intros x. rewrite Hr. destruct (decide (x = c)); set_solver. }
  apply subseteq_size in Hsub. pose proof (size_union_alt ({[c]} : gset chan) (running w2 ∖ running w1)) as Hs.
  rewrite size_singleton in Hs. pose proof (subseteq_size (running w2 ∖ running w1 ∖ {[c]}) (running w2 ∖ running w1) ltac:(set_solver)). lia.
Qed.

Lemma kill_loop_effect cnt : forall fuel w,
  running (kill_loop fuel cnt w).2 = running w /\ naps (kill_loop fuel cnt w).2 = naps w.
Proof.
  induction fuel as [|f IH]; intros w; cbn [kill_loop]; mrun; destruct (_ <? _); try done.
  unfold kill, set_workers, close_chan. mrun. destruct (last (workers w)) as [c|]; mrun; [|done]. case_decide; [done|].
  match goal with |- context [kill_loop f cnt ?x] => exact (IH x) end.
Qed.

Lemma setCapacity_effect fuel cnt w : 0 <= cnt ->
  Z.of_nat (size (running (setCapacity fuel cnt w).2 ∖ running w)) <= cnt /\ naps (setCapacity fuel cnt w).2 <= naps w.
Proof.
  intros Hc. pose proof (spawn_loop_effect cnt fuel w) as [H1 H2]. unfold setCapacity. mrun. pose proof (zlen_nonneg (workers w)).
  destruct (wp_closed w); cbn; [rewrite difference_diag_L, size_empty; lia|].
  destruct (spawn_loop fuel cnt w) as [[[]|p|] w1]; cbn in *; [|lia..]. destruct (kill_loop_effect cnt fuel w1) as [-> ->]. lia.
Qed.

Lemma terminate_effect w : naps (terminate w).2 = naps w.
Proof.
  assert (HC : forall cs x, naps (close_all cs x).2 = naps x).
  { induction cs as [|c cs IH]; intros x; [done|]. cbn [close_all]. unfold close_chan. mrun. case_decide; [done|]. by rewrite IH. }
  unfold terminate, set_workers. mrun.
  match goal with |- context [close_all ?cs ?x] => pose proof (HC cs x) as K; destruct (close_all cs x) as [[[]|p|] w1] end; exact K.
Qed.


(** * Concrete runs *)

Definition two_workers : workerPool := (setCapacity (turns 2 (newWorkerPool true)) 2 (newWorkerPool true)).2.
Definition finished : workerPool := worker_exit 2 (worker_exit 1 (terminate two_workers).2).

Lemma two_workers_ok : wreachable two_workers.
Proof. exists true. eapply rtc_l; [by apply (w_setCapacity 2)|constructor]. Qed.

Lemma finished_ok : wreachable finished.
Proof.
  exists true. eapply rtc_l; [by apply (w_setCapacity 2)|].
  eapply rtc_l; [apply w_terminate|].
  eapply rtc_l; [apply (w_exit 1%positive); by apply (bool_decide_unpack _); vm_compute|].
  eapply rtc_l; [apply (w_exit 2%positive); by apply (bool_decide_unpack _); vm_compute|]. constructor.
Qed.

Lemma wp_setCapacity_exact_witness :
  exists w' new, setCapacity (turns 1 two_workers) 1 two_workers = (Ret tt, w') /\
    workers w' = [1%positive] ++ new /\ zlen (workers w') = 1.
Proof.
  destruct (wp_setCapacity_exact two_workers 1 two_workers_ok eq_refl) as (w'&new&E&W&L&_); [lia|].
  exists w', new. split_and!; [exact E|exact W|exact L].
Defined.

Lemma wp_terminate_kills_all_witness :
  running two_workers = {[1%positive; 2%positive]} /\
  exists w', terminate two_workers = (Ret tt, w') /\ workers w' = [].
Proof.
  split; [by apply (bool_decide_unpack _); vm_compute|].
  destruct (wp_terminate_kills_all two_workers two_workers_ok) as (w'&E&W&_).
  exists w'. split; [exact E|exact W].
Defined.

