(* ===== verification/Lines.v ===== *)
(** Pipes of the linear modes: one view of all that the code can see of such a
    pipe, and what each method does to it. *)

From S2P Require Import Prelude Bufpipe.

(** A line of the mode [m] and of capacity [cap] into which [bs] was written, of
    which the first [rdp] bytes were read. *)
Record line_in {BP : Bufpipe} {m : Z} (p : BufferPipe) (cap : Z) (closed : bool) (rdp : Z) (bs : list Z) : Prop := {
  ln_mode : bp_Mode p = m;
  ln_line : is_line m;
  ln_cap : bp_Capacity p = cap;
  ln_closed : bp_Closed p = closed;
  ln_ptrs : bp_Pointers p = (rdp, zlen bs);
  ln_written : bp_Written p = bs;
}.

(** A line of the mode LineMono. *)
Abbreviation line := (@line_in _ LineMono).

Section lines.
Context {BP : Bufpipe} {BS : BufpipeSpec BP} {m : Z}.
#[local] Abbreviation lin := (@line_in BP m).

Lemma ln_is p cap cl r bs : lin p cap cl r bs -> is_line (bp_Mode p).
Proof. intros H. rewrite (ln_mode _ _ _ _ _ H). apply H. Qed.

Lemma line_rd p cap cl r bs : lin p cap cl r bs -> bp_rdPtr p = r.
Proof. intros H. unfold bp_rdPtr. by rewrite (ln_ptrs _ _ _ _ _ H). Qed.

Lemma line_wr p cap cl r bs : lin p cap cl r bs -> bp_wrPtr p = zlen bs.
Proof. intros H. unfold bp_wrPtr. by rewrite (ln_ptrs _ _ _ _ _ H). Qed.

Lemma line_bounds p cap cl r bs : lin p cap cl r bs -> 0 <= r <= zlen bs /\ zlen bs <= cap.
Proof.
  intros H. pose proof (line_ptrs p (ln_is _ _ _ _ _ H)) as Hb.
  rewrite (line_rd _ _ _ _ _ H), (line_wr _ _ _ _ _ H), (ln_cap _ _ _ _ _ H) in Hb. done.
Qed.

(** The array behind a line. *)
Lemma line_array p cap cl r bs : lin p cap cl r bs ->
  zlen (bp_array p) = cap /\ slice_bytes (bp_Buffer p) = bp_array p /\
  exists rest, bp_array p = bs ++ rest.
Proof.
  intros H. destruct (line_buffer p (ln_is _ _ _ _ _ H)) as [H1 H2].
  rewrite (ln_cap _ _ _ _ _ H) in *. split; [done|]. split.
  - unfold slice_bytes. rewrite H2. fold (bp_array p). apply take_ge. unfold zlen in H1. lia.
  - exists (drop (Z.to_nat (zlen bs)) (bp_array p)).
    rewrite <- (ln_written _ _ _ _ _ H) at 1. unfold bp_Written.
    rewrite (line_wr _ _ _ _ _ H). by rewrite take_drop.
Qed.

(** A pipe whose pointers and array are known. *)
Lemma line_intro p cap cl r bs arr :
  bp_Mode p = m -> is_line m -> bp_Capacity p = cap -> bp_Closed p = cl -> bp_Pointers p = (r, zlen bs) ->
  bp_array p = arr -> take (length bs) arr = bs -> lin p cap cl r bs.
Proof.
  intros H0 H1 H2 H3 H4 H5 H6. split; try done. unfold bp_Written, bp_wrPtr. rewrite H4, H5. cbn.
  unfold zlen. by rewrite Nat2Z.id.
Qed.

Lemma line_in_new s : is_line m -> slice_wf s -> lin (NewBufferPipe s m) (s_len s) false 0 [].
Proof.
  intros Hil Hs. destruct (line_new s m Hil) as [H1 H2].
  eapply line_intro; [apply new_mode|done|by apply new_capacity|done|done|done|done].
Qed.

Lemma line_of_reset p cap cl r bs : lin p cap cl r bs -> lin (bp_Reset p) cap false 0 [].
Proof.
  intros H. pose proof H as [H0 Hil H2 H3 H4 H5]. destruct (line_reset p (ln_is _ _ _ _ _ H)) as [Hr1 Hr2].
  eapply line_intro; [by rewrite reset_mode|exact Hil|by rewrite reset_capacity|done|done|done|done].
Qed.

Lemma line_of_close p cap cl r bs : lin p cap cl r bs -> lin (bp_Close p) cap true r bs.
Proof.
  intros H. pose proof H as [H0 Hil H2 H3 H4 H5]. pose proof (ln_is _ _ _ _ _ H) as H1. destruct (line_close p H1) as (Hp & Ha & Hc).
  destruct (line_array _ _ _ _ _ H) as (_ & _ & rest & Hrest).
  eapply line_intro; [by rewrite close_mode|exact Hil|by rewrite close_capacity|done|by rewrite Hp|done|].
  by rewrite Hrest, take_app_length.
Qed.

Lemma line_of_write p cap r bs xs : lin p cap false r bs ->
  let n := Z.min (zlen xs) (cap - zlen bs) in
  exists p', bp_Write p xs = ((n, if n <? zlen xs then Some ErrShortWrite else None), p') /\
    lin p' cap false r (bs ++ take (Z.to_nat n) xs).
Proof.
  intros H n. pose proof H as [H0 Hil H2 H3 H4 H5]. pose proof (ln_is _ _ _ _ _ H) as H1. pose proof (line_write p xs H1 H3) as Hw.
  destruct (bp_Write p xs) as [[k err] p'] eqn:E. destruct Hw as (-> & -> & Hd & Hp & Hm & Hc & Hcl).
  rewrite (line_wr _ _ _ _ _ H), (line_rd _ _ _ _ _ H) in *. rewrite H2 in *. fold n in Hd, Hp |- *.
  exists p'. split; [done|]. destruct (line_bounds _ _ _ _ _ H) as [_ Hle].
  pose proof (zlen_nonneg xs). split; [congruence|done|done|done| |].
  - rewrite Hp. f_equal. rewrite zlen_app, zlen_take; [done|lia].
  - by rewrite Hd, H5.
Qed.

Lemma line_of_read_slices p cap r bs : lin p cap true r bs ->
  bp_ReadSlices p = (drop (Z.to_nat r) bs, [], if r =? zlen bs then Some EOF else None).
Proof.
  intros H. pose proof H as [H0 Hil H2 H3 H4 H5]. pose proof (ln_is _ _ _ _ _ H) as H1. rewrite (line_read_slices p H1 H3).
  by rewrite (line_wr _ _ _ _ _ H), (line_rd _ _ _ _ _ H), H5.
Qed.

Lemma line_of_read_mark p cap cl r bs k : lin p cap cl r bs -> 0 <= k <= zlen bs - r ->
  lin (bp_ReadMark p k) cap cl (r + k) bs.
Proof.
  intros H Hk. pose proof H as [H0 Hil H2 H3 H4 H5]. pose proof (ln_is _ _ _ _ _ H) as H1.
  destruct (line_read_mark p k H1) as (Hp & Ha);
    rewrite ?(line_wr _ _ _ _ _ H), ?(line_rd _ _ _ _ _ H) in *; [done|].
  destruct (line_array _ _ _ _ _ H) as (_ & _ & rest & Hrest).
  eapply line_intro; [by rewrite readmark_mode|exact Hil|by rewrite readmark_capacity|by rewrite readmark_closed|done|done|].
  by rewrite Hrest, take_app_length.
Qed.

Lemma line_of_write_slices p cap r bs : lin p cap false r bs ->
  bp_WriteSlices p = (cap - zlen bs, 0, if zlen bs =? cap then Some ErrShortWrite else None).
Proof.
  intros H. pose proof H as [H0 Hil H2 H3 H4 H5]. pose proof (ln_is _ _ _ _ _ H) as H1. rewrite (line_write_slices p H1 H3).
  by rewrite (line_wr _ _ _ _ _ H), H2.
Qed.

(** [WriteMark] over bytes that are in the array. *)
Lemma line_of_write_mark p cap cl r bs xs rest : lin p cap cl r bs ->
  bp_array p = bs ++ xs ++ rest -> lin (bp_WriteMark p (zlen xs)) cap cl r (bs ++ xs).
Proof.
  intros H Ha. pose proof H as [H0 Hil H2 H3 H4 H5]. pose proof (ln_is _ _ _ _ _ H) as H1. destruct (line_array _ _ _ _ _ H) as (Hl & _ & _).
  assert (Hroom : zlen bs + zlen xs <= cap) by (rewrite <- Hl, Ha, !zlen_app; pose proof (zlen_nonneg rest); lia).
  destruct (line_write_mark p (zlen xs) H1) as (Hp & Hb & Hc);
    [rewrite (line_wr _ _ _ _ _ H), H2; pose proof (zlen_nonneg xs); lia|].
  rewrite (line_wr _ _ _ _ _ H), (line_rd _ _ _ _ _ H) in Hp.
  eapply line_intro; [by rewrite writemark_mode|exact Hil|by rewrite writemark_capacity|by rewrite Hc| |done|].
  - by rewrite Hp, zlen_app.
  - by rewrite Ha, app_assoc, take_app_length.
Qed.

(** [WriteMark] over bytes nobody wrote. *)
Lemma line_of_skip p cap cl r bs k : lin p cap cl r bs -> 0 <= k <= cap - zlen bs ->
  exists xs, zlen xs = k /\ lin (bp_WriteMark p k) cap cl r (bs ++ xs).
Proof.
  intros H Hk. destruct (line_array _ _ _ _ _ H) as (Hl & _ & rest & Hrest).
  assert (Hz : zlen rest = cap - zlen bs) by (rewrite <- Hl, Hrest, zlen_app; lia).
  assert (Hx : zlen (take (Z.to_nat k) rest) = k) by (apply zlen_take; lia).
  exists (take (Z.to_nat k) rest). split; [done|].
  rewrite <- Hx at 1. eapply line_of_write_mark; [done|]. by rewrite Hrest, take_drop.
Qed.

(** Bytes written through the window and marked. *)
Lemma line_of_poke p cap cl r bs xs : lin p cap cl r bs -> zlen bs + zlen xs <= cap ->
  lin (bp_WriteMark (bp_Poke p xs) (zlen xs)) cap cl r (bs ++ xs).
Proof.
  intros H Hroom. pose proof H as [H0 Hil H2 H3 H4 H5]. pose proof (ln_is _ _ _ _ _ H) as H1.
  destruct (line_poke p xs H1) as (Hp & Ha & Hc); [by rewrite (line_wr _ _ _ _ _ H), H2|].
  rewrite (line_wr _ _ _ _ _ H) in Ha. destruct (line_array _ _ _ _ _ H) as (Hl & _ & rest & Hrest).
  assert (Hz : zlen rest = cap - zlen bs) by (rewrite <- Hl, Hrest, zlen_app; lia).
  assert (Hx : bp_array (bp_Poke p xs) = bs ++ xs ++ drop (length xs) rest).
  { rewrite Ha, Hrest. rewrite <- (take_drop (length xs) rest) at 1. apply overwrite_app.
    unfold zlen in *. rewrite length_take. lia. }
  eapply line_of_write_mark; [|exact Hx].
  eapply line_intro; [by rewrite poke_mode|exact Hil|by rewrite poke_capacity|by rewrite Hc|by rewrite Hp|exact Hx|].
  by rewrite take_app_length.
Qed.

End lines.

Section mono.
Context {BP : Bufpipe} {BS : BufpipeSpec BP}.

Lemma line_of_new s : slice_wf s -> line (NewBufferPipe s LineMono) (s_len s) false 0 [].
Proof. apply line_in_new. by left. Qed.

(** Bytes stored over the beginning of what was written. *)
Lemma line_of_store p cap cl r old bs xs : line p cap cl r (old ++ bs) -> zlen xs = zlen old ->
  line (bp_Store p 0 xs) cap cl r (xs ++ bs).
Proof.
  intros H Hx. pose proof H as [H0 Hil H2 H3 H4 H5]. pose proof H0 as H1. destruct (line_bounds _ _ _ _ _ H) as [_ Hle].
  rewrite zlen_app in Hle. pose proof (zlen_nonneg bs).
  destruct (line_store p 0 xs H1) as (Hp & Ha & Hc & Hm & Hcap); [done|rewrite H2; lia|].
  destruct (line_array _ _ _ _ _ H) as (Hl & _ & rest & Hrest).
  eapply line_intro; [done|exact Hil|by rewrite Hcap|by rewrite Hc| |exact Ha|].
  - rewrite Hp, H4, !zlen_app. by rewrite Hx.
  - rewrite Hrest, <- (app_assoc old bs rest). change 0 with (zlen (@nil Z)).
    rewrite <- (app_nil_l (old ++ bs ++ rest)), overwrite_app by (unfold zlen in Hx; lia).
    cbn. by rewrite app_assoc, take_app_length.
Qed.

(** The whole array replaced, and the line restarted with its first bytes. *)
Lemma line_of_restart p cap cl bs xs k : line p cap cl 0 bs -> zlen xs = cap -> 0 <= k <= cap ->
  line (bp_WriteMark (bp_Rollback (bp_Store p 0 xs)) k) cap cl 0 (take (Z.to_nat k) xs).
Proof.
  intros H Hx Hk. pose proof H as [H0 Hil H2 H3 H4 H5]. pose proof H0 as H1.
  destruct (line_store p 0 xs H1) as (Hp & Ha & Hc & Hm & Hcap); [done|rewrite H2; lia|].
  destruct (line_rollback (bp_Store p 0 xs) Hm) as (Rp & Ra & Rc & Rm & Rcap);
    [unfold bp_rdPtr; by rewrite Hp, H4|].
  destruct (line_array _ _ _ _ _ H) as (Hl & _ & _).
  assert (Hxs : bp_array (bp_Rollback (bp_Store p 0 xs)) = xs).
  { rewrite Ra, Ha. unfold overwrite. cbn. rewrite drop_ge; [by rewrite app_nil_r|].
    unfold zlen in *. lia. }
  assert (Hz : zlen (take (Z.to_nat k) xs) = k) by (apply zlen_take; lia).
  rewrite <- Hz at 1. eapply (line_of_write_mark _ _ _ _ []).
  - eapply line_intro; [done|exact Hil|by rewrite Rcap, Hcap|by rewrite Rc, Hc|by rewrite Rp|done|done].
  - rewrite Hxs. cbn. by rewrite take_drop.
Qed.

End mono.
