(* ===== verification/Liblzma.v ===== *)
(** The interface of liblzma, as declared in [lzma.h]. The library is not part
    of the repository: its constants, its structures' hidden parts and its
    functions are parameters, the class [Liblzma]. The structures whose fields
    the Go code reads or writes are records.

    A C function that works on a structure through a pointer takes the
    structure and gives the new one. [lzma_ret] and the other enumerations are
    unsigned 32-bit integers, [lzma_vli] is an unsigned 64-bit integer. *)

From S2P Require Import Prelude.

(** * Structures with visible fields *)

Record lzma_stream_flags : Type := StreamFlagsC {
  sf_version : Z;
  sf_backward_size : Z;
  sf_check : Z;
}.

(** A filter chain holds the options by pointer; nothing writes to them after
    they entered a chain, so a chain holds the options themselves. *)
Record lzma_filter (O : Type) : Type := Filter { f_id : Z; f_options : option O }.
Arguments Filter {O} f_id f_options.
Arguments f_id {O} _.
Arguments f_options {O} _.

Record lzma_block (O : Type) : Type := BlockC {
  b_version : Z;
  b_header_size : Z;
  b_check : Z;
  b_compressed_size : Z;
  b_uncompressed_size : Z;
  b_filters : list (lzma_filter O);
  b_raw_check : list Z;
}.
Arguments BlockC {O} _ _ _ _ _ _ _.
Arguments b_version {O} _.
Arguments b_header_size {O} _.
Arguments b_check {O} _.
Arguments b_compressed_size {O} _.
Arguments b_uncompressed_size {O} _.
Arguments b_filters {O} _.
Arguments b_raw_check {O} _.

(** [lzma_index_iter]: the public fields, and what the library keeps for
    itself ([S]). [it_index] is the index the iterator was made for. *)
Record lzma_index_iter (S : Type) : Type := IndexIterC {
  it_index : loc;
  it_internal : S;
  it_stream_flags : option lzma_stream_flags;
  it_stream_number : Z;
  it_stream_block_count : Z;
  it_stream_compressed_size : Z;
  it_stream_uncompressed_size : Z;
  it_stream_padding : Z;
  it_block_number_in_file : Z;
  it_block_number_in_stream : Z;
  it_block_compressed_file_offset : Z;
  it_block_uncompressed_file_offset : Z;
  it_block_compressed_stream_offset : Z;
  it_block_uncompressed_stream_offset : Z;
  it_block_uncompressed_size : Z;
  it_block_unpadded_size : Z;
  it_block_total_size : Z;
}.
Arguments IndexIterC {S} _ _ _ _ _ _ _ _ _ _ _ _ _ _ _ _ _.
Arguments it_index {S} _.
Arguments it_internal {S} _.
Arguments it_stream_flags {S} _.
Arguments it_stream_number {S} _.
Arguments it_stream_block_count {S} _.
Arguments it_stream_compressed_size {S} _.
Arguments it_stream_uncompressed_size {S} _.
Arguments it_stream_padding {S} _.
Arguments it_block_number_in_file {S} _.
Arguments it_block_number_in_stream {S} _.
Arguments it_block_compressed_file_offset {S} _.
Arguments it_block_uncompressed_file_offset {S} _.
Arguments it_block_compressed_stream_offset {S} _.
Arguments it_block_uncompressed_stream_offset {S} _.
Arguments it_block_uncompressed_size {S} _.
Arguments it_block_unpadded_size {S} _.
Arguments it_block_total_size {S} _.

(** The memory a coder reaches through the pointers it was given: the
    [lzma_block] structures, the allocated [lzma_index] objects, and the
    variables that hold a pointer to an index ([None] is [NULL]). *)
Record cmem (O I : Type) : Type := CMem {
  cm_block : gmap loc (lzma_block O);
  cm_index : gmap loc I;
  cm_ixptr : gmap loc (option loc);
}.
Arguments CMem {O I} _ _ _.
Arguments cm_block {O I} _.
Arguments cm_index {O I} _.
Arguments cm_ixptr {O I} _.

(** What one call of [lzma_code] does: its status, the coder and the memory
    after it, how many bytes of the input it took and which bytes it wrote. *)
Record code_result (C M : Type) : Type := CodeResult {
  cr_ret : Z;
  cr_coder : C;
  cr_mem : M;
  cr_consumed : Z;
  cr_out : list Z;
}.
Arguments CodeResult {C M} _ _ _ _ _.
Arguments cr_ret {C M} _.
Arguments cr_coder {C M} _.
Arguments cr_mem {C M} _.
Arguments cr_consumed {C M} _.
Arguments cr_out {C M} _.

(** * Constants and functions *)
Class Liblzma : Type := {
  (* lzma_ret *)
  LZMA_OK : Z; LZMA_STREAM_END : Z; LZMA_NO_CHECK : Z; LZMA_UNSUPPORTED_CHECK : Z;
  LZMA_GET_CHECK : Z; LZMA_MEM_ERROR : Z; LZMA_MEMLIMIT_ERROR : Z; LZMA_FORMAT_ERROR : Z;
  LZMA_OPTIONS_ERROR : Z; LZMA_DATA_ERROR : Z; LZMA_BUF_ERROR : Z; LZMA_PROG_ERROR : Z;
  (* lzma_action *)
  LZMA_RUN : Z; LZMA_SYNC_FLUSH : Z; LZMA_FULL_FLUSH : Z; LZMA_FINISH : Z;
  (* presets, flags, checks, sizes *)
  LZMA_PRESET_DEFAULT : Z; LZMA_PRESET_LEVEL_MASK : Z; LZMA_PRESET_EXTREME : Z;
  LZMA_TELL_NO_CHECK : Z; LZMA_TELL_UNSUPPORTED_CHECK : Z; LZMA_TELL_ANY_CHECK : Z;
  LZMA_CONCATENATED : Z;
  LZMA_CHECK_NONE : Z; LZMA_CHECK_CRC32 : Z; LZMA_CHECK_CRC64 : Z; LZMA_CHECK_SHA256 : Z;
  LZMA_CHECK_SIZE_MAX : Z;
  LZMA_INDEX_ITER_ANY : Z; LZMA_INDEX_ITER_STREAM : Z; LZMA_INDEX_ITER_BLOCK : Z;
  LZMA_INDEX_ITER_NONEMPTY_BLOCK : Z;
  LZMA_VLI_MAX : Z; LZMA_VLI_BYTES_MAX : Z; LZMA_VLI_UNKNOWN : Z;
  LZMA_FILTERS_MAX : Z;
  LZMA_FILTER_LZMA1 : Z; LZMA_FILTER_LZMA2 : Z; LZMA_FILTER_DELTA : Z; LZMA_FILTER_X86 : Z;
  LZMA_FILTER_POWERPC : Z; LZMA_FILTER_IA64 : Z; LZMA_FILTER_ARM : Z; LZMA_FILTER_ARMTHUMB : Z;
  LZMA_FILTER_SPARC : Z;
  LZMA_STREAM_HEADER_SIZE : Z; LZMA_BACKWARD_SIZE_MAX : Z; LZMA_BACKWARD_SIZE_MIN : Z;
  LZMA_BLOCK_HEADER_SIZE_MAX : Z; LZMA_BLOCK_HEADER_SIZE_MIN : Z;

  (* options of the LZMA filters *)
  lzma_options_lzma : Type;
  options_zero : lzma_options_lzma;
  options_dict_size : lzma_options_lzma -> Z;
  options_set_dict_size : Z -> lzma_options_lzma -> lzma_options_lzma;
  lzma_lzma_preset : lzma_options_lzma -> Z -> bool * lzma_options_lzma;

  (* checks *)
  lzma_check_is_supported : Z -> bool;
  lzma_check_size : Z -> Z;
  lzma_crc32 : list Z -> Z -> Z;
  lzma_crc64 : list Z -> Z -> Z;

  (* stream header and footer *)
  lzma_stream_header_encode : lzma_stream_flags -> Z * list Z;
  lzma_stream_footer_encode : lzma_stream_flags -> Z * list Z;
  lzma_stream_header_decode : lzma_stream_flags -> list Z -> Z * lzma_stream_flags;
  lzma_stream_footer_decode : lzma_stream_flags -> list Z -> Z * lzma_stream_flags;
  lzma_stream_flags_compare : lzma_stream_flags -> lzma_stream_flags -> Z;

  (* blocks *)
  lzma_block_header_size : lzma_block lzma_options_lzma -> Z * Z;
  lzma_block_header_encode : lzma_block lzma_options_lzma -> Z * list Z;
  lzma_block_header_decode :
    lzma_block lzma_options_lzma -> list Z -> Z * lzma_block lzma_options_lzma;
  lzma_block_header_size_decode : Z -> Z;
  lzma_block_compressed_size : lzma_block lzma_options_lzma -> Z -> Z * Z;
  lzma_block_unpadded_size : lzma_block lzma_options_lzma -> Z;
  lzma_block_total_size : lzma_block lzma_options_lzma -> Z;
  lzma_block_buffer_bound : Z -> Z;

  (* indexes; [lzma_alloc] is the allocator, [None] when memory is exhausted *)
  lzma_index : Type;
  lzma_index_empty : lzma_index;
  lzma_alloc : cmem lzma_options_lzma lzma_index -> option loc;
  lzma_index_append : lzma_index -> Z -> Z -> Z * lzma_index;
  lzma_index_stream_count : lzma_index -> Z;
  lzma_index_block_count : lzma_index -> Z;
  lzma_index_size : lzma_index -> Z;
  lzma_index_stream_size : lzma_index -> Z;
  lzma_index_total_size : lzma_index -> Z;
  lzma_index_file_size : lzma_index -> Z;
  lzma_index_uncompressed_size : lzma_index -> Z;
  lzma_index_checks : lzma_index -> Z;
  lzma_index_stream_flags : lzma_index -> lzma_stream_flags -> Z * lzma_index;
  lzma_index_stream_padding : lzma_index -> Z -> Z * lzma_index;
  lzma_index_cat : lzma_index -> lzma_index -> Z * lzma_index;
  lzma_iter_state : Type;
  lzma_index_iter_init : loc -> lzma_index_iter lzma_iter_state;
  (** [true] is "no more": the iterator is left as it was. *)
  lzma_index_iter_next :
    lzma_index_iter lzma_iter_state -> lzma_index -> Z -> bool * lzma_index_iter lzma_iter_state;
  lzma_index_iter_locate :
    lzma_index_iter lzma_iter_state -> lzma_index -> Z -> bool * lzma_index_iter lzma_iter_state;
  lzma_index_iter_rewind : lzma_index_iter lzma_iter_state -> lzma_index_iter lzma_iter_state;

  (* coders: the private state behind a [lzma_stream]; [lzma_coder_null] is that
     of [LZMA_STREAM_INIT] and of a stream after [lzma_end] *)
  lzma_coder : Type;
  lzma_coder_null : lzma_coder;
  lzma_code : lzma_coder -> cmem lzma_options_lzma lzma_index -> Z -> list Z -> Z ->
    code_result lzma_coder (cmem lzma_options_lzma lzma_index);
  lzma_get_check : lzma_coder -> Z;
  lzma_alone_encoder : lzma_options_lzma -> Z * lzma_coder;
  lzma_alone_decoder : Z -> Z * lzma_coder;
  lzma_stream_encoder : list (lzma_filter lzma_options_lzma) -> Z -> Z * lzma_coder;
  lzma_stream_decoder : Z -> Z -> Z * lzma_coder;
  lzma_block_encoder : cmem lzma_options_lzma lzma_index -> loc -> Z * lzma_coder;
  lzma_block_decoder : cmem lzma_options_lzma lzma_index -> loc -> Z * lzma_coder;
  lzma_index_encoder : cmem lzma_options_lzma lzma_index -> loc -> Z * lzma_coder;
  (** Given the variable that will receive the index. *)
  lzma_index_decoder : cmem lzma_options_lzma lzma_index -> loc -> Z -> Z * lzma_coder;
  (** The variable an index decoder will store into. *)
  lzma_coder_cell : lzma_coder -> option loc;
}.

Abbreviation options := lzma_options_lzma.
Abbreviation block_t := (lzma_block lzma_options_lzma).
Abbreviation cmem_t := (cmem lzma_options_lzma lzma_index).
Abbreviation iter_t := (lzma_index_iter lzma_iter_state).
Abbreviation filter_t := (lzma_filter lzma_options_lzma).

(** The status codes, in the order of [lzma_ret]. *)
Definition lzma_rets {L : Liblzma} : list Z :=
  [LZMA_OK; LZMA_STREAM_END; LZMA_NO_CHECK; LZMA_UNSUPPORTED_CHECK; LZMA_GET_CHECK; LZMA_MEM_ERROR;
   LZMA_MEMLIMIT_ERROR; LZMA_FORMAT_ERROR; LZMA_OPTIONS_ERROR; LZMA_DATA_ERROR; LZMA_BUF_ERROR;
   LZMA_PROG_ERROR].

(** The check types the literal encoder accepts. *)
Definition lzma_checks {L : Liblzma} : list Z :=
  [LZMA_CHECK_NONE; LZMA_CHECK_CRC32; LZMA_CHECK_CRC64; LZMA_CHECK_SHA256].

(** * Documented behaviour

    The constants named in one [switch] are distinct (the Go compiler refuses
    duplicate cases); [LZMA_VLI_UNKNOWN] is -1 as a signed integer; the sizes
    of the checks and of the headers are those of the file format. *)
Class LiblzmaSpec (L : Liblzma) : Prop := {
  rets_distinct : NoDup lzma_rets;
  checks_distinct : NoDup lzma_checks;
  checks_uint32 : Forall (fun c => 0 <= c < 2 ^ 32) lzma_checks;
  vli_unknown_neg : LZMA_VLI_UNKNOWN = -1;
  filters_max_pos : 0 <= LZMA_FILTERS_MAX;
  stream_header_size_nonneg : 0 <= LZMA_STREAM_HEADER_SIZE;
  check_size_none : lzma_check_size LZMA_CHECK_NONE = 0;
  check_size_crc32 : lzma_check_size LZMA_CHECK_CRC32 = 4;
  check_size_crc64 : lzma_check_size LZMA_CHECK_CRC64 = 8;
  check_size_sha256 : lzma_check_size LZMA_CHECK_SHA256 = 32;
  check_size_max : 32 <= LZMA_CHECK_SIZE_MAX;
  crc32_range bs c : 0 <= lzma_crc32 bs c < 2 ^ 32;
  crc64_range bs c : 0 <= lzma_crc64 bs c < 2 ^ 64;
  (** A computed block header size is a multiple of four within the bounds of
      the format. *)
  header_size_range b h :
    lzma_block_header_size b = (LZMA_OK, h) ->
    LZMA_BLOCK_HEADER_SIZE_MIN <= h <= LZMA_BLOCK_HEADER_SIZE_MAX /\ h mod 4 = 0;
  block_header_bounds : 0 < LZMA_BLOCK_HEADER_SIZE_MIN /\ LZMA_BLOCK_HEADER_SIZE_MAX <= 1024;
  (** [lzma_block_header_encode] writes [header_size] bytes. *)
  header_encode_length b bs :
    lzma_block_header_encode b = (LZMA_OK, bs) -> zlen bs = b_header_size b;
  (** It refuses a block whose unpadded size is zero, the value that stands
      for an invalid block. *)
  header_encode_unpadded b bs :
    lzma_block_header_encode b = (LZMA_OK, bs) -> 0 < lzma_block_unpadded_size b < 2 ^ 64;
  (** A compressed size of zero is an invalid value. *)
  header_size_zero b :
    b_compressed_size b = 0 -> (lzma_block_header_size b).1 = LZMA_PROG_ERROR;

  (** The stream header and the footer fill their fixed size. *)
  stream_header_length f bs :
    lzma_stream_header_encode f = (LZMA_OK, bs) -> zlen bs = LZMA_STREAM_HEADER_SIZE;
  stream_footer_length f bs :
    lzma_stream_footer_encode f = (LZMA_OK, bs) -> zlen bs = LZMA_STREAM_HEADER_SIZE;

  (** The size of a header does not grow when the sizes it stores get smaller. *)
  header_size_mono b b' h' :
    b_version b = b_version b' -> b_check b = b_check b' -> b_filters b = b_filters b' ->
    0 < b_compressed_size b <= b_compressed_size b' -> b_compressed_size b' < 2 ^ 63 ->
    0 <= b_uncompressed_size b <= b_uncompressed_size b' -> b_uncompressed_size b' < 2 ^ 63 ->
    lzma_block_header_size b' = (LZMA_OK, h') ->
    exists h, lzma_block_header_size b = (LZMA_OK, h) /\ h <= h';

  (** [lzma_code] stays within the buffers it was given. *)
  code_bounds c m act inp n :
    0 <= cr_consumed (lzma_code c m act inp n) <= zlen inp /\
    (0 <= n -> zlen (cr_out (lzma_code c m act inp n)) <= n);
  (** A stream without a coder is refused. *)
  code_null m act inp n :
    lzma_code lzma_coder_null m act inp n = CodeResult LZMA_PROG_ERROR lzma_coder_null m 0 [];
  (** The allocator gives an unused address. *)
  alloc_fresh m a : lzma_alloc m = Some a -> cm_index m !! a = None;
  (** A coder stores an index pointer only into the variable it was given, and
      then the pointer of a newly allocated index; the other indexes stay. *)
  code_cell c m act inp n l :
    lzma_coder_cell c <> Some l -> cm_ixptr (cr_mem (lzma_code c m act inp n)) !! l = cm_ixptr m !! l;
  code_index_keep c m act inp n a x :
    cm_index m !! a = Some x -> cm_index (cr_mem (lzma_code c m act inp n)) !! a = Some x;
  code_index_new c m act inp n l a :
    cm_ixptr (cr_mem (lzma_code c m act inp n)) !! l = Some (Some a) ->
    cm_ixptr m !! l = Some (Some a) \/
    cm_index m !! a = None /\ is_Some (cm_index (cr_mem (lzma_code c m act inp n)) !! a);
  code_cell_same c m act inp n :
    lzma_coder_cell (cr_coder (lzma_code c m act inp n)) = lzma_coder_cell c;
  index_decoder_cell m l lim c : lzma_index_decoder m l lim = (LZMA_OK, c) -> lzma_coder_cell c = Some l;
  block_encoder_cell m l c : lzma_block_encoder m l = (LZMA_OK, c) -> lzma_coder_cell c = None;
  index_encoder_cell m a c : lzma_index_encoder m a = (LZMA_OK, c) -> lzma_coder_cell c = None;
  (** A coder sets the sizes and the check of the block it works on; what the
      caller configured stays. *)
  code_block_keep c m act inp n l b :
    cm_block m !! l = Some b ->
    exists b', cm_block (cr_mem (lzma_code c m act inp n)) !! l = Some b' /\
      b_header_size b' = b_header_size b /\ b_version b' = b_version b /\ b_check b' = b_check b /\
      b_filters b' = b_filters b;
}.

(** When a call of [lzma_code] can do nothing, it returns LZMA_OK the first time
    and LZMA_BUF_ERROR from the second call in a row on: [idle] is what a coder
    remembers of its last call. *)
Class LiblzmaIdle (L : Liblzma) : Type := {
  idle : lzma_coder -> bool;
  code_idle c m act inp n :
    let r := lzma_code c m act inp n in
    0 <= n -> cr_ret r = LZMA_OK ->
    0 < cr_consumed r \/ cr_out r <> [] \/ (idle c = false /\ idle (cr_coder r) = true);
}.
