(* ===== verification/SmallLzma.v ===== *)
(** A small implementation of the interface [Liblzma], with the constants of
    liblzma 5 and a toy compression, so that the development can be run on
    concrete inputs and the interface's laws are known to be satisfiable. *)

From S2P Require Import Prelude Liblzma.

Module Small.

(** * Structures *)

(** Records of an index (unpadded and uncompressed size), stream padding. *)
Record index : Type := Ix { ix_recs : list (Z * Z); ix_pad : Z }.

Abbreviation mem := (cmem Z index).

(** The coders. The encoder of a block holds its counters and the bytes it
    could not write yet; the decoder of a block its counter; the encoder of an
    index the bytes that are left; the decoder of an index the bytes it has read. *)
Inductive kind : Type :=
| CNull
| CBlockEnc (b : loc) (pending : list Z) (nin nout : Z) (ended : bool)
| CBlockDec (b : loc) (nin nout : Z) (ended : bool)
| CIndexEnc (rest : list Z)
| CIndexDec (cell : loc) (seen : list Z) (ended : bool).

(** A coder also remembers that its last call made no progress: only the second
    such call in a row is reported as a buffer error. *)
Record coder : Type := Coder { kind_of : kind; stuck : bool }.

(** * Sizes and headers *)

Definition vli_len (n : Z) : Z := if n =? 2 ^ 64 - 1 then 0 else Z.min 9 (Z.log2 n / 7 + 1).
Definition nfilters (fs : list (lzma_filter Z)) : Z :=
  zlen (filter (fun f => f_id f = 33) (take 4 fs)).
Definition header_size (b : lzma_block Z) : Z * Z :=
  if (b_compressed_size b =? 0) then (11, b_header_size b)
  else
    let n := 6 + vli_len (b_compressed_size b) + vli_len (b_uncompressed_size b) + 3 * nfilters (b_filters b) in
    if (8 <=? 4 * ((n + 3) / 4)) && (4 * ((n + 3) / 4) <=? 1024) then (0, 4 * ((n + 3) / 4))
    else (11, b_header_size b).
Definition fit (n : Z) (bs : list Z) : list Z :=
  take (Z.to_nat n) (bs ++ replicate (Z.to_nat n) 0).
Definition header_encode (b : lzma_block Z) : Z * list Z :=
  if (8 <=? b_header_size b) && (b_header_size b <=? 1024) &&
     ((0 <=? b_compressed_size b) && (b_compressed_size b <? 2 ^ 63))
  then (0, fit (b_header_size b) [b_header_size b / 4 - 1; 192]) else (11, []).
Definition header_decode (b : lzma_block Z) (bs : list Z) : Z * lzma_block Z :=
  match bs with
  | x :: 192 :: _ => (if 4 * (x + 1) =? b_header_size b then 0 else 9, b)
  | _ => (9, b)
  end.
Definition check_size (c : Z) : Z :=
  if c =? 0 then 0 else if c =? 1 then 4 else if c =? 4 then 8 else if c =? 10 then 32 else 2 ^ 32 - 1.
Definition sum (bs : list Z) : Z := foldr Z.add 0 bs.

Definition magic : list Z := [253; 55; 122; 88; 90; 0].
Definition stream_header (f : lzma_stream_flags) : list Z := magic ++ [0; sf_check f; 0; 0; 0; 0].
Definition stream_footer (f : lzma_stream_flags) : list Z :=
  [0; 0; 0; 0; sf_backward_size f mod 256; sf_backward_size f / 256; 0; 0; 0; sf_check f; 89; 90].
Definition header_dec (f : lzma_stream_flags) (bs : list Z) : Z * lzma_stream_flags :=
  if decide (take 6 bs = magic)
  then (0, StreamFlagsC 0 (2 ^ 64 - 1) (default 0 (bs !! 7%nat)))
  else (7, f).
Definition footer_dec (f : lzma_stream_flags) (bs : list Z) : Z * lzma_stream_flags :=
  if decide (take 2 (drop 10 bs) = [89; 90])
  then (0, StreamFlagsC 0 (default 0 (bs !! 4%nat) + 256 * default 0 (bs !! 5%nat)) (default 0 (bs !! 9%nat)))
  else (7, f).
Definition flags_compare (f g : lzma_stream_flags) : Z :=
  if (sf_check f =? sf_check g) &&
     ((sf_backward_size f =? sf_backward_size g) ||
      (sf_backward_size f =? 2 ^ 64 - 1) || (sf_backward_size g =? 2 ^ 64 - 1)) then 0 else 9.

(** * Indexes *)

Definition round4 (n : Z) : Z := 4 * ((n + 3) / 4).
Definition ix_size (i : index) : Z := 2 + 4 * zlen (ix_recs i).
Definition ix_total (i : index) : Z := sum (map (fun r => round4 r.1) (ix_recs i)).
Definition ix_encode (i : index) : list Z :=
  [0; zlen (ix_recs i)] ++
  concat (map (fun r => [r.1 mod 256; r.1 / 256; r.2 mod 256; r.2 / 256]) (ix_recs i)).
Fixpoint ix_records (bs : list Z) : list (Z * Z) :=
  match bs with
  | a :: b :: c :: d :: bs => (a + 256 * b, c + 256 * d) :: ix_records bs
  | _ => []
  end.
Definition ix_append (i : index) (u v : Z) : Z * index :=
  if u <? 5 then (11, i) else (0, Ix (ix_recs i ++ [(u, v)]) (ix_pad i)).

(** * Coding

    A byte below 128 is coded by itself, any other byte by itself and two
    bytes 0; a block ends with the byte 255. A decoder copies until 255. *)
Definition enc (b : Z) : list Z := if b <? 128 then [b] else [b; 0; 0].

Definition set_sizes (m : mem) (b : loc) (c u : Z) : mem :=
  CMem (match cm_block m !! b with
        | Some x => <[b := BlockC (b_version x) (b_header_size x) (b_check x) c u (b_filters x) (b_raw_check x)]> (cm_block m)
        | None => cm_block m
        end) (cm_index m) (cm_ixptr m).

Definition alloc (m : mem) : option loc := Some (fresh (dom (cm_index m))).

Definition new_index (m : mem) (cell : loc) (i : index) : mem :=
  let a := fresh (dom (cm_index m)) in
  CMem (cm_block m) (<[a := i]> (cm_index m)) (<[cell := Some a]> (cm_ixptr m)).

(** The index that [bs] begins with, when it is complete. *)
Definition complete (bs : list Z) : option index :=
  match bs with
  | _ :: n :: r => if 4 * n <=? zlen r then Some (Ix (ix_records (take (Z.to_nat (4 * n)) r)) 0) else None
  | _ => None
  end.

Fixpoint until_end (bs : list Z) : list Z :=
  match bs with [] => [] | b :: r => if b =? 255 then [] else b :: until_end r end.

(** Step of a coder with room for [n] bytes: status, coder, memory, how many
    bytes were taken, and the bytes to write. *)
Definition step (c : kind) (m : mem) (act : Z) (inp : list Z) (n : Z) :
    Z * kind * mem * Z * list Z :=
  match c with
  | CNull => (11, CNull, m, 0, [])
  | CBlockEnc b pend nin nout ended =>
      if ended then (1, c, m, 0, []) else
      let all := pend ++ concat (map enc inp) ++ (if act =? 3 then [255] else []) in
      let out := take (Z.to_nat n) all in
      let rest := drop (Z.to_nat n) all in
      let nin := nin + zlen inp in let nout := nout + zlen out in
      if act =? 3 then
        if decide (rest = []) then (1, CBlockEnc b [] nin nout true, set_sizes m b nout nin, zlen inp, out)
        else (if decide (out = []) then 10 else 0,
              CBlockEnc b (take (length rest - 1) rest) nin nout false, m, zlen inp, out)
      else (if decide (inp = [] /\ out = []) then 10 else 0, CBlockEnc b rest nin nout false, m, zlen inp, out)
  | CBlockDec b nin nout ended =>
      if ended then (1, c, m, 0, []) else
      let d := until_end inp in
      let k := Z.min (zlen d) n in
      let out := take (Z.to_nat k) d in
      let nout := nout + k in
      if (zlen d <? zlen inp) && (k =? zlen d)
      then (1, CBlockDec b (nin + k + 1) nout true, set_sizes m b (nin + k + 1) nout, k + 1, out)
      else (if k =? 0 then 10 else 0, CBlockDec b (nin + k) nout false, m, k, out)
  | CIndexEnc rest =>
      let out := take (Z.to_nat n) rest in
      let rest := drop (Z.to_nat n) rest in
      (if decide (rest = []) then 1 else if decide (out = []) then 10 else 0, CIndexEnc rest, m, 0, out)
  | CIndexDec cell seen ended =>
      if ended then (1, c, m, 0, []) else
      let seen' := seen ++ inp in
      match complete seen' with
      | Some i => (1, CIndexDec cell seen' true, new_index m cell i,
                   2 + 4 * zlen (ix_recs i) - zlen seen, [])
      | None => (if decide (inp = []) then 10 else 0, CIndexDec cell seen' false, m, zlen inp, [])
      end
  end.

Definition code (c : coder) (m : mem) (act : Z) (inp : list Z) (n : Z) : code_result coder mem :=
  let '(ret, c', m', k, out) := step (kind_of c) m act inp n in
  CodeResult (if (ret =? 10) && negb (stuck c) then 0 else ret)
    (Coder c' (ret =? 10)) m' (Z.max 0 (Z.min k (zlen inp))) (take (Z.to_nat n) out).

Definition iter := lzma_index_iter nat.
Definition iter_at (l : loc) (k : nat) (r : Z * Z) : iter :=
  IndexIterC l k None 1 0 0 0 0 (Z.of_nat k) (Z.of_nat k) 0 0 0 0 r.2 r.1 (round4 r.1).
Definition iter_next (it : iter) (i : index) (mode : Z) : bool * iter :=
  match ix_recs i !! it_internal it with
  | Some r => (false, iter_at (it_index it) (S (it_internal it)) r)
  | None => (true, it)
  end.

(** The library around a type of coders, with these coders of its own and the
    coders for blocks. *)
Section library.
Context (C : Type) (small : coder -> C) (run : C -> mem -> Z -> list Z -> Z -> code_result C mem).
Context (block_enc block_dec : loc -> C) (cell : C -> option loc).

Definition library : Liblzma := {|
  LZMA_OK := 0; LZMA_STREAM_END := 1; LZMA_NO_CHECK := 2; LZMA_UNSUPPORTED_CHECK := 3;
  LZMA_GET_CHECK := 4; LZMA_MEM_ERROR := 5; LZMA_MEMLIMIT_ERROR := 6; LZMA_FORMAT_ERROR := 7;
  LZMA_OPTIONS_ERROR := 8; LZMA_DATA_ERROR := 9; LZMA_BUF_ERROR := 10; LZMA_PROG_ERROR := 11;
  LZMA_RUN := 0; LZMA_SYNC_FLUSH := 1; LZMA_FULL_FLUSH := 2; LZMA_FINISH := 3;
  LZMA_PRESET_DEFAULT := 6; LZMA_PRESET_LEVEL_MASK := 31; LZMA_PRESET_EXTREME := 2 ^ 31;
  LZMA_TELL_NO_CHECK := 1; LZMA_TELL_UNSUPPORTED_CHECK := 2; LZMA_TELL_ANY_CHECK := 4;
  LZMA_CONCATENATED := 8;
  LZMA_CHECK_NONE := 0; LZMA_CHECK_CRC32 := 1; LZMA_CHECK_CRC64 := 4; LZMA_CHECK_SHA256 := 10;
  LZMA_CHECK_SIZE_MAX := 64;
  LZMA_INDEX_ITER_ANY := 0; LZMA_INDEX_ITER_STREAM := 1; LZMA_INDEX_ITER_BLOCK := 2;
  LZMA_INDEX_ITER_NONEMPTY_BLOCK := 3;
  LZMA_VLI_MAX := 2 ^ 63 - 1; LZMA_VLI_BYTES_MAX := 9; LZMA_VLI_UNKNOWN := -1;
  LZMA_FILTERS_MAX := 4;
  LZMA_FILTER_LZMA1 := 2 ^ 62 + 1; LZMA_FILTER_LZMA2 := 33; LZMA_FILTER_DELTA := 3;
  LZMA_FILTER_X86 := 4; LZMA_FILTER_POWERPC := 5; LZMA_FILTER_IA64 := 6; LZMA_FILTER_ARM := 7;
  LZMA_FILTER_ARMTHUMB := 8; LZMA_FILTER_SPARC := 9;
  LZMA_STREAM_HEADER_SIZE := 12; LZMA_BACKWARD_SIZE_MAX := 2 ^ 34; LZMA_BACKWARD_SIZE_MIN := 4;
  LZMA_BLOCK_HEADER_SIZE_MAX := 1024; LZMA_BLOCK_HEADER_SIZE_MIN := 8;
  lzma_options_lzma := Z;
  options_zero := 0;
  options_dict_size o := o;
  options_set_dict_size d o := d;
  lzma_lzma_preset o p := (9 <? Z.land p 31, 2 ^ 23);
  lzma_check_is_supported c := check_size c <? 64;
  lzma_check_size := check_size;
  lzma_crc32 bs c := (c + sum bs) mod 2 ^ 32;
  lzma_crc64 bs c := (c + sum bs) mod 2 ^ 64;
  lzma_stream_header_encode f := (if (sf_version f =? 0) && (check_size (sf_check f) <? 64) then 0 else 11, stream_header f);
  lzma_stream_footer_encode f := (0, stream_footer f);
  lzma_stream_header_decode := header_dec;
  lzma_stream_footer_decode := footer_dec;
  lzma_stream_flags_compare := flags_compare;
  lzma_block_header_size := header_size;
  lzma_block_header_encode := header_encode;
  lzma_block_header_decode := header_decode;
  lzma_block_header_size_decode v := 4 * (v + 1);
  lzma_block_compressed_size b u := (0, u - b_header_size b - check_size (b_check b));
  lzma_block_unpadded_size b := b_header_size b + b_compressed_size b + check_size (b_check b);
  lzma_block_total_size b := round4 (b_header_size b + b_compressed_size b + check_size (b_check b));
  lzma_block_buffer_bound u := u + u / 65536 * 3 + 100;
  lzma_index := index;
  lzma_index_empty := Ix [] 0;
  lzma_alloc := alloc;
  lzma_index_append := ix_append;
  lzma_index_stream_count i := 1;
  lzma_index_block_count i := zlen (ix_recs i);
  lzma_index_size := ix_size;
  lzma_index_stream_size i := 24 + ix_total i + ix_size i;
  lzma_index_total_size := ix_total;
  lzma_index_file_size i := 24 + ix_total i + ix_size i + ix_pad i;
  lzma_index_uncompressed_size i := sum (map snd (ix_recs i));
  lzma_index_checks i := 0;
  lzma_index_stream_flags i f := (0, i);
  lzma_index_stream_padding i p := if p mod 4 =? 0 then (0, Ix (ix_recs i) p) else (11, i);
  lzma_index_cat i j := (0, Ix (ix_recs i ++ ix_recs j) (ix_pad j));
  lzma_iter_state := nat;
  lzma_index_iter_init l := iter_at l 0 (0, 0);
  lzma_index_iter_next := iter_next;
  lzma_index_iter_locate it i off := (true, it);
  lzma_index_iter_rewind it := iter_at (it_index it) 0 (0, 0);
  lzma_coder := C;
  lzma_coder_null := small (Coder CNull false);
  lzma_code := run;
  lzma_get_check c := 0;
  lzma_alone_encoder o := (0, small (Coder (CBlockEnc 1 [] 0 0 false) false));
  lzma_alone_decoder lim := (0, small (Coder (CBlockDec 1 0 0 false) false));
  lzma_stream_encoder fs c := (0, small (Coder (CBlockEnc 1 [] 0 0 false) false));
  lzma_stream_decoder lim fl := (0, small (Coder (CBlockDec 1 0 0 false) false));
  lzma_block_encoder m l := (0, block_enc l);
  lzma_block_decoder m l := (0, block_dec l);
  lzma_index_encoder m a :=
    (0, small (Coder (CIndexEnc (match cm_index m !! a with Some i => ix_encode i | None => [] end)) false));
  lzma_index_decoder m l lim := (0, small (Coder (CIndexDec l [] false) false));
  lzma_coder_cell := cell;
|}.
End library.

Definition coder_cell (c : coder) : option loc := match kind_of c with CIndexDec l _ _ => Some l | _ => None end.

#[export] Instance liblzma : Liblzma :=
  library coder id code (fun l => Coder (CBlockEnc l [] 0 0 false) false)
    (fun l => Coder (CBlockDec l 0 0 false) false) coder_cell.

(** * The laws *)

Lemma code_bounds_small c m act inp n :
  0 <= cr_consumed (code c m act inp n) <= zlen inp /\
  (0 <= n -> zlen (cr_out (code c m act inp n)) <= n).
Proof.
  unfold code. destruct (step (kind_of c) m act inp n) as [[[[ret c'] m'] k] out]. cbn.
  pose proof (zlen_nonneg inp). split; [lia|]. intros Hn. unfold zlen. rewrite length_take. lia.
Qed.

(** The memory after a step: the block's sizes, or a new index in the cell. *)
Lemma step_mem c m act inp n :
  let m' := cr_mem (code c m act inp n) in
  (cm_index m' = cm_index m /\ cm_ixptr m' = cm_ixptr m) \/
  (exists cell i, lzma_coder_cell c = Some cell /\ m' = new_index m cell i).
Proof.
  destruct c as [[] ?]; cbn; unfold code, step; repeat case_match; simplify_eq/=; auto;
    unfold set_sizes; cbn; eauto 10.
Qed.

Lemma header_size_small b h :
  header_size b = (0, h) -> 8 <= h <= 1024 /\ h mod 4 = 0.
Proof.
  unfold header_size. intros H. case_match; [done|].
  match type of H with context [4 * ?q] => set (k := q) in * end.
  destruct ((8 <=? 4 * k) && (4 * k <=? 1024)) eqn:E; [|done].
  apply andb_true_iff in E as [E1 E2]. apply Z.leb_le in E1, E2. injection H as <-.
  split; [done|]. rewrite Z.mul_comm. apply Z_mod_mult.
Qed.

Lemma vli_len_range n : 0 <= n -> 0 <= vli_len n <= 9.
Proof.
  intros Hn. unfold vli_len. case_match; [lia|]. pose proof (Z.log2_nonneg n).
  pose proof (Z.div_pos (Z.log2 n) 7 ltac:(lia) ltac:(lia)). lia.
Qed.

Lemma vli_len_mono n m : 0 <= n <= m -> m < 2 ^ 63 -> vli_len n <= vli_len m.
Proof.
  intros H Hm. unfold vli_len. rewrite !(proj2 (Z.eqb_neq _ _)) by lia.
  pose proof (Z.log2_le_mono n m ltac:(lia)).
  pose proof (Z.div_le_mono (Z.log2 n) (Z.log2 m) 7 ltac:(lia) ltac:(lia)). lia.
Qed.

Lemma header_size_monotone (b b' : lzma_block Z) h' :
  b_filters b = b_filters b' ->
  0 < b_compressed_size b <= b_compressed_size b' -> b_compressed_size b' < 2 ^ 63 ->
  0 <= b_uncompressed_size b <= b_uncompressed_size b' -> b_uncompressed_size b' < 2 ^ 63 ->
  header_size b' = (0, h') -> exists h, header_size b = (0, h) /\ h <= h'.
Proof.
  intros Hf Hc Hc' Hu Hu'. unfold header_size. rewrite !(proj2 (Z.eqb_neq _ 0)) by lia. rewrite Hf.
  pose proof (vli_len_mono _ _ ltac:(split; [|apply Hc]; lia) Hc').
  pose proof (vli_len_mono _ _ Hu Hu').
  pose proof (vli_len_range (b_compressed_size b) ltac:(lia)).
  pose proof (vli_len_range (b_uncompressed_size b) ltac:(lia)).
  assert (0 <= nfilters (b_filters b')) by (unfold nfilters; apply zlen_nonneg).
  set (n := 6 + vli_len (b_compressed_size b) + _ + _).
  set (n' := 6 + vli_len (b_compressed_size b') + _ + _).
  assert (Hn : 6 <= n <= n') by lia. pose proof (Z.div_le_mono (n + 3) (n' + 3) 4 ltac:(lia) ltac:(lia)) as Hd.
  assert (2 <= (n + 3) / 4) by (apply Z.div_le_lower_bound; lia).
  destruct ((8 <=? 4 * ((n' + 3) / 4)) && _) eqn:Eb; [|done]. intros [= <-].
  apply andb_true_iff in Eb as [_ Eb%Z.leb_le].
  rewrite (proj2 (Z.leb_le 8 _)), (proj2 (Z.leb_le _ 1024)) by lia. cbn. eexists. split; [done|]. lia.
Qed.

Lemma fit_length n bs : 0 <= n -> zlen (fit n bs) = n.
Proof.
  intros Hn. unfold fit, zlen. rewrite length_take, length_app, length_replicate. lia.
Qed.

Lemma set_sizes_keep m a x y l b :
  cm_block m !! l = Some b ->
  exists b', cm_block (set_sizes m a x y) !! l = Some b' /\
    b_header_size b' = b_header_size b /\ b_version b' = b_version b /\ b_check b' = b_check b /\
    b_filters b' = b_filters b.
Proof.
  intros Hb. unfold set_sizes. cbn. destruct (cm_block m !! a) as [b0|] eqn:Ea; [|eauto 10].
  destruct (decide (a = l)) as [->|Hne].
  - rewrite lookup_insert_eq. rewrite Ea in Hb. injection Hb as ->. cbn. eauto 10.
  - rewrite lookup_insert_ne by done. eauto 10.
Qed.

Lemma code_block_small c m act inp n l b :
  cm_block m !! l = Some b ->
  exists b', cm_block (cr_mem (code c m act inp n)) !! l = Some b' /\
    b_header_size b' = b_header_size b /\ b_version b' = b_version b /\ b_check b' = b_check b /\
    b_filters b' = b_filters b.
Proof.
  intros Hb. pose proof (fun a x y => set_sizes_keep m a x y l b Hb) as Hs.
  assert (Hm : exists b', cm_block m !! l = Some b' /\ b_header_size b' = b_header_size b /\
    b_version b' = b_version b /\ b_check b' = b_check b /\ b_filters b' = b_filters b) by eauto 10.
  destruct c as [[] ?]; cbn; unfold code, step; repeat case_match; simplify_eq/=; auto.
Qed.

Lemma step_idle c m act inp n ret c' m' k out :
  step c m act inp n = (ret, c', m', k, out) -> 0 <= n -> ret = 0 ->
  0 < Z.max 0 (Z.min k (zlen inp)) \/ take (Z.to_nat n) out <> [].
Proof.
  intros H Hn ->. pose proof (zlen_nonneg inp) as Hi.
  assert (Hinp : inp <> [] -> 0 < zlen inp) by (destruct inp; [done|rewrite zlen_cons; pose proof (zlen_nonneg inp); lia]).
  destruct c as [|b pend nin nout ended|b nin nout ended|rest|cell seen ended]; cbn in H; [done| | | |].
  - destruct ended; [done|].
    set (all := pend ++ _) in *. assert (Htt : take (Z.to_nat n) (take (Z.to_nat n) all) = take (Z.to_nat n) all)
      by (rewrite take_take; f_equal; lia).
    destruct (act =? 3); [case_decide; [done|]|].
    + case_decide; [done|]. injection H as <- <- <- <-. right. by rewrite Htt.
    + case_decide as Hd; [done|]. injection H as <- <- <- <-. rewrite Htt.
      destruct (decide (inp = [])) as [->|Hne]; [|left; specialize (Hinp Hne); lia].
      right. intros Hz. by apply Hd.
  - destruct ended; [done|]. set (d := until_end inp) in *. set (q := Z.min (zlen d) n) in *.
    destruct (_ && _); [done|]. destruct (Z.eqb_spec q 0) as [|Hq]; [done|]. injection H as <- <- <- <-. left.
    assert (Hne : inp <> []).
    { intros ->. apply Hq. unfold q, d. change (zlen (until_end [])) with 0. lia. }
    specialize (Hinp Hne). pose proof (zlen_nonneg d). lia.
  - case_decide; [done|]. case_decide as Ho; [done|]. injection H as <- <- <- <-. right.
    rewrite take_take. by rewrite Nat.min_id.
  - destruct ended; [done|]. destruct (complete _); [done|]. case_decide as Hd; [done|].
    injection H as <- <- <- <-. left. specialize (Hinp Hd). lia.
Qed.

Lemma code_idle_small c m act inp n :
  let r := code c m act inp n in
  0 <= n -> cr_ret r = 0 ->
  0 < cr_consumed r \/ cr_out r <> [] \/ (stuck c = false /\ stuck (cr_coder r) = true).
Proof.
  intros r Hn. unfold r, code. destruct (step (kind_of c) m act inp n) as [[[[ret c'] m'] k] out] eqn:Es. cbn.
  destruct (Z.eqb_spec ret 10) as [->|Hne]; cbn.
  - destruct (stuck c) eqn:Ec; [done|]. auto.
  - intros ->. destruct (step_idle _ _ _ _ _ _ _ _ _ _ Es Hn eq_refl); auto.
Qed.

Lemma check_size_range c : 0 <= check_size c < 2 ^ 32.
Proof. unfold check_size. repeat case_match; lia. Qed.

Lemma header_encode_positive (b : lzma_block Z) bs :
  header_encode b = (0, bs) -> 0 < b_header_size b + b_compressed_size b + check_size (b_check b) < 2 ^ 64.
Proof.
  unfold header_encode. intros H. case_match eqn:E; [|done]. pose proof (check_size_range (b_check b)). lia.
Qed.

#[export] Instance liblzma_spec : LiblzmaSpec liblzma.
Proof.
  split; try done; try (cbn; lia).
  - cbn. repeat (apply NoDup_cons; split; [set_solver|]). apply NoDup_nil_2.
  - cbn. repeat (apply NoDup_cons; split; [set_solver|]). apply NoDup_nil_2.
  - rewrite Forall_forall. intros x. cbn. set_unfold. lia.
  - intros bs c. cbn. apply Z.mod_pos_bound. lia.
  - intros bs c. cbn. apply Z.mod_pos_bound. lia.
  - apply header_size_small.
  - intros b bs. cbn. unfold header_encode. intros H. case_match eqn:E; [|done].
    injection H as <-. apply andb_true_iff in E as [[E1 E2]%andb_true_iff _]. apply Z.leb_le in E1. apply fit_length. lia.
  - exact header_encode_positive.
  - intros b H. change ((header_size b).1 = 11). change (@b_compressed_size Z b = 0) in H.
    unfold header_size. by rewrite H.
  - intros f bs H. cbn in H. case_match; [|done]. by injection H as <-.
  - intros f bs H. cbn in H. by injection H as <-.
  - intros b b' h' _ _. apply header_size_monotone.
  - apply code_bounds_small.
  - intros m act inp n. cbn. unfold code. cbn. f_equal; [pose proof (zlen_nonneg inp); lia|by destruct (Z.to_nat n)].
  - intros m a [= <-]. apply not_elem_of_dom, is_fresh.
  - intros c m act inp n l Hl. destruct (step_mem c m act inp n) as [[_ E]|(cell & i & Hc & E)].
    + cbn in *. by rewrite E.
    + cbn in *. rewrite E. cbn. rewrite lookup_insert_ne; [done|]. congruence.
  - intros c m act inp n a x Hx. destruct (step_mem c m act inp n) as [[E _]|(cell & i & Hc & E)].
    + cbn in *. by rewrite E.
    + cbn in *. rewrite E. cbn. rewrite lookup_insert_ne; [done|].
      intros Ha. assert (cm_index m !! fresh (dom (cm_index m)) = None) as Hn
        by (apply not_elem_of_dom, is_fresh). rewrite Ha in Hn. congruence.
  - intros c m act inp n l a Hl. destruct (step_mem c m act inp n) as [[_ E]|(cell & i & Hc & E)].
    + cbn in *. rewrite E in Hl. by left.
    + cbn in *. rewrite E in Hl |- *. cbn in *. destruct (decide (cell = l)) as [->|Hne].
      * rewrite lookup_insert in Hl. rewrite decide_True in Hl by done. injection Hl as <-. right.
        split; [apply not_elem_of_dom, is_fresh|]. rewrite lookup_insert, decide_True by done. eauto.
      * rewrite lookup_insert_ne in Hl by done. by left.
  - intros c m act inp n. destruct c as [[] ?]; cbn; unfold code, step; repeat case_match; simplify_eq/=; done.
  - by intros m l lim c [= <-].
  - by intros m l c [= <-].
  - intros m a c. cbn. by intros [= <-].
  - apply code_block_small.
Qed.

#[export] Instance liblzma_idle : LiblzmaIdle liblzma.
Proof. exists stuck. apply code_idle_small. Defined.

End Small.
