(* ===== verification/Lib.v ===== *)
(** [lib/error.go], [lib/const.go], [lib/lzma.go], [lib/filter.go],
    [lib/check.go], [lib/flags.go], [lib/block.go] and [lib/util.go]: the
    wrappers around liblzma's data structures.

    Each Go method is a computation over the structure it works on. The
    conversions to and from C's integer types are written out. *)

From S2P Require Import Prelude Liblzma SmallLzma.

(** [StreamFlags] is the C structure. *)
Abbreviation StreamFlags := lzma_stream_flags.

Section lib.
Context {L : Liblzma}.

(** * const.go *)
Definition OK := LZMA_OK.
Definition STREAM_END := LZMA_STREAM_END.
Definition NO_CHECK := LZMA_NO_CHECK.
Definition UNSUPPORTED_CHECK := LZMA_UNSUPPORTED_CHECK.
Definition GET_CHECK := LZMA_GET_CHECK.
Definition MEM_ERROR := LZMA_MEM_ERROR.
Definition MEMLIMIT_ERROR := LZMA_MEMLIMIT_ERROR.
Definition FORMAT_ERROR := LZMA_FORMAT_ERROR.
Definition OPTIONS_ERROR := LZMA_OPTIONS_ERROR.
Definition DATA_ERROR := LZMA_DATA_ERROR.
Definition BUF_ERROR := LZMA_BUF_ERROR.
Definition PROG_ERROR := LZMA_PROG_ERROR.
Definition RUN := LZMA_RUN.
Definition SYNC_FLUSH := LZMA_SYNC_FLUSH.
Definition FULL_FLUSH := LZMA_FULL_FLUSH.
Definition FINISH := LZMA_FINISH.
Definition PRESET_LEVEL0 : Z := 0.
Definition PRESET_LEVEL9 : Z := 9.
Definition PRESET_DEFAULT := LZMA_PRESET_DEFAULT.
Definition PRESET_LEVEL_MASK := LZMA_PRESET_LEVEL_MASK.
Definition PRESET_EXTREME := LZMA_PRESET_EXTREME.
Definition TELL_NO_CHECK := LZMA_TELL_NO_CHECK.
Definition TELL_UNSUPPORTED_CHECK := LZMA_TELL_UNSUPPORTED_CHECK.
Definition TELL_ANY_CHECK := LZMA_TELL_ANY_CHECK.
Definition CONCATENATED := LZMA_CONCATENATED.
Definition CHECK_NONE := LZMA_CHECK_NONE.
Definition CHECK_CRC32 := LZMA_CHECK_CRC32.
Definition CHECK_CRC64 := LZMA_CHECK_CRC64.
Definition CHECK_SHA256 := LZMA_CHECK_SHA256.
Definition INDEX_ITER_ANY := LZMA_INDEX_ITER_ANY.
Definition INDEX_ITER_BLOCK := LZMA_INDEX_ITER_BLOCK.
Definition INDEX_ITER_NONEMPTY_BLOCK := LZMA_INDEX_ITER_NONEMPTY_BLOCK.
Definition INDEX_ITER_STREAM := LZMA_INDEX_ITER_STREAM.
Definition VLI_MAX := LZMA_VLI_MAX.
Definition VLI_BYTES_MAX := LZMA_VLI_BYTES_MAX.
Definition VLI_UNKNOWN := LZMA_VLI_UNKNOWN.
Definition vliUnknown := int64 VLI_UNKNOWN.
Definition FILTER_LZMA1 := LZMA_FILTER_LZMA1.
Definition FILTER_LZMA2 := LZMA_FILTER_LZMA2.
Definition FILTER_DELTA := LZMA_FILTER_DELTA.
Definition FILTER_X86 := LZMA_FILTER_X86.
Definition FILTER_POWERPC := LZMA_FILTER_POWERPC.
Definition FILTER_IA64 := LZMA_FILTER_IA64.
Definition FILTER_ARM := LZMA_FILTER_ARM.
Definition FILTER_ARMTHUMB := LZMA_FILTER_ARMTHUMB.
Definition FILTER_SPARC := LZMA_FILTER_SPARC.
Definition HEADER_MAGIC : list Z := [0xFD; 55; 122; 88; 90; 0].
Definition FOOTER_MAGIC : list Z := [89; 90].
Definition STREAM_HEADER_SIZE := LZMA_STREAM_HEADER_SIZE.
Definition STREAM_FOOTER_SIZE := LZMA_STREAM_HEADER_SIZE.
Definition BACKWARD_SIZE_MAX := LZMA_BACKWARD_SIZE_MAX.
Definition BACKWARD_SIZE_MIN := LZMA_BACKWARD_SIZE_MIN.
Definition BLOCK_HEADER_SIZE_MAX := LZMA_BLOCK_HEADER_SIZE_MAX.
Definition BLOCK_HEADER_SIZE_MIN := LZMA_BLOCK_HEADER_SIZE_MIN.

(** * error.go *)

(** [Error(code)] is [LibError code]. *)
Definition NewError (code : Z) : error :=
  if code =? OK then None else Some (LibError code).

(** [Error.Error] *)
Definition Error_Error (ze : Z) : string :=
  if ze =? STREAM_END then "[STREAM_END] End of stream was reached"
  else if ze =? NO_CHECK then "[NO_CHECK] Input stream has no integrity check"
  else if ze =? UNSUPPORTED_CHECK then "[UNSUPPORTED_CHECK] Cannot calculate the integrity check"
  else if ze =? GET_CHECK then "[GET_CHECK] Integrity check type is now available"
  else if ze =? MEM_ERROR then "[MEM_ERROR] Cannot allocate memory"
  else if ze =? MEMLIMIT_ERROR then "[MEMLIMIT_ERROR] Memory usage limit was reached"
  else if ze =? FORMAT_ERROR then "[FORMAT_ERROR] File format not recognized"
  else if ze =? OPTIONS_ERROR then "[OPTIONS_ERROR] Invalid or unsupported options"
  else if ze =? DATA_ERROR then "[DATA_ERROR] Data is corrupt"
  else if ze =? BUF_ERROR then "[BUF_ERROR] No progress is possible"
  else if ze =? PROG_ERROR then "[PROG_ERROR] Programming error"
  else "[UNKNOWN] Unknown error".

(** * lzma.go *)

(** [*OptionsLZMA]; [None] is the nil pointer. *)
Definition NewOptionsLZMA (preset : Z) : option options * error :=
  let '(failed, opts) := lzma_lzma_preset options_zero (uint32 preset) in
  if failed : bool then (None, NewError OPTIONS_ERROR) else (Some opts, None).

Definition GetDictSize (opts : options) : Z := uint32 (options_dict_size opts).
Definition SetDictSize (size : Z) (opts : options) : options :=
  options_set_dict_size (uint32 size) opts.

(** * filter.go *)

Record Filters : Type := FiltersV {
  fl_filters : list filter_t;
  fl_options : list (option options);
  fl_size : Z;
}.

Definition NewFilters : Filters :=
  FiltersV (<[0%nat := Filter (uint64 vliUnknown) None]>
              (replicate (Z.to_nat (LZMA_FILTERS_MAX + 1)) (Filter 0 None))) [] 0.

(** [f.filters[i] = x] *)
Definition set_filter (i : Z) (g : filter_t -> filter_t) : M Filters unit :=
  f ← get;
  x ← index_or (zget (fl_filters f) i);
  put (FiltersV (<[Z.to_nat i := g x]> (fl_filters f)) (fl_options f) (fl_size f)).

Definition Append (id : Z) (opts : option options) : M Filters unit :=
  f ← get;
  set_filter (fl_size f + 1) (fun x => Filter (uint64 vliUnknown) (f_options x));;
  set_filter (fl_size f) (fun x => Filter (uint64 id) (f_options x));;
  set_filter (fl_size f) (fun x => Filter (f_id x) opts);;
  modify (fun f => FiltersV (fl_filters f) (fl_options f ++ [opts]) (fl_size f));;
  modify (fun f => FiltersV (fl_filters f) (fl_options f) (fl_size f + 1)).

(** * check.go *)
Definition CheckIsSupported (check : Z) : bool := lzma_check_is_supported (uint32 check).
Definition CheckSize (check : Z) : Z := lzma_check_size (uint32 check).
Definition CRC32 (buf : list Z) (crc : Z) : Z := uint32 (lzma_crc32 buf (uint32 crc)).
Definition CRC64 (buf : list Z) (crc : Z) : Z := uint64 (lzma_crc64 buf (uint64 crc)).

(** * flags.go *)
Definition NewStreamFlags : StreamFlags := StreamFlagsC 0 (uint64 vliUnknown) CHECK_NONE.

Definition SetCheck (check : Z) : M StreamFlags unit :=
  modify (fun fl => StreamFlagsC (sf_version fl) (sf_backward_size fl) (uint32 check)).
Definition SetBackwardSize (size : Z) : M StreamFlags unit :=
  modify (fun fl => StreamFlagsC (sf_version fl) (uint64 size) (sf_check fl)).
Definition GetCheck (fl : StreamFlags) : Z := sf_check fl.
Definition GetBackwardSize (fl : StreamFlags) : Z := int64 (sf_backward_size fl).

Definition HeaderEncode (check : Z) : M StreamFlags (list Z * error) :=
  SetCheck check;;
  fl ← get;
  let buf := replicate (Z.to_nat STREAM_HEADER_SIZE) 0 in
  let '(ret, bs) := lzma_stream_header_encode fl in
  mret (overwrite buf 0 bs, NewError ret).

Definition FooterEncode (backwardSize : Z) : M StreamFlags (list Z * error) :=
  SetBackwardSize backwardSize;;
  fl ← get;
  let buf := replicate (Z.to_nat STREAM_FOOTER_SIZE) 0 in
  let '(ret, bs) := lzma_stream_footer_encode fl in
  mret (overwrite buf 0 bs, NewError ret).

Definition HeaderDecode (buf : list Z) : M StreamFlags error :=
  if zlen buf <? STREAM_HEADER_SIZE then mret (NewError BUF_ERROR) else
  fl ← get;
  let '(ret, fl') := lzma_stream_header_decode fl buf in
  put fl';; mret (NewError ret).

Definition FooterDecode (buf : list Z) : M StreamFlags error :=
  if zlen buf <? STREAM_FOOTER_SIZE then mret (NewError BUF_ERROR) else
  fl ← get;
  let '(ret, fl') := lzma_stream_footer_decode fl buf in
  put fl';; mret (NewError ret).

Definition Compare (fl1 fl2 : StreamFlags) : error :=
  NewError (lzma_stream_flags_compare fl1 fl2).

(** * block.go

    [block.filters] points to the array of the [Filters] object, so a change of
    the one is a change of the other: [GetFilters] reads the array through the
    block. *)
Record Block : Type := BlockV { block : block_t; blk_filters : Filters }.

Definition upd_block (f : block_t -> block_t) : M Block unit :=
  modify (fun b => BlockV (f (block b)) (blk_filters b)).

Definition Block_SetCheck (check : Z) : M Block unit :=
  upd_block (fun b => BlockC (b_version b) (b_header_size b) (uint32 check) (b_compressed_size b)
                             (b_uncompressed_size b) (b_filters b) (b_raw_check b)).
Definition SetFilters (filters : Filters) : M Block unit :=
  upd_block (fun b => BlockC (b_version b) (b_header_size b) (b_check b) (b_compressed_size b)
                             (b_uncompressed_size b) (fl_filters filters) (b_raw_check b));;
  modify (fun b => BlockV (block b) filters).
Definition SetCompressedSize (size : Z) : M Block unit :=
  upd_block (fun b => BlockC (b_version b) (b_header_size b) (b_check b) (uint64 size)
                             (b_uncompressed_size b) (b_filters b) (b_raw_check b)).
Definition SetUncompressedSize (size : Z) : M Block unit :=
  upd_block (fun b => BlockC (b_version b) (b_header_size b) (b_check b) (b_compressed_size b)
                             (uint64 size) (b_filters b) (b_raw_check b)).

Definition new_Block : Block :=
  BlockV (BlockC 0 0 0 0 0 [] (replicate (Z.to_nat LZMA_CHECK_SIZE_MAX) 0)) (FiltersV [] [] 0).

Definition NewBlockCustom (check : Z) (filters : Filters) (compressSize uncompressSize : Z) : Block :=
  ((Block_SetCheck check;;
    SetFilters filters;;
    SetCompressedSize compressSize;;
    SetUncompressedSize uncompressSize) new_Block).2.

Definition NewBlock (check : Z) : Block := NewBlockCustom check NewFilters VLI_UNKNOWN VLI_UNKNOWN.

Definition GetFilters (b : Block) : Filters :=
  FiltersV (b_filters (block b)) (fl_options (blk_filters b)) (fl_size (blk_filters b)).

(** [data] is written in place; the result has its new contents. *)
Definition Block_HeaderEncode (data : list Z) : M Block (list Z * error) :=
  b ← get;
  if zlen data <? b_header_size (block b) then panic (PStr "Input header not large enough") else
  let '(ret, bs) := lzma_block_header_encode (block b) in
  mret (overwrite data 0 bs, NewError ret).

Definition Block_HeaderDecode (data : list Z) : M Block error :=
  b ← get;
  if zlen data <? b_header_size (block b) then panic (PStr "Output header not large enough") else
  let '(ret, b') := lzma_block_header_decode (block b) data in
  put (BlockV b' (blk_filters b));; mret (NewError ret).

Definition set_header_size (size : Z) : M Block unit :=
  upd_block (fun b => BlockC (b_version b) (uint32 size) (b_check b) (b_compressed_size b)
                             (b_uncompressed_size b) (b_filters b) (b_raw_check b)).

(** [lzma_block_header_size] stores the size it computes into the block. *)
Definition HeaderSize : M Block (Z * error) :=
  b ← get;
  let '(ret, size) := lzma_block_header_size (block b) in
  (if ret =? OK then set_header_size size else mret tt);;
  b ← get;
  mret (b_header_size (block b), NewError ret).

Definition HeaderSizeDecode (val : Z) : M Block (Z * error) :=
  let size := lzma_block_header_size_decode (uint8 val) in
  if (size <? BLOCK_HEADER_SIZE_MIN) || (BLOCK_HEADER_SIZE_MAX <? size)
  then mret (size, Some (LibError DATA_ERROR))
  else set_header_size size;; mret (size, None).

(** [lzma_block_compressed_size] stores the size it validated. *)
Definition CompressedSize (unpadSize : Z) : M Block (Z * error) :=
  b ← get;
  let '(ret, size) := lzma_block_compressed_size (block b) (uint64 unpadSize) in
  (if ret =? OK then SetCompressedSize size else mret tt);;
  b ← get;
  mret (int64 (b_compressed_size (block b)), NewError ret).

Definition UnpaddedSize (b : Block) : Z := int64 (lzma_block_unpadded_size (block b)).
Definition TotalSize (b : Block) : Z := int64 (lzma_block_total_size (block b)).
Definition GetVersion (b : Block) : Z := b_version (block b).
Definition GetHeaderSize (b : Block) : Z := b_header_size (block b).
Definition Block_GetCheck (b : Block) : Z := b_check (block b).
Definition GetCompressedSize (b : Block) : Z := int64 (b_compressed_size (block b)).
Definition GetUncompressedSize (b : Block) : Z := int64 (b_uncompressed_size (block b)).

(** The loop of [GetRawCheck], [n] indexes left from [idx] on. *)
Fixpoint raw_check_loop (raw : list Z) (n : nat) (idx : Z) (buf : list Z) : M Block (list Z) :=
  match n with
  | O => mret buf
  | S n => x ← index_or (zget raw idx);
           buf ← index_or (zset buf idx (uint8 x));
           raw_check_loop raw n (idx + 1) buf
  end.

Definition GetRawCheck : M Block (list Z) :=
  b ← get;
  let buf := replicate (Z.to_nat LZMA_CHECK_SIZE_MAX) 0 in
  let size := CheckSize (b_check (block b)) in
  if (size <? 0) || (LZMA_CHECK_SIZE_MAX <? size) then mret []
  else buf ← raw_check_loop (b_raw_check (block b)) (Z.to_nat size) 0 buf;
       index_or (ztake buf size).

Definition BlockBufferBound (uncompressSize : Z) : Z :=
  int64 (lzma_block_buffer_bound (uint64 uncompressSize)).

(** * Errors *)

Lemma NewError_nil c : NewError c = None <-> c = OK.
Proof. unfold NewError. destruct (Z.eqb_spec c OK); split; congruence. Qed.

Lemma NewError_some c e : NewError c = Some e <-> c <> OK /\ e = LibError c.
Proof. unfold NewError. destruct (Z.eqb_spec c OK); split; intros; destruct_and?; simplify_eq; done. Qed.

(** The error statuses are not LZMA_OK. *)
Lemma error_code_not_ok (LS : LiblzmaSpec L) c : c ∈ tail lzma_rets -> c <> OK.
Proof.
  intros Hc ->. pose proof rets_distinct as Hd. unfold lzma_rets in *. cbn [tail] in Hc.
  apply NoDup_cons in Hd as [Hd _]. by apply Hd.
Qed.

(** The text of an error identifies the status code: a code of liblzma
    other than OK shares its text with no other integer, so the text of an
    unknown code is that of no known one. *)
Theorem error_text_identifies c d :
  c ∈ lzma_rets -> c <> OK -> Error_Error c = Error_Error d -> d = c.
Proof.
  intros Hc Hok He. unfold Error_Error in He.
  repeat match type of He with
         | context [if c =? ?x then _ else _] => destruct (Z.eqb_spec c x)
         end;
  repeat match type of He with
         | context [if d =? ?x then _ else _] => destruct (Z.eqb_spec d x)
         end; try discriminate He; try congruence.
  exfalso. unfold lzma_rets in Hc. repeat (apply elem_of_cons in Hc as [Hc|Hc]; [done|]).
  by apply elem_of_nil in Hc.
Qed.

(** * Filters *)

(** The chain a C function sees: the entries before the first terminator. *)
Definition is_end (x : filter_t) : bool := f_id x =? uint64 vliUnknown.

Fixpoint chain (fs : list filter_t) : list filter_t :=
  match fs with
  | [] => []
  | x :: fs => if is_end x then [] else x :: chain fs
  end.

(** The invariant of the data structure. *)
Record filters_wf (f : Filters) : Prop := {
  fw_size : 0 <= fl_size f <= LZMA_FILTERS_MAX;
  fw_array : zlen (fl_filters f) = LZMA_FILTERS_MAX + 1;
  fw_end : exists x, fl_filters f !! Z.to_nat (fl_size f) = Some x /\ is_end x = true;
  fw_refs : zlen (fl_options f) = fl_size f;
  fw_entries : Forall (fun x => is_end x = false) (take (Z.to_nat (fl_size f)) (fl_filters f));
}.

Lemma chain_until fs n x :
  fs !! n = Some x -> is_end x = true -> Forall (fun x => is_end x = false) (take n fs) ->
  chain fs = take n fs.
Proof.
  revert n. induction fs as [|y fs IH]; intros n Hn Hx Hf; [done|].
  destruct n as [|n]; cbn in *.
  - injection Hn as <-. by rewrite Hx.
  - apply Forall_cons in Hf as [Hy Hf]. rewrite Hy. f_equal. by apply IH.
Qed.

Lemma filters_chain f : filters_wf f -> chain (fl_filters f) = take (Z.to_nat (fl_size f)) (fl_filters f).
Proof. intros [? ? (x & Hx & He) ? ?]. by eapply chain_until. Qed.

Lemma NewFilters_wf : 0 <= LZMA_FILTERS_MAX -> filters_wf NewFilters.
Proof.
  intros HM. unfold NewFilters. split; cbn [fl_size fl_filters fl_options].
  - lia.
  - autorewrite with zlen. lia.
  - exists (Filter (uint64 vliUnknown) None). split; [|apply Z.eqb_refl].
    apply list_lookup_insert_eq. rewrite length_replicate. lia.
  - done.
  - by rewrite take_0.
Qed.

Lemma set_filter_ok i g f x :
  0 <= i -> fl_filters f !! Z.to_nat i = Some x ->
  set_filter i g f = (Ret tt, FiltersV (<[Z.to_nat i := g x]> (fl_filters f)) (fl_options f) (fl_size f)).
Proof.
  intros Hi Hx. unfold set_filter, zget. mrun. apply Z.leb_le in Hi. rewrite Hi, Hx. done.
Qed.

Lemma set_filter_out i g f :
  zlen (fl_filters f) <= i -> set_filter i g f = (Pan (PRun IndexOutOfRange), f).
Proof.
  intros Hi. unfold set_filter, zget. mrun. destruct (0 <=? i); [|done].
  rewrite lookup_ge_None_2; [done|]. unfold zlen in Hi. lia.
Qed.

(** One [Append]: the entry is put before a new terminator, or, on a full
    chain, a panic that leaves everything as it was. *)
Lemma Append_step id opts f :
  filters_wf f -> uint64 id <> uint64 vliUnknown ->
  if fl_size f <? LZMA_FILTERS_MAX then
    exists f', Append id opts f = (Ret tt, f') /\ filters_wf f' /\ fl_size f' = fl_size f + 1 /\
      take (Z.to_nat (fl_size f')) (fl_filters f') =
      take (Z.to_nat (fl_size f)) (fl_filters f) ++ [Filter (uint64 id) opts]
  else Append id opts f = (Pan (PRun IndexOutOfRange), f).
Proof.
  intros Hwf Hid. destruct Hwf as [Hs Ha (x & Hx & He) Hr Hf]. destruct (Z.ltb_spec (fl_size f) LZMA_FILTERS_MAX).
  - unfold Append. rewrite (bind_ret _ _ _ f f) by done.
    destruct (lookup_lt_is_Some_2 (fl_filters f) (Z.to_nat (fl_size f + 1))) as [y Hy];
      [unfold zlen in Ha; lia|].
    set (l := <[Z.to_nat (fl_size f + 1) := Filter (uint64 vliUnknown) (f_options y)]> (fl_filters f)).
    assert (Hl : length l = length (fl_filters f)) by (unfold l; apply length_insert).
    rewrite (bind_ret _ _ _ _ _ (set_filter_ok (fl_size f + 1) _ f _ ltac:(lia) Hy)).
    fold l. assert (Hx1 : l !! Z.to_nat (fl_size f) = Some x) by (unfold l; by rewrite list_lookup_insert_ne by lia).
    rewrite (bind_ret _ _ _ _ _ (set_filter_ok (fl_size f) _ (FiltersV l (fl_options f) (fl_size f)) x ltac:(lia) Hx1)).
    cbn [fl_filters fl_options fl_size f_id f_options].
    set (l2 := <[Z.to_nat (fl_size f) := _]> l).
    assert (Hx2 : l2 !! Z.to_nat (fl_size f) = Some (Filter (uint64 id) (f_options x)))
      by (unfold l2; apply list_lookup_insert_eq; unfold zlen in Ha; lia).
    rewrite (bind_ret _ _ _ _ _ (set_filter_ok (fl_size f) _ (FiltersV l2 (fl_options f) (fl_size f)) _ ltac:(lia) Hx2)).
    unfold l2. cbn [fl_filters fl_options fl_size f_id f_options]. mrun. rewrite list_insert_insert_eq.
    eexists; split; [done|]. cbn [fl_filters fl_options fl_size].
    assert (Htk : take (Z.to_nat (fl_size f + 1)) (<[Z.to_nat (fl_size f):=Filter (uint64 id) opts]> l) =
                  take (Z.to_nat (fl_size f)) (fl_filters f) ++ [Filter (uint64 id) opts]).
    { replace (Z.to_nat (fl_size f + 1)) with (S (Z.to_nat (fl_size f))) by lia.
      erewrite take_S_r by (apply list_lookup_insert_eq; unfold zlen in Ha; lia).
      f_equal. rewrite take_insert_ge by lia. unfold l. by rewrite take_insert_ge by lia. }
    split; [|done]. split; cbn [fl_filters fl_options fl_size].
    + lia.
    + unfold zlen. rewrite length_insert, Hl. exact Ha.
    + eexists; split.
      * rewrite list_lookup_insert_ne by lia. apply list_lookup_insert_eq. unfold zlen in Ha; lia.
      * apply Z.eqb_refl.
    + rewrite zlen_app, Hr. done.
    + rewrite Htk. apply Forall_app; split; [done|]. constructor; [|done]. by apply Z.eqb_neq.
  - unfold Append. rewrite (bind_ret _ _ _ f f) by done. apply bind_panic, set_filter_out. lia.
Qed.

Fixpoint append_all (l : list (Z * option options)) : M Filters unit :=
  match l with
  | [] => mret tt
  | (id, o) :: l => Append id o;; append_all l
  end.

Definition entries (l : list (Z * option options)) : list filter_t :=
  map (fun '(id, o) => Filter (uint64 id) o) l.

Lemma append_all_from l f :
  filters_wf f -> Forall (fun e => uint64 e.1 <> uint64 vliUnknown) l ->
  exists f', append_all l f = (if fl_size f + zlen l <=? LZMA_FILTERS_MAX then Ret tt else Pan (PRun IndexOutOfRange), f') /\
    filters_wf f' /\
    chain (fl_filters f') =
      take (Z.to_nat LZMA_FILTERS_MAX) (chain (fl_filters f) ++ entries l).
Proof.
  revert f. induction l as [|[id o] l IH]; intros f Hwf Hl.
  - exists f. rewrite zlen_nil, Z.add_0_r. cbn. rewrite app_nil_r.
    destruct (Z.leb_spec (fl_size f) LZMA_FILTERS_MAX); [|destruct Hwf; lia].
    split_and!; [done|done|]. rewrite filters_chain by done. rewrite take_take. f_equal.
    destruct Hwf. lia.
  - apply Forall_cons in Hl as [Hid Hl]. pose proof (Append_step id o f Hwf Hid) as Hs.
    rewrite zlen_cons. pose proof (zlen_nonneg l). cbn [append_all].
    destruct (Z.ltb_spec (fl_size f) LZMA_FILTERS_MAX) as [Hlt|Hge].
    + destruct Hs as (f' & Ha & Hwf' & Hsz & Htk). rewrite (bind_ret _ _ _ _ _ Ha).
      destruct (IH f' Hwf' Hl) as (f2 & E & Hwf2 & Hc). exists f2. rewrite E, Hsz.
      split_and!; [repeat case_match; try done; lia|done|].
      rewrite Hc, !filters_chain by done. rewrite Htk. by rewrite <- app_assoc.
    + rewrite (bind_panic _ _ _ _ _ Hs). exists f. destruct (Z.leb_spec (fl_size f + (1 + zlen l)) LZMA_FILTERS_MAX); [lia|].
      split_and!; [done|done|]. rewrite filters_chain by done.
      destruct Hwf as [Hsz Ha _ _ _]. rewrite take_app_ge.
      * rewrite length_take. unfold zlen in Ha.
        replace (Z.to_nat LZMA_FILTERS_MAX - _)%nat with 0%nat by lia. by rewrite take_0, app_nil_r.
      * rewrite length_take. unfold zlen in Ha. lia.
Qed.

(** C27: Building a chain with [NewFilters] and any sequence of [Append]s: the
    array always stays terminated, what C reads is exactly the first
    LZMA_FILTERS_MAX filters appended, in order, and the one append too many
    panics without touching the array. *)
Theorem filters_append_all (LS : LiblzmaSpec L) l :
  Forall (fun e => uint64 e.1 <> uint64 vliUnknown) l ->
  exists f, append_all l NewFilters =
      (if zlen l <=? LZMA_FILTERS_MAX then Ret tt else Pan (PRun IndexOutOfRange), f) /\
    filters_wf f /\
    chain (fl_filters f) = take (Z.to_nat LZMA_FILTERS_MAX) (entries l).
Proof.
  intros Hl. pose proof (NewFilters_wf filters_max_pos) as Hwf.
  destruct (append_all_from l NewFilters Hwf Hl) as (f & E & Hf & Hc).
  exists f. rewrite E. split_and!; [done|done|]. rewrite Hc, filters_chain by done.
  change (fl_size NewFilters) with 0. by rewrite take_0.
Qed.

(** * Blocks *)

(** What [HeaderSize] does: it stores and returns the size C computed, or it
    returns the error and leaves the block alone. *)
Lemma HeaderSize_spec b :
  HeaderSize b =
  let '(ret, size) := lzma_block_header_size (block b) in
  if ret =? OK then (Ret (uint32 size, None), (set_header_size size b).2)
  else (Ret (b_header_size (block b), Some (LibError ret)), b).
Proof.
  unfold HeaderSize, NewError. mrun. destruct (lzma_block_header_size (block b)) as [ret size].
  by destruct (ret =? OK).
Qed.

Lemma set_header_size_run size b :
  set_header_size size b =
  (Ret tt, BlockV (BlockC (b_version (block b)) (uint32 size) (b_check (block b))
     (b_compressed_size (block b)) (b_uncompressed_size (block b)) (b_filters (block b))
     (b_raw_check (block b))) (blk_filters b)).
Proof. done. Qed.

Lemma header_size_uint32 (LS : LiblzmaSpec L) b size :
  lzma_block_header_size b = (OK, size) -> uint32 size = size.
Proof.
  intros H. destruct (header_size_range _ _ H) as [[H1 H2] _]. pose proof block_header_bounds.
  unfold uint32. apply Z.mod_small. lia.
Qed.

(** C28: After a successful [HeaderSize], [HeaderEncode] panics on every slice
    shorter than that size and on no other; otherwise a nil error means that
    exactly the first bytes of the slice, as many as the size, were written,
    and the rest of it is what it was. *)
Theorem header_encode_in_place (LS : LiblzmaSpec L) b h b1 data :
  HeaderSize b = (Ret (h, None), b1) ->
  (h mod 4 = 0 /\ BLOCK_HEADER_SIZE_MIN <= h <= BLOCK_HEADER_SIZE_MAX) /\
  if zlen data <? h
  then Block_HeaderEncode data b1 = (Pan (PStr "Input header not large enough"), b1)
  else exists data' err,
    Block_HeaderEncode data b1 = (Ret (data', err), b1) /\
    (err = None -> zlen data' = zlen data /\
       drop (Z.to_nat h) data' = drop (Z.to_nat h) data /\
       lzma_block_header_encode (block b1) = (OK, take (Z.to_nat h) data')).
Proof.
  intros H. rewrite HeaderSize_spec in H. destruct (lzma_block_header_size (block b)) as [ret size] eqn:Es.
  destruct (Z.eqb_spec ret OK) as [->|]; [|done].
  pose proof (header_size_uint32 LS _ _ Es) as Hu. rewrite set_header_size_run in H. cbn [snd] in H.
  injection H as <- <-. rewrite Hu. destruct (header_size_range _ _ Es) as [Hr Hm].
  split; [done|]. unfold Block_HeaderEncode. mrun.
  destruct (Z.ltb_spec (zlen data) size) as [Hlt|Hge]; [done|].
  destruct (lzma_block_header_encode _) as [r bs] eqn:Ee. do 2 eexists. split; [done|].
  intros Hn. apply NewError_nil in Hn as ->. pose proof (header_encode_length _ _ Ee) as Hl.
  cbn [b_header_size] in Hl.
  pose proof block_header_bounds as Hb.
  assert (Hln : length bs = Z.to_nat size) by (unfold zlen in Hl; lia).
  split_and!.
  - apply zlen_overwrite; lia.
  - unfold overwrite. rewrite Hln, Z2Nat.inj_0, take_0. cbn. by rewrite drop_app_length'.
  - unfold overwrite. rewrite Z2Nat.inj_0, take_0. cbn. by rewrite take_app_length'.
Qed.

(** A header or a footer in a buffer of its size. *)
Lemma overwrite_all (n : Z) bs : 0 <= n -> zlen bs = n -> overwrite (replicate (Z.to_nat n) 0) 0 bs = bs.
Proof.
  intros H0 Hn. unfold overwrite. cbn. rewrite drop_ge; [apply app_nil_r|].
  rewrite length_replicate. unfold zlen in Hn. lia.
Qed.

Lemma HeaderEncode_run (LS : LiblzmaSpec L) check fl :
  exists buf err, HeaderEncode check fl = (Ret (buf, err), (SetCheck check fl).2) /\
    (err = None -> lzma_stream_header_encode (SetCheck check fl).2 = (OK, buf)).
Proof.
  unfold HeaderEncode, SetCheck. mrun. destruct (lzma_stream_header_encode _) as [ret bs] eqn:He.
  do 2 eexists. split; [reflexivity|]. intros ->%NewError_nil.
  rewrite overwrite_all; [done|apply stream_header_size_nonneg|by eapply stream_header_length].
Qed.

Lemma FooterEncode_run (LS : LiblzmaSpec L) size fl :
  exists buf err, FooterEncode size fl = (Ret (buf, err), (SetBackwardSize size fl).2) /\
    (err = None -> lzma_stream_footer_encode (SetBackwardSize size fl).2 = (OK, buf)).
Proof.
  unfold FooterEncode, SetBackwardSize. mrun. destruct (lzma_stream_footer_encode _) as [ret bs] eqn:He.
  do 2 eexists. split; [reflexivity|]. intros ->%NewError_nil.
  rewrite overwrite_all; [done|apply stream_header_size_nonneg|by eapply stream_footer_length].
Qed.

(** C29: [HeaderSizeDecode] reports DATA_ERROR exactly for the sizes outside the
    format's bounds and then leaves the block alone; otherwise the size it
    stores is the size it returns. *)
Theorem header_size_decode_checked (LS : LiblzmaSpec L) val b :
  let size := lzma_block_header_size_decode (uint8 val) in
  (HeaderSizeDecode val b = (Ret (size, Some (LibError DATA_ERROR)), b) /\
   ~ BLOCK_HEADER_SIZE_MIN <= size <= BLOCK_HEADER_SIZE_MAX) \/
  (BLOCK_HEADER_SIZE_MIN <= size <= BLOCK_HEADER_SIZE_MAX /\
   exists b', HeaderSizeDecode val b = (Ret (size, None), b') /\ GetHeaderSize b' = size /\
     b' = (set_header_size size b).2).
Proof.
  intros size. unfold HeaderSizeDecode. fold size.
  destruct (Z.ltb_spec size BLOCK_HEADER_SIZE_MIN), (Z.ltb_spec BLOCK_HEADER_SIZE_MAX size); cbn [orb].
  1-3: left; split; [done|lia].
  right. split; [lia|]. eexists. mrun. split_and!; [done| |done].
  unfold GetHeaderSize; cbn. unfold uint32. pose proof block_header_bounds as Hb.
  unfold BLOCK_HEADER_SIZE_MIN, BLOCK_HEADER_SIZE_MAX in *. apply Z.mod_small. lia.
Qed.

Lemma raw_check_loop_spec raw n idx buf b :
  0 <= idx -> idx + Z.of_nat n <= zlen raw -> zlen raw = zlen buf ->
  exists buf', raw_check_loop raw n idx buf b = (Ret buf', b) /\ zlen buf' = zlen buf /\
    take (Z.to_nat idx + n) buf' =
    take (Z.to_nat idx) buf ++ map uint8 (take n (drop (Z.to_nat idx) raw)).
Proof.
  revert idx buf. induction n as [|n IH]; intros idx buf Hi Hr Hb.
  - exists buf. cbn. rewrite app_nil_r, Nat.add_0_r. done.
  - cbn [raw_check_loop]. unfold zlen in *.
    destruct (lookup_lt_is_Some_2 raw (Z.to_nat idx)) as [x Hx]; [lia|].
    assert (Hz : zget raw idx = Some x) by (unfold zget; apply Z.leb_le in Hi; by rewrite Hi).
    rewrite Hz. cbn [index_or]. rewrite (bind_ret _ _ b x b) by done.
    assert (Hs : zset buf idx (uint8 x) = Some (<[Z.to_nat idx := uint8 x]> buf)).
    { unfold zset. rewrite (proj2 (Z.leb_le _ _) Hi). rewrite (proj2 (Z.ltb_lt _ _)); [done|]. unfold zlen. lia. }
    rewrite Hs. cbn [index_or]. rewrite (bind_ret _ _ b (<[Z.to_nat idx := uint8 x]> buf) b) by done.
    destruct (IH (idx + 1) (<[Z.to_nat idx := uint8 x]> buf)) as (buf' & E & Hlen & Ht);
      [lia|lia|rewrite length_insert; lia|].
    exists buf'. rewrite E. rewrite length_insert in Hlen. split_and!; [done|done|].
    replace (Z.to_nat idx + S n)%nat with (Z.to_nat (idx + 1) + n)%nat by lia. rewrite Ht.
    replace (Z.to_nat (idx + 1)) with (S (Z.to_nat idx)) by lia.
    erewrite take_S_r by (apply list_lookup_insert_eq; lia). rewrite take_insert_ge by lia.
    rewrite <- app_assoc. f_equal. rewrite (drop_S _ _ _ Hx). done.
Qed.

(** [GetRawCheck] never runs over the check buffer: with the size of the
    block's check type within LZMA_CHECK_SIZE_MAX it returns exactly that many
    bytes of the raw check, and for a type of unknown size an empty slice. *)
Theorem GetRawCheck_bytes b :
  zlen (b_raw_check (block b)) = LZMA_CHECK_SIZE_MAX ->
  let size := CheckSize (b_check (block b)) in
  GetRawCheck b =
  (Ret (if (0 <=? size) && (size <=? LZMA_CHECK_SIZE_MAX)
        then map uint8 (take (Z.to_nat size) (b_raw_check (block b))) else []), b).
Proof.
  intros Hl size. unfold GetRawCheck. rewrite (bind_ret _ _ b b b) by done. fold size.
  destruct (Z.ltb_spec size 0), (Z.ltb_spec LZMA_CHECK_SIZE_MAX size),
    (Z.leb_spec 0 size), (Z.leb_spec size LZMA_CHECK_SIZE_MAX); try lia; cbn [orb andb]; try done.
  pose proof (zlen_nonneg (b_raw_check (block b))).
  destruct (raw_check_loop_spec (b_raw_check (block b)) (Z.to_nat size) 0
    (replicate (Z.to_nat LZMA_CHECK_SIZE_MAX) 0) b) as (buf & E & Hlen & Ht);
    [lia|lia|rewrite zlen_replicate; lia|].
  rewrite (bind_ret _ _ _ _ _ E). unfold ztake.
  rewrite (proj2 (Z.leb_le _ _)) by done. rewrite (proj2 (Z.leb_le size _)).
  - rewrite Z2Nat.inj_0, take_0, drop_0 in Ht. cbn [andb index_or app] in *. cbn in Ht. by rewrite Ht.
  - rewrite Hlen, zlen_replicate. lia.
Qed.

End lib.

(** * On the small library *)
Module LibRuns.
#[local] Existing Instance Small.liblzma.

Lemma error_text_identifies_witness :
  LZMA_BUF_ERROR ∈ lzma_rets /\ LZMA_BUF_ERROR <> OK /\
  (Error_Error LZMA_BUF_ERROR = Error_Error 10 -> 10 = LZMA_BUF_ERROR).
Proof.
  split; [cbn; set_solver|]. split; [cbn; unfold OK; cbn; lia|].
  apply error_text_identifies; [cbn; set_solver|unfold OK; cbn; lia].
Defined.

Lemma filters_append_all_witness :
  exists f, append_all (replicate 5 (FILTER_LZMA2, Some 65536)) NewFilters =
    (Pan (PRun IndexOutOfRange), f) /\ filters_wf f /\
    chain (fl_filters f) = replicate 4 (Filter 33 (Some 65536)).
Proof.
  exact (filters_append_all Small.liblzma_spec (replicate 5 (FILTER_LZMA2, Some 65536))
    ltac:(repeat (constructor; [vm_compute; discriminate|]); constructor)).
Defined.

Definition lzma2_filters : Filters := (Append FILTER_LZMA2 (Some 65536) NewFilters).2.
Definition crc32_block : Block := NewBlockCustom CHECK_CRC32 lzma2_filters 1000 900.

Lemma header_encode_in_place_witness :
  (HeaderSize crc32_block).1 = Ret (16, None) /\
  Block_HeaderEncode (replicate 15 0) (HeaderSize crc32_block).2 =
  (Pan (PStr "Input header not large enough"), (HeaderSize crc32_block).2).
Proof.
  assert (H : (HeaderSize crc32_block).1 = Ret (16, None)) by (vm_compute; reflexivity).
  split; [exact H|].
  exact (proj2 (header_encode_in_place Small.liblzma_spec crc32_block 16 _ (replicate 15 0)
    (run_eta _ _ _ H))).
Defined.

Lemma header_size_decode_checked_witness :
  HeaderSizeDecode 0 crc32_block = (Ret (4, Some (LibError 9)), crc32_block).
Proof.
  destruct (header_size_decode_checked Small.liblzma_spec 0 crc32_block) as [[H _]|[H _]].
  - exact H.
  - exfalso. vm_compute in H. destruct H as [H _]. by apply H.
Defined.

Lemma GetRawCheck_bytes_witness : (GetRawCheck crc32_block).1 = Ret [0; 0; 0; 0].
Proof. rewrite (GetRawCheck_bytes crc32_block); vm_compute; reflexivity. Defined.

End LibRuns.
