(* ===== verification/Sha256.v ===== *)
(** [crypto/sha256.Sum256] of Go's standard library, which
    [xz/literal.go] uses for the check of a literal block: the function of
    FIPS 180-4 on bytes. *)

From S2P Require Import Prelude.

Definition add32 (a b : Z) : Z := (a + b) mod 2 ^ 32.
Definition rotr (n x : Z) : Z := Z.lor (Z.shiftr x n) (uint32 (Z.shiftl x (32 - n))).
Definition not32 (x : Z) : Z := Z.lxor x (2 ^ 32 - 1).
Definition Ch (x y z : Z) : Z := Z.lxor (Z.land x y) (Z.land (not32 x) z).
Definition Maj (x y z : Z) : Z := Z.lxor (Z.lxor (Z.land x y) (Z.land x z)) (Z.land y z).
Definition Sigma0 (x : Z) : Z := Z.lxor (Z.lxor (rotr 2 x) (rotr 13 x)) (rotr 22 x).
Definition Sigma1 (x : Z) : Z := Z.lxor (Z.lxor (rotr 6 x) (rotr 11 x)) (rotr 25 x).
Definition sigma0 (x : Z) : Z := Z.lxor (Z.lxor (rotr 7 x) (rotr 18 x)) (Z.shiftr x 3).
Definition sigma1 (x : Z) : Z := Z.lxor (Z.lxor (rotr 17 x) (rotr 19 x)) (Z.shiftr x 10).

(** The constants: the first 32 bits of the fractional parts of the square and
    cube roots of the first primes. [root k m] is the floor of the [k]-th root
    of [m], bit by bit. *)
Definition primes : list Z :=
  filter (fun n => forallb (fun d => negb (n mod d =? 0)) (filter (fun d => d < n) (seqZ 2 16)) = true)
    (seqZ 2 310).

Fixpoint root_bits (k m : Z) (bits : nat) (r : Z) : Z :=
  match bits with
  | O => r
  | S b =>
      let r' := r + Z.shiftl 1 (Z.of_nat b) in
      root_bits k m b (if r' ^ k <=? m then r' else r)
  end.
Definition root_frac (k p : Z) : Z := uint32 (root_bits k (Z.shiftl p (32 * k)) 37 0).

Definition K : list Z := Eval vm_compute in map (root_frac 3) primes.
Definition H0 : list Z := Eval vm_compute in map (root_frac 2) (take 8 primes).

(** Big-endian numbers of [n] bytes. *)
Fixpoint be (n : nat) (x : Z) : list Z :=
  match n with
  | O => []
  | S n => be n (x / 256) ++ [x mod 256]
  end.

Definition be_word (bs : list Z) : Z := foldl (fun a b => 256 * a + b) 0 bs.

Fixpoint words (n : nat) (bs : list Z) : list Z :=
  match n with
  | O => []
  | S n => be_word (take 4 bs) :: words n (drop 4 bs)
  end.

(** The message schedule, with the latest word first. *)
Fixpoint schedule (n : nat) (w : list Z) : list Z :=
  match n with
  | O => w
  | S n =>
      let at_ i := nth i w 0 in
      schedule n (add32 (add32 (sigma1 (at_ 1%nat)) (at_ 6%nat))
                        (add32 (sigma0 (at_ 14%nat)) (at_ 15%nat)) :: w)
  end.

Record state : Type := St { sa : Z; sb : Z; sc : Z; sd : Z; se : Z; sf : Z; sg : Z; sh : Z }.

Definition round (s : state) (kw : Z * Z) : state :=
  let t1 := add32 (add32 (sh s) (Sigma1 (se s)))
                  (add32 (Ch (se s) (sf s) (sg s)) (add32 kw.1 kw.2)) in
  let t2 := add32 (Sigma0 (sa s)) (Maj (sa s) (sb s) (sc s)) in
  St (add32 t1 t2) (sa s) (sb s) (sc s) (add32 (sd s) t1) (se s) (sf s) (sg s).

Definition compress (s : state) (block : list Z) : state :=
  let w := rev (schedule 48 (rev (words 16 block))) in
  let t := foldl round s (zip K w) in
  St (add32 (sa s) (sa t)) (add32 (sb s) (sb t)) (add32 (sc s) (sc t)) (add32 (sd s) (sd t))
     (add32 (se s) (se t)) (add32 (sf s) (sf t)) (add32 (sg s) (sg t)) (add32 (sh s) (sh t)).

Definition pad (bs : list Z) : list Z :=
  let zeros := Z.to_nat ((55 - zlen bs) mod 64) in
  bs ++ [128] ++ replicate zeros 0 ++ be 8 (8 * zlen bs).

Fixpoint blocks (n : nat) (s : state) (bs : list Z) : state :=
  match n with
  | O => s
  | S n => blocks n (compress s (take 64 bs)) (drop 64 bs)
  end.

Definition init_state : state :=
  match H0 with
  | [a; b; c; d; e; f; g; h] => St a b c d e f g h
  | _ => St 0 0 0 0 0 0 0 0
  end.

Definition Sum256 (bs : list Z) : list Z :=
  let m := pad bs in
  let s := blocks (length m / 64) init_state m in
  concat (map (be 4) [sa s; sb s; sc s; sd s; se s; sf s; sg s; sh s]).

Lemma be_length n x : length (be n x) = n.
Proof. revert x. induction n; intros x; cbn; [done|]. rewrite length_app, IHn. cbn. lia. Qed.

Lemma Sum256_length bs : length (Sum256 bs) = 32%nat.
Proof. unfold Sum256. cbn [map concat]. rewrite !length_app, !be_length. done. Qed.

(** The digests of the empty message and of the bytes of abc, from the standard. *)
Example Sum256_empty :
  Sum256 [] = be 32 0xe3b0c44298fc1c149afbf4c8996fb92427ae41e4649b934ca495991b7852b855.
Proof. vm_compute. reflexivity. Qed.

Example Sum256_abc :
  Sum256 [97; 98; 99] = be 32 0xba7816bf8f01cfea414140de5dae2223b00361a396177a9cb410ff61f20015ad.
Proof. vm_compute. reflexivity. Qed.
