(* ===== verification/XzConst.v ===== *)
(** [xz/const.go]: the constants of the package. *)

From S2P Require Import Prelude Liblzma Lib.

Definition kiloByte : Z := Z.shiftl 1 10.
Definition megaByte : Z := Z.shiftl 1 20.
Definition gigaByte : Z := Z.shiftl 1 30.

Definition ChunkStream : Z := -1.
Definition ChunkLowest : Z := 64 * kiloByte.
Definition ChunkHighest : Z := 1 * gigaByte.
Definition ChunkDefault : Z := 8 * megaByte.

Definition BufferMin : Z := 64 * kiloByte.
Definition BufferMax : Z := 1 * gigaByte.
Definition BufferDefault : Z := 8 * ChunkDefault.

Definition WorkersSync : Z := 0.
Definition WorkersMin : Z := 1.
Definition WorkersMax : Z := -1.
Definition WorkersDefault : Z := 8.

Definition padZeros : list Z := [0; 0; 0; 0].

(** [math.MaxUint64] *)
Definition maxMemory : Z := 2 ^ 64 - 1.

Section const.
Context {L : Liblzma}.

Definition Extreme := PRESET_EXTREME.
Definition BestSpeed := PRESET_LEVEL0.
Definition BestCompression := PRESET_LEVEL9.
Definition DefaultCompression := PRESET_DEFAULT.

Definition CheckNone := CHECK_NONE.
Definition CheckCRC32 := CHECK_CRC32.
Definition CheckCRC64 := CHECK_CRC64.
Definition CheckSHA256 := CHECK_SHA256.
Definition CheckDefault := CheckCRC64.

Definition streamEnd : goerr := LibError STREAM_END.
Definition dataError : goerr := LibError DATA_ERROR.
Definition formatError : goerr := LibError FORMAT_ERROR.
Definition optionsError : goerr := LibError OPTIONS_ERROR.

End const.
