(* ===== verification/Literal.v ===== *)
(** [xz/literal.go]: the size and the contents of a block that stores its data
    as uncompressed LZMA2 chunks.

    [literalBlockEncode] is a computation over the output slice, which it
    writes in place: every index and slice expression of the code is a checked
    access, and the loops run on fuel that [literalBlockEncode] computes from
    the length of the input. *)

From S2P Require Import Prelude Errs Liblzma SmallLzma Lib Sha256 XzConst.

Section literal.
Context {L : Liblzma} {E : Errs}.

Definition literalChunkSize : Z := Z.shiftl 1 16.
Definition literalChunkMarker : Z := 1.
Definition literalEndMarker : Z := 0.

Definition literalFilters : Filters :=
  let '(opts, _) := NewOptionsLZMA PRESET_DEFAULT in
  (Append FILTER_LZMA2 opts NewFilters).2.

Definition literalCheckSupport {S} (check : Z) : M S unit :=
  if (check =? CheckNone) || (check =? CheckCRC32) || (check =? CheckCRC64) || (check =? CheckSHA256)
  then mret tt else panic (PErr (Some optionsError)).

Definition literalCompSize (uncompSize : Z) : Z :=
  let numChunks := Z.quot (int64 (int64 (uncompSize + literalChunkSize) - 1)) literalChunkSize in
  int64 (int64 (uncompSize + int64 (int64 (numChunks * 3))) + 1).

Definition literalBlockSize {S} (check uncompSize : Z) : M S Z :=
  literalCheckSupport check;;
  let compSize := literalCompSize uncompSize in
  let block := NewBlockCustom check literalFilters compSize uncompSize in
  r ← on_local block HeaderSize;
  let '(headerSize, err) := fst r in
  call (errs_Panic err);;
  let padSize := Z.rem (int64 (4 - Z.rem compSize 4)) 4 in
  let checkSize := CheckSize check in
  mret (int64 (int64 (int64 (headerSize + compSize) + padSize) + checkSize)).

(** [output[i] = x] *)
Definition out_set (i x : Z) : M (list Z) unit :=
  output ← get;
  output ← index_or (zset output i x);
  put output.

(** [binary.BigEndian.PutUint16(output[off:], v)], [binary.LittleEndian] with
    4 and 8 bytes: the bytes that are stored, and the store, which panics when
    the slice is too short. *)
Definition be16 (v : Z) : list Z := [v / 256; v mod 256].
Fixpoint le (n : nat) (v : Z) : list Z :=
  match n with O => [] | S n => v mod 256 :: le n (v / 256) end.
Definition out_put (off : Z) (bs : list Z) : M (list Z) unit :=
  output ← get;
  window ← index_or (zdrop output off);
  if zlen window <? zlen bs then panic (PRun IndexOutOfRange)
  else put (overwrite output off bs).

(** [copy(output[off:], bs)] *)
Definition out_copy (off : Z) (bs : list Z) : M (list Z) Z :=
  output ← get;
  window ← index_or (zdrop output off);
  let n := Z.min (zlen window) (zlen bs) in
  put (overwrite output off (take (Z.to_nat n) bs));;
  mret n.

(** The loop over the chunks, from [inCnt] on. *)
Fixpoint literal_chunks (fuel : nat) (input : list Z) (inCnt cnt : Z) : M (list Z) Z :=
  match fuel with
  | O => no_fuel
  | S fuel =>
      if inCnt <? zlen input then
        chunk ← index_or (zdrop input inCnt);
        chunk ← (if literalChunkSize <? zlen chunk then index_or (ztake chunk literalChunkSize)
                 else mret chunk);
        out_set cnt literalChunkMarker;;
        let cnt := cnt + 1 in
        let size := uint16 (zlen chunk - 1) in
        out_put cnt (be16 size);;
        let cnt := cnt + 2 in
        n ← out_copy cnt chunk;
        let cnt := cnt + n in
        literal_chunks fuel input (inCnt + literalChunkSize) cnt
      else mret cnt
  end.

(** The loop that writes the padding. *)
Fixpoint literal_pad (fuel : nat) (cnt pad : Z) : M (list Z) (Z * Z) :=
  match fuel with
  | O => no_fuel
  | S fuel =>
      if 0 <? Z.rem cnt 4 then out_set cnt 0;; literal_pad fuel (cnt + 1) (pad + 1)
      else mret (cnt, pad)
  end.

Definition literal_check (check : Z) (input : list Z) (cnt : Z) : M (list Z) unit :=
  if check =? CheckNone then mret tt
  else if check =? CheckCRC32 then out_put cnt (le 4 (CRC32 input 0))
  else if check =? CheckCRC64 then out_put cnt (le 8 (CRC64 input 0))
  else if check =? CheckSHA256 then out_copy cnt (Sum256 input);; mret tt
  else mret tt.

Definition literalBlockEncode (check : Z) (input : list Z) : M (list Z) (Z * Z) :=
  literalCheckSupport check;;
  let uncompSize := int64 (zlen input) in
  let compSize := literalCompSize uncompSize in
  (* the header *)
  let block := NewBlockCustom check literalFilters compSize uncompSize in
  r ← on_local block HeaderSize;
  let '(headerSize, err, block) := r in
  call (errs_Panic err);;
  output ← get;
  r ← on_local block (Block_HeaderEncode output);
  let '(output, err, _) := r in
  put output;;
  call (errs_Panic err);;
  (* the chunks *)
  cnt ← literal_chunks (S (length input)) input 0 (0 + headerSize);
  out_set cnt literalEndMarker;;
  r ← literal_pad 5 (cnt + 1) 0;
  let '(cnt, pad) := r in
  (* the check *)
  literal_check check input cnt;;
  mret (cnt + CheckSize check, pad).

(** * Reference definitions *)

(** A decoder of an LZMA2 stream of uncompressed chunks: the data, and the
    bytes after the end marker. *)
Fixpoint lzma2_literals (fuel : nat) (bs : list Z) : option (list Z * list Z) :=
  match fuel with
  | O => None
  | S fuel =>
      match bs with
      | 0 :: rest => Some ([], rest)
      | c :: hi :: lo :: rest =>
          if (c =? 1) || (c =? 2) then
            let n := 256 * hi + lo + 1 in
            if zlen rest <? n then None else
            match lzma2_literals fuel (drop (Z.to_nat n) rest) with
            | Some (data, rest') => Some (take (Z.to_nat n) rest ++ data, rest')
            | None => None
            end
          else None
      | _ => None
      end
  end.

(** The chunks the encoder writes for an input, without the end marker. *)
Fixpoint lit_chunks (n : nat) (input : list Z) : list Z :=
  match n, input with
  | S n, _ :: _ =>
      let chunk := take (Z.to_nat 65536) input in
      literalChunkMarker :: be16 (zlen chunk - 1) ++ chunk ++ lit_chunks n (drop (Z.to_nat 65536) input)
  | _, _ => []
  end.

Definition literal_data (input : list Z) : list Z :=
  lit_chunks (length input) input ++ [literalEndMarker].

(** The bytes of the integrity check. *)
Definition check_bytes (check : Z) (input : list Z) : list Z :=
  if check =? CheckCRC32 then le 4 (CRC32 input 0)
  else if check =? CheckCRC64 then le 8 (CRC64 input 0)
  else if check =? CheckSHA256 then Sum256 input
  else [].

(** * Sizes *)

Lemma literalChunkSize_eq : literalChunkSize = 65536.
Proof. reflexivity. Qed.

Lemma literalCompSize_eq n :
  0 <= n < 2 ^ 62 -> literalCompSize n = n + 3 * ((n + 65535) / 65536) + 1.
Proof.
  intros H. unfold literalCompSize. rewrite literalChunkSize_eq.
  rewrite !(int64_id (n + 65536)) by lia. replace (n + 65536 - 1) with (n + 65535) by lia.
  rewrite (int64_id (n + 65535)) by lia. rewrite Z.quot_div_nonneg by lia.
  pose proof (Z.div_pos (n + 65535) 65536 ltac:(lia) ltac:(lia)).
  pose proof (Z.div_lt_upper_bound (n + 65535) 65536 (2 ^ 47) ltac:(lia) ltac:(lia)).
  set (q := (n + 65535) / 65536) in *.
  rewrite (int64_id (q * 3)) by lia. rewrite (int64_id (q * 3)) by lia.
  rewrite (int64_id (n + q * 3)) by lia. rewrite int64_id by lia. lia.
Qed.

Lemma lit_chunks_nil n : lit_chunks n [] = [].
Proof. by destruct n. Qed.

Lemma lit_chunks_length n input :
  (length input <= n)%nat ->
  zlen (lit_chunks n input) = zlen input + 3 * ((zlen input + 65535) / 65536).
Proof.
  revert input. induction n as [|n IH]; intros [|x input] Hn; cbn [length] in Hn; try lia;
    [reflexivity|reflexivity|].
  set (l := x :: input). change (lit_chunks (S n) l) with
    (literalChunkMarker :: be16 (zlen (take (Z.to_nat 65536) l) - 1) ++ take (Z.to_nat 65536) l ++ lit_chunks n (drop (Z.to_nat 65536) l)).
  assert (Hl : (0 < length l)%nat) by (unfold l; cbn; lia).
  assert (Hd : (length (drop (Z.to_nat 65536) l) <= n)%nat) by (rewrite length_drop; unfold l in *; cbn [length] in *; lia).
  rewrite zlen_cons, !zlen_app, (IH _ Hd). change (zlen (be16 _)) with 2.
  assert (Ht : zlen l = zlen (take (Z.to_nat 65536) l) + zlen (drop (Z.to_nat 65536) l))
    by (rewrite <- zlen_app, take_drop; done).
  destruct (decide (zlen l <= 65536)) as [Hs|Hs].
  - rewrite (drop_ge l) by (unfold zlen in Hs; lia). rewrite (take_ge l) by (unfold zlen in Hs; lia).
    rewrite (@zlen_nil Z).
    assert (1 <= zlen l <= 65536) by (unfold zlen in *; lia).
    assert ((zlen l + 65535) / 65536 = 1) as -> by (symmetry; apply (Z.div_unique _ _ _ (zlen l - 1)); lia).
    change ((0 + 65535) / 65536) with 0. lia.
  - assert (zlen (take (Z.to_nat 65536) l) = 65536) as Hk by (apply zlen_take; lia).
    rewrite Hk in *. replace (zlen l + 65535) with (zlen (drop (Z.to_nat 65536) l) + 65535 + 1 * 65536) by lia.
    rewrite Z.div_add by lia. lia.
Qed.

Lemma literal_data_length input :
  zlen input < 2 ^ 62 -> zlen (literal_data input) = literalCompSize (zlen input).
Proof.
  intros H. unfold literal_data. rewrite zlen_app, lit_chunks_length by done.
  rewrite literalCompSize_eq; [reflexivity|]. pose proof (zlen_nonneg input). lia.
Qed.

Lemma le_length n v : length (le n v) = n.
Proof. revert v. induction n; intros v; cbn; [done|]. by rewrite IHn. Qed.

(** * The writes *)

Lemma out_set_at pre x v post : out_set (zlen pre) v (pre ++ x :: post) = (Ret tt, pre ++ v :: post).
Proof. unfold out_set. mrun. by rewrite zset_app. Qed.

Lemma out_put_at pre old bs post :
  length old = length bs -> out_put (zlen pre) bs (pre ++ old ++ post) = (Ret tt, pre ++ bs ++ post).
Proof.
  intros H. unfold out_put. mrun. rewrite zdrop_app. cbn.
  rewrite (proj2 (Z.ltb_ge _ _)).
  - by rewrite overwrite_app.
  - rewrite zlen_app. unfold zlen at 1 2. rewrite H. pose proof (zlen_nonneg post). lia.
Qed.

Lemma out_copy_at pre old bs post :
  length old = length bs ->
  out_copy (zlen pre) bs (pre ++ old ++ post) = (Ret (zlen bs), pre ++ bs ++ post).
Proof.
  intros H. unfold out_copy. mrun. rewrite zdrop_app. cbn.
  assert (Z.min (zlen (old ++ post)) (zlen bs) = zlen bs) as ->.
  { rewrite zlen_app. unfold zlen at 1 3 4. rewrite H. pose proof (zlen_nonneg post). lia. }
  rewrite take_ge by (unfold zlen; lia). by rewrite overwrite_app.
Qed.

Lemma split_at {A} (l : list A) n : 0 <= n <= zlen l -> exists a b, l = a ++ b /\ zlen a = n.
Proof.
  intros H. exists (take (Z.to_nat n) l), (drop (Z.to_nat n) l). split; [by rewrite take_drop|].
  by apply zlen_take.
Qed.

(** One chunk: the three writes. *)
Lemma literal_chunk_writes pre old post chunk k :
  zlen old = 3 + zlen chunk -> 1 <= zlen chunk <= 65536 ->
  (out_set (zlen pre) literalChunkMarker;;
   out_put (zlen pre + 1) (be16 (uint16 (zlen chunk - 1)));;
   n ← out_copy (zlen pre + 1 + 2) chunk; k n) (pre ++ old ++ post) =
  (k (zlen chunk) : M (list Z) Z)
    (pre ++ (literalChunkMarker :: be16 (zlen chunk - 1) ++ chunk) ++ post).
Proof.
  intros Ho Hc. destruct old as [|x0 [|x1 [|x2 old]]]; autorewrite with zlen in Ho;
    try (pose proof (zlen_nonneg chunk); lia).
  cbn [app]. rewrite (bind_ret _ _ _ _ _ (out_set_at _ _ _ _)).
  rewrite uint16_id by lia. unfold be16.
  replace (zlen pre + 1) with (zlen (pre ++ [literalChunkMarker])) by (rewrite zlen_app; reflexivity).
  assert (H1 := out_put_at (pre ++ [literalChunkMarker]) [x1; x2] [(zlen chunk - 1) / 256; (zlen chunk - 1) mod 256]
    (old ++ post) eq_refl). rewrite <- !app_assoc in H1. cbn [app] in H1. rewrite (bind_ret _ _ _ _ _ H1).
  set (b := [(zlen chunk - 1) / 256; (zlen chunk - 1) mod 256]) in *.
  assert (H2 := out_copy_at (pre ++ [literalChunkMarker] ++ b) old chunk post ltac:(unfold zlen in Ho; lia)).
  replace (zlen (pre ++ [literalChunkMarker]) + 2) with (zlen (pre ++ [literalChunkMarker] ++ b))
    by (rewrite !zlen_app; change (zlen b) with 2; lia).
  unfold b in *. rewrite <- !app_assoc in H2. cbn [app] in H2. rewrite (bind_ret _ _ _ _ _ H2).
  by rewrite <- app_assoc.
Qed.

Lemma zlen_zero {A} (l : list A) : zlen l = 0 -> l = [].
Proof. destruct l; [done|]. rewrite zlen_cons. pose proof (zlen_nonneg l). lia. Qed.

Lemma lit_chunks_step n l :
  l <> [] -> (length l <= S n)%nat ->
  lit_chunks (S n) l =
    (literalChunkMarker :: be16 (zlen (take (Z.to_nat 65536) l) - 1) ++ take (Z.to_nat 65536) l) ++
    lit_chunks n (drop (Z.to_nat 65536) l) /\
  (length (drop (Z.to_nat 65536) l) <= n)%nat /\
  1 <= zlen (take (Z.to_nat 65536) l) <= 65536.
Proof.
  intros Hl Hn. assert (0 < length l)%nat by (destruct l; [done|cbn; lia]).
  split_and!.
  - destruct l; [done|]. cbn [lit_chunks app]. by rewrite <- app_assoc.
  - rewrite length_drop. lia.
  - unfold zlen. rewrite length_take. lia.
  - unfold zlen. rewrite length_take. lia.
Qed.

(** The chunk the loop takes at [inCnt]. *)
Lemma loop_chunk {S} (input : list Z) inCnt (s : S) :
  0 <= inCnt <= zlen input ->
  let rest := drop (Z.to_nat inCnt) input in
  index_or (zdrop input inCnt) s = (Ret rest, s) /\
  (if literalChunkSize <? zlen rest then index_or (ztake rest literalChunkSize) else mret rest) s =
  (Ret (take (Z.to_nat 65536) rest), s).
Proof.
  intros H rest. rewrite literalChunkSize_eq. unfold zdrop, ztake.
  rewrite (proj2 (Z.leb_le 0 inCnt)) by lia. rewrite (proj2 (Z.leb_le inCnt _)) by lia.
  split; [done|]. destruct (Z.ltb_spec 65536 (zlen rest)) as [Hl|Hl].
  - rewrite (proj2 (Z.leb_le 65536 _)) by lia. done.
  - rewrite take_ge by (unfold zlen in Hl; lia). done.
Qed.

Lemma literal_chunks_run fuel n input inCnt pre old post :
  0 <= inCnt -> zlen input - inCnt < Z.of_nat fuel -> (0 < fuel)%nat ->
  (length (drop (Z.to_nat inCnt) input) <= n)%nat ->
  zlen old = zlen (lit_chunks n (drop (Z.to_nat inCnt) input)) ->
  literal_chunks fuel input inCnt (zlen pre) (pre ++ old ++ post) =
  (Ret (zlen pre + zlen old), pre ++ lit_chunks n (drop (Z.to_nat inCnt) input) ++ post).
Proof.
  revert n inCnt pre old. induction fuel as [|fuel IH]; intros n inCnt pre old Hi Hf H0 Hn Ho; [lia|].
  cbn [literal_chunks]. destruct (Z.ltb_spec inCnt (zlen input)) as [Hlt|Hge].
  - destruct (loop_chunk input inCnt (pre ++ old ++ post) ltac:(lia)) as [E1 E2].
    rewrite (bind_ret _ _ _ _ _ E1), (bind_ret _ _ _ _ _ E2). clear E1 E2.
    set (rest := drop (Z.to_nat inCnt) input) in *.
    assert (Hr : zlen rest = zlen input - inCnt) by (apply zlen_drop; lia).
    assert (rest <> []) by (intros ->; change (zlen []) with 0 in Hr; lia).
    destruct n as [|n]; [destruct rest; cbn in Hn; [done|lia]|].
    destruct (lit_chunks_step n rest) as (Es & Hd & Hc); [done|done|]. rewrite Es in Ho |- *.
    set (chunk := take (Z.to_nat 65536) rest) in *.
    set (piece := literalChunkMarker :: be16 (zlen chunk - 1) ++ chunk) in *.
    assert (Hp : zlen piece = 3 + zlen chunk)
      by (unfold piece; rewrite zlen_cons, zlen_app; change (zlen (be16 _)) with 2; lia).
    rewrite zlen_app in Ho. pose proof (zlen_nonneg (lit_chunks n (drop (Z.to_nat 65536) rest))).
    destruct (split_at old (3 + zlen chunk) ltac:(lia)) as (o1 & o2 & -> & Ho1).
    rewrite zlen_app in Ho |- *. rewrite <- !app_assoc.
    rewrite (literal_chunk_writes pre o1 (o2 ++ post) chunk) by done. fold piece.
    replace (zlen pre + 1 + 2 + zlen chunk) with (zlen (pre ++ piece)) by (rewrite zlen_app, Hp; lia).
    assert (Hdd : drop (Z.to_nat (inCnt + literalChunkSize)) input = drop (Z.to_nat 65536) rest).
    { unfold rest. rewrite drop_drop. f_equal. rewrite literalChunkSize_eq. lia. }
    destruct fuel as [|fuel']; [lia|]. rewrite app_assoc, (IH n).
    + rewrite Hdd, zlen_app, <- app_assoc, Hp, Ho1. f_equal. f_equal. lia.
    + rewrite literalChunkSize_eq. lia.
    + rewrite literalChunkSize_eq. lia.
    + lia.
    + by rewrite Hdd.
    + rewrite Hdd. lia.
  - rewrite drop_ge in * by (unfold zlen in Hge; lia). rewrite lit_chunks_nil in *.
    apply zlen_zero in Ho as ->. change (zlen []) with 0. mrun. by rewrite Z.add_0_r.
Qed.

(** The padding loop. *)
Lemma literal_pad_run k fuel cnt pad pre old post :
  cnt = zlen pre -> (k < fuel)%nat -> (k < 4)%nat -> length old = k -> (zlen pre + Z.of_nat k) mod 4 = 0 ->
  literal_pad fuel cnt pad (pre ++ old ++ post) =
  (Ret (cnt + Z.of_nat k, pad + Z.of_nat k), pre ++ replicate k 0 ++ post).
Proof.
  revert fuel cnt pad pre old. induction k as [|k IH]; intros fuel cnt pad pre old -> Hf Hk Ho Hm;
    (destruct fuel as [|fuel]; [lia|]); cbn [literal_pad]; pose proof (zlen_nonneg pre) as Hp;
    rewrite Z.rem_mod_nonneg by lia.
  - rewrite Z.add_0_r in *. rewrite Hm. cbn. destruct old; [|done]. mrun. by rewrite Z.add_0_r.
  - destruct old as [|x old]; [done|]. injection Ho as Ho.
    destruct (Z.ltb_spec 0 (zlen pre mod 4)) as [Hlt|Hge].
    + cbn [app]. rewrite (bind_ret _ _ _ _ _ (out_set_at _ _ _ _)).
      replace (pre ++ 0 :: old ++ post) with ((pre ++ [0]) ++ old ++ post) by (by rewrite <- app_assoc).
      rewrite (IH fuel (zlen pre + 1) (pad + 1) (pre ++ [0]) old);
        [|rewrite zlen_app; done|lia|lia|done|rewrite zlen_app; change (zlen [0]) with 1;
          replace (zlen pre + 1 + Z.of_nat k) with (zlen pre + Z.of_nat (S k)) by lia; done].
      rewrite <- app_assoc. cbn [replicate app]. f_equal. f_equal. f_equal; lia.
    + exfalso. pose proof (Z.mod_pos_bound (zlen pre) 4 ltac:(lia)).
      assert (zlen pre mod 4 = 0) as Hz by lia.
      rewrite Z.add_mod, Hz, Z.add_0_l, Z.mod_mod in Hm by lia.
      rewrite Z.mod_small in Hm by lia. lia.
Qed.

(** * Block size *)
Context {LS : LiblzmaSpec L} {ES : ErrsSpec E}.

Definition supported (check : Z) : bool :=
  (check =? CheckNone) || (check =? CheckCRC32) || (check =? CheckCRC64) || (check =? CheckSHA256).

(** The block of a literal of [n] bytes, with its header size computed. *)
Definition literal_block (check n : Z) : Block :=
  NewBlockCustom check literalFilters (literalCompSize n) n.
Definition literal_header (check n : Z) : Block := (HeaderSize (literal_block check n)).2.

Lemma checkSupport_spec {S} check (s : S) :
  literalCheckSupport check s =
  (if supported check then Ret tt else Pan (PErr (Some optionsError)), s).
Proof. unfold literalCheckSupport, supported. by case_match. Qed.

Lemma supported_in check : supported check = true -> check ∈ lzma_checks.
Proof.
  unfold supported. rewrite !orb_true_iff, !Z.eqb_eq. intros H.
  unfold lzma_checks. set_unfold. destruct H as [[[H|H]|H]|H]; auto.
Qed.

Lemma supported_uint32 check : supported check = true -> uint32 check = check.
Proof.
  intros H%supported_in. pose proof checks_uint32 as Hc. rewrite Forall_forall in Hc.
  apply uint32_id. by apply Hc.
Qed.

Lemma check_bytes_length check input :
  supported check = true -> zlen (check_bytes check input) = CheckSize check /\
  0 <= CheckSize check <= 32 /\ CheckSize check mod 4 = 0.
Proof.
  intros H. pose proof (supported_uint32 _ H) as Hu. unfold CheckSize. rewrite Hu.
  unfold supported in H. rewrite !orb_true_iff, !Z.eqb_eq in H.
  pose proof checks_distinct as Hd. unfold lzma_checks in Hd.
  pose proof check_size_none as H1. pose proof check_size_crc32 as H2.
  pose proof check_size_crc64 as H3. pose proof check_size_sha256 as H4.
  unfold check_bytes, CheckNone, CheckCRC32, CheckCRC64, CheckSHA256, CHECK_NONE, CHECK_CRC32,
    CHECK_CRC64, CHECK_SHA256 in *.
  rewrite !NoDup_cons, !not_elem_of_cons in Hd. destruct_and! Hd.
  destruct H as [[[-> | ->] | ->] | ->]; rewrite ?H1, ?H2, ?H3, ?H4, ?Z.eqb_refl;
    repeat match goal with
           | |- context [?x =? ?y] => rewrite (proj2 (Z.eqb_neq x y)) by congruence
           end; unfold zlen; rewrite ?le_length, ?Sum256_length; done.
Qed.

Lemma HeaderSize_ok b h b1 :
  HeaderSize b = (Ret (h, None), b1) ->
  lzma_block_header_size (block b) = (OK, h) /\ b_header_size (block b1) = h.
Proof.
  rewrite HeaderSize_spec. destruct (lzma_block_header_size (block b)) as [ret size] eqn:Es.
  destruct (Z.eqb_spec ret OK) as [->|]; [|done]. rewrite (header_size_uint32 LS _ _ Es).
  intros [= <- <-]. by rewrite (header_size_uint32 LS _ _ Es).
Qed.

(** When [literalBlockSize] returns, and what. *)
Lemma literalBlockSize_ret {S} check n (s : S) size s' :
  0 <= n < 2 ^ 60 ->
  literalBlockSize check n s = (Ret size, s') ->
  supported check = true /\ s' = s /\
  exists h, HeaderSize (literal_block check n) = (Ret (h, None), literal_header check n) /\
    size = h + literalCompSize n + (- literalCompSize n) mod 4 + CheckSize check.
Proof.
  intros Hn. unfold literalBlockSize. rewrite bind_run, checkSupport_spec.
  destruct (supported check) eqn:Hs; [|done]. fold (literal_block check n).
  intros H. split; [done|].
  rewrite bind_run in H. unfold on_local in H. unfold literal_header.
  destruct (HeaderSize (literal_block check n)) as [[[h err]| |] b1] eqn:Eh; [|done|done].
  cbn [fst] in H. rewrite bind_run in H. unfold call in H. rewrite Panic_spec in H.
  destruct err as [e|]; [done|]. injection H as Hsz <-. split; [done|]. exists h. split; [done|].
  apply HeaderSize_ok in Eh as [Eh _]. destruct (header_size_range _ _ Eh) as [Hr _].
  pose proof block_header_bounds as Hb. rewrite <- Hsz.
  destruct (check_bytes_length check [] Hs) as (_ & Hc & _).
  rewrite literalCompSize_eq by lia.
  pose proof (Z.div_pos (n + 65535) 65536 ltac:(lia) ltac:(lia)).
  pose proof (Z.div_lt_upper_bound (n + 65535) 65536 (2 ^ 47) ltac:(lia) ltac:(lia)).
  set (comp := n + 3 * ((n + 65535) / 65536) + 1) in *.
  assert (Hc0 : 0 <= comp < 2 ^ 61) by lia.
  rewrite (Z.rem_mod_nonneg comp 4) by lia. pose proof (Z.mod_pos_bound comp 4 ltac:(lia)).
  rewrite (int64_id (4 - _)) by lia. rewrite Z.rem_mod_nonneg by lia.
  assert ((4 - comp mod 4) mod 4 = (- comp) mod 4) as ->.
  { rewrite Zminus_mod_idemp_r. replace (4 - comp) with (- comp + 1 * 4) by lia. apply Z_mod_plus_full. }
  pose proof (Z.mod_pos_bound (- comp) 4 ltac:(lia)).
  rewrite (int64_id (h + comp)) by lia. rewrite (int64_id (h + comp + _)) by lia. by rewrite int64_id by lia.
Qed.

(** A literal block is longer than its contents, and not much. *)
Lemma literalBlockSize_bound check n size :
  0 <= n < 2 ^ 60 -> literalBlockSize (S:=unit) check n tt = (Ret size, tt) ->
  n < size < 2 ^ 62.
Proof.
  intros Hn H. destruct (literalBlockSize_ret _ _ _ _ _ Hn H) as (Hs & _ & h & Eh & ->).
  destruct (HeaderSize_ok _ _ _ Eh) as [Es _]. destruct (header_size_range _ _ Es) as [Hr Hm].
  pose proof block_header_bounds as Hb. destruct (check_bytes_length check [] Hs) as (_ & Hc & _).
  pose proof (Z.mod_pos_bound (- literalCompSize n) 4 ltac:(lia)) as Hp. revert Hp.
  rewrite literalCompSize_eq by lia. intros Hp.
  pose proof (Z.div_le_upper_bound (n + 65535) 65536 (2 ^ 46) ltac:(lia) ltac:(lia)).
  pose proof (Z.div_pos (n + 65535) 65536 ltac:(lia) ltac:(lia)). lia.
Qed.

(** * The encoder *)

Lemma literal_check_run check input pre old post :
  supported check = true -> zlen old = CheckSize check ->
  literal_check check input (zlen pre) (pre ++ old ++ post) =
  (Ret tt, pre ++ check_bytes check input ++ post).
Proof.
  intros Hs Ho. destruct (check_bytes_length check input Hs) as [Hl _].
  assert (Hlen : length old = length (check_bytes check input)) by (unfold zlen in *; lia).
  unfold literal_check, check_bytes in *.
  destruct (Z.eqb_spec check CheckNone) as [->|].
  - rewrite <- Ho in Hl. 
    assert (Hc : CheckSize CheckNone = 0).
    { unfold CheckSize. rewrite (supported_uint32 _ Hs). apply check_size_none. }
    rewrite Hc in Ho. apply zlen_zero in Ho as ->.
    change (length []) with 0%nat in Hlen. symmetry in Hlen. apply nil_length_inv in Hlen. by rewrite Hlen.
  - repeat case_match; try (by apply out_put_at).
    + by rewrite (bind_ret _ _ _ _ _ (out_copy_at _ _ _ _ Hlen)).
    + apply nil_length_inv in Hlen as ->. done.
Qed.

Lemma literal_data_padded input hdr h :
  zlen input < 2 ^ 60 -> zlen hdr = h -> h mod 4 = 0 ->
  let comp := literalCompSize (zlen input) in
  (zlen (hdr ++ literal_data input) + (- comp) mod 4) mod 4 = 0.
Proof.
  intros Hn Hh Hm comp. rewrite zlen_app, Hh, literal_data_length by lia. fold comp.
  replace (h + comp + (- comp) mod 4) with (h + (comp + (- comp) mod 4)) by lia.
  rewrite Z.add_mod, Hm, Z.add_0_l, Z.mod_mod by lia.
  rewrite Zplus_mod_idemp_r. by replace (comp + - comp) with 0 by lia.
Qed.

(** The header of the output: the prefix that [HeaderEncode] overwrites. *)
Lemma encode_header check n hdr output h :
  HeaderSize (literal_block check n) = (Ret (h, None), literal_header check n) ->
  lzma_block_header_encode (block (literal_header check n)) = (OK, hdr) ->
  h <= zlen output ->
  zlen hdr = h /\
  Block_HeaderEncode output (literal_header check n) =
    (Ret (hdr ++ drop (Z.to_nat h) output, None), literal_header check n).
Proof.
  intros Eh Ee Ho. apply HeaderSize_ok in Eh as [Eh Ehs].
  pose proof (header_encode_length _ _ Ee) as Hl. rewrite Ehs in Hl. split; [done|].
  unfold Block_HeaderEncode. mrun. rewrite Ehs. rewrite (proj2 (Z.ltb_ge _ _)) by done.
  rewrite Ee. unfold NewError. rewrite Z.eqb_refl. unfold overwrite. rewrite Z2Nat.inj_0, take_0. cbn.
  by replace (length hdr) with (Z.to_nat h) by (unfold zlen in Hl; lia).
Qed.

(** The chunks, the end marker, the padding and the check, into an output that
    is cut where they end. *)
Lemma encode_tail check input hdr o1 o2 o3 o4 post pad :
  zlen input < 2 ^ 60 -> supported check = true -> (pad < 4)%nat ->
  zlen o1 = literalCompSize (zlen input) - 1 -> zlen o2 = 1 -> zlen o3 = Z.of_nat pad ->
  zlen o4 = CheckSize check ->
  (zlen (hdr ++ literal_data input) + Z.of_nat pad) mod 4 = 0 ->
  (cnt ← literal_chunks (S (length input)) input 0 (0 + zlen hdr);
   out_set cnt literalEndMarker;;
   r ← literal_pad 5 (cnt + 1) 0;
   let '(cnt, pad) := r in
   literal_check check input cnt;;
   mret (cnt + CheckSize check, pad)) (hdr ++ o1 ++ o2 ++ o3 ++ o4 ++ post) =
  (Ret (zlen (hdr ++ literal_data input) + Z.of_nat pad + CheckSize check, Z.of_nat pad),
   hdr ++ literal_data input ++ replicate pad 0 ++ check_bytes check input ++ post).
Proof.
  intros Hn Hs Hp H1 H2 H3 H4 Hm. set (chunks := lit_chunks (length input) input).
  assert (Hd : zlen (literal_data input) = zlen chunks + 1)
    by (unfold literal_data; rewrite zlen_app; done).
  rewrite <- literal_data_length, Hd in H1 by lia.
  assert (Hc := literal_chunks_run (S (length input)) (length input) input 0 hdr o1
    (o2 ++ o3 ++ o4 ++ post)). rewrite Z2Nat.inj_0, drop_0 in Hc. fold chunks in Hc.
  rewrite (bind_ret _ _ _ _ _ (Hc ltac:(lia) ltac:(unfold zlen; lia) ltac:(lia) ltac:(lia) ltac:(lia))).
  destruct o2 as [|x [|y o2]]; [done| |rewrite !zlen_cons in H2; pose proof (zlen_nonneg o2); lia].
  replace (zlen hdr + zlen o1) with (zlen (hdr ++ chunks)) by (rewrite zlen_app; lia).
  rewrite app_assoc. cbn [app]. rewrite (bind_ret _ _ _ _ _ (out_set_at _ _ _ _)).
  replace ((hdr ++ chunks) ++ literalEndMarker :: o3 ++ o4 ++ post)
    with ((hdr ++ literal_data input) ++ o3 ++ o4 ++ post)
    by (unfold literal_data; fold chunks; rewrite <- !app_assoc; done).
  replace (zlen (hdr ++ chunks) + 1) with (zlen (hdr ++ literal_data input))
    by (rewrite !zlen_app; lia).
  rewrite (bind_ret _ _ _ _ _ (literal_pad_run pad 5 _ 0 _ o3 (o4 ++ post) eq_refl ltac:(lia) Hp
    ltac:(unfold zlen in H3; lia) Hm)).
  rewrite !app_assoc. rewrite <- (app_assoc _ o4 post).
  replace (zlen (hdr ++ literal_data input) + Z.of_nat pad)
    with (zlen ((hdr ++ literal_data input) ++ replicate pad 0)) by (rewrite zlen_app, zlen_replicate; done).
  rewrite (bind_ret _ _ _ _ _ (literal_check_run check input _ o4 post Hs H4)).
  mrun. rewrite <- !app_assoc. rewrite Z.add_0_l. done.
Qed.

(** What the encoder writes, and what it returns. *)
Lemma encode_exact check input size output hdr :
  zlen input < 2 ^ 60 ->
  literalBlockSize (S:=unit) check (zlen input) tt = (Ret size, tt) ->
  lzma_block_header_encode (block (literal_header check (zlen input))) = (OK, hdr) ->
  size <= zlen output ->
  exists pad, (pad < 4)%nat /\ size mod 4 = 0 /\
    literalBlockEncode check input output =
    (Ret (size, Z.of_nat pad),
     hdr ++ literal_data input ++ replicate pad 0 ++ check_bytes check input ++
     drop (Z.to_nat size) output) /\
    zlen hdr + literalCompSize (zlen input) + Z.of_nat pad + CheckSize check = size.
Proof.
  intros Hn Hsz He Ho. pose proof (zlen_nonneg input) as Hn0.
  destruct (literalBlockSize_ret _ _ _ _ _ (conj Hn0 Hn) Hsz) as (Hs & _ & h & Eh & ->).
  destruct (HeaderSize_ok _ _ _ Eh) as [Es _]. destruct (header_size_range _ _ Es) as [Hr Hm].
  pose proof block_header_bounds as Hb.
  destruct (check_bytes_length check input Hs) as (Hcl & Hcr & Hcm).
  pose proof (literal_data_length input ltac:(lia)) as Hd.
  set (comp := literalCompSize (zlen input)) in *.
  assert (Hd1 : 1 <= comp) by (rewrite <- Hd; unfold literal_data; rewrite zlen_app, zlen_cons; zlen_lia).
  pose proof (Z.mod_pos_bound (- comp) 4 ltac:(lia)) as Hp.
  destruct (encode_header _ _ _ output _ Eh He ltac:(lia)) as [Hhl Ehe].
  set (pad := Z.to_nat ((- comp) mod 4)). assert (Hpz : Z.of_nat pad = (- comp) mod 4) by (unfold pad; lia).
  exists pad.
  pose proof (literal_data_padded input hdr h Hn Hhl Hm) as Hpm. cbv zeta in Hpm. fold comp in Hpm.
  rewrite zlen_app, Hhl, Hd in Hpm.
  split; [lia|]. split; [rewrite Z.add_mod, Hpm, Hcm by lia; done|]. split; [|lia].
  (* the output, cut where the parts end *)
  assert (Hrest : zlen (drop (Z.to_nat h) output) = zlen output - h) by (apply zlen_drop; lia).
  destruct (split_at (drop (Z.to_nat h) output) (comp - 1) ltac:(lia)) as (o1 & r1 & Er1 & Ho1).
  rewrite Er1, zlen_app in Hrest.
  destruct (split_at r1 1 ltac:(lia)) as (o2 & r2 & -> & Ho2). rewrite zlen_app in Hrest.
  destruct (split_at r2 (Z.of_nat pad) ltac:(lia)) as (o3 & r3 & -> & Ho3). rewrite zlen_app in Hrest.
  assert (Hc3 : 0 <= CheckSize check <= zlen r3) by (split; lia).
  destruct (split_at r3 (CheckSize check) Hc3) as (o4 & r4 & -> & Ho4).
  assert (Hr4 : drop (Z.to_nat (h + comp + (- comp) mod 4 + CheckSize check)) output = r4).
  { rewrite <- (take_drop (Z.to_nat h) output), Er1, !app_assoc.
    apply drop_app_length'. rewrite !length_app, length_take. unfold zlen in *. lia. }
  rewrite Hr4. clear Hr4 Hsz.
  unfold literalBlockEncode. rewrite (bind_ret _ _ _ tt output) by (by rewrite checkSupport_spec, Hs).
  rewrite (int64_id (zlen input)) by lia. fold comp. fold (literal_block check (zlen input)).
  rewrite (bind_local _ _ _ _ _ _ Eh), Panic_nil, bind_call, bind_get.
  rewrite (bind_local _ _ _ _ _ _ Ehe), bind_put, Panic_nil, bind_call, Er1.
  rewrite <- Hhl at 1. etrans; [apply (encode_tail check input hdr o1 o2 o3 o4 r4 pad); try done; try lia|].
  - rewrite zlen_app, Hhl, Hd, Hpz. done.
  - rewrite zlen_app, Hhl, Hd, Hpz. done.
Qed.

(** C17: [literalBlockSize] is the exact size of what [literalBlockEncode]
    writes. Into any output at least that long it writes, from the first byte
    on, the encoded header, the literal chunks with their end marker, zeros up
    to a multiple of four and the check of the input; it reports that size and
    the number of zeros, and the bytes after them are what they were. *)
Theorem literalBlockEncode_exact check input size output hdr :
  zlen input < 2 ^ 60 ->
  literalBlockSize (S:=unit) check (zlen input) tt = (Ret size, tt) ->
  lzma_block_header_encode (block (literal_header check (zlen input))) = (OK, hdr) ->
  size <= zlen output ->
  exists pad, (pad < 4)%nat /\ size mod 4 = 0 /\
    literalBlockEncode check input output =
    (Ret (size, Z.of_nat pad),
     hdr ++ literal_data input ++ replicate pad 0 ++ check_bytes check input ++
     drop (Z.to_nat size) output) /\
    zlen hdr + literalCompSize (zlen input) + Z.of_nat pad + CheckSize check = size.
Proof. apply encode_exact. Qed.

Lemma lzma2_chunk (chunk rest : list Z) :
  1 <= zlen chunk <= 65536 ->
  let n := zlen chunk - 1 in
  256 * (n / 256) + n mod 256 + 1 = zlen chunk /\
  (zlen (chunk ++ rest) <? zlen chunk) = false /\
  take (Z.to_nat (zlen chunk)) (chunk ++ rest) = chunk /\
  drop (Z.to_nat (zlen chunk)) (chunk ++ rest) = rest.
Proof.
  intros Hc n. split_and!.
  - unfold n. rewrite <- Z.div_mod by lia. lia.
  - apply Z.ltb_ge. rewrite zlen_app. pose proof (zlen_nonneg rest). lia.
  - apply take_app_length'. unfold zlen. lia.
  - apply drop_app_length'. unfold zlen. lia.
Qed.

Lemma lzma2_literals_step fuel chunk rest :
  1 <= zlen chunk <= 65536 ->
  lzma2_literals (S fuel) (literalChunkMarker :: be16 (zlen chunk - 1) ++ chunk ++ rest) =
  match lzma2_literals fuel rest with
  | Some (data, rest') => Some (chunk ++ data, rest')
  | None => None
  end.
Proof.
  intros Hc. destruct (lzma2_chunk chunk rest Hc) as (E1 & E2 & E3 & E4).
  cbn [lzma2_literals literalChunkMarker be16 app]. unfold literalChunkMarker. cbn [Z.eqb Pos.eqb orb].
  by rewrite E1, E2, E3, E4.
Qed.

Lemma lzma2_literals_chunks n input rest :
  (length input <= n)%nat ->
  lzma2_literals (S n) (lit_chunks n input ++ literalEndMarker :: rest) = Some (input, rest).
Proof.
  revert input. induction n as [|n IH]; intros input Hn.
  - destruct input; [done|cbn in Hn; lia].
  - destruct (decide (input = [])) as [->|Hne]; [done|].
    destruct (lit_chunks_step n input Hne Hn) as (-> & Hd & Hc).
    pose proof (take_drop (Z.to_nat 65536) input) as Htd.
    set (chunk := take (Z.to_nat 65536) input) in *. clearbody chunk.
    set (next := drop (Z.to_nat 65536) input) in *. clearbody next.
    rewrite <- app_assoc. cbn [app]. rewrite <- app_assoc.
    rewrite lzma2_literals_step by done. rewrite (IH _ Hd). by rewrite Htd.
Qed.

(** C16: Round trip: after the header, a decoder of LZMA2's uncompressed chunks
    finds exactly the input in what [literalBlockEncode] wrote, and stops right
    before the padding and the check. *)
Theorem literal_roundtrip check input size output hdr :
  zlen input < 2 ^ 60 ->
  literalBlockSize (S:=unit) check (zlen input) tt = (Ret size, tt) ->
  lzma_block_header_encode (block (literal_header check (zlen input))) = (OK, hdr) ->
  size <= zlen output ->
  exists pad output', literalBlockEncode check input output = (Ret (size, Z.of_nat pad), output') /\
    take (length hdr) output' = hdr /\
    lzma2_literals (S (length input)) (drop (length hdr) output') =
    Some (input, replicate pad 0 ++ check_bytes check input ++ drop (Z.to_nat size) output).
Proof.
  intros H1 H2 H3 H4. destruct (encode_exact _ _ _ _ _ H1 H2 H3 H4) as (pad & _ & _ & Er & _).
  exists pad. eexists. split; [exact Er|]. rewrite take_app_length, drop_app_length. split; [done|].
  unfold literal_data. rewrite <- app_assoc. cbn [app]. by apply lzma2_literals_chunks.
Qed.

(** * Outputs that are too short *)

Lemma out_set_full pre v : out_set (zlen pre) v pre = (Pan (PRun IndexOutOfRange), pre).
Proof.
  unfold out_set, zset. mrun. rewrite (proj2 (Z.ltb_ge _ _)) by lia. by rewrite andb_false_r.
Qed.

Lemma out_put_short pre rest bs :
  zlen rest < zlen bs -> out_put (zlen pre) bs (pre ++ rest) = (Pan (PRun IndexOutOfRange), pre ++ rest).
Proof.
  intros H. unfold out_put. mrun. rewrite zdrop_app. cbn. by rewrite (proj2 (Z.ltb_lt _ _)).
Qed.

Lemma out_copy_short pre rest bs :
  zlen rest <= zlen bs ->
  out_copy (zlen pre) bs (pre ++ rest) = (Ret (zlen rest), pre ++ take (length rest) bs).
Proof.
  intros H. unfold out_copy. mrun. rewrite zdrop_app. cbn. rewrite Z.min_l by done.
  assert (Hl : Z.to_nat (zlen rest) = length rest) by (unfold zlen; lia). rewrite Hl.
  pose proof (overwrite_app pre rest (take (length rest) bs) []) as Ho. rewrite !app_nil_r in Ho.
  rewrite Ho; [done|]. rewrite length_take. unfold zlen in H. lia.
Qed.

(** How a computation ends that cannot write all its bytes: it panics, or it
    returns with the output full. *)
Definition ran_out (len : Z) (r : outcome Z * list Z) : Prop :=
  zlen r.2 = len /\ (r.1 = Pan (PRun IndexOutOfRange) \/ r.1 = Ret len).

(** The three writes of a chunk into too little room. *)
Lemma literal_chunk_short pre rest chunk (k : Z -> M (list Z) Z) :
  zlen rest < 3 + zlen chunk ->
  (forall s, zlen s = zlen (pre ++ rest) ->
     ran_out (zlen s) (k (zlen s - (zlen pre + 1 + 2)) s)) ->
  ran_out (zlen (pre ++ rest))
    ((out_set (zlen pre) literalChunkMarker;;
      out_put (zlen pre + 1) (be16 (uint16 (zlen chunk - 1)));;
      n ← out_copy (zlen pre + 1 + 2) chunk; k n) (pre ++ rest)).
Proof.
  intros Hr Hk. destruct rest as [|x0 rest].
  { rewrite app_nil_r. rewrite (bind_panic _ _ _ _ _ (out_set_full _ _)). split; auto. }
  rewrite (bind_ret _ _ _ _ _ (out_set_at _ _ _ _)).
  set (m := literalChunkMarker). rewrite (app_assoc pre [m] rest : pre ++ m :: rest = _).
  replace (zlen pre + 1) with (zlen (pre ++ [m])) by (rewrite zlen_app; done).
  set (b := be16 _). destruct (decide (zlen rest < 2)) as [H2|H2].
  { rewrite (bind_panic _ _ _ _ _ (out_put_short (pre ++ [m]) rest b H2)).
    split; [cbn [snd]; rewrite !zlen_app, zlen_cons; zlen_lia|by left]. }
  destruct rest as [|x1 [|x2 rest]]; [done|done|].
  assert (Hb : length [x1; x2] = length b) by done.
  rewrite (bind_ret _ _ _ _ _ (out_put_at (pre ++ [m]) [x1; x2] b rest Hb)).
  rewrite app_assoc. replace (zlen (pre ++ [m]) + 2) with (zlen ((pre ++ [m]) ++ b))
    by (rewrite (zlen_app (pre ++ [m]) b); done).
  rewrite !zlen_cons in Hr. rewrite (bind_ret _ _ _ _ _ (out_copy_short _ rest chunk ltac:(lia))).
  set (s := ((pre ++ [m]) ++ b) ++ take (length rest) chunk).
  assert (Hs : zlen s = zlen (pre ++ x0 :: x1 :: x2 :: rest)).
  { unfold s. rewrite !zlen_app, !zlen_cons. change (zlen b) with 2. change (zlen []) with 0.
    unfold zlen in *. rewrite length_take. lia. }
  rewrite <- Hs. replace (zlen rest) with (zlen s - (zlen pre + 1 + 2))
    by (rewrite Hs, !zlen_app, !zlen_cons; lia). by apply Hk.
Qed.

Lemma lit_chunks_zero n l : (length l <= n)%nat -> zlen (lit_chunks n l) = 0 -> l = [].
Proof.
  intros Hn H. rewrite lit_chunks_length in H by done. apply zlen_zero. pose proof (zlen_nonneg l).
  pose proof (Z.div_pos (zlen l + 65535) 65536 ltac:(lia) ltac:(lia)). lia.
Qed.

Lemma drop_zero {A} (l : list A) k : 0 <= k -> drop (Z.to_nat k) l = [] -> zlen l <= k.
Proof.
  intros Hk H. apply (f_equal length) in H. rewrite length_drop in H. cbn in H. unfold zlen. lia.
Qed.

Lemma literal_chunks_short fuel n input inCnt pre rest :
  0 <= inCnt -> zlen input - inCnt < Z.of_nat fuel -> (0 < fuel)%nat ->
  (length (drop (Z.to_nat inCnt) input) <= n)%nat ->
  zlen rest < zlen (lit_chunks n (drop (Z.to_nat inCnt) input)) ->
  ran_out (zlen (pre ++ rest)) (literal_chunks fuel input inCnt (zlen pre) (pre ++ rest)).
Proof.
  revert n inCnt pre rest. induction fuel as [|fuel IH]; intros n inCnt pre rest Hi Hf H0 Hn Hr; [lia|].
  cbn [literal_chunks]. destruct (Z.ltb_spec inCnt (zlen input)) as [Hlt|Hge].
  2: { rewrite drop_ge in Hr by (unfold zlen in Hge; lia). rewrite lit_chunks_nil in Hr.
       change (zlen []) with 0 in Hr. pose proof (zlen_nonneg rest). lia. }
  destruct (loop_chunk input inCnt (pre ++ rest) ltac:(lia)) as [E1 E2].
  rewrite (bind_ret _ _ _ _ _ E1), (bind_ret _ _ _ _ _ E2). clear E1 E2.
  set (ahead := drop (Z.to_nat inCnt) input) in *.
  assert (Hl : zlen ahead = zlen input - inCnt) by (apply zlen_drop; lia).
  assert (ahead <> []) by (intros E0; rewrite E0 in Hl; change (zlen []) with 0 in Hl; lia).
  destruct n as [|n]; [destruct ahead; cbn in Hn; [done|lia]|].
  destruct (lit_chunks_step n ahead) as (Es & Hd & Hc); [done|done|]. rewrite Es in Hr.
  assert (Hdd : drop (Z.to_nat (inCnt + literalChunkSize)) input = drop (Z.to_nat 65536) ahead).
  { unfold ahead. rewrite drop_drop. f_equal. rewrite literalChunkSize_eq. lia. }
  set (chunk := take (Z.to_nat 65536) ahead) in *.
  rewrite zlen_app, zlen_cons, zlen_app in Hr. change (zlen (be16 _)) with 2 in Hr.
  destruct fuel as [|fuel']; [lia|].
  assert (Hnext : forall pre' rest', zlen rest' < zlen (lit_chunks n (drop (Z.to_nat 65536) ahead)) ->
    ran_out (zlen (pre' ++ rest')) (literal_chunks (S fuel') input (inCnt + literalChunkSize) (zlen pre') (pre' ++ rest'))).
  { intros pre' rest' Hr'. apply (IH n); rewrite ?Hdd, ?literalChunkSize_eq; try done; lia. }
  destruct (decide (zlen rest < 3 + zlen chunk)) as [Hs|Hs].
  - apply literal_chunk_short; [done|]. intros s Hzs.
    replace (zlen pre + 1 + 2 + (zlen s - (zlen pre + 1 + 2))) with (zlen s) by lia.
    destruct (decide (zlen (lit_chunks n (drop (Z.to_nat 65536) ahead)) = 0)) as [Hz|Hz].
    + apply lit_chunks_zero in Hz; [|done]. rewrite <- Hdd in Hz.
      apply drop_zero in Hz; [|rewrite literalChunkSize_eq; lia].
      cbn [literal_chunks]. rewrite (proj2 (Z.ltb_ge _ _)) by done. split; cbn; auto.
    + pose proof (Hnext s []) as Hn0. rewrite app_nil_r in Hn0. apply Hn0. change (zlen []) with 0.
      pose proof (zlen_nonneg (lit_chunks n (drop (Z.to_nat 65536) ahead))). lia.
  - destruct (split_at rest (3 + zlen chunk) ltac:(lia)) as (o1 & o2 & -> & Ho1).
    rewrite zlen_app in Hr. rewrite (literal_chunk_writes pre o1 o2 chunk) by done.
    set (piece := literalChunkMarker :: be16 (zlen chunk - 1) ++ chunk).
    assert (Hp : zlen piece = 3 + zlen chunk)
      by (unfold piece; rewrite zlen_cons, zlen_app; change (zlen (be16 _)) with 2; lia).
    replace (zlen pre + 1 + 2 + zlen chunk) with (zlen (pre ++ piece)) by (rewrite zlen_app, Hp; lia).
    replace (zlen (pre ++ o1 ++ o2)) with (zlen ((pre ++ piece) ++ o2)) by (rewrite !zlen_app; lia).
    rewrite app_assoc. apply Hnext. lia.
Qed.

(** Padding that does not fit. *)
Lemma literal_pad_short k fuel cnt pad pre rest :
  cnt = zlen pre -> (k < fuel)%nat -> (k < 4)%nat -> (length rest < k)%nat ->
  (zlen pre + Z.of_nat k) mod 4 = 0 ->
  exists s, literal_pad fuel cnt pad (pre ++ rest) = (Pan (PRun IndexOutOfRange), s) /\
    zlen s = zlen (pre ++ rest).
Proof.
  revert fuel cnt pad pre rest. induction k as [|k IH]; intros fuel cnt pad pre rest -> Hf Hk Hr Hm; [lia|].
  destruct fuel as [|fuel]; [lia|]. cbn [literal_pad]. pose proof (zlen_nonneg pre).
  rewrite Z.rem_mod_nonneg by lia. destruct (Z.ltb_spec 0 (zlen pre mod 4)) as [Hlt|Hge].
  2: { exfalso. pose proof (Z.mod_pos_bound (zlen pre) 4 ltac:(lia)).
       assert (zlen pre mod 4 = 0) as Hz by lia.
       rewrite Z.add_mod, Hz, Z.add_0_l, Z.mod_mod in Hm by lia. rewrite Z.mod_small in Hm by lia. lia. }
  destruct rest as [|x rest].
  { rewrite app_nil_r, (bind_panic _ _ _ _ _ (out_set_full _ _)). eauto. }
  rewrite (bind_ret _ _ _ _ _ (out_set_at _ _ _ _)).
  replace (pre ++ 0 :: rest) with ((pre ++ [0]) ++ rest) by (by rewrite <- app_assoc).
  replace (zlen pre + 1) with (zlen (pre ++ [0])) by (rewrite zlen_app; done).
  destruct (IH fuel (zlen (pre ++ [0])) (pad + 1) (pre ++ [0]) rest) as (s & -> & Hs);
    [done|lia|lia|cbn in Hr; lia| |].
  - rewrite zlen_app. change (zlen [0]) with 1. rewrite <- Hm. f_equal. lia.
  - exists s. split; [done|]. rewrite Hs, !zlen_app. change (zlen [0]) with 1. rewrite zlen_cons. lia.
Qed.

Lemma literal_check_short check input pre rest :
  supported check = true -> check <> CheckSHA256 -> zlen rest < CheckSize check ->
  literal_check check input (zlen pre) (pre ++ rest) = (Pan (PRun IndexOutOfRange), pre ++ rest).
Proof.
  intros Hs Hsha Hr. destruct (check_bytes_length check input Hs) as [Hl _].
  pose proof (zlen_nonneg rest). unfold literal_check, check_bytes in *.
  destruct (Z.eqb_spec check CheckNone) as [->|].
  { assert (Hc : CheckSize CheckNone = 0)
      by (unfold CheckSize; rewrite (supported_uint32 _ Hs); apply check_size_none). lia. }
  apply Z.eqb_neq in Hsha. rewrite Hsha in *.
  repeat case_match; try (apply out_put_short; lia). change (zlen []) with 0 in Hl. lia.
Qed.

(** Everything after the header, when it does not fit. *)
Lemma encode_tail_short check input hdr rest pad :
  zlen input < 2 ^ 60 -> supported check = true -> check <> CheckSHA256 -> (pad < 4)%nat ->
  (zlen (hdr ++ literal_data input) + Z.of_nat pad) mod 4 = 0 ->
  zlen rest < zlen (literal_data input) + Z.of_nat pad + CheckSize check ->
  exists s, (cnt ← literal_chunks (S (length input)) input 0 (0 + zlen hdr);
   out_set cnt literalEndMarker;;
   r ← literal_pad 5 (cnt + 1) 0;
   let '(cnt, pad) := r in
   literal_check check input cnt;;
   mret (cnt + CheckSize check, pad)) (hdr ++ rest) = (Pan (PRun IndexOutOfRange), s) /\
   zlen s = zlen (hdr ++ rest).
Proof.
  intros Hn Hs Hsha Hp Hm Hr. set (chunks := lit_chunks (length input) input).
  assert (Hd : zlen (literal_data input) = zlen chunks + 1)
    by (unfold literal_data; rewrite zlen_app; done).
  rewrite Z.add_0_l. destruct (decide (zlen rest < zlen chunks)) as [H1|H1].
  { assert (Hc := literal_chunks_short (S (length input)) (length input) input 0 hdr rest).
    rewrite Z2Nat.inj_0, drop_0 in Hc. fold chunks in Hc.
    destruct (Hc ltac:(lia) ltac:(unfold zlen; lia) ltac:(lia) ltac:(lia) H1) as [Hz Ho].
    destruct (literal_chunks _ _ _ _ _) as [o s] eqn:Ec. cbn [fst snd] in Hz, Ho. rewrite bind_run, Ec.
    destruct Ho as [-> | ->]; [eauto|]. rewrite <- Hz, (bind_panic _ _ _ _ _ (out_set_full s _)). eauto. }
  destruct (split_at rest (zlen chunks) ltac:(pose proof (zlen_nonneg chunks); lia)) as (o1 & r1 & -> & Ho1).
  rewrite zlen_app in Hr.
  assert (Hc := literal_chunks_run (S (length input)) (length input) input 0 hdr o1 r1).
  rewrite Z2Nat.inj_0, drop_0 in Hc. fold chunks in Hc.
  rewrite (bind_ret _ _ _ _ _ (Hc ltac:(lia) ltac:(unfold zlen; lia) ltac:(lia) ltac:(lia) ltac:(lia))).
  replace (zlen hdr + zlen o1) with (zlen (hdr ++ chunks)) by (rewrite zlen_app; lia). rewrite app_assoc.
  replace (zlen (hdr ++ o1 ++ r1)) with (zlen ((hdr ++ chunks) ++ r1)) by (rewrite !zlen_app; lia).
  destruct r1 as [|x r1].
  { rewrite app_nil_r, (bind_panic _ _ _ _ _ (out_set_full _ _)). eauto. }
  rewrite (bind_ret _ _ _ _ _ (out_set_at _ _ _ _)).
  replace ((hdr ++ chunks) ++ literalEndMarker :: r1) with ((hdr ++ literal_data input) ++ r1)
    by (unfold literal_data; fold chunks; rewrite <- !app_assoc; done).
  replace (zlen ((hdr ++ chunks) ++ x :: r1)) with (zlen ((hdr ++ literal_data input) ++ r1))
    by (rewrite !zlen_app, zlen_cons; lia).
  replace (zlen (hdr ++ chunks) + 1) with (zlen (hdr ++ literal_data input)) by (rewrite !zlen_app; lia).
  rewrite zlen_cons in Hr. destruct (decide (zlen r1 < Z.of_nat pad)) as [H2|H2].
  { destruct (literal_pad_short pad 5 _ 0 _ r1 eq_refl ltac:(lia) Hp ltac:(unfold zlen in H2; lia) Hm)
      as (s & Epad & Hsz). rewrite (bind_panic _ _ _ _ _ Epad). eauto. }
  destruct (split_at r1 (Z.of_nat pad) ltac:(lia)) as (o3 & o4 & -> & Ho3). rewrite zlen_app in Hr.
  rewrite (bind_ret _ _ _ _ _ (literal_pad_run pad 5 _ 0 _ o3 o4 eq_refl ltac:(lia) Hp
    ltac:(unfold zlen in Ho3; lia) Hm)). rewrite app_assoc.
  replace (zlen (hdr ++ literal_data input) + Z.of_nat pad)
    with (zlen ((hdr ++ literal_data input) ++ replicate pad 0)) by (rewrite zlen_app, zlen_replicate; done).
  rewrite (bind_panic _ _ _ _ _ (literal_check_short check input _ o4 Hs Hsha ltac:(lia))).
  eexists. split; [done|]. rewrite !zlen_app, zlen_replicate. lia.
Qed.


(** * Smaller inputs, smaller outputs *)

Lemma literal_block_fields check n :
  0 <= n < 2 ^ 60 ->
  let b := block (literal_block check n) in
  b_version b = 0 /\ b_check b = uint32 check /\ b_filters b = fl_filters literalFilters /\
  b_compressed_size b = literalCompSize n /\ b_uncompressed_size b = n /\
  0 < literalCompSize n < 2 ^ 63.
Proof.
  intros Hn. rewrite literalCompSize_eq by lia.
  pose proof (Z.div_pos (n + 65535) 65536 ltac:(lia) ltac:(lia)).
  pose proof (Z.div_lt_upper_bound (n + 65535) 65536 (2 ^ 47) ltac:(lia) ltac:(lia)).
  rewrite <- literalCompSize_eq by lia.
  split_and!; try done; try (cbn; apply uint64_id); rewrite ?literalCompSize_eq by lia; lia.
Qed.

Lemma round_up_mono a b : 0 <= a <= b -> a + (- a) mod 4 <= b + (- b) mod 4.
Proof.
  intros H. pose proof (Z.mod_pos_bound (- a) 4 ltac:(lia)). pose proof (Z.mod_pos_bound (- b) 4 ltac:(lia)).
  pose proof (Z.div_mod (- a) 4 ltac:(lia)). pose proof (Z.div_mod (- b) 4 ltac:(lia)). lia.
Qed.

(** The size of a smaller block is defined and no larger. *)
Lemma blockSize_mono check n m size_m :
  0 <= n <= m -> m < 2 ^ 60 ->
  literalBlockSize (S:=unit) check m tt = (Ret size_m, tt) ->
  exists size_n, literalBlockSize (S:=unit) check n tt = (Ret size_n, tt) /\ size_n <= size_m.
Proof.
  intros Hnm Hm Hs. assert (Hm0 : 0 <= m < 2 ^ 60) by lia.
  destruct (literalBlockSize_ret _ _ _ _ _ Hm0 Hs)
    as (Hsup & _ & hm & Eh & ->).
  apply HeaderSize_ok in Eh as [Eh _].
  destruct (literal_block_fields check m ltac:(lia)) as (V1 & V2 & V3 & V4 & V5 & V6).
  destruct (literal_block_fields check n ltac:(lia)) as (W1 & W2 & W3 & W4 & W5 & W6).
  assert (Hcomp : literalCompSize n <= literalCompSize m).
  { rewrite !literalCompSize_eq by lia.
    pose proof (Z.div_le_mono (n + 65535) (m + 65535) 65536 ltac:(lia) ltac:(lia)). lia. }
  destruct (header_size_mono (block (literal_block check n)) (block (literal_block check m)) hm)
    as (hn & En & Hh); [congruence|congruence|congruence|lia|lia|lia|lia|exact Eh|].
  destruct (literalBlockSize (S:=unit) check n tt) as [o s] eqn:Esn.
  assert (exists size_n, o = Ret size_n /\ s = tt) as (size_n & -> & ->).
  { unfold literalBlockSize in Esn. rewrite bind_run, checkSupport_spec, Hsup in Esn.
    fold (literal_block check n) in Esn.
    rewrite (bind_local _ _ _ _ _ _ ltac:(rewrite HeaderSize_spec, En; cbn; rewrite Z.eqb_refl; reflexivity)) in Esn.
    cbn [fst] in Esn. rewrite Panic_nil, bind_call in Esn. injection Esn as <- <-. eauto. }
  exists size_n. split; [done|].
  assert (Hn : 0 <= n < 2 ^ 60) by lia.
  destruct (literalBlockSize_ret _ _ _ _ _ Hn Esn) as (_ & _ & hn' & Ehn & ->).
  apply HeaderSize_ok in Ehn as [Ehn _]. assert (hn' = hn) as -> by congruence.
  pose proof (round_up_mono (literalCompSize n) (literalCompSize m) ltac:(lia)). lia.
Qed.

(** A header that cannot be encoded stops the encoder. *)
Lemma encode_header_error check input size output ret bs :
  zlen input < 2 ^ 60 ->
  literalBlockSize (S:=unit) check (zlen input) tt = (Ret size, tt) ->
  lzma_block_header_encode (block (literal_header check (zlen input))) = (ret, bs) -> ret <> OK ->
  size <= zlen output ->
  exists output', literalBlockEncode check input output = (Pan (PErr (Some (LibError ret))), output').
Proof.
  intros Hn Hsz He Hr Ho. pose proof (zlen_nonneg input) as Hn0.
  destruct (literalBlockSize_ret _ _ _ _ _ (conj Hn0 Hn) Hsz) as (Hs & _ & h & Eh & ->).
  destruct (HeaderSize_ok _ _ _ Eh) as [Es Hb1]. destruct (header_size_range _ _ Es) as [Hrg Hm].
  destruct (check_bytes_length check input Hs) as (Hcl & Hcr & Hcm).
  pose proof (Z.mod_pos_bound (- literalCompSize (zlen input)) 4 ltac:(lia)) as Hp.
  pose proof (literal_data_length input ltac:(lia)) as Hd. pose proof (zlen_nonneg (literal_data input)).
  pose proof block_header_bounds as Hb.
  assert (Hlen : (zlen output <? b_header_size (block (literal_header check (zlen input)))) = false).
  { apply Z.ltb_ge. rewrite Hb1. lia. }
  unfold literalBlockEncode. rewrite (bind_ret _ _ _ tt output) by (by rewrite checkSupport_spec, Hs).
  rewrite (int64_id (zlen input)) by lia. fold (literal_block check (zlen input)).
  rewrite (bind_local _ _ _ _ _ _ Eh), Panic_nil, bind_call, bind_get.
  rewrite (bind_local _ _ _ _ (overwrite output 0 bs, NewError ret) (literal_header check (zlen input))).
  2: { unfold Block_HeaderEncode. rewrite bind_get, Hlen, He. done. }
  rewrite bind_put. unfold NewError. rewrite (proj2 (Z.eqb_neq _ _) Hr), Panic_err. by eexists.
Qed.

End literal.

(** * On the small library *)
Module LiteralRuns.
#[local] Existing Instance Small.liblzma.
#[local] Existing Instance Small.liblzma_spec.
#[local] Existing Instance PlainErrs.errs.
#[local] Existing Instance PlainErrs.errs_spec.

Lemma hi_small : zlen [104; 105] < 2 ^ 60.
Proof. vm_compute. reflexivity. Defined.

Lemma hi_size : literalBlockSize (S:=unit) CheckCRC32 (zlen [104; 105]) tt = (Ret 24, tt).
Proof. apply run_unit. vm_compute. reflexivity. Defined.

Lemma hi_header :
  lzma_block_header_encode (block (literal_header CheckCRC32 (zlen [104; 105]))) =
  (OK, Small.fit 12 [2; 192]).
Proof. vm_compute. reflexivity. Defined.

Lemma hi_room : 24 <= zlen (replicate 28 255).
Proof. vm_compute. discriminate. Defined.

Lemma hi_run : (literalBlockEncode CheckCRC32 [104; 105] (replicate 28 255)).1 = Ret (24, 2).
Proof. vm_compute. reflexivity. Defined.

Lemma literalBlockEncode_exact_witness :
  (literalBlockEncode CheckCRC32 [104; 105] (replicate 28 255)).2 =
  [2; 192; 0; 0; 0; 0; 0; 0; 0; 0; 0; 0;
   1; 0; 1; 104; 105; 0; 0; 0; 209; 0; 0; 0; 255; 255; 255; 255].
Proof.
  destruct (literalBlockEncode_exact _ _ _ _ _ hi_small hi_size hi_header hi_room)
    as (pad & _ & _ & Hr & _).
  pose proof hi_run as H. rewrite Hr in H. injection H as H. assert (pad = 2%nat) as -> by lia.
  rewrite Hr. vm_compute. reflexivity.
Defined.

Lemma literal_roundtrip_witness :
  exists output', (literalBlockEncode CheckCRC32 [104; 105] (replicate 28 255)).2 = output' /\
    lzma2_literals 3 (drop 12 output') = Some ([104; 105], [0; 0; 209; 0; 0; 0; 255; 255; 255; 255]).
Proof.
  destruct (literal_roundtrip _ _ _ _ _ hi_small hi_size hi_header hi_room)
    as (pad & output' & Hr & _ & Hd).
  exists output'. rewrite Hr. split; [done|].
  pose proof hi_run as H. rewrite Hr in H. injection H as H. assert (pad = 2%nat) as -> by lia.
  exact Hd.
Defined.


End LiteralRuns.
