(* ===== verification/World.v ===== *)
(** The objects the [lib] package reaches through pointers, and the
    operations of [lib/block.go] on a block that is one of them.

    A [*lib.Block] is the address of its C structure in [cm_block] (with the Go
    field [filters] next to it), a [*lib.Index] is the address of its field
    [ptr] in [cm_ixptr], and what that field points to lives in [cm_index]. A
    [*bufpipe.BufferPipe] is an address in [pipes]. *)

From S2P Require Import Prelude Bufpipe Liblzma Lib.

Section world.
Context {BP : Bufpipe} {L : Liblzma}.

Record world : Type := World {
  mem : cmem_t;
  blk_go : gmap loc Filters;
  pipes : gmap loc BufferPipe;
}.

Definition empty_world : world := World (CMem ∅ ∅ ∅) ∅ ∅.

Definition set_mem (m : cmem_t) (w : world) : world := World m (blk_go w) (pipes w).
Definition set_pipes (p : gmap loc BufferPipe) (w : world) : world := World (mem w) (blk_go w) p.

(** * Blocks *)

(** [new(Block)] with a given contents. *)
Definition alloc_block (b : Block) : M world loc :=
  w ← get;
  let l := fresh (dom (cm_block (mem w))) in
  put (World (CMem (<[l := block b]> (cm_block (mem w))) (cm_index (mem w)) (cm_ixptr (mem w)))
             (<[l := blk_filters b]> (blk_go w)) (pipes w));;
  mret l.

Definition get_block (w : world) (l : loc) : option Block :=
  match cm_block (mem w) !! l, blk_go w !! l with
  | Some b, Some f => Some (BlockV b f)
  | _, _ => None
  end.

(** A method of the block at [l]. *)
Definition on_block {A} (l : loc) (m : M Block A) : M world A := fun w =>
  match get_block w l with
  | None => (Pan (PRun NilDereference), w)
  | Some b =>
      let '(o, b') := m b in
      (o, World (CMem (<[l := block b']> (cm_block (mem w))) (cm_index (mem w)) (cm_ixptr (mem w)))
                (<[l := blk_filters b']> (blk_go w)) (pipes w))
  end.

(** A method that only reads. *)
Definition of_block {A} (l : loc) (f : Block -> A) : M world A := fun w =>
  match get_block w l with
  | None => (Pan (PRun NilDereference), w)
  | Some b => (Ret (f b), w)
  end.

(** * Pipes *)

Definition alloc_pipe (p : BufferPipe) : M world loc :=
  w ← get;
  let l := fresh (dom (pipes w)) in
  put (set_pipes (<[l := p]> (pipes w)) w);;
  mret l.

(** The pipe behind a pointer; [None] is the nil pointer. *)
Definition pipe_at (w : world) (o : option loc) : option BufferPipe :=
  match o with Some l => pipes w !! l | None => None end.

Definition pipe_Length (w : world) (o : option loc) : Z :=
  match pipe_at w o with Some p => bp_Length p | None => bp_nil_Length end.
Definition pipe_ReadSlices (w : world) (o : option loc) : list Z * list Z * error :=
  match pipe_at w o with Some p => bp_ReadSlices p | None => bp_nil_ReadSlices end.
Definition pipe_WriteSlices (w : world) (o : option loc) : Z * Z * error :=
  match pipe_at w o with Some p => bp_WriteSlices p | None => bp_nil_WriteSlices end.

(** Change the pipe behind a pointer; nothing happens to the nil pointer. *)
Definition pipe_upd (o : option loc) (f : BufferPipe -> BufferPipe) (w : world) : world :=
  match o with
  | None => w
  | Some l => set_pipes (alter f l (pipes w)) w
  end.

Definition pipe_ReadMark (o : option loc) (n : Z) : world -> world := pipe_upd o (fun p => bp_ReadMark p n).
Definition pipe_WriteMark (o : option loc) (n : Z) : world -> world := pipe_upd o (fun p => bp_WriteMark p n).
Definition pipe_Poke (o : option loc) (bs : list Z) : world -> world := pipe_upd o (fun p => bp_Poke p bs).

(** The unread bytes behind a pointer. *)
Definition pipe_data (w : world) (o : option loc) : list Z :=
  match pipe_at w o with Some p => bp_Data p | None => [] end.

(** * Laws *)

(** The pointers and the live indexes are what they were. *)
Definition mem_keeps (m m' : cmem_t) : Prop :=
  cm_ixptr m' = cm_ixptr m /\ forall a x, cm_index m !! a = Some x -> cm_index m' !! a = Some x.

Lemma mem_keeps_refl m : mem_keeps m m.
Proof. done. Qed.

Lemma mem_keeps_trans m1 m2 m3 : mem_keeps m1 m2 -> mem_keeps m2 m3 -> mem_keeps m1 m3.
Proof. intros [H1 H2] [H3 H4]. split; [congruence|auto]. Qed.

Lemma get_block_mem (w : world) l b : get_block w l = Some b -> cm_block (mem w) !! l = Some (block b).
Proof. unfold get_block. repeat case_match; try done. by intros [= <-]. Qed.

Lemma on_block_run {A} (w : world) l b (m : M Block A) :
  get_block w l = Some b ->
  exists w', on_block l m w = ((m b).1, w') /\ get_block w' l = Some (m b).2 /\
    pipes w' = pipes w /\ mem_keeps (mem w) (mem w').
Proof.
  intros H. unfold on_block. rewrite H. destruct (m b) as [o [b' f']]. eexists. split; [reflexivity|].
  split; [unfold get_block; cbn; by rewrite !lookup_insert_eq|]. by split.
Qed.

Lemma of_block_run {A} (w : world) l b (f : Block -> A) :
  get_block w l = Some b -> of_block l f w = (Ret (f b), w).
Proof. intros H. unfold of_block. by rewrite H. Qed.

Lemma alloc_block_run (w : world) b :
  exists l w', alloc_block b w = (Ret l, w') /\ get_block w' l = Some b /\
    pipes w' = pipes w /\ mem_keeps (mem w) (mem w').
Proof.
  unfold alloc_block. rewrite bind_get. set (l := fresh _). set (w' := World _ _ _). exists l, w'.
  split; [done|]. split; [|done]. unfold get_block, w'. cbn. rewrite !lookup_insert_eq. by destruct b.
Qed.

Lemma alloc_pipe_run (w : world) p :
  exists l, alloc_pipe p w = (Ret l, set_pipes (<[l := p]> (pipes w)) w) /\ pipes w !! l = None.
Proof. exists (fresh (dom (pipes w))). split; [done|]. apply not_elem_of_dom, is_fresh. Qed.

End world.
