(* ===== verification/LibIndex.v ===== *)
(** [lib/index.go]: the index objects, over C's heap of [lzma_index] objects.

    A call of a C function on a NULL pointer or on a freed index is undefined
    in C: the model stops with the run-time errors [NilDereference] and
    [UseAfterFree], and freeing an index twice is a use after free. *)

From S2P Require Import Prelude Bufpipe Liblzma SmallLzma Lib World.

Section index.
Context {BP : Bufpipe} {L : Liblzma}.

Definition set_index (h : gmap loc lzma_index) : M world unit :=
  modify (fun w => set_mem (CMem (cm_block (mem w)) h (cm_ixptr (mem w))) w).
Definition set_ptr (ix : loc) (p : option loc) : M world unit :=
  modify (fun w => set_mem (CMem (cm_block (mem w)) (cm_index (mem w)) (<[ix := p]> (cm_ixptr (mem w)))) w).

(** [ix.ptr] *)
Definition ptr (ix : loc) : M world (option loc) :=
  w ← get;
  match cm_ixptr (mem w) !! ix with
  | Some p => mret p
  | None => panic (PRun NilDereference)
  end.

(** What a C function finds behind the pointer it is given. *)
Definition c_index (p : option loc) : M world (loc * lzma_index) :=
  match p with
  | None => panic (PRun NilDereference)
  | Some a => w ← get;
              match cm_index (mem w) !! a with
              | Some i => mret (a, i)
              | None => panic (PRun UseAfterFree)
              end
  end.

(** [new(Index)] with the pointer [p]. *)
Definition new_Index (p : option loc) : M world loc :=
  w ← get;
  let ix := fresh (dom (cm_ixptr (mem w))) in
  set_ptr ix p;; mret ix.

(** The allocating C functions: [lzma_index_init] and [lzma_index_dup]. *)
Definition c_alloc (i : lzma_index) : M world (option loc) :=
  w ← get;
  match lzma_alloc (mem w) with
  | None => mret None
  | Some a => set_index (<[a := i]> (cm_index (mem w)));; mret (Some a)
  end.

Definition NewIndex : M world (option loc * error) :=
  p ← c_alloc lzma_index_empty;
  match p with
  | None => mret (None, NewError MEM_ERROR)
  | Some _ => ix ← new_Index p; mret (Some ix, None)
  end.

(** [End] of a [*Index]; [None] is the nil pointer. *)
Definition End (ix : option loc) : M world unit :=
  match ix with
  | None => panic (PRun NilDereference)
  | Some ix =>
      p ← ptr ix;
      (match p with
       | None => mret tt
       | Some _ => r ← c_index p;
                   w ← get;
                   set_index (delete (fst r) (cm_index (mem w)))
       end);;
      set_ptr ix None
  end.

(** A C function that changes an index in place and returns a status. *)
Definition c_update (ix : loc) (f : lzma_index -> Z * lzma_index) : M world error :=
  p ← ptr ix;
  r ← c_index p;
  let '(a, i) := r in
  let '(ret, i') := f i in
  w ← get;
  set_index (<[a := i']> (cm_index (mem w)));;
  mret (NewError ret).

Definition c_read (ix : loc) (f : lzma_index -> Z) : M world Z :=
  p ← ptr ix;
  r ← c_index p;
  mret (f (snd r)).

Definition Index_Append (ix : loc) (unpadSize uncompSize : Z) : M world error :=
  c_update ix (fun i => lzma_index_append i (uint64 unpadSize) (uint64 uncompSize)).

Definition StreamCount (ix : loc) : M world Z := c_read ix (fun i => int64 (lzma_index_stream_count i)).
Definition BlockCount (ix : loc) : M world Z := c_read ix (fun i => int64 (lzma_index_block_count i)).
Definition Size (ix : loc) : M world Z := c_read ix (fun i => int64 (lzma_index_size i)).
Definition StreamSize (ix : loc) : M world Z := c_read ix (fun i => int64 (lzma_index_stream_size i)).
Definition Index_TotalSize (ix : loc) : M world Z := c_read ix (fun i => int64 (lzma_index_total_size i)).
Definition FileSize (ix : loc) : M world Z := c_read ix (fun i => int64 (lzma_index_file_size i)).
Definition UncompressedSize (ix : loc) : M world Z :=
  c_read ix (fun i => int64 (lzma_index_uncompressed_size i)).
Definition Checks (ix : loc) : M world Z := c_read ix (fun i => uint32 (lzma_index_checks i)).

Definition Index_StreamFlags (ix : loc) (flags : StreamFlags) : M world error :=
  c_update ix (fun i => lzma_index_stream_flags i flags).
Definition StreamPadding (ix : loc) (padding : Z) : M world error :=
  c_update ix (fun i => lzma_index_stream_padding i (uint64 padding)).

(** [lzma_index_cat] frees its second argument when it succeeds. *)
Definition Cat (dest src : loc) : M world error :=
  pd ← ptr dest;
  ps ← ptr src;
  d ← c_index pd;
  s ← c_index ps;
  let '(ret, i) := lzma_index_cat (snd d) (snd s) in
  match NewError ret with
  | Some e => mret (Some e)
  | None =>
      w ← get;
      set_index (delete (fst s) (<[fst d := i]> (cm_index (mem w))));;
      set_ptr src None;;
      mret None
  end.

Definition Dup (ix1 : loc) : M world (option loc * error) :=
  p1 ← ptr ix1;
  r ← c_index p1;
  p2 ← c_alloc (snd r);
  match p2 with
  | None => mret (None, Some (LibError MEM_ERROR))
  | Some _ => ix2 ← new_Index p2; mret (Some ix2, None)
  end.

(** * Iterators *)

Record IndexIter : Type := IndexIterV { iter : iter_t; iter_index : loc }.

Definition NewIter (ix : loc) : M world IndexIter :=
  p ← ptr ix;
  r ← c_index p;
  mret (IndexIterV (lzma_index_iter_init (fst r)) ix).

(** The result is [C function != 0]: true when there is nothing further. *)
Definition Next (it : IndexIter) (mode : Z) : M world (bool * IndexIter) :=
  r ← c_index (Some (it_index (iter it)));
  let '(stop, it') := lzma_index_iter_next (iter it) (snd r) (uint32 mode) in
  mret (stop, IndexIterV it' (iter_index it)).

Definition Locate (it : IndexIter) (offset : Z) : M world (bool * IndexIter) :=
  r ← c_index (Some (it_index (iter it)));
  let '(stop, it') := lzma_index_iter_locate (iter it) (snd r) (uint64 offset) in
  mret (stop, IndexIterV it' (iter_index it)).

Definition Rewind (it : IndexIter) : IndexIter :=
  IndexIterV (lzma_index_iter_rewind (iter it)) (iter_index it).

Definition Stream_GetFlags (it : IndexIter) : option StreamFlags := it_stream_flags (iter it).
Definition Stream_GetNumber (it : IndexIter) : Z := int64 (it_stream_number (iter it)).
Definition Stream_GetBlockCount (it : IndexIter) : Z := int64 (it_stream_block_count (iter it)).
Definition Stream_GetCompressedSize (it : IndexIter) : Z := int64 (it_stream_compressed_size (iter it)).
Definition Stream_GetUncompressedSize (it : IndexIter) : Z := int64 (it_stream_uncompressed_size (iter it)).
Definition Stream_GetPadding (it : IndexIter) : Z := int64 (it_stream_padding (iter it)).
Definition Block_GetNumberInFile (it : IndexIter) : Z := int64 (it_block_number_in_file (iter it)).
Definition Block_GetNumberInStream (it : IndexIter) : Z := int64 (it_block_number_in_stream (iter it)).
Definition Block_GetCompressedFileOffset (it : IndexIter) : Z :=
  int64 (it_block_compressed_file_offset (iter it)).
Definition Block_GetUncompressedFileOffset (it : IndexIter) : Z :=
  int64 (it_block_uncompressed_file_offset (iter it)).
Definition Block_GetCompressedStreamOffset (it : IndexIter) : Z :=
  int64 (it_block_compressed_stream_offset (iter it)).
Definition Block_GetUncompressedStreamOffset (it : IndexIter) : Z :=
  int64 (it_block_uncompressed_stream_offset (iter it)).
Definition Block_GetUncompressedSize (it : IndexIter) : Z := int64 (it_block_uncompressed_size (iter it)).
Definition Block_GetUnpaddedSize (it : IndexIter) : Z := int64 (it_block_unpadded_size (iter it)).
Definition Block_GetTotalSize (it : IndexIter) : Z := int64 (it_block_total_size (iter it)).

(** * Memory safety *)
Context {LS : LiblzmaSpec L}.

Definition ptr_of (w : world) (ix : loc) : option loc := default None (cm_ixptr (mem w) !! ix).

(** Every pointer in an [Index] is that of a live C index, and no two [Index]
    objects hold the same one. *)
Record index_inv (w : world) : Prop := {
  inv_live : forall ix a, ptr_of w ix = Some a -> is_Some (cm_index (mem w) !! a);
  inv_owner : forall ix ix' a, ptr_of w ix = Some a -> ptr_of w ix' = Some a -> ix = ix';
}.

Lemma ptr_run (w : world) ix p : cm_ixptr (mem w) !! ix = Some p -> ptr ix w = (Ret p, w).
Proof. intros H. unfold ptr. by rewrite bind_get, H. Qed.

Lemma c_index_run (w : world) a i : cm_index (mem w) !! a = Some i -> c_index (Some a) w = (Ret (a, i), w).
Proof. intros H. unfold c_index. by rewrite bind_get, H. Qed.

Lemma c_read_run (w : world) ix a i f :
  cm_ixptr (mem w) !! ix = Some (Some a) -> cm_index (mem w) !! a = Some i -> c_read ix f w = (Ret (f i), w).
Proof.
  intros Hp Hi. unfold c_read. rewrite (bind_ret _ _ _ _ _ (ptr_run _ _ _ Hp)).
  by rewrite (bind_ret _ _ _ _ _ (c_index_run _ _ _ Hi)).
Qed.

(** [End] leaves the pipes alone. *)
Lemma End_run (w : world) ix p :
  cm_ixptr (mem w) !! ix = Some p -> (forall a, p = Some a -> is_Some (cm_index (mem w) !! a)) ->
  exists w', End (Some ix) w = (Ret tt, w') /\ pipes w' = pipes w /\ blk_go w' = blk_go w.
Proof.
  intros Hp Hi. unfold End. rewrite (bind_ret _ _ _ _ _ (ptr_run _ _ _ Hp)). destruct p as [a|].
  - destruct (Hi a eq_refl) as [i Ha]. rewrite bind_run, (bind_ret _ _ _ _ _ (c_index_run _ _ _ Ha)), bind_get. by eexists.
  - by eexists.
Qed.

Lemma empty_inv : index_inv empty_world.
Proof. split; intros *; unfold ptr_of; cbn; rewrite lookup_empty; done. Qed.

(** A computation that keeps the invariant and never touches freed memory. *)
Definition safe {A} (m : M world A) : Prop :=
  forall w, index_inv w -> (m w).1 <> Pan (PRun UseAfterFree) /\ index_inv (m w).2.

Lemma safe_bind {A B} (m : M world A) (k : A -> M world B) :
  safe m -> (forall a, safe (k a)) -> safe (m ≫= k).
Proof.
  intros Hm Hk w Hw. rewrite bind_run. destruct (Hm w Hw) as [H1 H2].
  destruct (m w) as [[a|p|] w']; cbn in *; [by apply Hk|split; [congruence|done]|done].
Qed.

Lemma safe_ret {A} (a : A) : safe (mret a).
Proof. intros w Hw. done. Qed.

Lemma safe_read {A} (m : M world A) :
  (forall w, index_inv w -> (m w).1 <> Pan (PRun UseAfterFree) /\ (m w).2 = w) -> safe m.
Proof. intros H w Hw. destruct (H w Hw) as [H1 ->]. done. Qed.

(** [ix.ptr] followed by a C call on it. *)
Lemma deref_cases ix w :
  index_inv w ->
  (exists p, ptr ix w = (Pan (PRun p), w) /\ p <> UseAfterFree) \/
  (ptr ix w = (Ret None, w) /\ ptr_of w ix = None) \/
  (exists a i, ptr ix w = (Ret (Some a), w) /\ c_index (Some a) w = (Ret (a, i), w) /\
     ptr_of w ix = Some a /\ cm_index (mem w) !! a = Some i).
Proof.
  intros [Hl _]. unfold ptr, ptr_of, c_index. mrun.
  destruct (cm_ixptr (mem w) !! ix) as [[a|]|] eqn:Ep; [|by right; left|left; by eexists].
  right; right. destruct (Hl ix a) as [i Hi]; [unfold ptr_of; by rewrite Ep|].
  exists a, i. rewrite Hi. done.
Qed.

Lemma set_index_inv w h :
  index_inv w ->
  (forall ix a, ptr_of w ix = Some a -> is_Some (h !! a)) ->
  index_inv (set_index h w).2.
Proof. intros [H1 H2] Hh. split; unfold ptr_of in *; cbn; auto. Qed.

Lemma set_ptr_inv w ix p :
  index_inv w ->
  (forall a, p = Some a -> is_Some (cm_index (mem w) !! a) /\ forall ix', ptr_of w ix' <> Some a) ->
  index_inv (set_ptr ix p w).2.
Proof.
  intros [H1 H2] Hp. split; unfold ptr_of in *; cbn.
  - intros ix' a Ha. destruct (decide (ix' = ix)) as [->|Hne].
    + rewrite lookup_insert_eq in Ha. cbn in Ha. by apply Hp.
    + rewrite lookup_insert_ne in Ha by done. eauto.
  - intros ix1 ix2 a Ha Hb.
    destruct (decide (ix1 = ix)) as [->|H3], (decide (ix2 = ix)) as [->|H4]; [done| | |];
      rewrite ?lookup_insert_eq, ?lookup_insert_ne in Ha by done;
      rewrite ?lookup_insert_eq, ?lookup_insert_ne in Hb by done; cbn in *; eauto.
    + destruct (Hp a Ha) as [_ Hn]. by destruct (Hn ix2).
    + destruct (Hp a Hb) as [_ Hn]. by destruct (Hn ix1).
Qed.

Lemma safe_c_update ix f : safe (c_update ix f).
Proof.
  intros w Hw. unfold c_update. rewrite bind_run.
  destruct (deref_cases ix w Hw) as [(p & -> & Hp)|[[-> _]|(a & i & -> & Hc & Hpt & Hi)]]; cbn [fst snd].
  - split; [congruence|done].
  - rewrite bind_run. cbn. split; [congruence|done].
  - rewrite (bind_ret _ _ _ _ _ Hc). destruct (f i) as [ret i']. rewrite bind_get.
    rewrite bind_run. cbn [fst snd set_index modify]. split; [done|].
    apply (set_index_inv w); [done|]. intros ix' a' Ha'. destruct (decide (a' = a)) as [->|Hne].
    + rewrite lookup_insert_eq. eauto.
    + rewrite lookup_insert_ne by done. by eapply inv_live.
Qed.

Lemma safe_c_read ix f : safe (c_read ix f).
Proof.
  apply safe_read. intros w Hw. unfold c_read. rewrite bind_run.
  destruct (deref_cases ix w Hw) as [(p & -> & Hp)|[[-> _]|(a & i & -> & Hc & _)]]; cbn [fst snd].
  - split; [congruence|done].
  - rewrite bind_run. cbn. split; [congruence|done].
  - by rewrite (bind_ret _ _ _ _ _ Hc).
Qed.

(** Allocating an index and the [Index] object that owns it. *)
Lemma alloc_index_safe i w a :
  index_inv w -> lzma_alloc (mem w) = Some a ->
  let w1 := (set_index (<[a := i]> (cm_index (mem w))) w).2 in
  index_inv w1 /\ is_Some (cm_index (mem w1) !! a) /\ forall ix, ptr_of w1 ix <> Some a.
Proof.
  intros Hw Ha w1. pose proof (alloc_fresh _ _ Ha) as Hf. split_and!.
  - apply set_index_inv; [done|]. intros ix b Hb. destruct (decide (b = a)) as [->|Hne].
    + rewrite lookup_insert_eq. eauto.
    + rewrite lookup_insert_ne by done. by eapply inv_live.
  - cbn. rewrite lookup_insert_eq. eauto.
  - intros ix Hix. destruct (inv_live _ Hw ix a) as [x Hx]; [done|]. congruence.
Qed.

Lemma new_Index_inv w a :
  index_inv w -> is_Some (cm_index (mem w) !! a) -> (forall ix, ptr_of w ix <> Some a) ->
  exists ix w', new_Index (Some a) w = (Ret ix, w') /\ index_inv w'.
Proof.
  intros Hw Ha Hn. unfold new_Index. rewrite bind_get. eexists _, _. split; [reflexivity|].
  apply (set_ptr_inv w _ (Some a)); [done|]. by intros ? [= <-].
Qed.

Lemma safe_NewIndex : safe NewIndex.
Proof.
  intros w Hw. unfold NewIndex, c_alloc. rewrite !bind_run. cbn [get].
  destruct (lzma_alloc (mem w)) as [a|] eqn:Ea; [|cbn; done].
  destruct (alloc_index_safe lzma_index_empty w a Hw Ea) as (H1 & H2 & H3). rewrite bind_run.
  destruct (set_index _ w) as [o w1] eqn:E1. injection E1 as <- <-. cbn [snd] in *. cbn [mret M_ret].
  destruct (new_Index_inv _ a H1 H2 H3) as (ix & w' & En & Hi). rewrite bind_run, En. done.
Qed.

Lemma safe_Dup ix : safe (Dup ix).
Proof.
  intros w Hw. unfold Dup. rewrite bind_run.
  destruct (deref_cases ix w Hw) as [(p & -> & Hp)|[[-> _]|(a & i & -> & Hc & _)]]; cbn [fst snd].
  - split; [congruence|done].
  - rewrite bind_run. cbn. split; [congruence|done].
  - rewrite (bind_ret _ _ _ _ _ Hc). unfold c_alloc. rewrite !bind_run. cbn [get snd].
    destruct (lzma_alloc (mem w)) as [b|] eqn:Ea; [|cbn; done].
    destruct (alloc_index_safe i w b Hw Ea) as (H1 & H2 & H3). rewrite bind_run.
    destruct (set_index _ w) as [o w1] eqn:E1. injection E1 as <- <-. cbn [snd] in *. cbn [mret M_ret].
    destruct (new_Index_inv _ b H1 H2 H3) as (ix2 & w' & En & Hi). rewrite bind_run, En. done.
Qed.

(** Freeing the index that [ix] holds, and forgetting the pointer. *)
Lemma release_inv w ix a :
  index_inv w -> ptr_of w ix = Some a ->
  index_inv (set_ptr ix None (set_index (delete a (cm_index (mem w))) w).2).2.
Proof.
  intros Hw Ha. split; unfold ptr_of; cbn.
  - intros ix' b Hb. destruct (decide (ix' = ix)) as [->|Hne]; [by rewrite lookup_insert_eq in Hb|].
    rewrite lookup_insert_ne in Hb by done.
    rewrite lookup_delete_ne; [by eapply inv_live|]. intros ->. apply Hne. by eapply inv_owner.
  - intros ix1 ix2 b Hb Hc.
    destruct (decide (ix1 = ix)) as [->|?]; [by rewrite lookup_insert_eq in Hb|].
    destruct (decide (ix2 = ix)) as [->|?]; [by rewrite lookup_insert_eq in Hc|].
    rewrite lookup_insert_ne in Hb, Hc by done. by eapply inv_owner.
Qed.

Lemma safe_End ix : safe (End ix).
Proof.
  intros w Hw. destruct ix as [ix|]; [|split; [done|done]]. unfold End. rewrite bind_run.
  destruct (deref_cases ix w Hw) as [(p & -> & Hp)|[[-> Hn]|(a & i & -> & Hc & Hpt & Hi)]]; cbn [fst snd].
  - split; [congruence|done].
  - rewrite bind_mret. split; [done|]. by apply set_ptr_inv.
  - rewrite bind_run, (bind_ret _ _ _ _ _ Hc), bind_get. cbn [fst]. split; [done|].
    by apply (release_inv w ix a).
Qed.

Lemma safe_Cat dest src : dest <> src -> safe (Cat dest src).
Proof.
  intros Hne w Hw. unfold Cat. rewrite bind_run.
  destruct (deref_cases dest w Hw) as [(p & -> & Hp)|[[-> Hn]|(a & i & -> & Hc & Hpt & Hi)]];
    [cbn; split; [congruence|done]| |]; rewrite bind_run;
    destruct (deref_cases src w Hw) as [(p & -> & Hp')|[[-> Hn']|(b & j & -> & Hc' & Hpt' & Hj)]];
    try (cbn; split; [congruence|done]);
    try (rewrite (bind_panic _ _ w (PRun NilDereference) w) by done; done).
  - rewrite (bind_ret _ _ _ _ _ Hc). split; [done|done].
  - rewrite (bind_ret _ _ _ _ _ Hc), (bind_ret _ _ _ _ _ Hc'). cbn [fst snd].
    destruct (lzma_index_cat i j) as [ret k]. destruct (NewError ret); [done|].
    rewrite bind_get, bind_run. cbn [fst snd set_index modify]. split; [done|].
    assert (Hab : a <> b) by (intros ->; apply Hne; by eapply inv_owner).
    assert (H1 : index_inv (set_index (<[a := k]> (cm_index (mem w))) w).2).
    { apply set_index_inv; [done|]. intros ix c Hx. destruct (decide (c = a)) as [->|?].
      - rewrite lookup_insert_eq. eauto.
      - rewrite lookup_insert_ne by done. by eapply inv_live. }
    exact (release_inv _ src b H1 Hpt').
Qed.

(** One call of [lzma_code], of any coder. *)
Definition code_step (c : lzma_coder) (act : Z) (inp : list Z) (n : Z) : M world unit :=
  modify (fun w => set_mem (cr_mem (lzma_code c (mem w) act inp n)) w).

Lemma safe_code_step c act inp n : safe (code_step c act inp n).
Proof.
  intros w Hw. split; [done|]. unfold code_step. cbn [snd modify]. set (m' := cr_mem _).
  assert (Hcase : forall ix a, ptr_of (set_mem m' w) ix = Some a ->
    ptr_of w ix = Some a \/ (lzma_coder_cell c = Some ix /\ cm_index (mem w) !! a = None /\ is_Some (cm_index m' !! a))).
  { intros ix a Ha. unfold ptr_of in *. cbn in Ha.
    destruct (decide (lzma_coder_cell c = Some ix)) as [Hc|Hc].
    - destruct (cm_ixptr m' !! ix) as [[b|]|] eqn:E1; cbn in Ha; try done. injection Ha as ->.
      destruct (code_index_new _ _ _ _ _ _ _ E1) as [->|[H1 H2]]; [by left|by right].
    - left. unfold m' in Ha. by rewrite (code_cell _ _ _ _ _ _ Hc) in Ha. }
  split; cbn.
  - intros ix a Ha. destruct (Hcase ix a Ha) as [Ho|(_ & _ & Hn)]; [|done].
    destruct (inv_live _ Hw ix a Ho) as [x Hx]. exists x. by apply code_index_keep.
  - intros ix1 ix2 a H1 H2.
    destruct (Hcase ix1 a H1) as [Ho1|(Hc1 & Hn1 & _)], (Hcase ix2 a H2) as [Ho2|(Hc2 & Hn2 & _)].
    + by eapply inv_owner.
    + destruct (inv_live _ Hw ix1 a Ho1) as [x Hx]. congruence.
    + destruct (inv_live _ Hw ix2 a Ho2) as [x Hx]. congruence.
    + congruence.
Qed.

(** The operations on indexes that a program can call. *)
Inductive index_op : Type :=
| ONew | OEnd (ix : loc) | ODup (ix : loc)
| OAppend (ix : loc) (u v : Z) | OFlags (ix : loc) (f : StreamFlags) | OPadding (ix : loc) (p : Z)
| OSize (ix : loc) | OCat (dest src : loc)
| OCode (c : lzma_coder) (act : Z) (inp : list Z) (n : Z).

Definition run_op (op : index_op) : M world unit :=
  match op with
  | ONew => NewIndex;; mret tt
  | OEnd ix => End (Some ix)
  | ODup ix => Dup ix;; mret tt
  | OAppend ix u v => Index_Append ix u v;; mret tt
  | OFlags ix f => Index_StreamFlags ix f;; mret tt
  | OPadding ix p => StreamPadding ix p;; mret tt
  | OSize ix => Size ix;; mret tt
  | OCat d s => Cat d s;; mret tt
  | OCode c act inp n => code_step c act inp n
  end.

Definition op_ok (op : index_op) : Prop :=
  match op with OCat d s => d <> s | _ => True end.

Lemma safe_run_op op : op_ok op -> safe (run_op op).
Proof.
  destruct op; intros Hok; cbn [run_op]; try (apply safe_bind; [|intros; apply safe_ret]).
  - apply safe_NewIndex.
  - apply safe_End.
  - apply safe_Dup.
  - apply safe_c_update.
  - apply safe_c_update.
  - apply safe_c_update.
  - apply safe_c_read.
  - by apply safe_Cat.
  - apply safe_code_step.
Qed.

(** A program runs operations one after the other; one that panics leaves the
    world it had reached. *)
Fixpoint run_ops (ops : list index_op) (w : world) : list (outcome unit) * world :=
  match ops with
  | [] => ([], w)
  | op :: ops =>
      let '(o, w1) := run_op op w in
      let '(os, w2) := run_ops ops w1 in (o :: os, w2)
  end.

Lemma run_ops_safe ops w :
  index_inv w -> Forall op_ok ops ->
  Forall (fun o => o <> Pan (PRun UseAfterFree)) (run_ops ops w).1 /\ index_inv (run_ops ops w).2.
Proof.
  revert w. induction ops as [|op ops IH]; intros w Hw Hok; [done|].
  apply Forall_cons in Hok as [Hop Hok]. cbn [run_ops].
  destruct (safe_run_op op Hop w Hw) as [H1 H2]. destruct (run_op op w) as [o w1]. cbn in *.
  destruct (IH w1 H2 Hok) as [H3 H4]. destruct (run_ops ops w1) as [os w2]. cbn in *.
  split; [by constructor|done].
Qed.


(** C20: A successful [Cat] moves the source: the destination's index becomes
    the concatenation, the source's is freed and its [Index] is empty, so that a
    later [End] of the source frees nothing. A failing [Cat] changes nothing. *)
Theorem Cat_moves dest src w a b i j :
  index_inv w -> dest <> src ->
  ptr_of w dest = Some a -> ptr_of w src = Some b ->
  cm_index (mem w) !! a = Some i -> cm_index (mem w) !! b = Some j ->
  match (lzma_index_cat i j).1 =? OK with
  | false => Cat dest src w = (Ret (NewError (lzma_index_cat i j).1), w)
  | true => exists w', Cat dest src w = (Ret None, w') /\
      ptr_of w' dest = Some a /\ cm_index (mem w') !! a = Some (lzma_index_cat i j).2 /\
      ptr_of w' src = None /\ cm_index (mem w') !! b = None /\
      exists w'', End (Some src) w' = (Ret tt, w'') /\ cm_index (mem w'') = cm_index (mem w')
  end.
Proof.
  intros Hw Hne Ha Hb Hi Hj. assert (Hab : a <> b) by (intros ->; apply Hne; by eapply inv_owner).
  assert (Hp : forall ix c, ptr_of w ix = Some c -> ptr ix w = (Ret (Some c), w)).
  { intros ix c Hc. unfold ptr, ptr_of in *. mrun. by destruct (cm_ixptr (mem w) !! ix) as [[]|]; simplify_eq/=. }
  assert (Hci : forall c k, cm_index (mem w) !! c = Some k -> c_index (Some c) w = (Ret (c, k), w)).
  { intros c k Hk. unfold c_index. mrun. by rewrite Hk. }
  unfold Cat. rewrite (bind_ret _ _ _ _ _ (Hp _ _ Ha)), (bind_ret _ _ _ _ _ (Hp _ _ Hb)).
  rewrite (bind_ret _ _ _ _ _ (Hci _ _ Hi)), (bind_ret _ _ _ _ _ (Hci _ _ Hj)). cbn [fst snd].
  destruct (lzma_index_cat i j) as [ret k]. cbn [fst snd]. unfold NewError.
  destruct (ret =? OK); [|done]. rewrite bind_get. eexists. split; [reflexivity|].
  unfold ptr_of in *. cbn. rewrite lookup_insert_eq, lookup_delete_eq, lookup_delete_ne, lookup_insert_eq,
    lookup_insert_ne by done. split_and!; try done.
  unfold End, ptr. eexists. mrun. rewrite lookup_insert_eq. split; [done|]. done.
Qed.

End index.

(** * On the small library *)
Module IndexRuns.
#[local] Existing Instance Small.liblzma.
#[local] Existing Instance Small.liblzma_spec.
#[local] Existing Instance Plain.bufpipe.

(** Two indexes, a duplicate, a concatenation, and every index ended twice. *)
Definition ops : list index_op :=
  [ONew; ONew; OAppend 1 100 1000; OAppend 2 50 500; ODup 1; OCat 1 2;
   OEnd 1; OEnd 2; OEnd 3; OEnd 1; OEnd 2; OEnd 3; OSize 1].


Definition two : world := (run_ops [ONew; ONew; OAppend 1 100 1000; OAppend 2 50 500] empty_world).2.

Lemma Cat_moves_witness : exists w', Cat 1 2 two = (Ret None, w') /\ ptr_of w' 2 = None.
Proof.
  assert (Hinv : index_inv two).
  { apply (fun ops ok => proj2 (run_ops_safe ops empty_world empty_inv ok)).
    repeat (constructor; [exact I|]). constructor. }
  pose proof (Cat_moves 1 2 two 1 2 (Small.Ix [(100, 1000)] 0) (Small.Ix [(50, 500)] 0) Hinv) as H.
  destruct H as (w' & H1 & _ & _ & H2 & _); [discriminate|vm_compute; reflexivity..|].
  exists w'. done.
Defined.

End IndexRuns.
