(* ===== verification/Stream.v ===== *)
(** [lib/base.go], [lib/container.go] and the stream constructors of
    [lib/block.go] and [lib/index.go]: a [Stream] couples a coder of liblzma
    with two ring buffers, and [Process] and [ProcessPipe] pump bytes from a
    source through the coder to a sink.

    A computation of this file works on the stream and the world its pointers
    lead to; [Process] also on the caller's reader and writer, which are
    interfaces. The loops that Go does not bound run on fuel. *)

From S2P Require Import Prelude Bufpipe Liblzma Lib World LibIndex.

(** * The interfaces io.Reader and io.Writer

    [rd_Read r n] is [Read] of a slice of [n] bytes: the bytes that it put at
    the beginning of the slice (their number is the result), and the error.
    [wr_Write w bs] is [Write]. *)
Class IoReader (R : Type) : Type := rd_Read : R -> Z -> (list Z * error) * R.
Class IoWriter (W : Type) : Type := wr_Write : W -> list Z -> (Z * error) * W.

(** Their documented contract: a count within the slice. *)
Class IoReaderSpec (R : Type) {IR : IoReader R} : Prop :=
  read_count r n : 0 <= n -> zlen (rd_Read r n).1.1 <= n.
Class IoWriterSpec (W : Type) {IW : IoWriter W} : Prop :=
  write_count w bs : 0 <= (wr_Write w bs).1.1 <= zlen bs.

Section stream.
Context {BP : Bufpipe} {L : Liblzma}.

Definition chunkSize : Z := Z.shiftl 1 16.

(** The objects a stream keeps a reference to, for the garbage collector. *)
Inductive ref : Type :=
| RefOptions (o : options)
| RefFilters (f : Filters)
| RefBlock (l : loc)
| RefIndex (l : loc).

(** The C structure [lzma_stream] and the Go fields. [next_in] is the input
    that is left, so its length is [avail_in]; [written] are the bytes stored
    through [next_out] since [SetOutput]. *)
Record Stream : Type := StreamV {
  coder : lzma_coder;
  next_in : list Z;
  written : list Z;
  avail_out : Z;
  total_in : Z;
  total_out : Z;
  refs : list ref;
  inBuf : option loc;
  outBuf : option loc;
}.

Definition NewStream : Stream := StreamV lzma_coder_null [] [] 0 0 0 [] None None.

Definition set_coder (c : lzma_coder) (z : Stream) : Stream :=
  StreamV c (next_in z) (written z) (avail_out z) (total_in z) (total_out z) (refs z) (inBuf z) (outBuf z).
Definition appendRef (r : ref) (z : Stream) : Stream :=
  StreamV (coder z) (next_in z) (written z) (avail_out z) (total_in z) (total_out z) (refs z ++ [r])
          (inBuf z) (outBuf z).
Definition SetInput (buffer : list Z) (z : Stream) : Stream :=
  StreamV (coder z) buffer (written z) (avail_out z) (total_in z) (total_out z) (refs z) (inBuf z) (outBuf z).
Definition SetOutput (len : Z) (z : Stream) : Stream :=
  StreamV (coder z) (next_in z) [] len (total_in z) (total_out z) (refs z) (inBuf z) (outBuf z).
Definition GetAvailIn (z : Stream) : Z := zlen (next_in z).
Definition GetTotalIn (z : Stream) : Z := int64 (total_in z).
Definition GetAvailOut (z : Stream) : Z := avail_out z.
Definition GetTotalOut (z : Stream) : Z := int64 (total_out z).
Definition GetBuffers (z : Stream) : option loc * option loc := (outBuf z, inBuf z).
Definition Stream_GetCheck (z : Stream) : Z := lzma_get_check (coder z).

(** [lzma_end]: the coder is freed, the counters stay. *)
Definition Stream_End (z : Stream) : Stream := set_coder lzma_coder_null z.

(** The state of [Code], [CodeSlice] and [ProcessPipe]. *)
Definition zw : Type := Stream * world.

Definition Code (action : Z) : M zw error := fun '(z, w) =>
  let r := lzma_code (coder z) (mem w) (uint32 action) (next_in z) (avail_out z) in
  (Ret (NewError (cr_ret r)),
   (StreamV (cr_coder r) (drop (Z.to_nat (cr_consumed r)) (next_in z)) (written z ++ cr_out r)
            (avail_out z - zlen (cr_out r))
            (uint64 (total_in z + cr_consumed r)) (uint64 (total_out z + zlen (cr_out r)))
            (refs z) (inBuf z) (outBuf z),
    set_mem (cr_mem r) w)).

(** [dst] is a window of [dst] bytes; the bytes it begins with after the call
    are [written]. *)
Definition CodeSlice (action dst : Z) (src : list Z) : M zw (Z * Z * error) :=
  modify (fun '(z, w) => (SetOutput dst z, w));;
  modify (fun '(z, w) => (SetInput src z, w));;
  err ← Code action;
  s ← get;
  mret (dst - avail_out (fst s), zlen src - zlen (next_in (fst s)), err).

Definition SetBuffers (outB inB : option loc) : M zw unit :=
  s ← get;
  let bad o := match pipe_at (snd s) o with
               | Some p => negb (bp_Mode p =? RingPoll) | None => false end in
  if bad outB then panic (PStr "internal buffers must be in polling mode")
  else if bad inB then panic (PStr "internal buffers must be in polling mode")
  else modify (fun '(z, w) => (StreamV (coder z) (next_in z) (written z) (avail_out z) (total_in z)
                                       (total_out z) (refs z) inB outB, w)).

(** * Process *)
Section process.
Context {R W : Type} {IR : IoReader R} {IW : IoWriter W}.

(** The stream, the world, and the arguments [src] and [dst] ([None] is nil). *)
Record procst : Type := ProcSt {
  ps_strm : Stream;
  ps_world : world;
  ps_rd : option R;
  ps_wr : option W;
}.

Definition on_zw {A} (m : M zw A) : M procst A := fun s =>
  let '(o, (z, w)) := m (ps_strm s, ps_world s) in (o, ProcSt z w (ps_rd s) (ps_wr s)).
Definition upd_world (f : world -> world) : M procst unit :=
  modify (fun s => ProcSt (ps_strm s) (f (ps_world s)) (ps_rd s) (ps_wr s)).

Definition set_inBuf (b : option loc) (z : Stream) : Stream :=
  StreamV (coder z) (next_in z) (written z) (avail_out z) (total_in z) (total_out z) (refs z) b (outBuf z).
Definition set_outBuf (b : option loc) (z : Stream) : Stream :=
  StreamV (coder z) (next_in z) (written z) (avail_out z) (total_in z) (total_out z) (refs z) (inBuf z) b.

(** A new internal buffer. *)
Definition new_ring : M world loc := alloc_pipe (NewBufferPipe (make_slice chunkSize) RingPoll).
Definition alloc_ring (set : option loc -> Stream -> Stream) : M procst unit := fun s =>
  match new_ring (ps_world s) with
  | (Ret l, w) => (Ret tt, ProcSt (set (Some l) (ps_strm s)) w (ps_rd s) (ps_wr s))
  | (Pan p, w) => (Pan p, s)
  | (NoFuel, w) => (NoFuel, s)
  end.

(** Lazy allocation of the internal buffers. *)
Definition lazy_buffers : M procst unit :=
  s ← get;
  (match ps_rd s, inBuf (ps_strm s) with
   | Some _, None => alloc_ring set_inBuf
   | _, _ => mret tt
   end);;
  s ← get;
  match ps_wr s, outBuf (ps_strm s) with
  | Some _, None => alloc_ring set_outBuf
  | _, _ => mret tt
  end.

(** The loop that fills the input buffer. *)
Fixpoint fill_loop (fuel : nat) (rdErr : error) (inCnt : Z) : M procst (error * Z) :=
  match fuel with
  | O => no_fuel
  | S fuel =>
      s ← get;
      match rdErr, ps_rd s with
      | None, Some r =>
          if pipe_Length (ps_world s) (inBuf (ps_strm s)) =? 0 then
            let '(n, _, _) := pipe_WriteSlices (ps_world s) (inBuf (ps_strm s)) in
            let '((bs, rdErr), r') := rd_Read r n in
            put (ProcSt (ps_strm s) (pipe_Poke (inBuf (ps_strm s)) bs (ps_world s)) (Some r') (ps_wr s));;
            upd_world (pipe_WriteMark (inBuf (ps_strm s)) (zlen bs));;
            fill_loop fuel rdErr (inCnt + zlen bs)
          else mret (rdErr, inCnt)
      | _, _ => mret (rdErr, inCnt)
      end
  end.

(** The loop that drains the output buffer. *)
Fixpoint drain_loop (fuel : nat) (wrErr : error) (outCnt : Z) : M procst (error * Z) :=
  match fuel with
  | O => no_fuel
  | S fuel =>
      s ← get;
      match wrErr, ps_wr s with
      | None, Some wr =>
          if 0 <? pipe_Length (ps_world s) (outBuf (ps_strm s)) then
            let '(bs, _, _) := pipe_ReadSlices (ps_world s) (outBuf (ps_strm s)) in
            let '((n, wrErr), wr') := wr_Write wr bs in
            put (ProcSt (ps_strm s) (ps_world s) (ps_rd s) (Some wr'));;
            upd_world (pipe_ReadMark (outBuf (ps_strm s)) n);;
            drain_loop fuel wrErr (outCnt + n)
          else mret (wrErr, outCnt)
      | _, _ => mret (wrErr, outCnt)
      end
  end.

(** One call of the coder between the buffers: the error after masking. *)
Definition code_buffers (code : Z) : M procst error :=
  s ← get;
  let ib := inBuf (ps_strm s) in
  let ob := outBuf (ps_strm s) in
  let '(inSl, _, _) := pipe_ReadSlices (ps_world s) ib in
  let '(outLen, _, _) := pipe_WriteSlices (ps_world s) ob in
  r ← on_zw (CodeSlice code outLen inSl);
  let '(wrCnt, rdCnt, xzErr) := r in
  s' ← get;
  upd_world (pipe_Poke ob (written (ps_strm s')));;
  upd_world (pipe_ReadMark ib rdCnt);;
  upd_world (pipe_WriteMark ob wrCnt);;
  let no_src := match ps_rd s with None => true | Some _ => false end in
  let no_dst := match ps_wr s with None => true | Some _ => false end in
  mret (if (no_src || (0 <? zlen inSl)) && (no_dst || (0 <? outLen))
        then (if decide (xzErr = Some (LibError BUF_ERROR)) then None else xzErr)
        else xzErr).

(** The main loop; the switch at its end either returns or goes on. *)
Fixpoint process_loop (fuel : nat) (code : Z) (rdErr wrErr : error) (outCnt inCnt : Z) :
    M procst (Z * Z * error) :=
  match fuel with
  | O => no_fuel
  | S fuel' =>
      r ← fill_loop fuel rdErr inCnt;
      let '(rdErr, inCnt) := r in
      xzErr ← code_buffers code;
      r ← drain_loop fuel wrErr outCnt;
      let '(wrErr, outCnt) := r in
      s ← get;
      let out_len := pipe_Length (ps_world s) (outBuf (ps_strm s)) in
      let in_len := pipe_Length (ps_world s) (inBuf (ps_strm s)) in
      match wrErr with
      | Some _ => mret (outCnt, inCnt, wrErr)
      | None =>
          match xzErr, out_len =? 0 with
          | Some _, true => mret (outCnt, inCnt, xzErr)
          | _, _ =>
              match rdErr, (out_len =? 0) && (in_len =? 0) with
              | Some _, true => mret (outCnt, inCnt, rdErr)
              | _, _ => process_loop fuel' code rdErr wrErr outCnt inCnt
              end
          end
      end
  end.

Definition Process (fuel : nat) (code : Z) : M procst (Z * Z * error) :=
  s ← get;
  match ps_rd s, ps_wr s with
  | None, None => mret (0, 0, None)
  | _, _ => lazy_buffers;; process_loop fuel code None None 0 0
  end.

End process.

(** * ProcessPipe

    [dst] and [src] are pointers to pipes. The windows the pipes show are cut
    to [chunkSize]; [inB] and [outB] keep their values for a nil pipe. *)
Definition cut (n : Z) : Z := if chunkSize <? n then chunkSize else n.

Fixpoint processpipe_loop (fuel : nat) (code : Z) (dst src : option loc) (inB : list Z) (outB : Z)
    (outCnt inCnt : Z) : M zw (Z * Z * error) :=
  match fuel with
  | O => no_fuel
  | S fuel =>
      s ← get;
      let '(inB, _, err) := match src with
        | Some _ => pipe_ReadSlices (snd s) src | None => (inB, [], None) end in
      match err with
      | Some _ => mret (outCnt, inCnt, err)
      | None =>
          let inB := match src with
            | Some _ => take (Z.to_nat (cut (zlen inB))) inB | None => inB end in
          let '(outB, _, err) := match dst with
            | Some _ => pipe_WriteSlices (snd s) dst | None => (outB, 0, None) end in
          match err with
          | Some _ => mret (outCnt, inCnt, err)
          | None =>
              let outB := match dst with Some _ => cut outB | None => outB end in
              r ← CodeSlice code outB inB;
              let '(wrCnt, rdCnt, err) := r in
              modify (fun '(z, w) => (z, pipe_Poke dst (written z) w));;
              modify (fun '(z, w) => (z, pipe_ReadMark src rdCnt w));;
              modify (fun '(z, w) => (z, pipe_WriteMark dst wrCnt w));;
              let inCnt := inCnt + rdCnt in
              let outCnt := outCnt + wrCnt in
              match err with
              | Some _ => mret (outCnt, inCnt, err)
              | None => processpipe_loop fuel code dst src inB outB outCnt inCnt
              end
          end
      end
  end.

Definition ProcessPipe (fuel : nat) (code : Z) (dst src : option loc) : M zw (Z * Z * error) :=
  match src, dst with
  | None, None => mret (0, 0, None)
  | _, _ => processpipe_loop fuel code dst src [] 0 0 0
  end.

(** * Constructors *)

(** A C function that sets up a coder, and the references to keep. *)
Definition stream_of (r : Z * lzma_coder) (rf : list ref) : option Stream * error :=
  match NewError (fst r) with
  | Some e => (None, Some e)
  | None => (Some (foldl (fun z x => appendRef x z) (set_coder (snd r) NewStream) rf), None)
  end.

Definition NewStreamLZMAAloneEncoder (opts : options) : option Stream * error :=
  stream_of (lzma_alone_encoder opts) [RefOptions opts].
Definition NewStreamLZMAAloneDecoder (memlimit : Z) : option Stream * error :=
  stream_of (lzma_alone_decoder (uint64 memlimit)) [].
Definition NewStreamEncoder (filters : Filters) (check : Z) : option Stream * error :=
  stream_of (lzma_stream_encoder (fl_filters filters) (uint32 check)) [RefFilters filters].
Definition NewStreamDecoder (memlimit flags : Z) : option Stream * error :=
  stream_of (lzma_stream_decoder (uint64 memlimit) (uint32 flags)) [].

Definition Block_NewStreamEncoder (b : loc) : M world (option Stream * error) :=
  w ← get;
  mret (stream_of (lzma_block_encoder (mem w) b) [RefBlock b]).
Definition Block_NewStreamDecoder (b : loc) : M world (option Stream * error) :=
  w ← get;
  mret (stream_of (lzma_block_decoder (mem w) b) [RefBlock b]).

Definition Index_NewStreamEncoder (ix : loc) : M world (option Stream * error) :=
  p ← ptr ix;
  r ← c_index p;
  w ← get;
  mret (stream_of (lzma_index_encoder (mem w) (fst r)) [RefIndex ix]).
Definition Index_NewStreamDecoder (ix : loc) (memlimit : Z) : M world (option Stream * error) :=
  End (Some ix);;
  w ← get;
  mret (stream_of (lzma_index_decoder (mem w) ix (uint64 memlimit)) [RefIndex ix]).

End stream.
Arguments procst {BP L} R W.
