(* ===== verification/StreamPump.v ===== *)
(** What [Stream.Process] does with the bytes: the trace of a run as sequences
    of [Read], [lzma_code] and [Write] calls, and the invariant that connects
    them through the two ring buffers. *)

From S2P Require Import Prelude Bufpipe Liblzma Lib World LibIndex Stream.

Section pump.
Context {BP : Bufpipe} {L : Liblzma} {BS : BufpipeSpec BP} {LS : LiblzmaSpec L}.
Context {R W : Type} {IR : IoReader R} {IW : IoWriter W} {RS : IoReaderSpec R} {WS : IoWriterSpec W}.

(** * Traces *)

(** [reads r bs r']: some calls of [Read] delivered [bs]. *)
Inductive reads : R -> list Z -> R -> Prop :=
| reads_nil r : reads r [] r
| reads_step r n bs e r1 bs' r2 :
    rd_Read r n = ((bs, e), r1) -> reads r1 bs' r2 -> reads r (bs ++ bs') r2.

(** [writes w bs w']: some calls of [Write] accepted [bs]. *)
Inductive writes : W -> list Z -> W -> Prop :=
| writes_nil w : writes w [] w
| writes_step w buf n e w1 bs' w2 :
    wr_Write w buf = ((n, e), w1) -> writes w1 bs' w2 -> writes w (take (Z.to_nat n) buf ++ bs') w2.

(** [codes act c m ins outs c' m']: some calls of [lzma_code] took [ins] and
    produced [outs]. *)
Inductive codes (act : Z) : lzma_coder -> cmem_t -> list Z -> list Z -> lzma_coder -> cmem_t -> Prop :=
| codes_nil c m : codes act c m [] [] c m
| codes_step c m inp n r ins outs c' m' :
    r = lzma_code c m (uint32 act) inp n ->
    codes act (cr_coder r) (cr_mem r) ins outs c' m' ->
    codes act c m (take (Z.to_nat (cr_consumed r)) inp ++ ins) (cr_out r ++ outs) c' m'.

(** Some calls, and a last one that returned the error [e]. *)
Definition last_call (act : Z) (c0 : lzma_coder) (m0 : cmem_t) (e : error) (c' : lzma_coder) (m' : cmem_t) : Prop :=
  exists i o c m inp n, codes act c0 m0 i o c m /\ let r := lzma_code c m (uint32 act) inp n in
    NewError (cr_ret r) = e /\ c' = cr_coder r /\ m' = cr_mem r.

Lemma reads_trans r a r1 b r2 : reads r a r1 -> reads r1 b r2 -> reads r (a ++ b) r2.
Proof. induction 1; intros Hb; [done|]. rewrite <- app_assoc. econstructor; eauto. Qed.

Lemma reads_snoc r a r1 n bs e r2 :
  reads r a r1 -> rd_Read r1 n = ((bs, e), r2) -> reads r (a ++ bs) r2.
Proof.
  intros H1 H2. eapply reads_trans; [done|]. rewrite <- (app_nil_r bs). by econstructor; [|constructor].
Qed.

Lemma writes_trans w a w1 b w2 : writes w a w1 -> writes w1 b w2 -> writes w (a ++ b) w2.
Proof. induction 1; intros Hb; [done|]. rewrite <- app_assoc. econstructor; eauto. Qed.

Lemma writes_snoc w a w1 buf n e w2 :
  writes w a w1 -> wr_Write w1 buf = ((n, e), w2) -> writes w (a ++ take (Z.to_nat n) buf) w2.
Proof.
  intros H1 H2. eapply writes_trans; [done|]. rewrite <- (app_nil_r (take _ buf)).
  by econstructor; [|constructor].
Qed.

Lemma codes_trans act c m i o c1 m1 i' o' c2 m2 :
  codes act c m i o c1 m1 -> codes act c1 m1 i' o' c2 m2 -> codes act c m (i ++ i') (o ++ o') c2 m2.
Proof. induction 1; intros Hb; [done|]. rewrite <- !app_assoc. econstructor; eauto. Qed.

Lemma codes_snoc act c m i o c1 m1 inp n :
  codes act c m i o c1 m1 ->
  let r := lzma_code c1 m1 (uint32 act) inp n in
  codes act c m (i ++ take (Z.to_nat (cr_consumed r)) inp) (o ++ cr_out r) (cr_coder r) (cr_mem r).
Proof.
  intros H r. eapply codes_trans; [done|].
  rewrite <- (app_nil_r (take _ inp)), <- (app_nil_r (cr_out r)). by econstructor; [|constructor].
Qed.

(** * Pipes behind pointers *)

Definition ring_at (w : world) (o : option loc) : Prop :=
  forall l, o = Some l -> exists p, pipes w !! l = Some p /\ bp_Mode p = RingPoll.

Lemma pipe_upd_mem o f w : mem (pipe_upd o f w) = mem w.
Proof. by destruct o. Qed.

Lemma pipe_upd_same w l f p :
  pipes w !! l = Some p -> pipe_at (pipe_upd (Some l) f w) (Some l) = Some (f p).
Proof. intros H. cbn. rewrite lookup_alter_eq. by rewrite H. Qed.

Lemma pipe_upd_other w l o f : o <> Some l -> pipe_at (pipe_upd (Some l) f w) o = pipe_at w o.
Proof. intros H. destruct o as [k|]; [|done]. cbn. rewrite lookup_alter_ne; congruence. Qed.

Lemma pipe_upd_ring w o f k :
  (forall p, bp_Mode (f p) = bp_Mode p) -> ring_at w k -> ring_at (pipe_upd o f w) k.
Proof.
  intros Hf Hk l ->. destruct (Hk l eq_refl) as (p & Hp & Hm). destruct o as [l'|]; [|eauto]. cbn.
  destruct (decide (l' = l)) as [->|Hne].
  - rewrite lookup_alter_eq, Hp. eexists. split; [done|]. by rewrite Hf.
  - rewrite lookup_alter_ne by done. eauto.
Qed.

Lemma pipe_Length_data w o : ring_at w o -> pipe_Length w o = zlen (pipe_data w o).
Proof.
  intros H. unfold pipe_Length, pipe_data, pipe_at. destruct o as [l|]; [|apply nil_length].
  destruct (H l eq_refl) as (p & -> & Hm). by apply ring_length.
Qed.

(** [ReadSlices] shows a prefix of the data, [WriteSlices] some free space. *)
Lemma pipe_ReadSlices_data w o :
  exists lo hi e, pipe_ReadSlices w o = (lo, hi, e) /\
    (ring_at w o -> pipe_data w o = lo ++ hi /\ (pipe_data w o <> [] -> lo <> [])).
Proof.
  destruct (pipe_ReadSlices w o) as [[lo hi] e] eqn:Er. exists lo, hi, e. split; [done|]. intros H.
  unfold pipe_ReadSlices, pipe_data, pipe_at in *. destruct o as [l|].
  - destruct (H l eq_refl) as (p & Hp & Hm). rewrite Hp in *.
    pose proof (ring_read_first p Hm) as Hf. unfold bp_Data in *. rewrite Er in *. done.
  - pose proof nil_read_slices as Hn. rewrite Er in Hn. injection Hn as -> ->. done.
Qed.

Lemma pipe_WriteSlices_room w o :
  exists n hi e, pipe_WriteSlices w o = (n, hi, e) /\
    (ring_at w o -> 0 <= n /\ (o = None -> n = 0)).
Proof.
  destruct (pipe_WriteSlices w o) as [[n hi] e] eqn:Er. exists n, hi, e. split; [done|]. intros H.
  unfold pipe_WriteSlices, pipe_at in *. destruct o as [l|].
  - destruct (H l eq_refl) as (p & Hp & Hm). rewrite Hp in *.
    pose proof (ring_write_first p Hm) as Hf. rewrite Er in Hf. cbn in Hf. split; [lia|done].
  - pose proof nil_write_slices as Hn. rewrite Er in Hn. injection Hn as -> ->. done.
Qed.

(** Bytes in, bytes out. *)
Lemma pipe_write_data w o bs n hi e :
  ring_at w o -> pipe_WriteSlices w o = (n, hi, e) -> zlen bs <= n ->
  pipe_data (pipe_WriteMark o (zlen bs) (pipe_Poke o bs w)) o = pipe_data w o ++ bs.
Proof.
  intros H Hw Hn. unfold pipe_WriteMark, pipe_Poke, pipe_data. destruct o as [l|].
  - destruct (H l eq_refl) as (p & Hp & Hm).
    erewrite pipe_upd_same by (cbn; rewrite lookup_alter_eq, Hp; done). cbn [pipe_at]. rewrite Hp.
    unfold pipe_WriteSlices in Hw. cbn in Hw. rewrite Hp in Hw.
    rewrite ring_write_mark; [|done|pose proof (zlen_nonneg bs); lia|by rewrite Hw].
    rewrite take_ge; [done|]. unfold zlen. lia.
  - pose proof nil_write_slices as Hz. cbn in Hw. rewrite Hw in Hz. injection Hz as -> ->.
    pose proof (zlen_nonneg bs). destruct bs; [done|]. rewrite zlen_cons in Hn.
    pose proof (zlen_nonneg bs). lia.
Qed.

Lemma pipe_read_data w o k :
  ring_at w o -> 0 <= k <= zlen (pipe_data w o) ->
  pipe_data (pipe_ReadMark o k w) o = drop (Z.to_nat k) (pipe_data w o).
Proof.
  intros H Hk. unfold pipe_ReadMark, pipe_data in *. destruct o as [l|]; [|cbn; by rewrite drop_nil].
  destruct (H l eq_refl) as (p & Hp & Hm). erewrite pipe_upd_same by done.
  cbn [pipe_at] in *. rewrite Hp in *. by apply ring_read_mark.
Qed.

Lemma pipe_data_other w o k f : (forall l, o = Some l -> k <> Some l) -> pipe_data (pipe_upd o f w) k = pipe_data w k.
Proof.
  intros H. destruct o as [l|]; [|done]. unfold pipe_data. rewrite pipe_upd_other; [done|]. by apply H.
Qed.

(** A [ReadMark] of another pipe between the [Poke] and the [WriteMark]. *)
Lemma out_data_swap w o k n bs c :
  (forall l, k = Some l -> o <> Some l) ->
  pipe_data (pipe_WriteMark o n (pipe_ReadMark k c (pipe_Poke o bs w))) o =
  pipe_data (pipe_WriteMark o n (pipe_Poke o bs w)) o.
Proof.
  intros H. destruct o as [l|]; [|done]. destruct k as [l'|]; [|done].
  assert (l' <> l) by (intros ->; by apply (H l)).
  unfold pipe_WriteMark, pipe_ReadMark, pipe_Poke, pipe_data. cbn.
  by rewrite !lookup_alter_eq, lookup_alter_ne, lookup_alter_eq by done.
Qed.

Lemma zlen_zero_inv {A} (l : list A) : zlen l = 0 -> l = [].
Proof. destruct l; [done|]. rewrite zlen_cons. pose proof (zlen_nonneg l). lia. Qed.

(** * The invariant *)
Abbreviation state := (procst R W).

Record stream_ok (s : state) : Prop := {
  ok_in : ring_at (ps_world s) (inBuf (ps_strm s));
  ok_out : ring_at (ps_world s) (outBuf (ps_strm s));
  ok_diff : forall l, inBuf (ps_strm s) = Some l -> outBuf (ps_strm s) <> Some l;
}.

(** The buffers can hold something. *)
Definition cap_at (w : world) (o : option loc) : Prop :=
  forall l p, o = Some l -> pipes w !! l = Some p -> 0 < bp_Capacity p.
Definition caps (s : state) : Prop :=
  cap_at (ps_world s) (inBuf (ps_strm s)) /\ cap_at (ps_world s) (outBuf (ps_strm s)).

(** The buffers that [Process] needs are there. *)
Definition buffers_there (s : state) : Prop :=
  (ps_rd s <> None -> inBuf (ps_strm s) <> None) /\ (ps_wr s <> None -> outBuf (ps_strm s) <> None).

Definition in_data (s : state) : list Z := pipe_data (ps_world s) (inBuf (ps_strm s)).
Definition out_data (s : state) : list Z := pipe_data (ps_world s) (outBuf (ps_strm s)).

(** Between [s0] and [s], the pump took [rd] from the reader, coded [cin] to
    [cout], and gave [wr] to the writer: nothing is lost, duplicated or
    reordered, and what is not yet coded or written waits in the buffers. *)
Record pumped (act : Z) (s0 s : state) (rd cin cout wr : list Z) : Prop := {
  pm_reads : match ps_rd s0, ps_rd s with
             | Some r0, Some r => reads r0 rd r | None, None => rd = [] | _, _ => False end;
  pm_writes : match ps_wr s0, ps_wr s with
              | Some w0, Some w => writes w0 wr w | None, None => wr = [] | _, _ => False end;
  pm_codes : codes act (coder (ps_strm s0)) (mem (ps_world s0)) cin cout
                   (coder (ps_strm s)) (mem (ps_world s));
  pm_in : in_data s0 ++ rd = cin ++ in_data s;
  pm_out : out_data s0 ++ cout = wr ++ out_data s;
}.

Lemma pumped_refl act s : pumped act s s [] [] [] [].
Proof.
  split; try (by destruct (ps_rd s); constructor); try (by destruct (ps_wr s); constructor);
    try constructor; by rewrite app_nil_r.
Qed.

(** The state of the loops: where the run stands. *)
Definition running (act : Z) (s0 s : state) (inCnt outCnt : Z) : Prop :=
  stream_ok s /\ buffers_there s /\
  exists rd cin cout wr, pumped act s0 s rd cin cout wr /\ inCnt = zlen rd /\ outCnt = zlen wr.

(** An error that the last call of the reader, or of the writer, returned. *)
Definition from_reader (o : option R) (e : error) : Prop :=
  exists r n bs r', rd_Read r n = ((bs, e), r') /\ o = Some r'.
Definition from_writer (o : option W) (e : error) : Prop :=
  exists w bs n w', wr_Write w bs = ((n, e), w') /\ o = Some w'.
(** A status that the last call of the coder since [s0] returned. *)
Definition from_coder (act : Z) (s0 s : state) (e : error) : Prop :=
  last_call act (coder (ps_strm s0)) (mem (ps_world s0)) e (coder (ps_strm s)) (mem (ps_world s)).

(** One [Read] into the empty input buffer. *)
Lemma fill_step act s0 s r n hi e bs err r' i o :
  running act s0 s i o -> ps_rd s = Some r ->
  pipe_Length (ps_world s) (inBuf (ps_strm s)) = 0 ->
  pipe_WriteSlices (ps_world s) (inBuf (ps_strm s)) = (n, hi, e) ->
  rd_Read r n = ((bs, err), r') ->
  running act s0 (ProcSt (ps_strm s)
    (pipe_WriteMark (inBuf (ps_strm s)) (zlen bs) (pipe_Poke (inBuf (ps_strm s)) bs (ps_world s)))
    (Some r') (ps_wr s)) (i + zlen bs) o.
Proof.
  intros ([H1 H2 H3] & [Hb1 Hb2] & rd & cin & cout & wr & Hp & -> & ->) Hrd Hl Hw Hr.
  rewrite pipe_Length_data in Hl by done.
  assert (Hd0 : in_data s = []) by (destruct (in_data s) eqn:Ed; [done|]; unfold in_data in Ed;
    rewrite Ed, zlen_cons in Hl; pose proof (zlen_nonneg l); lia).
  destruct (pipe_WriteSlices_room (ps_world s) (inBuf (ps_strm s))) as (n' & hi' & e' & Hw' & Hroom).
  rewrite Hw in Hw'. injection Hw' as <- <- <-. destruct (Hroom H1) as [Hn _].
  pose proof (read_count r n Hn) as Hc. rewrite Hr in Hc. cbn in Hc.
  assert (Hmode : forall o' k, ring_at (ps_world s) k ->
    ring_at (pipe_WriteMark o' (zlen bs) (pipe_Poke o' bs (ps_world s))) k).
  { intros o' k Hk. apply pipe_upd_ring; [intros; apply writemark_mode|].
    apply pipe_upd_ring; [intros; apply poke_mode|done]. }
  split; [|split].
  - split; cbn; [by apply Hmode|by apply Hmode|done].
  - split; cbn; [intros _; apply Hb1; congruence|done].
  - exists (rd ++ bs), cin, cout, wr. split; [|split; [by rewrite zlen_app|done]].
    destruct Hp as [P1 P2 P3 P4 P5]. rewrite Hrd in P1. split; cbn.
    + destruct (ps_rd s0); [|done]. by eapply reads_snoc.
    + done.
    + unfold pipe_WriteMark, pipe_Poke. by rewrite !pipe_upd_mem.
    + unfold in_data at 2. cbn. erewrite pipe_write_data by done. fold (in_data s).
      rewrite app_assoc, P4, Hd0. by rewrite app_nil_r.
    + unfold out_data at 2. cbn. unfold pipe_WriteMark, pipe_Poke. rewrite !pipe_data_other by eauto. done.
Qed.

(** One [Write] of what waits in the output buffer. *)
Lemma drain_step act s0 s w bs hi e n err w' i o :
  running act s0 s i o -> ps_wr s = Some w ->
  pipe_ReadSlices (ps_world s) (outBuf (ps_strm s)) = (bs, hi, e) ->
  wr_Write w bs = ((n, err), w') ->
  running act s0 (ProcSt (ps_strm s) (pipe_ReadMark (outBuf (ps_strm s)) n (ps_world s))
    (ps_rd s) (Some w')) i (o + n).
Proof.
  intros ([H1 H2 H3] & [Hb1 Hb2] & rd & cin & cout & wr & Hp & -> & ->) Hwr Hr Hw.
  destruct (pipe_ReadSlices_data (ps_world s) (outBuf (ps_strm s))) as (lo & hi' & e' & Hr' & Hd).
  rewrite Hr in Hr'. injection Hr' as <- <- <-. destruct (Hd H2) as [Hd1 _].
  pose proof (write_count w bs) as Hc. rewrite Hw in Hc. cbn in Hc.
  assert (Hmode : forall k, ring_at (ps_world s) k ->
    ring_at (pipe_ReadMark (outBuf (ps_strm s)) n (ps_world s)) k).
  { intros k Hk. apply pipe_upd_ring; [intros; apply readmark_mode|done]. }
  split; [|split].
  - split; cbn; [by apply Hmode|by apply Hmode|done].
  - split; cbn; [done|intros _; apply Hb2; congruence].
  - exists rd, cin, cout, (wr ++ take (Z.to_nat n) bs).
    split; [|split; [done|by rewrite zlen_app, zlen_take]].
    destruct Hp as [P1 P2 P3 P4 P5]. rewrite Hwr in P2. split; cbn.
    + done.
    + destruct (ps_wr s0); [|done]. by eapply writes_snoc.
    + unfold pipe_ReadMark. by rewrite pipe_upd_mem.
    + unfold in_data at 2. cbn. unfold pipe_ReadMark. rewrite pipe_data_other; [done|].
      intros l Hl Hi. by apply (H3 l).
    + unfold out_data at 2. cbn. rewrite pipe_read_data; [|done|].
      * rewrite P5. fold (out_data s). unfold out_data. rewrite Hd1, <- app_assoc. f_equal.
        rewrite <- (take_drop (Z.to_nat n) bs) at 1. rewrite <- app_assoc. f_equal.
        rewrite drop_app_le; [done|]. unfold zlen in Hc. lia.
      * rewrite Hd1, zlen_app. pose proof (zlen_nonneg hi). lia.
Qed.

(** One [CodeSlice]. *)
Lemma CodeSlice_run act dst src z w :
  let r := lzma_code (coder z) (mem w) (uint32 act) src dst in
  exists z', CodeSlice act dst src (z, w) =
    (Ret (zlen (cr_out r), cr_consumed r, NewError (cr_ret r)), (z', set_mem (cr_mem r) w)) /\
    coder z' = cr_coder r /\ written z' = cr_out r /\
    inBuf z' = inBuf z /\ outBuf z' = outBuf z.
Proof.
  intros r. exists (StreamV (cr_coder r) (drop (Z.to_nat (cr_consumed r)) src) (cr_out r)
    (dst - zlen (cr_out r)) (uint64 (total_in z + cr_consumed r))
    (uint64 (total_out z + zlen (cr_out r))) (refs z) (inBuf z) (outBuf z)). split; [|done].
  unfold CodeSlice, Code. mrun. fold r.
  destruct (code_bounds (coder z) (mem w) (uint32 act) src dst) as [Hb _]. fold r in Hb.
  f_equal. f_equal. f_equal. f_equal; [lia|]. rewrite zlen_drop by done. lia.
Qed.

(** The coder between the buffers: what the state is afterwards, for the window
    [inSl] of the input buffer and the room [n] of the output buffer. *)
Lemma code_buffers_run act (s : state) :
  exists inSl hi e n hi' e',
    pipe_ReadSlices (ps_world s) (inBuf (ps_strm s)) = (inSl, hi, e) /\
    pipe_WriteSlices (ps_world s) (outBuf (ps_strm s)) = (n, hi', e') /\
    let r := lzma_code (coder (ps_strm s)) (mem (ps_world s)) (uint32 act) inSl n in
    exists z',
    code_buffers act s =
    (Ret (if ((match ps_rd s with None => true | _ => false end) || (0 <? zlen inSl)) &&
             ((match ps_wr s with None => true | _ => false end) || (0 <? n))
          then (if decide (NewError (cr_ret r) = Some (LibError BUF_ERROR)) then None
                else NewError (cr_ret r))
          else NewError (cr_ret r)),
     ProcSt z' (pipe_WriteMark (outBuf (ps_strm s)) (zlen (cr_out r))
               (pipe_ReadMark (inBuf (ps_strm s)) (cr_consumed r)
               (pipe_Poke (outBuf (ps_strm s)) (cr_out r) (set_mem (cr_mem r) (ps_world s)))))
       (ps_rd s) (ps_wr s)) /\
    coder z' = cr_coder r /\ inBuf z' = inBuf (ps_strm s) /\ outBuf z' = outBuf (ps_strm s).
Proof.
  destruct (pipe_ReadSlices (ps_world s) (inBuf (ps_strm s))) as [[inSl hi] e] eqn:Er.
  destruct (pipe_WriteSlices (ps_world s) (outBuf (ps_strm s))) as [[n hi'] e'] eqn:Ew.
  exists inSl, hi, e, n, hi', e'. split; [done|]. split; [done|]. intros r.
  destruct (CodeSlice_run act n inSl (ps_strm s) (ps_world s)) as (z' & Hc & H1 & H2 & H3 & H4).
  fold r in Hc, H1, H2. exists z'. split; [|done].
  unfold code_buffers. rewrite bind_get, Er, Ew. unfold on_zw at 1. rewrite bind_run, Hc. mrun.
  by rewrite H2.
Qed.

Lemma code_step act s0 s i o :
  running act s0 s i o ->
  exists e s', code_buffers act s = (Ret e, s') /\ running act s0 s' i o /\
    ps_rd s' = ps_rd s /\ ps_wr s' = ps_wr s /\ (e <> None -> from_coder act s0 s' e).
Proof.
  intros ([H1 H2 H3] & [Hb1 Hb2] & rd & cin & cout & wr & Hp & -> & ->).
  destruct (code_buffers_run act s) as (inSl & hi & e & n & hi' & e' & Er & Ew & z' & Hrun & Hco & Hi & Ho).
  set (r := lzma_code _ _ _ _ _) in *.
  destruct (pipe_ReadSlices_data (ps_world s) (inBuf (ps_strm s))) as (lo & h2 & e2 & Er' & Hd).
  rewrite Er in Er'. injection Er' as <- <- <-. destruct (Hd H1) as [Hd1 _].
  destruct (pipe_WriteSlices_room (ps_world s) (outBuf (ps_strm s))) as (n' & h3 & e3 & Ew' & Hroom).
  rewrite Ew in Ew'. injection Ew' as <- <- <-. destruct (Hroom H2) as [Hn _].
  destruct (code_bounds (coder (ps_strm s)) (mem (ps_world s)) (uint32 act) inSl n) as [Hk Hout].
  fold r in Hk, Hout. specialize (Hout Hn).
  do 2 eexists. split; [exact Hrun|]. split; [|split; [done|split; [done|]]].
  2: { intros He. exists cin, cout, (coder (ps_strm s)), (mem (ps_world s)), inSl, n. split; [apply Hp|]. cbv zeta. fold r.
       split; [by repeat case_match|]. split; [done|]. cbn.
       unfold pipe_WriteMark, pipe_ReadMark, pipe_Poke. by rewrite !pipe_upd_mem. }
  set (w1 := set_mem (cr_mem r) (ps_world s)).
  assert (Hring : forall k, ring_at (ps_world s) k -> ring_at (pipe_WriteMark (outBuf (ps_strm s)) (zlen (cr_out r))
    (pipe_ReadMark (inBuf (ps_strm s)) (cr_consumed r) (pipe_Poke (outBuf (ps_strm s)) (cr_out r) w1))) k).
  { intros k Hk'. apply pipe_upd_ring; [intros; apply writemark_mode|].
    apply pipe_upd_ring; [intros; apply readmark_mode|]. by apply pipe_upd_ring; [intros; apply poke_mode|]. }
  split; [|split].
  { split; cbn; rewrite ?Hi, ?Ho; [by apply Hring|by apply Hring|done]. }
  { split; cbn; rewrite ?Hi, ?Ho; done. }
  exists rd, (cin ++ take (Z.to_nat (cr_consumed r)) inSl), (cout ++ cr_out r), wr.
  split; [|done]. destruct Hp as [P1 P2 P3 P4 P5]. split; cbn; try done.
  - unfold pipe_WriteMark, pipe_ReadMark, pipe_Poke. rewrite !pipe_upd_mem, Hco. cbn.
    by apply codes_snoc.
  - unfold in_data at 2. cbn. rewrite Hi. unfold pipe_WriteMark. rewrite pipe_data_other
      by (intros l Hl Hl'; by apply (H3 l)).
    rewrite pipe_read_data.
    + unfold pipe_Poke. rewrite pipe_data_other by (intros l Hl Hl'; by apply (H3 l)).
      change (pipe_data w1 (inBuf (ps_strm s))) with (in_data s). rewrite P4.
      unfold in_data. rewrite Hd1, <- app_assoc. f_equal.
      rewrite <- (take_drop (Z.to_nat (cr_consumed r)) inSl) at 1. rewrite <- app_assoc. f_equal.
      rewrite drop_app_le; [done|]. unfold zlen in Hk. lia.
    + apply pipe_upd_ring; [intros; apply poke_mode|done].
    + unfold pipe_Poke. rewrite pipe_data_other by (intros l Hl Hl'; by apply (H3 l)).
      change (pipe_data w1 (inBuf (ps_strm s))) with (in_data s). unfold in_data. rewrite Hd1, zlen_app.
      pose proof (zlen_nonneg hi). lia.
  - unfold out_data at 2. cbn. rewrite Ho.
    assert (Hcomm : pipe_data (pipe_WriteMark (outBuf (ps_strm s)) (zlen (cr_out r))
      (pipe_ReadMark (inBuf (ps_strm s)) (cr_consumed r) (pipe_Poke (outBuf (ps_strm s)) (cr_out r) w1)))
      (outBuf (ps_strm s)) = out_data s ++ cr_out r).
    { change (out_data s) with (pipe_data w1 (outBuf (ps_strm s))).
      rewrite <- (pipe_write_data w1 (outBuf (ps_strm s)) (cr_out r) n hi' e' H2 Ew Hout).
      apply out_data_swap. done. }
    rewrite Hcomm, app_assoc, P5. by rewrite app_assoc.
Qed.

(** * The loops *)

Lemma zlen_eqb_nil {A} (l : list A) : (zlen l =? 0) = bool_decide (l = []).
Proof.
  apply eq_true_iff_eq. rewrite Z.eqb_eq, bool_decide_eq_true. split; [apply zlen_zero_inv|by intros ->].
Qed.

Lemma fill_loop_running act s0 fuel rdErr i o s r s' :
  running act s0 s i o -> fill_loop fuel rdErr i s = (Ret r, s') ->
  running act s0 s' r.2 o /\ ps_wr s' = ps_wr s /\ (is_Some (ps_rd s') <-> is_Some (ps_rd s)) /\
  (r.1 <> None -> (r.1 = rdErr /\ ps_rd s' = ps_rd s) \/ from_reader (ps_rd s') r.1).
Proof.
  revert rdErr i s. induction fuel as [|fuel IH]; intros rdErr i s Hrun; [done|].
  cbn [fill_loop]. rewrite bind_get. intros H.
  destruct rdErr as [e|]; [injection H as <- <-; cbn; auto 8|].
  destruct (ps_rd s) as [rd|] eqn:Erd; [|injection H as <- <-; rewrite Erd; cbn; auto 8].
  destruct (pipe_Length (ps_world s) (inBuf (ps_strm s)) =? 0) eqn:El;
    [|injection H as <- <-; rewrite Erd; cbn; auto 8].
  destruct (pipe_WriteSlices _ _) as [[n hi] e] eqn:Ew.
  destruct (rd_Read rd n) as [[bs err] rd'] eqn:Er. apply Z.eqb_eq in El.
  pose proof (fill_step act s0 s rd n hi e bs err rd' i o Hrun Erd El Ew Er) as Hrun'.
  rewrite bind_put in H. unfold upd_world in H. rewrite bind_run in H. cbn in H.
  destruct (IH _ _ _ Hrun' H) as (I1 & I2 & I3 & I4). split_and!; [done|done|rewrite I3; cbn; split; eauto|].
  intros Hne. right. destruct (I4 Hne) as [[-> Hs]|]; [|done]. exists rd, n, bs, rd'. by rewrite Hs.
Qed.

Lemma drain_loop_running act s0 fuel wrErr i o s r s' :
  running act s0 s i o -> drain_loop fuel wrErr o s = (Ret r, s') ->
  running act s0 s' i r.2 /\ ps_rd s' = ps_rd s /\
  (coder (ps_strm s') = coder (ps_strm s) /\ mem (ps_world s') = mem (ps_world s)) /\
  (r.1 <> None -> (r.1 = wrErr /\ ps_wr s' = ps_wr s) \/ from_writer (ps_wr s') r.1).
Proof.
  revert wrErr o s. induction fuel as [|fuel IH]; intros wrErr o s Hrun; [done|].
  cbn [drain_loop]. rewrite bind_get. intros H.
  destruct wrErr as [e|]; [injection H as <- <-; cbn; auto 8|].
  destruct (ps_wr s) as [wr|] eqn:Ewr; [|injection H as <- <-; cbn; auto 8].
  destruct (0 <? pipe_Length (ps_world s) (outBuf (ps_strm s))) eqn:El;
    [|injection H as <- <-; cbn; auto 8].
  destruct (pipe_ReadSlices _ _) as [[bs hi] e] eqn:Er.
  destruct (wr_Write wr bs) as [[n err] wr'] eqn:Ew.
  pose proof (drain_step act s0 s wr bs hi e n err wr' i o Hrun Ewr Er Ew) as Hrun'.
  rewrite bind_put in H. unfold upd_world in H. rewrite bind_run in H. cbn in H.
  destruct (IH _ _ _ Hrun' H) as (I1 & I2 & [I3 I5] & I4). cbn in I3, I5.
  unfold pipe_ReadMark in I5. rewrite pipe_upd_mem in I5. split_and!; [done|done|done|done|].
  intros Hne. right. destruct (I4 Hne) as [[-> Hs]|]; [|done]. exists wr, bs, n, wr'. by rewrite Hs.
Qed.

(** How [Process] can end. *)
Definition ended (act : Z) (s0 s : state) (err : error) : Prop :=
  err <> None /\
  (from_writer (ps_wr s) err \/
   (from_coder act s0 s err /\ out_data s = []) \/
   (from_reader (ps_rd s) err /\ out_data s = [] /\ in_data s = [])).

Lemma process_loop_running act s0 fuel rdErr wrErr i o s r s' :
  running act s0 s i o ->
  (rdErr <> None -> from_reader (ps_rd s) rdErr) -> (wrErr <> None -> from_writer (ps_wr s) wrErr) ->
  process_loop fuel act rdErr wrErr o i s = (Ret r, s') ->
  running act s0 s' r.1.2 r.1.1 /\ ended act s0 s' r.2.
Proof.
  revert rdErr wrErr i o s. induction fuel as [|fuel IH]; intros rdErr wrErr i o s Hrun Hrd Hwr H; [done|].
  cbn [process_loop] in H. rewrite bind_run in H.
  destruct (fill_loop (S fuel) rdErr i s) as [[[rdErr1 i1]| |] s1] eqn:Ef; [|done|done].
  destruct (fill_loop_running _ _ _ _ _ _ _ _ _ Hrun Ef) as (Hrun1 & Hw1 & _ & Hrd1). cbn [fst snd] in *.
  destruct (code_step act s0 s1 _ _ Hrun1) as (xzErr & s2 & Ec & Hrun2 & Hr2 & Hw2 & Hxz).
  rewrite (bind_ret _ _ _ _ _ Ec), bind_run in H.
  destruct (drain_loop (S fuel) wrErr o s2) as [[[wrErr1 o1]| |] s3] eqn:Ed; [|done|done].
  destruct (drain_loop_running _ _ _ _ _ _ _ _ _ Hrun2 Ed) as (Hrun3 & Hr3 & [Hc3 Hm3] & Hwr1). cbn [fst snd] in *.
  assert (Hrd' : rdErr1 <> None -> from_reader (ps_rd s3) rdErr1).
  { rewrite Hr3, Hr2. intros Hn. destruct (Hrd1 Hn) as [[-> ->]|]; auto. }
  assert (Hwr' : wrErr1 <> None -> from_writer (ps_wr s3) wrErr1).
  { intros Hn. destruct (Hwr1 Hn) as [[-> Hs]|]; [|done]. rewrite Hs, Hw2, Hw1. auto. }
  assert (Hxz' : xzErr <> None -> from_coder act s0 s3 xzErr).
  { intros Hn. unfold from_coder. rewrite Hc3, Hm3. by apply Hxz. }
  rewrite bind_get in H. pose proof Hrun3 as ([K1 K2 _] & _).
  rewrite !pipe_Length_data, !zlen_eqb_nil in H by done.
  destruct wrErr1 as [e|].
  { injection H as <- <-. split; [done|]. split; [done|]. left. by apply Hwr'. }
  assert (Hbo : bool_decide (pipe_data (ps_world s3) (outBuf (ps_strm s3)) = []) = true -> out_data s3 = [])
    by apply bool_decide_eq_true.
  assert (Hbi : bool_decide (pipe_data (ps_world s3) (inBuf (ps_strm s3)) = []) = true -> in_data s3 = [])
    by apply bool_decide_eq_true.
  destruct (bool_decide (pipe_data _ (outBuf _) = [])), (bool_decide (pipe_data _ (inBuf _) = [])),
    xzErr as [e|], rdErr1 as [e'|]; cbn [andb] in H;
    try (by eapply IH; [exact Hrun3|exact Hrd'|exact Hwr'|exact H]);
    injection H as <- <-; (split; [done|]; split; [done|]); right; auto 6.
Qed.

Lemma new_ring_run w :
  exists l, new_ring w = (Ret l, set_pipes (<[l := NewBufferPipe (make_slice chunkSize) RingPoll]> (pipes w)) w) /\
    pipes w !! l = None.
Proof. exists (fresh (dom (pipes w))). split; [done|]. apply not_elem_of_dom, is_fresh. Qed.

(** A new ring in the place of a nil pointer. *)
Lemma new_ring_data w l :
  pipes w !! l = None ->
  let w' := set_pipes (<[l := NewBufferPipe (make_slice chunkSize) RingPoll]> (pipes w)) w in
  ring_at w' (Some l) /\ pipe_data w' (Some l) = [] /\ cap_at w' (Some l) /\
  forall o, ring_at w o ->
    o <> Some l /\ ring_at w' o /\ pipe_data w' o = pipe_data w o /\ (cap_at w o -> cap_at w' o).
Proof.
  intros Hl w'. split_and!.
  - intros ? [= <-]. eexists. cbn. rewrite lookup_insert_eq. split; [done|]. apply new_mode.
  - unfold pipe_data. cbn. rewrite lookup_insert_eq. apply ring_new_data.
  - intros ? p [= <-]. cbn. rewrite lookup_insert_eq. intros [= <-].
    rewrite new_capacity by (by apply make_slice_wf). done.
  - intros o Ho. assert (Hne : o <> Some l).
    { intros ->. destruct (Ho l eq_refl) as (p & Hp & _). congruence. }
    split; [done|]. destruct o as [l'|]; [|split_and!; done].
    assert (Hlk : pipes w' !! l' = pipes w !! l') by (cbn; by rewrite lookup_insert_ne by congruence).
    split_and!.
    + intros ? [= <-]. rewrite Hlk. by apply Ho.
    + unfold pipe_data, pipe_at. by rewrite Hlk.
    + intros Hc ? p [= <-]. rewrite Hlk. by apply Hc.
Qed.

Lemma pumped_nil act (s s1 : state) :
  ps_rd s1 = ps_rd s -> ps_wr s1 = ps_wr s -> coder (ps_strm s1) = coder (ps_strm s) ->
  mem (ps_world s1) = mem (ps_world s) -> in_data s1 = in_data s -> out_data s1 = out_data s ->
  pumped act s s1 [] [] [] [].
Proof.
  intros E1 E2 E3 E4 E5 E6. split; rewrite ?E1, ?E2, ?E3, ?E4, ?E5, ?E6;
    try (by destruct (ps_rd s); constructor); try (by destruct (ps_wr s); constructor);
    try constructor; by rewrite app_nil_r.
Qed.

Lemma alloc_ring_in (s : state) :
  stream_ok s -> inBuf (ps_strm s) = None ->
  exists s1, alloc_ring set_inBuf s = (Ret tt, s1) /\ stream_ok s1 /\
    inBuf (ps_strm s1) <> None /\ outBuf (ps_strm s1) = outBuf (ps_strm s) /\
    ps_rd s1 = ps_rd s /\ ps_wr s1 = ps_wr s /\ coder (ps_strm s1) = coder (ps_strm s) /\
    mem (ps_world s1) = mem (ps_world s) /\ in_data s1 = in_data s /\ out_data s1 = out_data s /\
    (caps s -> caps s1).
Proof.
  intros [H1 H2 H3] Hn. unfold alloc_ring.
  destruct (new_ring_run (ps_world s)) as (l & -> & Hl).
  destruct (new_ring_data _ _ Hl) as (D1 & D2 & D0 & D3). eexists. split; [reflexivity|].
  destruct (D3 _ H2) as (D4 & D5 & D6 & D7). split; [split; cbn|cbn; split_and!; try done].
  - done.
  - done.
  - intros l' [= <-]. exact D4.
  - unfold in_data. cbn. unfold in_data. rewrite Hn. exact D2.
  - intros [C1 C2]. split; [exact D0|]. by apply D7.
Qed.

Lemma alloc_ring_out (s : state) :
  stream_ok s -> outBuf (ps_strm s) = None ->
  exists s1, alloc_ring set_outBuf s = (Ret tt, s1) /\ stream_ok s1 /\
    outBuf (ps_strm s1) <> None /\ inBuf (ps_strm s1) = inBuf (ps_strm s) /\
    ps_rd s1 = ps_rd s /\ ps_wr s1 = ps_wr s /\ coder (ps_strm s1) = coder (ps_strm s) /\
    mem (ps_world s1) = mem (ps_world s) /\ in_data s1 = in_data s /\ out_data s1 = out_data s /\
    (caps s -> caps s1).
Proof.
  intros [H1 H2 H3] Hn. unfold alloc_ring.
  destruct (new_ring_run (ps_world s)) as (l & -> & Hl).
  destruct (new_ring_data _ _ Hl) as (D1 & D2 & D0 & D3). eexists. split; [reflexivity|].
  destruct (D3 _ H1) as (D4 & D5 & D6 & D7). split; [split; cbn|cbn; split_and!; try done].
  - done.
  - done.
  - intros l' Hl' [= ->]. by apply D4.
  - unfold out_data. cbn. unfold out_data. rewrite Hn. exact D2.
  - intros [C1 C2]. split; [|exact D0]. by apply D7.
Qed.

Lemma lazy_buffers_run act s :
  stream_ok s -> exists s1, lazy_buffers s = (Ret tt, s1) /\ running act s s1 0 0 /\
    ps_rd s1 = ps_rd s /\ ps_wr s1 = ps_wr s /\ (caps s -> caps s1) /\
    in_data s1 = in_data s /\ out_data s1 = out_data s /\
    coder (ps_strm s1) = coder (ps_strm s) /\ mem (ps_world s1) = mem (ps_world s).
Proof.
  intros Hok. unfold lazy_buffers. rewrite bind_get.
  assert (exists s1, (match ps_rd s, inBuf (ps_strm s) with
     | Some _, None => alloc_ring set_inBuf | _, _ => mret tt end) s = (Ret tt, s1) /\ stream_ok s1 /\
     (ps_rd s1 <> None -> inBuf (ps_strm s1) <> None) /\
     ps_rd s1 = ps_rd s /\ ps_wr s1 = ps_wr s /\ coder (ps_strm s1) = coder (ps_strm s) /\
     mem (ps_world s1) = mem (ps_world s) /\ in_data s1 = in_data s /\ out_data s1 = out_data s /\
     (caps s -> caps s1))
    as (s1 & E1 & O1 & I1 & A1 & A2 & A3 & A4 & A5 & A6 & A7).
  { destruct (ps_rd s) eqn:Er, (inBuf (ps_strm s)) eqn:Ei.
    2: { destruct (alloc_ring_in s Hok Ei) as (s1 & E1 & O1 & I1 & _ & A1 & A2 & A3 & A4 & A5 & A6 & A7).
         exists s1. rewrite A1. split_and!; done. }
    all: exists s; rewrite Er, ?Ei; split_and!; done. }
  rewrite (bind_ret _ _ _ _ _ E1), bind_get.
  assert (exists s2, (match ps_wr s1, outBuf (ps_strm s1) with
     | Some _, None => alloc_ring set_outBuf | _, _ => mret tt end) s1 = (Ret tt, s2) /\ stream_ok s2 /\
     (ps_wr s2 <> None -> outBuf (ps_strm s2) <> None) /\ inBuf (ps_strm s2) = inBuf (ps_strm s1) /\
     ps_rd s2 = ps_rd s1 /\ ps_wr s2 = ps_wr s1 /\ coder (ps_strm s2) = coder (ps_strm s1) /\
     mem (ps_world s2) = mem (ps_world s1) /\ in_data s2 = in_data s1 /\ out_data s2 = out_data s1 /\
     (caps s1 -> caps s2))
    as (s2 & E2 & O2 & I2 & B0 & B1 & B2 & B3 & B4 & B5 & B6 & B7).
  { destruct (ps_wr s1) eqn:Er, (outBuf (ps_strm s1)) eqn:Ei.
    2: { destruct (alloc_ring_out s1 O1 Ei) as (s2 & E2 & O2 & I2 & B0 & B1 & B2 & B3 & B4 & B5 & B6 & B7).
         exists s2. rewrite B2. split_and!; done. }
    all: exists s1; rewrite Er, ?Ei; split_and!; done. }
  exists s2. split; [exact E2|]. split; [|split_and!; [congruence|congruence|auto|congruence..]].
  split; [done|]. split; [split; [rewrite B0, B1; exact I1|exact I2]|].
  exists [], [], [], []. split; [|done]. apply pumped_nil; congruence.
Qed.

(** * Process *)

(** Everything a result of [Process] says. *)
Lemma Process_run act fuel (s s' : state) outCnt inCnt err :
  stream_ok s -> Process fuel act s = (Ret (outCnt, inCnt, err), s') ->
  (stream_ok s' /\ exists rd cin cout wr,
    pumped act s s' rd cin cout wr /\ inCnt = zlen rd /\ outCnt = zlen wr) /\
  match ps_rd s, ps_wr s with
  | None, None => err = None /\ outCnt = 0 /\ inCnt = 0 /\ s' = s
  | _, _ => ended act s s' err
  end.
Proof.
  intros Hok H. unfold Process in H. rewrite bind_get in H.
  destruct (lazy_buffers_run act s Hok) as (s1 & E1 & Hrun & _).
  destruct (ps_rd s) eqn:Er, (ps_wr s) eqn:Ew.
  1-3: rewrite (bind_ret _ _ _ _ _ E1) in H;
    destruct (process_loop_running act s fuel None None 0 0 s1 _ _ Hrun ltac:(done) ltac:(done) H)
      as [(H1 & _ & H2) He]; done.
  injection H as <- <- <- <-. split; [|done]. split; [done|]. exists [], [], [], [].
  split; [apply pumped_refl|done].
Qed.

(** [Process] never panics. *)
Lemma fill_loop_pan fuel rdErr i (s : state) p : (fill_loop fuel rdErr i s).1 <> Pan p.
Proof.
  revert rdErr i s. induction fuel as [|fuel IH]; intros rdErr i s; [done|]. cbn [fill_loop]. rewrite bind_get.
  repeat case_match; try done. rewrite bind_put. unfold upd_world. rewrite bind_run. apply IH.
Qed.

Lemma drain_loop_pan fuel wrErr o (s : state) p : (drain_loop fuel wrErr o s).1 <> Pan p.
Proof.
  revert wrErr o s. induction fuel as [|fuel IH]; intros wrErr o s; [done|]. cbn [drain_loop]. rewrite bind_get.
  repeat case_match; try done. rewrite bind_put. unfold upd_world. rewrite bind_run. apply IH.
Qed.

Lemma process_loop_pan fuel act rdErr wrErr o i (s : state) p :
  (process_loop fuel act rdErr wrErr o i s).1 <> Pan p.
Proof.
  revert rdErr wrErr o i s. induction fuel as [|fuel IH]; intros rdErr wrErr o i s; [done|].
  cbn [process_loop]. rewrite bind_run. pose proof (fill_loop_pan (S fuel) rdErr i s p) as H1.
  destruct (fill_loop _ _ _ s) as [[[e1 i1]|p1|] s1]; [|intros [= ->]; by apply H1|done].
  destruct (code_buffers_run act s1) as (inSl & hi & e & n & hi' & e' & _ & _ & z' & Hrun & _).
  rewrite (bind_ret _ _ _ _ _ Hrun), bind_run. set (s2 := ProcSt _ _ _ _).
  pose proof (drain_loop_pan (S fuel) wrErr o s2 p) as H2.
  destruct (drain_loop _ _ _ s2) as [[[e2 o1]|p2|] s3]; [|intros [= ->]; by apply H2|done]. rewrite bind_get.
  repeat case_match; try done; apply IH.
Qed.

Lemma Process_pan fuel act (s : state) p : stream_ok s -> (Process fuel act s).1 <> Pan p.
Proof.
  intros Hok. unfold Process. rewrite bind_get. destruct (lazy_buffers_run act s Hok) as (s1 & E1 & _).
  repeat case_match; try done; rewrite (bind_ret _ _ _ _ _ E1); apply process_loop_pan.
Qed.

(** [Process] keeps the buffers a stream has. *)
Definition bufs (s : state) : option loc * option loc := (inBuf (ps_strm s), outBuf (ps_strm s)).

Lemma fill_loop_bufs fuel rdErr i (s : state) : bufs (fill_loop fuel rdErr i s).2 = bufs s.
Proof.
  revert rdErr i s. induction fuel as [|fuel IH]; intros rdErr i s; [done|]. cbn [fill_loop]. rewrite bind_get.
  repeat case_match; try done. rewrite bind_put. unfold upd_world. rewrite bind_run. unfold modify. by rewrite IH.
Qed.

Lemma drain_loop_bufs fuel wrErr o (s : state) : bufs (drain_loop fuel wrErr o s).2 = bufs s.
Proof.
  revert wrErr o s. induction fuel as [|fuel IH]; intros wrErr o s; [done|]. cbn [drain_loop]. rewrite bind_get.
  repeat case_match; try done. rewrite bind_put. unfold upd_world. rewrite bind_run. unfold modify. by rewrite IH.
Qed.

Lemma process_loop_bufs fuel act rdErr wrErr o i (s : state) :
  bufs (process_loop fuel act rdErr wrErr o i s).2 = bufs s.
Proof.
  revert rdErr wrErr o i s. induction fuel as [|fuel IH]; intros rdErr wrErr o i s; [done|].
  cbn [process_loop]. rewrite bind_run. pose proof (fill_loop_bufs (S fuel) rdErr i s) as H1.
  destruct (fill_loop _ _ _ s) as [[[e1 i1]|p1|] s1]; [|exact H1..]. cbn [snd] in H1.
  destruct (code_buffers_run act s1) as (inSl & hi & e & n & hi' & e' & _ & _ & z' & Hrun & _ & Hi & Ho).
  rewrite (bind_ret _ _ _ _ _ Hrun), bind_run. set (s2 := ProcSt _ _ _ _).
  assert (H2 : bufs s2 = bufs s) by (rewrite <- H1; unfold bufs, s2; cbn; by rewrite Hi, Ho).
  pose proof (drain_loop_bufs (S fuel) wrErr o s2) as H3. rewrite H2 in H3.
  destruct (drain_loop _ _ _ s2) as [[[e2 o1]|p2|] s3]; [|exact H3..]. cbn [snd] in H3. rewrite bind_get.
  repeat case_match; try exact H3; by rewrite IH.
Qed.

Lemma Process_bufs act fuel (s : state) :
  inBuf (ps_strm s) <> None -> outBuf (ps_strm s) <> None -> bufs (Process fuel act s).2 = bufs s.
Proof.
  intros Hi Ho. unfold Process. rewrite bind_get.
  assert (E1 : lazy_buffers s = (Ret tt, s)).
  { unfold lazy_buffers. rewrite bind_get. destruct (inBuf _); [|done].
    rewrite (bind_ret _ _ s tt s) by (by case_match). rewrite bind_get. destruct (outBuf _); [|done]. by case_match. }
  repeat case_match; try done; rewrite (bind_ret _ _ _ _ _ E1); apply process_loop_bufs.
Qed.

(** A new stream, asked to finish into a writer: with the coder's status as its
    error, everything the coder made was written. *)
Lemma Process_finish fuel act z (wd : world) (wr : W) s' o i err :
  inBuf z = None -> outBuf z = None ->
  Process fuel act (ProcSt (R:=R) z wd None (Some wr)) = (Ret (o, i, err), s') ->
  err <> None /\ ((exists x bs, (wr_Write x bs).1.2 = err) \/
    exists cout wr', ps_wr s' = Some wr' /\ writes wr cout wr' /\
      codes act (coder z) (mem wd) [] cout (coder (ps_strm s')) (mem (ps_world s')) /\
      exists c m inp n, let r := lzma_code c m (uint32 act) inp n in
        NewError (cr_ret r) = err /\ cr_coder r = coder (ps_strm s') /\ cr_mem r = mem (ps_world s')).
Proof.
  intros Hi Ho H. set (s := ProcSt _ _ _ _) in H.
  assert (Hok : stream_ok s) by (split; unfold s; cbn; intros l; congruence).
  destruct (Process_run act fuel s s' o i err Hok H) as [(_ & rd & cin & cout & out & [P1 P2 P3 P4 P5] & _ & _) He].
  cbn in He, P1, P2. destruct He as [Hne He]. split; [done|].
  destruct (ps_rd s') eqn:Er; [done|]. destruct (ps_wr s') as [wr'|] eqn:Ew; [|done]. subst rd.
  assert (Hd : forall z', inBuf z' = None -> pipe_data wd (inBuf z') = []).
  { intros z' ->. unfold pipe_data. done. }
  unfold in_data, s in P4. cbn in P4. rewrite Hd in P4 by done. symmetry in P4. apply app_eq_nil in P4 as [-> _].
  unfold out_data, s in P5. cbn in P5. rewrite Ho in P5. cbn in P5.
  destruct He as [(x & bs & n & x' & Hx & _)|[[(i' & o' & c & m & inp & n & _ & Hx & Hx1 & Hx2) Hnil]|[(r & n & bs & r' & _ & Hr) _]]].
  - left. exists x, bs. by rewrite Hx.
  - right. unfold out_data in Hnil. rewrite Hnil, app_nil_r in P5. subst out.
    exists cout, wr'. split_and!; try done. by exists c, m, inp, n.
  - done.
Qed.

(** C9: [Process] loses, duplicates and reorders nothing. When it returns, the
    bytes that waited in the input buffer followed by those it read from the
    source are the ones the coder took followed by those that still wait; the
    same holds on the output side for the bytes the coder produced and the
    writer accepted; and the two counts it returns are the number of bytes read
    and written. *)
Theorem Process_lossless act fuel (s s' : state) outCnt inCnt err :
  stream_ok s -> Process fuel act s = (Ret (outCnt, inCnt, err), s') ->
  stream_ok s' /\ exists rd cin cout wr,
    pumped act s s' rd cin cout wr /\ inCnt = zlen rd /\ outCnt = zlen wr.
Proof. intros H1 H2. by destruct (Process_run _ _ _ _ _ _ _ H1 H2). Qed.


End pump.
