(* ===== verification/StreamTerm.v ===== *)
(** [Stream.Process] returns: with a reader that does not deliver empty reads
    for ever, a writer that keeps its contract, and a coder that makes progress
    when it has input and room, enough fuel always gives a result. *)

From Stdlib Require Import Wellfounded.Lexicographic_Product.
From S2P Require Import Prelude Bufpipe Liblzma Lib World LibIndex Stream StreamPump.

Section term.
Context {BP : Bufpipe} {L : Liblzma} {BS : BufpipeSpec BP} {LS : LiblzmaSpec L}.
Context {R W : Type} {IR : IoReader R} {IW : IoWriter W} {RS : IoReaderSpec R} {WS : IoWriterSpec W}.
Abbreviation state := (procst R W).

(** * More fuel does not change a result *)

Lemma fill_loop_more f : forall f' rdErr i, (f <= f')%nat ->
  extends (fill_loop f rdErr i : M state (error * Z)) (fill_loop f' rdErr i).
Proof. induction f as [|f IH]; intros [|f'] rdErr i Hle; try lia; cbn [fill_loop]; extends. Qed.

Lemma drain_loop_more f : forall f' wrErr o, (f <= f')%nat ->
  extends (drain_loop f wrErr o : M state (error * Z)) (drain_loop f' wrErr o).
Proof. induction f as [|f IH]; intros [|f'] wrErr o Hle; try lia; cbn [drain_loop]; extends. Qed.

#[local] Hint Resolve fill_loop_more drain_loop_more : fuel.

Lemma process_loop_more act f : forall f' rdErr wrErr o i, (f <= f')%nat ->
  extends (process_loop f act rdErr wrErr o i : M state (Z * Z * error)) (process_loop f' act rdErr wrErr o i).
Proof. induction f as [|f IH]; intros [|f'] rdErr wrErr o i Hle; try lia; cbn [process_loop]; extends. Qed.

#[local] Hint Resolve process_loop_more : fuel.

Lemma Process_more act f f' : (f <= f')%nat ->
  extends (Process f act : M state (Z * Z * error)) (Process f' act).
Proof. intros Hle. unfold Process. extends. Qed.

(** * The data in the buffers *)

Lemma pipe_upd_cap w o f k :
  (forall p, bp_Capacity (f p) = bp_Capacity p) -> cap_at w k -> cap_at (pipe_upd o f w) k.
Proof.
  intros Hf Hk l p -> Hp. destruct o as [l'|]; [|by eapply Hk]. cbn in Hp.
  destruct (decide (l' = l)) as [->|Hne].
  - rewrite lookup_alter_eq in Hp. destruct (pipes w !! l) as [q|] eqn:Eq; [|done].
    injection Hp as <-. rewrite Hf. by eapply Hk.
  - rewrite lookup_alter_ne in Hp by done. by eapply Hk.
Qed.

Record ready (s : state) : Prop := {
  rdy_ok : stream_ok s;
  rdy_there : buffers_there s;
  rdy_in : cap_at (ps_world s) (inBuf (ps_strm s));
  rdy_out : cap_at (ps_world s) (outBuf (ps_strm s));
}.

Lemma fill_ready s r n hi e bs err r' :
  ready s -> ps_rd s = Some r -> in_data s = [] ->
  pipe_WriteSlices (ps_world s) (inBuf (ps_strm s)) = (n, hi, e) ->
  rd_Read r n = ((bs, err), r') ->
  let s' := ProcSt (ps_strm s)
    (pipe_WriteMark (inBuf (ps_strm s)) (zlen bs) (pipe_Poke (inBuf (ps_strm s)) bs (ps_world s)))
    (Some r') (ps_wr s) in
  ready s' /\ in_data s' = bs /\ out_data s' = out_data s /\ 0 < n.
Proof.
  intros [[H1 H2 H3] [Hb1 Hb2] C1 C2] Hrd Hd Hw Hr s'.
  destruct (pipe_WriteSlices_room (ps_world s) (inBuf (ps_strm s))) as (n' & hi' & e' & Hw' & Hroom).
  rewrite Hw in Hw'. injection Hw' as <- <- <-. destruct (Hroom H1) as [Hn _].
  pose proof (read_count r n Hn) as Hc. rewrite Hr in Hc. cbn in Hc.
  split_and!.
  - split; [split; cbn|split; cbn| |]; cbn; try done.
    + repeat (apply pipe_upd_ring; [intros; first [apply writemark_mode|apply poke_mode]|]). done.
    + repeat (apply pipe_upd_ring; [intros; first [apply writemark_mode|apply poke_mode]|]). done.
    + intros _. apply Hb1. congruence.
    + repeat (apply pipe_upd_cap; [intros; first [apply writemark_capacity|apply poke_capacity]|]). done.
    + repeat (apply pipe_upd_cap; [intros; first [apply writemark_capacity|apply poke_capacity]|]). done.
  - unfold in_data, s'. cbn. erewrite pipe_write_data by done. fold (in_data s). by rewrite Hd.
  - unfold out_data, s'. cbn. unfold pipe_WriteMark, pipe_Poke. by rewrite !pipe_data_other by eauto.
  - destruct (inBuf (ps_strm s)) as [l|] eqn:El; [|by destruct Hb1; congruence].
    destruct (H1 l eq_refl) as (p & Hp & Hm). unfold in_data, pipe_data in Hd. rewrite El in Hd. cbn in Hd.
    rewrite Hp in Hd. unfold pipe_WriteSlices in Hw. cbn in Hw. rewrite Hp in Hw.
    destruct (ring_write_first p Hm) as (_ & _ & Hpos). rewrite Hw in Hpos. apply Hpos. rewrite Hd.
    change (zlen []) with 0. by eapply C1.
Qed.

Lemma drain_ready s w bs hi e n err w' :
  ready s -> ps_wr s = Some w -> out_data s <> [] ->
  pipe_ReadSlices (ps_world s) (outBuf (ps_strm s)) = (bs, hi, e) ->
  wr_Write w bs = ((n, err), w') ->
  let s' := ProcSt (ps_strm s) (pipe_ReadMark (outBuf (ps_strm s)) n (ps_world s)) (ps_rd s) (Some w') in
  ready s' /\ in_data s' = in_data s /\ out_data s' = drop (Z.to_nat n) (out_data s) /\
  bs <> [] /\ 0 <= n <= zlen bs /\ zlen bs <= zlen (out_data s).
Proof.
  intros [[H1 H2 H3] [Hb1 Hb2] C1 C2] Hwr Hd Hr Hw s'.
  destruct (pipe_ReadSlices_data (ps_world s) (outBuf (ps_strm s))) as (lo & hi' & e' & Hr' & Hdd).
  rewrite Hr in Hr'. injection Hr' as <- <- <-. destruct (Hdd H2) as [Hd1 Hd2].
  pose proof (write_count w bs) as Hc. rewrite Hw in Hc. cbn in Hc.
  assert (Hlen : zlen bs <= zlen (out_data s))
    by (unfold out_data; rewrite Hd1, zlen_app; pose proof (zlen_nonneg hi); lia).
  split_and!; try done; try lia.
  - split; [split; cbn|split; cbn| |]; cbn; try done.
    + by apply pipe_upd_ring; [intros; apply readmark_mode|].
    + by apply pipe_upd_ring; [intros; apply readmark_mode|].
    + intros _. apply Hb2. congruence.
    + by apply pipe_upd_cap; [intros; apply readmark_capacity|].
    + by apply pipe_upd_cap; [intros; apply readmark_capacity|].
  - unfold in_data, s'. cbn. unfold pipe_ReadMark. rewrite pipe_data_other; [done|].
    intros l Hl Hi. by apply (H3 l).
  - unfold out_data, s'. cbn. rewrite pipe_read_data; [done|done|]. fold (out_data s). lia.
  - by apply Hd2.
Qed.

(** The coder between the buffers: what it changes. *)
Lemma code_ready act s :
  ready s ->
  exists inp n e s1, code_buffers act s = (Ret e, s1) /\ ready s1 /\
    ps_rd s1 = ps_rd s /\ ps_wr s1 = ps_wr s /\
    (in_data s <> [] -> inp <> []) /\ (out_data s = [] -> 0 < n \/ outBuf (ps_strm s) = None) /\
    let r := lzma_code (coder (ps_strm s)) (mem (ps_world s)) (uint32 act) inp n in
    coder (ps_strm s1) = cr_coder r /\ mem (ps_world s1) = cr_mem r /\
    in_data s1 = drop (Z.to_nat (cr_consumed r)) (in_data s) /\ out_data s1 = out_data s ++ cr_out r /\
    0 <= cr_consumed r <= zlen (in_data s) /\
    (e = None -> cr_ret r = OK \/ cr_ret r = BUF_ERROR).
Proof.
  intros [[H1 H2 H3] [Hb1 Hb2] C1 C2].
  destruct (code_buffers_run act s) as (inSl & hi & e & n & hi' & e' & Er & Ew & z' & Hrun & Hco & Hi & Ho).
  set (r := lzma_code _ _ _ _ _) in *.
  destruct (pipe_ReadSlices_data (ps_world s) (inBuf (ps_strm s))) as (lo & h2 & e2 & Er' & Hd).
  rewrite Er in Er'. injection Er' as <- <- <-. destruct (Hd H1) as [Hd1 Hd2].
  destruct (pipe_WriteSlices_room (ps_world s) (outBuf (ps_strm s))) as (n' & h3 & e3 & Ew' & Hroom).
  rewrite Ew in Ew'. injection Ew' as <- <- <-. destruct (Hroom H2) as [Hn _].
  destruct (code_bounds (coder (ps_strm s)) (mem (ps_world s)) (uint32 act) inSl n) as [Hk Hout].
  fold r in Hk, Hout. specialize (Hout Hn).
  set (w1 := set_mem (cr_mem r) (ps_world s)) in *.
  assert (Hlen : zlen inSl <= zlen (in_data s))
    by (unfold in_data; rewrite Hd1, zlen_app; pose proof (zlen_nonneg hi); lia).
  exists inSl, n. do 2 eexists. split; [exact Hrun|]. cbv zeta. fold r.
  split_and!; try done; try lia; cbn [ps_rd ps_wr ps_strm ps_world].
  - split; [split; cbn; rewrite ?Hi, ?Ho; try done|split; cbn; rewrite ?Hi, ?Ho; done| |]; cbn; rewrite ?Hi, ?Ho.
    1, 2: unfold pipe_WriteMark, pipe_ReadMark, pipe_Poke; repeat (apply pipe_upd_ring;
      [intros; first [apply writemark_mode|apply readmark_mode|apply poke_mode]|]); done.
    1, 2: unfold pipe_WriteMark, pipe_ReadMark, pipe_Poke; repeat (apply pipe_upd_cap;
      [intros; first [apply writemark_capacity|apply readmark_capacity|apply poke_capacity]|]); done.
  - intros Hod. destruct (outBuf (ps_strm s)) as [l|] eqn:El; [left|by right].
    destruct (H2 l eq_refl) as (p & Hp & Hm). unfold out_data, pipe_data in Hod. rewrite El in Hod. cbn in Hod.
    rewrite Hp in Hod. unfold pipe_WriteSlices in Ew. cbn in Ew. rewrite Hp in Ew.
    destruct (ring_write_first p Hm) as (_ & _ & Hpos). rewrite Ew in Hpos. apply Hpos. rewrite Hod.
    change (zlen []) with 0. by eapply C2.
  - unfold pipe_WriteMark, pipe_ReadMark, pipe_Poke. by rewrite !pipe_upd_mem.
  - unfold in_data at 1. cbn. rewrite Hi. unfold pipe_WriteMark. rewrite pipe_data_other
      by (intros l Hl Hl'; by apply (H3 l)).
    assert (Hpk : pipe_data (pipe_Poke (outBuf (ps_strm s)) (cr_out r) w1) (inBuf (ps_strm s)) = in_data s)
      by (unfold pipe_Poke; rewrite pipe_data_other by (intros l Hl Hl'; by apply (H3 l)); done).
    rewrite pipe_read_data; [by rewrite Hpk| |rewrite Hpk; lia].
    apply pipe_upd_ring; [intros; apply poke_mode|done].
  - unfold out_data at 1. cbn. rewrite Ho. rewrite out_data_swap by done.
    change (out_data s) with (pipe_data w1 (outBuf (ps_strm s))).
    exact (pipe_write_data w1 _ (cr_out r) n hi' e' H2 Ew Hout).
  - intros He. unfold NewError in He. destruct (Z.eqb_spec (cr_ret r) OK) as [|Hne]; [by left|right].
    repeat case_match; congruence.
Qed.

(** * Progress *)

(** A measure of what the reader can still deliver without an error. *)
Context (rd_left : R -> nat).
Hypothesis read_progress : forall r n bs err r',
  0 < n -> rd_Read r n = ((bs, err), r') -> err <> None \/ (rd_left r' < rd_left r)%nat.

(** [Write]'s contract: a short count comes with an error. *)
Hypothesis write_contract : forall w bs n err w',
  wr_Write w bs = ((n, err), w') -> n < zlen bs -> err <> None.

Lemma fill_loop_returns rdErr i s :
  ready s -> exists fuel e i1 s1, fill_loop fuel rdErr i s = (Ret (e, i1), s1) /\
    ready s1 /\ ps_wr s1 = ps_wr s /\ out_data s1 = out_data s /\ coder (ps_strm s1) = coder (ps_strm s) /\
    mem (ps_world s1) = mem (ps_world s) /\ (is_Some (ps_rd s1) <-> is_Some (ps_rd s)) /\
    (ps_rd s1 = None \/ e <> None \/ in_data s1 <> []) /\
    (e = None -> match ps_rd s, ps_rd s1 with
     | Some r, Some r1 => (rd_left r1 < rd_left r)%nat \/ (r1 = r /\ in_data s1 = in_data s)
     | None, None => in_data s1 = in_data s | _, _ => False end) /\
    (rdErr <> None -> e = rdErr /\ in_data s1 = in_data s).
Proof.
  destruct (ps_rd s) as [r|] eqn:Er.
  2: { intros Hr. exists 1%nat, rdErr, i, s. cbn [fill_loop]. rewrite bind_get, Er.
       split_and!; try done; auto. by destruct rdErr. }
  remember (rd_left r) as k eqn:Ek. revert rdErr i s r Er Ek.
  induction k as [k IH] using lt_wf_ind. intros rdErr i s r Er Ek Hr.
  destruct rdErr as [e|].
  { exists 1%nat, (Some e), i, s. rewrite Er. split_and!; try done; eauto. }
  destruct (pipe_Length (ps_world s) (inBuf (ps_strm s)) =? 0) eqn:El.
  2: { exists 1%nat, None, i, s. cbn [fill_loop]. rewrite bind_get, Er, El. split_and!; try done; eauto.
       right; right. intros Hd. rewrite pipe_Length_data in El by apply Hr.
       unfold in_data in Hd. by rewrite Hd in El. }
  destruct (pipe_WriteSlices (ps_world s) (inBuf (ps_strm s))) as [[n hi] e] eqn:Ew.
  destruct (rd_Read r n) as [[bs err] r'] eqn:Err.
  assert (Hd : in_data s = []).
  { rewrite pipe_Length_data in El by apply Hr. by apply zlen_zero_inv, Z.eqb_eq. }
  destruct (fill_ready s r n hi e bs err r' Hr Er Hd Ew Err) as (Hr' & Hd' & Ho' & Hn).
  set (s' := ProcSt _ _ _ _) in *.
  assert (Hm : mem (ps_world s') = mem (ps_world s))
    by (unfold s', pipe_WriteMark, pipe_Poke; cbn; by rewrite !pipe_upd_mem).
  assert (Hstep : forall fuel, fill_loop (S fuel) None i s = fill_loop fuel err (i + zlen bs) s').
  { intros fuel. cbn [fill_loop]. rewrite bind_get, Er, El, Ew, Err. reflexivity. }
  destruct err as [e'|].
  { exists 2%nat, (Some e'), (i + zlen bs), s'. rewrite Hstep. by split_and!; try done; auto. }
  destruct (read_progress _ _ _ _ _ Hn Err) as [|Hlt]; [done|].
  destruct (IH (rd_left r') ltac:(lia) None (i + zlen bs) s' r' eq_refl eq_refl Hr')
    as (fuel & e1 & i1 & s1 & F1 & F2 & F3 & F4 & F5 & F6 & F7 & F8 & F9 & _).
  exists (S fuel), e1, i1, s1. rewrite Hstep. split_and!; try done; try congruence.
  - rewrite F7. cbn. split; eauto.
  - intros He. specialize (F9 He). destruct (ps_rd s1) as [r1|]; [|done]. left.
    destruct F9 as [F9|[-> _]]; lia.
Qed.

Lemma drain_loop_returns wrErr o s :
  ready s -> exists fuel e o1 s1, drain_loop fuel wrErr o s = (Ret (e, o1), s1) /\
    ready s1 /\ ps_rd s1 = ps_rd s /\ in_data s1 = in_data s /\ coder (ps_strm s1) = coder (ps_strm s) /\
    mem (ps_world s1) = mem (ps_world s) /\ (is_Some (ps_wr s1) <-> is_Some (ps_wr s)) /\
    (ps_wr s = None -> e = wrErr /\ out_data s1 = out_data s) /\
    (ps_wr s1 = None \/ e <> None \/ out_data s1 = []).
Proof.
  destruct (ps_wr s) as [w|] eqn:Ew.
  2: { intros Hr. exists 1%nat, wrErr, o, s. cbn [drain_loop]. rewrite bind_get, Ew.
       split_and!; try done; auto. by destruct wrErr. }
  remember (length (out_data s)) as k eqn:Ek. revert wrErr o s w Ew Ek.
  induction k as [k IH] using lt_wf_ind. intros wrErr o s w Ew Ek Hr.
  destruct wrErr as [e|].
  { exists 1%nat, (Some e), o, s. rewrite Ew. split_and!; try done; auto. }
  pose proof (pipe_Length_data _ _ (ok_out _ (rdy_ok _ Hr))) as Hlen.
  destruct (0 <? pipe_Length (ps_world s) (outBuf (ps_strm s))) eqn:El; rewrite Hlen in El.
  2: { exists 1%nat, None, o, s. cbn [drain_loop]. rewrite bind_get, Ew, Hlen, El. split_and!; try done; auto.
       right; right. apply zlen_zero_inv. apply Z.ltb_ge in El.
       pose proof (zlen_nonneg (out_data s)). unfold out_data in *. lia. }
  destruct (pipe_ReadSlices (ps_world s) (outBuf (ps_strm s))) as [[bs hi] e] eqn:Er.
  destruct (wr_Write w bs) as [[n err] w'] eqn:Eww.
  assert (Hd : out_data s <> []) by (intros Hz; unfold out_data in Hz; by rewrite Hz in El).
  destruct (drain_ready s w bs hi e n err w' Hr Ew Hd Er Eww) as (Hr' & Hi' & Ho' & Hbs & Hn & Hl).
  set (s' := ProcSt _ _ _ _) in *.
  assert (Hm : mem (ps_world s') = mem (ps_world s)) by (unfold s', pipe_ReadMark; cbn; by rewrite pipe_upd_mem).
  assert (Hstep : forall fuel, drain_loop (S fuel) None o s = drain_loop fuel err (o + n) s').
  { intros fuel. cbn [drain_loop]. rewrite bind_get, Ew, Hlen, El, Er, Eww. reflexivity. }
  destruct err as [e'|].
  { exists 2%nat, (Some e'), (o + n), s'. rewrite Hstep. by split_and!; try done; auto. }
  assert (n = zlen bs) as ->.
  { destruct (decide (n < zlen bs)) as [Hlt|]; [|lia]. by apply (write_contract _ _ _ _ _ Eww) in Hlt. }
  assert (Hpos : 0 < zlen bs) by (destruct bs; [done|rewrite zlen_cons; pose proof (zlen_nonneg bs); lia]).
  destruct (IH (length (out_data s'))) with (wrErr := nil_err) (o := o + zlen bs) (s := s') (w := w')
    as (fuel & e1 & o1 & s1 & F1 & F2 & F3 & F4 & F5 & F6 & F7 & F8 & F9); try done.
  { rewrite Ho', length_drop. unfold zlen in *. lia. }
  exists (S fuel), e1, o1, s1. rewrite Hstep. split_and!; try done; try congruence.
  rewrite F7. cbn. split; eauto.
Qed.

(** The coders of a kind ([good]): with input (or without a source) and room (or without a sink) a
    call that does not fail takes input or brings the coder closer to its end;
    without a sink it writes nothing. *)
Context (act : Z) (good : lzma_coder -> cmem_t -> Prop) (work : lzma_coder -> cmem_t -> nat) (no_src no_dst : Prop).
Hypothesis code_good : forall c m inp n,
  good c m -> good (cr_coder (lzma_code c m (uint32 act) inp n)) (cr_mem (lzma_code c m (uint32 act) inp n)).
Hypothesis code_progress : forall c m inp n,
  let r := lzma_code c m (uint32 act) inp n in good c m ->
  inp <> [] \/ no_src -> 0 < n \/ no_dst -> cr_ret r = OK \/ cr_ret r = BUF_ERROR ->
  0 < cr_consumed r \/ (work (cr_coder r) (cr_mem r) < work c m)%nat.
Hypothesis code_no_dst : forall c m inp n, no_dst -> cr_out (lzma_code c m (uint32 act) inp n) = [].

(** The first component of the measure: what the reader can still bring. *)
Definition supply (rdErr : error) (s : state) : nat :=
  match rdErr, ps_rd s with None, Some r => S (rd_left r) | _, _ => 0 end.

Definition returns_from (rdErr : error) (o i : Z) (s : state) : Prop :=
  exists fuel r s', process_loop fuel act rdErr None o i s = (Ret r, s').

(** One turn of the main loop, with the fuel of its three parts. *)
Lemma process_turn f1 f2 f3 rdErr o i s e1 i1 s1 xz s2 e2 o1 s3 :
  fill_loop f1 rdErr i s = (Ret (e1, i1), s1) -> code_buffers act s1 = (Ret xz, s2) ->
  drain_loop f2 None o s2 = (Ret (e2, o1), s3) -> stream_ok s3 ->
  e2 <> None \/ (xz <> None /\ out_data s3 = []) \/ (e1 <> None /\ out_data s3 = [] /\ in_data s3 = []) \/
  (exists r s', process_loop f3 act e1 None o1 i1 s3 = (Ret r, s')) ->
  returns_from rdErr o i s.
Proof.
  intros Ef Ec Ed Hok Hend. set (f := Nat.max f1 (Nat.max f2 f3)). exists (S f).
  cbn [process_loop]. rewrite (bind_ret _ _ _ _ _ (extends_run _ _ _ _ _ (fill_loop_more f1 (S f) rdErr i ltac:(lia)) Ef ltac:(done))).
  rewrite (bind_ret _ _ _ _ _ Ec), (bind_ret _ _ _ _ _ (extends_run _ _ _ _ _ (drain_loop_more f2 (S f) None o ltac:(lia)) Ed ltac:(done))).
  rewrite bind_get, !pipe_Length_data by apply Hok. fold (out_data s3) (in_data s3).
  rewrite !zlen_eqb_nil. destruct e2 as [e|]; [by do 2 eexists|].
  destruct Hend as [Hw|[[Hx Ho]|[(He & Ho & Hi)|(r & s' & Hl)]]]; [done| | |].
  - destruct xz; [|done]. rewrite bool_decide_eq_true_2 by done. by do 2 eexists.
  - rewrite !bool_decide_eq_true_2 by done. destruct xz; [by do 2 eexists|]. destruct e1; [|done].
    by do 2 eexists.
  - assert (Hl' := extends_run _ _ _ _ _ (process_loop_more act f3 f e1 None o1 i1 ltac:(lia)) Hl ltac:(done)).
    repeat case_match; try (by do 2 eexists); rewrite Hl'; by do 2 eexists.
Qed.

Lemma process_loop_returns rdErr o i s :
  ready s -> good (coder (ps_strm s)) (mem (ps_world s)) ->
  (ps_rd s = None -> no_src) -> (ps_wr s = None -> no_dst) -> out_data s = [] -> returns_from rdErr o i s.
Proof.
  remember (supply rdErr s) as a eqn:Ea. remember (length (in_data s)) as b eqn:Eb.
  remember (work (coder (ps_strm s)) (mem (ps_world s))) as c eqn:Ec.
  revert b c rdErr o i s Ea Eb Ec. induction a as [a IHa] using lt_wf_ind.
  induction b as [b IHb] using lt_wf_ind. induction c as [c IHc] using lt_wf_ind.
  intros rdErr o i s -> -> -> Hr Hg Hs Hd Hout.
  destruct (fill_loop_returns rdErr i s Hr)
    as (f1 & e1 & i1 & s1 & F1 & F2 & F3 & F4 & F5 & F6 & F7 & F8 & F9 & F10).
  destruct (code_ready act s1 F2)
    as (inp & n & xz & s2 & G1 & G2 & G3 & G4 & G5 & G6 & G7 & G8 & G9 & G10 & G11 & G12).
  set (r := lzma_code _ _ _ _ _) in *.
  destruct (drain_loop_returns None o s2 G2) as (f2 & e2 & o1 & s3 & D1 & D2 & D3 & D4 & D5 & D6 & D7 & D8 & D9).
  assert (Hn1 : ps_rd s1 = None -> no_src).
  { intros H. apply Hs. destruct (ps_rd s); [|done]. rewrite H in F7. destruct F7 as [_ F7]. by destruct F7. }
  assert (Hout3 : e2 = None -> out_data s3 = []).
  { intros He. destruct D9 as [Hw|[|]]; [|done|done].
    assert (Hw2 : ps_wr s2 = None).
    { destruct (ps_wr s2); [|done]. rewrite Hw in D7. destruct D7 as [_ D7]. by destruct D7. }
    destruct (D8 Hw2) as [_ ->]. rewrite G10, F4, Hout. apply code_no_dst, Hd. congruence. }
  destruct e2 as [e|]; [by eapply (process_turn f1 f2 0); [exact F1|exact G1|exact D1|apply D2|left]|]. specialize (Hout3 eq_refl).
  destruct xz as [e|]; [by eapply (process_turn f1 f2 0); [exact F1|exact G1|exact D1|apply D2|right; left]|].
  destruct (decide (e1 <> None /\ in_data s3 = [])) as [[He Hi]|Hgo].
  { eapply (process_turn f1 f2 0); [exact F1|exact G1|exact D1|apply D2|]. right; right; left. done. }
  (* the loop goes on: the measure went down *)
  assert (Hrec : returns_from e1 o1 i1 s3).
  { assert (Hg3 : good (coder (ps_strm s3)) (mem (ps_world s3))).
    { rewrite D5, D6, G7, G8. apply code_good. by rewrite F5, F6. }
    assert (Hs3 : ps_rd s3 = None -> no_src) by (rewrite D3, G3; done).
    assert (Hd3 : ps_wr s3 = None -> no_dst).
    { intros H. apply Hd. rewrite <- F3, <- G4. destruct (ps_wr s2); [|done]. rewrite H in D7.
      destruct D7 as [_ D7]. by destruct D7. }
    assert (Hprog : 0 < cr_consumed r \/ (work (cr_coder r) (cr_mem r) < work (coder (ps_strm s)) (mem (ps_world s)))%nat).
    { rewrite <- F5, <- F6. apply code_progress; [by rewrite F5, F6|..].
      - destruct F8 as [F8|[F8|F8]]; [right; auto| |left; auto].
        left. apply G5. intros Hz. apply Hgo. split; [done|]. rewrite D4, G9, Hz. by rewrite drop_nil.
      - rewrite F4 in G6. destruct (G6 Hout) as [|Ho]; [by left|right]. apply Hd. rewrite <- F3.
        destruct (ps_wr s1) eqn:E1; [|done]. exfalso. by apply (proj2 (rdy_there _ F2)); [rewrite E1|].
      - by apply G12. }
    assert (Hsup : (supply e1 s3 < supply rdErr s)%nat \/ (supply e1 s3 = supply rdErr s /\ in_data s1 = in_data s)).
    { unfold supply. rewrite D3, G3. destruct rdErr as [e|].
      - destruct (F10 ltac:(done)) as [-> ->]. by right.
      - destruct e1 as [e|].
        + destruct (ps_rd s) as [r0|] eqn:E0; [left; lia|]. right. split; [done|].
          destruct F7 as [_ F7]. 
          exfalso. destruct f1; [done|]. cbn [fill_loop] in F1. rewrite bind_get, E0 in F1. done.
        + specialize (F9 eq_refl). destruct (ps_rd s), (ps_rd s1); try done; [|by right].
          destruct F9 as [F9|[-> F9]]; [left; lia|by right]. }
    destruct Hsup as [Hlt|[Heq Hin]]; [by eapply (IHa _ Hlt)|].
    assert (Hlen : length (in_data s3) = (length (in_data s) - Z.to_nat (cr_consumed r))%nat)
      by (rewrite D4, G9, length_drop, Hin; done).
    destruct Hprog as [Hc|Hw].
    - eapply (IHb (length (in_data s3))); eauto. rewrite Hlen. rewrite Hin in G11. unfold zlen in G11. lia.
    - destruct (decide (cr_consumed r = 0)) as [Hz|Hz].
      + eapply (IHc _ Hw); eauto; [by rewrite Hlen, Hz, Nat.sub_0_r|by rewrite D5, D6, G7, G8].
      + eapply (IHb (length (in_data s3))); eauto. rewrite Hlen. rewrite Hin in G11. unfold zlen in G11. lia. }
  destruct Hrec as (f3 & r3 & s' & Hl).
  eapply (process_turn f1 f2 f3); [exact F1|exact G1|exact D1|apply D2|]. right; right; right. eauto.
Qed.

Lemma Process_returns s :
  stream_ok s -> caps s -> out_data s = [] -> good (coder (ps_strm s)) (mem (ps_world s)) ->
  (ps_rd s = None -> no_src) -> (ps_wr s = None -> no_dst) ->
  exists fuel r s', forall fuel', (fuel <= fuel')%nat -> Process fuel' act s = (Ret r, s').
Proof.
  intros Hok Hcap Hout Hg Hs Hd.
  destruct (lazy_buffers_run act s Hok) as (s1 & E1 & (K1 & K2 & _) & K3 & K4 & K5 & _ & K6 & K7 & K8).
  destruct (K5 Hcap) as [C1 C2].
  destruct (process_loop_returns None 0 0 s1) as (fuel & r & s' & Hl);
    [by split|by rewrite K7, K8|by rewrite K3|by rewrite K4|by rewrite K6|].
  assert (Hfuel : forall fuel', (fuel <= fuel')%nat ->
    (lazy_buffers;; process_loop fuel' act None None 0 0) s = (Ret r, s')).
  { intros fuel' Hle. rewrite (bind_ret _ _ _ _ _ E1). exact (extends_run _ _ _ _ _ (process_loop_more _ _ _ _ _ _ _ Hle) Hl ltac:(done)). }
  unfold Process. destruct (ps_rd s) eqn:Er, (ps_wr s) eqn:Ew.
  1-3: exists fuel, r, s'; intros fuel' Hle; rewrite bind_get, Er, ?Ew; by apply Hfuel.
  exists 0%nat. do 2 eexists. intros fuel' _. rewrite bind_get, Er, Ew. done.
Qed.


End term.
