(* ===== verification/StreamRuns.v ===== *)
(** Runs of the pump on the small library: a reader and a writer over byte
    lists, and the instances of the theorems of [StreamPump] and [StreamTerm]. *)

From S2P Require Import Prelude Bufpipe Liblzma SmallLzma Lib World LibIndex Stream StreamPump StreamTerm.

Module Mem.

(** A reader that delivers its bytes and then io.EOF. *)
Record reader : Type := Rd { rest : list Z }.
#[export] Instance mem_reader : IoReader reader := fun r n =>
  match rest r with
  | [] => (([], Some EOF), r)
  | bs => ((take (Z.to_nat n) bs, None), Rd (drop (Z.to_nat n) bs))
  end.
#[export] Instance mem_reader_spec : IoReaderSpec reader.
Proof.
  intros [bs] n Hn. unfold rd_Read, mem_reader. destruct bs; cbn [rest fst]; [done|].
  unfold zlen. rewrite length_take. lia.
Qed.

(** A writer that keeps the bytes, up to a limit after which it fails. *)
Record writer : Type := Wr { out : list Z; limit : Z }.
#[export] Instance mem_writer : IoWriter writer := fun w bs =>
  let k := Z.max 0 (Z.min (zlen bs) (limit w - zlen (out w))) in
  ((k, if k <? zlen bs then Some ErrShortWrite else None),
   Wr (out w ++ take (Z.to_nat k) bs) (limit w)).
#[export] Instance mem_writer_spec : IoWriterSpec writer.
Proof. intros w bs. unfold wr_Write, mem_writer. cbn. pose proof (zlen_nonneg bs). lia. Qed.

End Mem.

Module StreamRun.
Import Mem.
#[local] Existing Instance Small.liblzma.
#[local] Existing Instance Small.liblzma_spec.
#[local] Existing Instance Plain.bufpipe.
#[local] Existing Instance Plain.bufpipe_spec.

(** An encoder of a block, a source of three bytes, an empty sink. *)
Definition start (limit : Z) : procst reader writer :=
  ProcSt (set_coder (Small.Coder (Small.CBlockEnc 1 [] 0 0 false) false) NewStream) empty_world
         (Some (Rd [1; 200; 3])) (Some (Wr [] limit)).

Lemma start_ok limit : stream_ok (start limit).
Proof. split; cbn; [intros l; discriminate|intros l; discriminate|intros l; discriminate]. Defined.

Lemma run_result : (Process 10 RUN (start 100)).1 = Ret (5, 3, Some EOF).
Proof. vm_compute. reflexivity. Defined.

Lemma Process_lossless_witness :
  exists cin cout rd wr, pumped RUN (start 100) (Process 10 RUN (start 100)).2 rd cin cout wr /\ zlen rd = 3 /\ zlen wr = 5.
Proof.
  destruct (Process_lossless RUN 10 (start 100) _ 5 3 (Some EOF) (start_ok 100) (run_eta _ _ _ run_result))
    as (_ & rd & cin & cout & wr & Hp & H1 & H2).
  exists cin, cout, rd, wr. by split.
Defined.

Lemma short_result : (Process 10 RUN (start 2)).1 = Ret (2, 3, Some ErrShortWrite).
Proof. vm_compute. reflexivity. Defined.


(** The small coders make progress. *)
Definition rd_left (r : reader) : nat := length (rest r).
Definition work (c : Small.coder) (m : cmem_t) : nat :=
  match Small.kind_of c with Small.CIndexEnc rest => length rest | _ => 0 end.

Lemma mem_read_progress (r : reader) n bs err r' :
  0 < n -> rd_Read r n = ((bs, err), r') -> err <> None \/ (rd_left r' < rd_left r)%nat.
Proof.
  destruct r as [l]. unfold rd_Read, mem_reader, rd_left. intros Hn. cbn [rest]. destruct l as [|x l].
  - intros [= <- <- <-]. by left.
  - intros [= <- <- <-]. right. cbn [rest]. rewrite length_drop. cbn. lia.
Defined.

Lemma mem_write_contract (w : writer) bs n err w' :
  wr_Write w bs = ((n, err), w') -> n < zlen bs -> err <> None.
Proof.
  unfold wr_Write, mem_writer. intros [= <- <- <-] Hlt. by rewrite (proj2 (Z.ltb_lt _ _) Hlt).
Defined.

Lemma until_end_pos inp : inp <> [] -> 0 < zlen (Small.until_end inp) \/ zlen (Small.until_end inp) < zlen inp /\ zlen (Small.until_end inp) = 0.
Proof.
  destruct inp as [|b inp]; [done|]. intros _. cbn. destruct (b =? 255).
  - right. rewrite zlen_cons. change (zlen []) with 0. pose proof (zlen_nonneg inp). lia.
  - left. rewrite zlen_cons. pose proof (zlen_nonneg (Small.until_end inp)). lia.
Defined.

Lemma until_end_le inp : zlen (Small.until_end inp) <= zlen inp.
Proof.
  induction inp as [|b inp IH]; [done|]. cbn. destruct (b =? 255); rewrite ?zlen_cons in *.
  - change (zlen []) with 0. pose proof (zlen_nonneg inp). lia.
  - lia.
Defined.

Lemma step_progress k m inp n ret k' m' c out :
  Small.step k m 0 inp n = (ret, k', m', c, out) -> inp <> [] -> 0 < n -> ret = 0 \/ ret = 10 ->
  0 < c \/ (work (Small.Coder k' false) m' < work (Small.Coder k false) m)%nat.
Proof.
  intros Hs Hi Hn Hret.
  assert (Hpos : 0 < zlen inp) by (destruct inp; [done|rewrite zlen_cons; pose proof (zlen_nonneg inp); lia]).
  destruct k as [|b pend nin nout []|b nin nout []|rs|cell seen []]; cbn in Hs;
    try (injection Hs as <- <- <- <- <-; lia).
  - left. pose proof (until_end_le inp) as Hle. destruct (until_end_pos inp Hi) as [H|[H1 H2]].
    + destruct (_ && _); injection Hs as <- <- <- <- <-; lia.
    + rewrite H2 in Hs. rewrite Z.min_l in Hs by lia. rewrite (proj2 (Z.ltb_lt 0 _)) in Hs by lia.
      cbn in Hs. injection Hs as <- <- <- <- <-. lia.
  - right. injection Hs as Hr <- <- <- <-. cbn. rewrite length_drop.
    destruct (decide (drop (Z.to_nat n) rs = [])) as [Hd|Hd]; [lia|].
    assert (rs <> []) by (intros ->; by rewrite drop_nil in Hd).
    destruct rs; [done|]. cbn. lia.
  - left. destruct (Small.complete (seen ++ inp)); injection Hs as <- <- <- <- <-; lia.
Defined.

Lemma small_progress (c : lzma_coder) (m : cmem_t) inp n :
  let r := lzma_code c m (uint32 RUN) inp n in True ->
  inp <> [] \/ False -> 0 < n \/ False -> cr_ret r = OK \/ cr_ret r = BUF_ERROR ->
  0 < cr_consumed r \/ (work (cr_coder r) (cr_mem r) < work c m)%nat.
Proof.
  intros r _ [Hi|[]] [Hn|[]] Hret.
  assert (Hpos : 0 < zlen inp) by (destruct inp; [done|rewrite zlen_cons; pose proof (zlen_nonneg inp); lia]).
  unfold OK, BUF_ERROR in Hret. unfold r in *. change (uint32 RUN) with 0 in *.
  cbn in Hret |- *. unfold Small.code in *.
  destruct (Small.step (Small.kind_of c) m 0 inp n) as [[[[ret k'] m'] k] out] eqn:Es. cbn in Hret |- *.
  assert (Hret' : ret = 0 \/ ret = 10).
  { destruct (Z.eqb_spec ret 10); cbn in Hret; [by right|]. lia. }
  destruct (step_progress _ _ _ _ _ _ _ _ _ Es Hi Hn Hret') as [Hk|Hw]; [left; lia|by right].
Defined.


End StreamRun.
