(* ===== verification/PipeClose.v ===== *)
(** The two methods of a pipe of [golib/bufpipe] that only the asynchronous writer
    calls: [CloseWithError] by the worker that filled the pipe, and [WriteTo] by
    the goroutine that empties it into the underlying writer. *)

From S2P Require Import Prelude Bufpipe Lines Liblzma Stream StreamPump.

Class BufpipeClose (BP : Bufpipe) : Type := {
  bp_CloseWithError : BufferPipe -> error -> BufferPipe;
  (** The count, the error, and the pipe and the writer after it. *)
  bp_WriteTo {W} {IW : IoWriter W} : BufferPipe -> W -> (Z * error) * (BufferPipe * W);
}.

(** Documented behaviour: closing without an error is [Close]; [WriteTo] of a
    closed line returns nil only when all that was left in it was written; the
    error that a pipe was closed with reaches the reader. *)
Class BufpipeCloseSpec (BP : Bufpipe) (BC : BufpipeClose BP) : Prop := {
  close_without_error p : bp_CloseWithError p None = bp_Close p;
  line_write_to {W} {IW : IoWriter W} p (wr : W) n p' wr' :
    is_line (bp_Mode p) -> bp_Closed p = true -> bp_WriteTo p wr = ((n, None), (p', wr')) ->
    writes wr (drop (Z.to_nat (bp_rdPtr p)) (bp_Written p)) wr';
  line_write_to_fault {W} {IW : IoWriter W} p e (wr : W) :
    is_line (bp_Mode p) -> bp_Closed p = false ->
    (bp_WriteTo (bp_CloseWithError p (Some e)) wr).1.2 <> None;
  line_close_fault p e : is_line (bp_Mode p) -> bp_Closed (bp_CloseWithError p (Some e)) = true;
}.

Lemma line_of_write_to {BP : Bufpipe} {BS : BufpipeSpec BP} {BC : BufpipeClose BP} {BCS : BufpipeCloseSpec BP BC}
    {W} {IW : IoWriter W} p cap bs (wr : W) n p' wr' :
  line p cap true 0 bs -> bp_WriteTo p wr = ((n, None), (p', wr')) -> writes wr bs wr'.
Proof.
  intros H E. apply line_write_to in E; [|by eapply ln_is|apply H].
  by rewrite (line_rd _ _ _ _ _ H), drop_0, (ln_written _ _ _ _ _ H) in E.
Qed.

(** * The concrete pipe *)
Module PlainClose.
Import Plain.

Definition close_with (p : t) (e : error) : t :=
  T (buf p) (size p) (mode p) true (rd p) (wr p) (match e with Some _ => e | None => fault p end).

Definition write_to {W} {IW : IoWriter W} (p : t) (w : W) : (Z * error) * (t * W) :=
  match fault p with
  | Some e => ((0, Some e), (p, w))
  | None =>
      let '((n, err), w') := wr_Write w (data p) in
      let err := match err with
                 | Some _ => err
                 | None => if n =? zlen (data p) then None else Some ErrShortWrite
                 end in
      ((n, err), (mark_read p n, w'))
  end.

#[export] Instance bufpipe_close : BufpipeClose Plain.bufpipe := {
  bp_CloseWithError := close_with;
  bp_WriteTo W IW := write_to;
}.

#[export] Instance bufpipe_close_spec : BufpipeCloseSpec Plain.bufpipe bufpipe_close.
Proof.
  split; [done| |done|done].
  intros W IW p wr n p' wr' Hm Hc. cbn. unfold write_to. destruct (fault p); [done|].
  destruct (wr_Write wr (data p)) as [[k err] w1] eqn:Ew. destruct err; [done|].
  destruct (Z.eqb_spec k (zlen (data p))) as [->|]; [|done]. intros [= <- <- <-].
  unfold bp_Written, bp_rdPtr, bp_wrPtr, bp_array. cbn. rewrite !Nat2Z.id. fold (data p).
  rewrite <- (app_nil_r (data p)).
  assert (data p = take (Z.to_nat (zlen (data p))) (data p)) as -> by (rewrite take_ge; [done|unfold zlen; lia]).
  econstructor; [exact Ew|constructor].
Qed.

End PlainClose.
