(* ===== verification/Ioutil.v ===== *)
(** The interface of [golib/ioutil]: a reader and a writer over a byte slice.
    The package is not part of the repository. *)

From S2P Require Import Prelude Stream.

Class Ioutil : Type := {
  SliceReader : Type;
  NewReader : list Z -> SliceReader;
  slice_reader :: IoReader SliceReader;
  (** The writer over a slice of [n] bytes; [sw_bytes] are the bytes that were
      written to the slice so far. *)
  SliceWriter : Type;
  NewWriter : Z -> SliceWriter;
  sw_bytes : SliceWriter -> list Z;
  slice_writer :: IoWriter SliceWriter;
}.

(** Documented behaviour: the reader delivers the slice and reports io.EOF only
    at its end; the writer fills the slice and reports io.ErrShortWrite when it
    is full. *)
Class IoutilSpec (IU : Ioutil) : Type := {
  sr_spec :: IoReaderSpec SliceReader;
  sr_rest : SliceReader -> list Z;
  sr_new bs : sr_rest (NewReader bs) = bs;
  sr_read r n bs e r' : rd_Read r n = ((bs, e), r') ->
    sr_rest r = bs ++ sr_rest r' /\ (e = None \/ e = Some EOF /\ sr_rest r' = []);
  sr_progress r n bs r' : 0 < n -> rd_Read r n = ((bs, None), r') -> bs <> [];
  sw_spec :: IoWriterSpec SliceWriter;
  sw_new n : sw_bytes (NewWriter n) = [];
  sw_write w bs k e w' : wr_Write w bs = ((k, e), w') ->
    sw_bytes w' = sw_bytes w ++ take (Z.to_nat k) bs /\
    (e = None /\ k = zlen bs \/ e = Some ErrShortWrite);
}.

(** * A concrete instance *)
Module PlainIo.

Record sreader : Type := Rd { rest : list Z }.
Record swriter : Type := Wr { put_ : list Z; room : Z }.

Definition read (r : sreader) (n : Z) : (list Z * error) * sreader :=
  match rest r with
  | [] => (([], Some EOF), r)
  | bs => ((take (Z.to_nat n) bs, None), Rd (drop (Z.to_nat n) bs))
  end.
Definition write (w : swriter) (bs : list Z) : (Z * error) * swriter :=
  let k := Z.max 0 (Z.min (zlen bs) (room w)) in
  ((k, if k <? zlen bs then Some ErrShortWrite else None),
   Wr (put_ w ++ take (Z.to_nat k) bs) (room w - k)).

#[export] Instance ioutil : Ioutil := {
  SliceReader := sreader;
  NewReader := Rd;
  slice_reader := read;
  SliceWriter := swriter;
  NewWriter n := Wr [] n;
  sw_bytes := put_;
  slice_writer := write;
}.

#[export] Instance ioutil_spec : IoutilSpec ioutil.
Proof.
  refine {| sr_rest := rest : @SliceReader ioutil -> list Z |}.
  - intros [bs] n Hn. cbn. unfold rd_Read, read. destruct bs; cbn [rest fst]; [done|].
    unfold zlen. rewrite length_take. lia.
  - done.
  - intros [l] n bs e r'. unfold rd_Read. cbn. unfold read. cbn [rest]. destruct l as [|x l].
    + intros [= <- <- <-]. split; [done|by right].
    + intros [= <- <- <-]. cbn [rest]. rewrite take_drop. split; [done|by left].
  - intros [l] n bs r' Hn. unfold rd_Read. cbn. unfold read. cbn [rest]. destruct l as [|x l]; [done|].
    intros [= <- <-]. replace (Z.to_nat n) with (S (Z.to_nat (n - 1))) by lia. done.
  - intros w bs. unfold wr_Write. cbn. pose proof (zlen_nonneg bs). lia.
  - done.
  - intros w bs k e w'. unfold wr_Write. cbn. unfold write. intros [= <- <- <-]. split; [done|].
    pose proof (zlen_nonneg bs). destruct (Z.ltb_spec (Z.max 0 (Z.min (zlen bs) (room w))) (zlen bs)); [by right|left].
    split; [done|]. lia.
Defined.

End PlainIo.
