(* ===== verification/LzmaAlone.v ===== *)
(** [lzma/reader.go], [lzma/writer.go] and [lzma/const.go]: the reader and the
    writer of the LZMA_ALONE format, each a thin layer over [Stream.Process]. *)

From S2P Require Import Prelude Bufpipe Errs Liblzma SmallLzma Lib World LibIndex Stream.
From S2P Require Import StreamPump StreamTerm Ioutil.

Section lzma.
Context {BP : Bufpipe} {L : Liblzma} {E : Errs} {IU : Ioutil}.

(** * lzma/const.go *)
Definition Extreme := PRESET_EXTREME.
Definition BestSpeed := PRESET_LEVEL0.
Definition BestCompression := PRESET_LEVEL9.
Definition DefaultCompression := PRESET_DEFAULT.
Definition maxMemory : Z := 2 ^ 64 - 1.
Definition streamEnd : goerr := LibError STREAM_END.
Definition dataError : goerr := LibError DATA_ERROR.

(** * The reader *)
Section reader.
Context {R : Type} {IR : IoReader R}.

(** [*reader], with the world its stream points into. *)
Record reader : Type := ReaderV {
  r_Stream : Stream;
  r_rd : R;
  r_closed : bool;
  r_world : world;
}.

Definition lzma_NewReader (rd : R) (w : world) : option reader * error :=
  match NewStreamLZMAAloneDecoder maxMemory with
  | (Some stream, None) => (Some (ReaderV stream rd false w), None)
  | (_, err) => (None, err)
  end.

(** [r.Process(code, dst, r.rd)] *)
Definition reader_process (fuel : nat) (code : Z) (dst : SliceWriter) : M reader (Z * Z * error * SliceWriter) :=
  fun r =>
    match Process fuel code (ProcSt (r_Stream r) (r_world r) (Some (r_rd r)) (Some dst)) with
    | (o, ProcSt z w rd wr) =>
        let r' := ReaderV z (default (r_rd r) rd) (r_closed r) w in
        match o with
        | Ret res => (Ret (res, default dst wr), r')
        | Pan p => (Pan p, r')
        | NoFuel => (NoFuel, r')
        end
    end.

(** [Read] of a slice of [n] bytes: the count, the error, and the bytes at the
    beginning of the slice. *)
Definition lzma_Read (fuel : nat) (n : Z) : M reader (Z * error * list Z) :=
  r ← get;
  if r_closed r then mret (0, Some ErrClosedPipe, []) else
  p ← reader_process fuel RUN (NewWriter n);
  let '(rdCnt, _, err, wr) := p in
  let err := errs_Ignore err [Some ErrShortWrite] in
  let err := errs_Convert err (Some ErrUnexpectedEOF) [Some EOF] in
  let err := errs_Convert err (Some EOF) [Some streamEnd] in
  if decide (err = Some EOF) then
    r ← get;
    let '(_, inB) := GetBuffers (r_Stream r) in
    if negb (pipe_Length (r_world r) inB =? 0) then mret (rdCnt, Some dataError, sw_bytes wr) else
    let '((_, err1), rd') := rd_Read (r_rd r) 1 in
    put (ReaderV (r_Stream r) rd' (r_closed r) (r_world r));;
    if decide (err1 <> Some EOF) then mret (rdCnt, Some dataError, sw_bytes wr)
    else mret (rdCnt, err, sw_bytes wr)
  else mret (rdCnt, err, sw_bytes wr).

Definition reader_Close : M reader error :=
  r ← get;
  if r_closed r then mret None else
  modify (fun r => ReaderV (r_Stream r) (r_rd r) true (r_world r));;
  with_defer (modify (fun r => ReaderV (Stream_End (r_Stream r)) (r_rd r) (r_closed r) (r_world r)))
    (mret None).

End reader.

(** * The writer *)
Section writer.
Context {W : Type} {IW : IoWriter W}.

Record writer : Type := WriterV {
  w_Stream : Stream;
  w_wr : W;
  w_closed : bool;
  w_world : world;
}.

Definition lzma_NewWriterLevel (wr : W) (level : Z) (w : world) : option writer * error :=
  match NewOptionsLZMA level with
  | (Some opts, None) =>
      match NewStreamLZMAAloneEncoder opts with
      | (Some stream, None) => (Some (WriterV stream wr false w), None)
      | (_, err) => (None, err)
      end
  | (_, err) => (None, err)
  end.

Definition lzma_NewWriter (wr : W) (w : world) : option writer * error :=
  lzma_NewWriterLevel wr DefaultCompression w.

(** [w.Process(code, w.wr, src)] *)
Definition writer_process (fuel : nat) (code : Z) (src : option SliceReader) :
    M writer (Z * Z * error) := fun wr =>
  match Process fuel code (ProcSt (w_Stream wr) (w_world wr) src (Some (w_wr wr))) with
  | (o, ProcSt z w _ d) => (o, WriterV z (default (w_wr wr) d) (w_closed wr) w)
  end.

Definition lzma_Write (fuel : nat) (data : list Z) : M writer (Z * error) :=
  w ← get;
  if w_closed w then mret (0, Some ErrClosedPipe) else
  p ← writer_process fuel RUN (Some (NewReader data));
  let '(_, rdCnt, err) := p in
  mret (rdCnt, errs_Ignore err [Some EOF]).

Definition writer_Close (fuel : nat) : M writer error :=
  w ← get;
  if w_closed w then mret None else
  modify (fun w => WriterV (w_Stream w) (w_wr w) true (w_world w));;
  with_defer (modify (fun w => WriterV (Stream_End (w_Stream w)) (w_wr w) (w_closed w) (w_world w)))
    (p ← writer_process fuel FINISH None;
     let '(_, _, err) := p in
     mret (errs_Ignore err [Some streamEnd])).

End writer.
End lzma.
Arguments reader {BP L} R.
Arguments writer {BP L} W.

(** * Theorems *)
Section thms.
Context {BP : Bufpipe} {L : Liblzma} {E : Errs} {IU : Ioutil}.
Context {BS : BufpipeSpec BP} {LS : LiblzmaSpec L} {ES : ErrsSpec E} {IS : IoutilSpec IU}.

Lemma sr_reads r bs r' : reads r bs r' -> sr_rest r = bs ++ sr_rest r'.
Proof.
  induction 1 as [|r n bs e r1 bs' r2 Hr Hrs IH]; [done|].
  destruct (sr_read _ _ _ _ _ Hr) as [-> _]. by rewrite IH, app_assoc.
Qed.

Lemma sw_writes w bs w' : writes w bs w' -> sw_bytes w' = sw_bytes w ++ bs.
Proof.
  induction 1 as [|w buf n e w1 bs' w2 Hw Hws IH]; [by rewrite app_nil_r|].
  destruct (sw_write _ _ _ _ _ Hw) as [Hb _]. by rewrite IH, Hb, app_assoc.
Qed.

Section writer.
Context {W : Type} {IW : IoWriter W} {WS : IoWriterSpec W}.

(** The state of a writer as [Process] sees it. *)
Definition wstate (w : writer W) (src : option SliceReader) : procst SliceReader W :=
  ProcSt (w_Stream w) (w_world w) src (Some (w_wr w)).
Definition writer_ok (w : writer W) : Prop :=
  stream_ok (wstate w None) /\ in_data (wstate w None) = [] /\ out_data (wstate w None) = [].

(** One [Process] of the writer. *)
Lemma writer_process_run fuel code src w o i err w' :
  stream_ok (wstate w None) -> writer_process fuel code src w = (Ret (o, i, err), w') ->
  w_closed w' = w_closed w /\ stream_ok (wstate w' None) /\
  exists rest rd cin cout wr,
    pumped code (wstate w src) (wstate w' rest) rd cin cout wr /\
    i = zlen rd /\ ended code (wstate w src) (wstate w' rest) err.
Proof.
  intros Hok H. unfold writer_process in H.
  destruct (Process _ _ _) as [[res| |] [z wo rd d]] eqn:Ep; try done.
  injection H as -> <-. pose proof Hok as [K1 K2 K3].
  destruct (Process_run _ _ (wstate w src) _ _ _ _ ltac:(by split) Ep) as [([J1 J2 J3] & rd' & cin & cout & wr & Hp & -> & ->) He].
  split; [done|]. split; [by split|]. exists rd, rd', cin, cout, wr.
  assert (d = Some (default (w_wr w) d)) as Hd.
  { destruct d; [done|]. exfalso. by apply (pm_writes _ _ _ _ _ _ _ Hp). }
  rewrite Hd in Hp, He. split; [exact Hp|]. split; [done|]. by destruct src.
Qed.

Lemma NewError_not_EOF c : NewError c <> Some EOF.
Proof. unfold NewError. by case_match. Qed.

Lemma Write_complete fuel data cnt (w w' : writer W) :
  (forall wr bs, (wr_Write wr bs).1.2 <> Some EOF) ->
  writer_ok w -> w_closed w = false ->
  lzma_Write fuel data w = (Ret (cnt, None), w') ->
  cnt = zlen data /\ writer_ok w' /\ w_closed w' = false /\
  exists out, codes RUN (coder (w_Stream w)) (mem (w_world w)) data out (coder (w_Stream w')) (mem (w_world w')) /\
    writes (w_wr w) out (w_wr w').
Proof.
  intros Hw (Hok & Hin & Hout) Hc H. unfold lzma_Write in H. rewrite bind_get, Hc, bind_run in H.
  destruct (writer_process fuel RUN (Some (NewReader data)) w) as [[[[o i] err]| |] w1] eqn:Ep; try done.
  injection H as -> He <-. rewrite Ignore_spec in He.
  destruct (writer_process_run _ _ _ _ _ _ _ _ Hok Ep)
    as (Hc1 & Hok1 & rest & rd & cin & cout & wr & Hp & Hi & Hne & Hend).
  case_decide as Hd; [|done]. apply list_elem_of_singleton in Hd as ->.
  destruct Hend as [(x & bs & n & x' & Hx & _)|[[(i' & o' & c & m & inp & n & _ & Hx & _) _]|[(r & n & bs & r' & Hr & Hrest) [Ho Hi']]]].
  { exfalso. apply (Hw x bs). by rewrite Hx. }
  { by apply NewError_not_EOF in Hx. }
  destruct Hp as [P1 P2 P3 P4 P5]. cbn in Hrest, P1, P2, P3. rewrite Hrest in P1.
  destruct (sr_read _ _ _ _ _ Hr) as [_ [|[_ Hr']]]; [done|].
  pose proof (sr_reads _ _ _ P1) as Hrd. rewrite sr_new, Hr', app_nil_r in Hrd. subst rd.
  change (in_data (wstate w (Some (NewReader data)))) with (in_data (wstate w None)) in P4.
  change (out_data (wstate w (Some (NewReader data)))) with (out_data (wstate w None)) in P5.
  rewrite Hin, Hi', app_nil_r in P4. rewrite Hout, Ho, app_nil_r in P5. cbn in P4, P5. subst cin wr.
  split; [done|]. split; [done|]. split; [congruence|]. by exists cout.
Qed.

(** A [Write] of the LZMA_ALONE writer that returns no error has taken the
    whole slice: the count is its length, the coder was given exactly these
    bytes, everything it produced was written, and nothing is left in the
    buffers. The underlying writer must not report io.EOF, which the code
    mistakes for the end of the slice. *)
Theorem lzma_Write_complete fuel data cnt (w w' : writer W) :
  (forall wr bs, (wr_Write wr bs).1.2 <> Some EOF) ->
  writer_ok w -> w_closed w = false ->
  lzma_Write fuel data w = (Ret (cnt, None), w') ->
  cnt = zlen data /\ writer_ok w' /\ w_closed w' = false /\
  exists out, codes RUN (coder (w_Stream w)) (mem (w_world w)) data out (coder (w_Stream w')) (mem (w_world w')) /\
    writes (w_wr w) out (w_wr w').
Proof. apply Write_complete. Qed.

(** A sequence of [Write]s that all succeed. *)
Fixpoint writes_ok (fuel : nat) (ds : list (list Z)) (w w' : writer W) : Prop :=
  match ds with
  | [] => w' = w
  | d :: ds => exists cnt w1, lzma_Write fuel d w = (Ret (cnt, None), w1) /\ writes_ok fuel ds w1 w'
  end.

Lemma writes_ok_run fuel ds (w w' : writer W) :
  (forall wr bs, (wr_Write wr bs).1.2 <> Some EOF) ->
  writer_ok w -> w_closed w = false -> writes_ok fuel ds w w' ->
  writer_ok w' /\ w_closed w' = false /\
  exists out, codes RUN (coder (w_Stream w)) (mem (w_world w)) (concat ds) out (coder (w_Stream w')) (mem (w_world w')) /\
    writes (w_wr w) out (w_wr w').
Proof.
  intros Hw. revert w. induction ds as [|d ds IH]; intros w Hok Hc H; cbn in H.
  - subst w'. split; [done|]. split; [done|]. exists []. split; constructor.
  - destruct H as (cnt & w1 & H1 & H2).
    destruct (Write_complete _ _ _ _ _ Hw Hok Hc H1) as (_ & Hok1 & Hc1 & out1 & C1 & D1).
    destruct (IH w1 Hok1 Hc1 H2) as (Hok2 & Hc2 & out2 & C2 & D2).
    split; [done|]. split; [done|]. exists (out1 ++ out2). cbn [concat].
    split; [by eapply codes_trans|by eapply writes_trans].
Qed.


(** The reader over an empty slice reports the end at once. *)
Lemma read_empty n bs e r' :
  0 < n -> rd_Read (NewReader []) n = ((bs, e), r') -> bs = [] /\ e = Some EOF.
Proof.
  intros Hn Hr. destruct (sr_read _ _ _ _ _ Hr) as [Hb He]. rewrite sr_new in Hb.
  symmetry in Hb. apply app_eq_nil in Hb as [-> _]. split; [done|].
  destruct He as [->|[-> _]]; [|done]. by destruct (sr_progress _ _ _ _ Hn Hr).
Qed.

(** An empty source is at its end. *)
Lemma fill_empty fuel (s1 : procst SliceReader W) :
  ready s1 -> ps_rd s1 = Some (NewReader []) -> in_data s1 = [] ->
  exists s2, fill_loop (S (S fuel)) None 0 s1 = (Ret (Some EOF, 0), s2) /\ ready s2 /\ in_data s2 = [] /\
    out_data s2 = out_data s1 /\ ps_wr s2 = ps_wr s1 /\ coder (ps_strm s2) = coder (ps_strm s1) /\
    mem (ps_world s2) = mem (ps_world s1) /\ is_Some (ps_rd s2).
Proof.
  intros Hready Hrd Hin.
  destruct (pipe_WriteSlices (ps_world s1) (inBuf (ps_strm s1))) as [[n hi] e] eqn:Ew.
  destruct (rd_Read (NewReader []) n) as [[bs err] r'] eqn:Er.
  destruct (fill_ready s1 (NewReader []) n hi e bs err r' Hready Hrd Hin Ew Er) as (R2 & D2 & O2 & Hn).
  destruct (read_empty _ _ _ _ Hn Er) as [-> ->].
  match type of R2 with ready ?x => exists x end. split; [|split_and!; try done].
  - cbn [fill_loop]. rewrite bind_get, Hrd, (proj2 (Z.eqb_eq _ 0)), Ew, Er; [reflexivity|].
    rewrite pipe_Length_data by apply Hready. fold (in_data s1). by rewrite Hin.
  - unfold pipe_WriteMark, pipe_Poke. cbn. by rewrite !pipe_upd_mem.
Qed.

(** A coder with nothing to do between empty buffers. *)
Lemma idle_code (s2 : procst SliceReader W) wr :
  ready s2 -> in_data s2 = [] -> out_data s2 = [] -> ps_wr s2 = Some wr -> is_Some (ps_rd s2) ->
  (forall n, lzma_code (coder (ps_strm s2)) (mem (ps_world s2)) (uint32 RUN) [] n =
             CodeResult BUF_ERROR (coder (ps_strm s2)) (mem (ps_world s2)) 0 []) ->
  exists s3, code_buffers RUN s2 = (Ret (Some (LibError BUF_ERROR)), s3) /\ ready s3 /\ out_data s3 = [] /\ ps_wr s3 = Some wr.
Proof.
  intros R2 D2 O2 Hwr [rd Hrd] Hcode.
  destruct (code_buffers_run RUN s2) as (inSl & h3 & e3 & k & h4 & e4 & Er3 & Ew3 & z' & Ec & Z1 & Z2 & Z3).
  destruct (code_ready RUN s2 R2) as (inp & k' & e5 & s3 & Ec' & R3 & _).
  assert (inSl = []) as ->.
  { destruct (pipe_ReadSlices_data (ps_world s2) (inBuf (ps_strm s2))) as (lo & h5 & e6 & Er5 & Hd).
    rewrite Er3 in Er5. injection Er5 as <- <- <-. destruct (Hd (ok_in _ (rdy_ok _ R2))) as [Hd1 _].
    unfold in_data in D2. rewrite D2 in Hd1. symmetry in Hd1. by apply app_eq_nil in Hd1 as [-> _]. }
  rewrite Hcode in Ec. cbn [cr_ret cr_coder cr_mem cr_consumed cr_out] in Ec. rewrite Hwr, Hrd in Ec. cbn in Ec.
  assert (Hne : BUF_ERROR <> OK) by (apply error_code_not_ok; [done|unfold lzma_rets; set_solver]).
  rewrite (proj2 (NewError_some _ _) (conj Hne eq_refl)) in Ec.
  rewrite Ec in Ec'. injection Ec' as <- Es3. exists s3. rewrite <- Es3 in *. split_and!; [exact Ec|exact R3| |done].
  unfold out_data. cbn [ps_world ps_strm]. rewrite Z3, out_data_swap by apply R2.
  change (zlen []) with (zlen (@nil Z)). set (w3 := set_mem _ _).
  rewrite (pipe_write_data w3 _ [] k h4 e4 (ok_out _ (rdy_ok _ R2)) Ew3), app_nil_r.
  - unfold w3. change (pipe_data (ps_world s2) (outBuf (ps_strm s2)) = []). fold (out_data s2). by rewrite O2.
  - destruct (pipe_WriteSlices_room (ps_world s2) (outBuf (ps_strm s2))) as (k3 & h6 & e6 & Ew6 & Hk).
    rewrite Ew3 in Ew6. injection Ew6 as <- <- <-. by apply (Hk (ok_out _ (rdy_ok _ R2))).
Qed.

(** A [Write] of no bytes can fail. liblzma answers a second call in a row
    that gives it nothing to do with BUF_ERROR; [Process] takes that status for
    a real error when the input window is empty, so an empty [Write] on a writer
    whose last call made no progress returns it, although nothing is wrong. *)
Theorem lzma_empty_write_error fuel (w : writer W) :
  writer_ok w -> caps (wstate w None) -> w_closed w = false -> (2 <= fuel)%nat ->
  (forall n, lzma_code (coder (w_Stream w)) (mem (w_world w)) (uint32 RUN) [] n =
             CodeResult BUF_ERROR (coder (w_Stream w)) (mem (w_world w)) 0 []) ->
  exists w', lzma_Write fuel [] w = (Ret (0, Some (LibError BUF_ERROR)), w').
Proof.
  intros (Hok & Hin & Hout) Hcap Hc Hf Hcode. unfold lzma_Write. rewrite bind_get, Hc, bind_run.
  unfold writer_process. set (s := ProcSt _ _ _ _). assert (Hoks : stream_ok s) by (destruct Hok; by split).
  destruct (lazy_buffers_run RUN s Hoks) as (s1 & E1 & (K1 & K2 & _) & K3 & K4 & K5 & K6 & K7 & K8 & K9).
  destruct (K5 Hcap) as [Cin Cout]. assert (Hready : ready s1) by (by split).
  change (in_data s) with (in_data (wstate w None)) in K6. change (out_data s) with (out_data (wstate w None)) in K7.
  rewrite Hin in K6. rewrite Hout in K7.
  unfold Process. rewrite bind_get. cbn [ps_rd ps_wr s]. rewrite (bind_ret _ _ _ _ _ E1).
  destruct fuel as [|[|fuel]]; [lia|lia|]. cbn [process_loop].
  destruct (fill_empty fuel s1 Hready K3 K6) as (s2 & Ef & R2 & D2 & O2 & W2 & C2 & M2 & N2).
  rewrite (bind_ret _ _ _ _ _ Ef). rewrite K7 in O2. rewrite K4 in W2.
  destruct (idle_code s2 (w_wr w) R2 D2 O2 W2 N2) as (s3 & Ec & R3 & O3 & W3).
  { intros n. rewrite C2, M2, K8, K9. apply Hcode. }
  rewrite (bind_ret _ _ _ _ _ Ec).
  assert (Hl3 : pipe_Length (ps_world s3) (outBuf (ps_strm s3)) = 0)
    by (rewrite pipe_Length_data by apply R3; fold (out_data s3); by rewrite O3).
  assert (Ed : drain_loop (S (S fuel)) None 0 s3 = (Ret (None, 0), s3)) by (cbn [drain_loop]; by rewrite bind_get, W3, Hl3).
  rewrite (bind_ret _ _ _ _ _ Ed), bind_get, Hl3. cbn. destruct s3 as [z3 w3 rd3 wr3]. cbn.
  rewrite Ignore_spec, decide_False by (rewrite list_elem_of_singleton; done). by eexists.
Qed.

End writer.
Section reader.
Context {R : Type} {IR : IoReader R} {RS : IoReaderSpec R}.

Definition rstate (r : reader R) (dst : option SliceWriter) : procst R SliceWriter :=
  ProcSt (r_Stream r) (r_world r) (Some (r_rd r)) dst.

(** One [Process] of the reader, into a slice. *)
Lemma reader_process_run fuel code n r o i err wr r' :
  stream_ok (rstate r None) -> reader_process fuel code (NewWriter n) r = (Ret (o, i, err, wr), r') ->
  r_closed r' = r_closed r /\ stream_ok (rstate r' None) /\
  exists rd cin cout,
    pumped code (rstate r (Some (NewWriter n))) (rstate r' (Some wr)) rd cin cout (sw_bytes wr) /\
    o = zlen (sw_bytes wr) /\ ended code (rstate r (Some (NewWriter n))) (rstate r' (Some wr)) err.
Proof.
  intros Hok H. unfold reader_process in H.
  destruct (Process _ _ _) as [[res| |] [z wo rd d]] eqn:Ep; try done.
  injection H as -> <- <-. pose proof Hok as [K1 K2 K3].
  destruct (Process_run _ _ (rstate r (Some (NewWriter n))) _ _ _ _ ltac:(by split) Ep)
    as [([J1 J2 J3] & rd' & cin & cout & w & Hp & -> & ->) He].
  split; [done|]. split; [by split|].
  destruct d as [d|]; [|by destruct Hp]. destruct rd as [rd|]; [|by destruct Hp]. cbn [default] in *.
  pose proof (sw_writes _ _ _ (pm_writes _ _ _ _ _ _ _ Hp)) as Hw. rewrite sw_new in Hw. cbn in Hw.
  exists rd', cin, cout. cbn [id]. unfold id. rewrite Hw. split; [exact Hp|]. done.
Qed.

(** The errors [Read] makes of those of [Process]. *)
Definition read_error (err : error) : error :=
  if decide (err = Some ErrShortWrite) then None
  else if decide (err = Some EOF) then Some ErrUnexpectedEOF
  else if decide (err = Some streamEnd) then Some EOF else err.

Lemma read_error_spec err :
  errs_Convert (errs_Convert (errs_Ignore err [Some ErrShortWrite]) (Some ErrUnexpectedEOF) [Some EOF])
    (Some EOF) [Some streamEnd] = read_error err.
Proof.
  unfold read_error. rewrite !Convert_spec, Ignore_spec.
  repeat case_decide; repeat match goal with H : _ ∈ [_] |- _ => apply list_elem_of_singleton in H
    | H : _ ∉ [_] |- _ => rewrite list_elem_of_singleton in H end; simplify_eq; done.
Qed.

(** [Read] on an open reader. *)
Lemma lzma_Read_run fuel n r cnt err data r' :
  stream_ok (rstate r None) -> r_closed r = false ->
  lzma_Read fuel n r = (Ret (cnt, err, data), r') ->
  exists perr wr r1 rd cin cout,
    pumped RUN (rstate r (Some (NewWriter n))) (rstate r1 (Some wr)) rd cin cout data /\
    stream_ok (rstate r1 None) /\ r_closed r1 = false /\ cnt = zlen data /\
    ended RUN (rstate r (Some (NewWriter n))) (rstate r1 (Some wr)) perr /\
    if decide (read_error perr = Some EOF)
    then r_Stream r' = r_Stream r1 /\ r_world r' = r_world r1 /\
      ((err = Some dataError /\ in_data (rstate r1 None) <> []) \/
       (in_data (rstate r1 None) = [] /\ exists bs e, rd_Read (r_rd r1) 1 = ((bs, e), r_rd r') /\
          err = if decide (e <> Some EOF) then Some dataError else Some EOF))
    else r' = r1 /\ err = read_error perr.
Proof.
  intros Hok Hc H. unfold lzma_Read in H. rewrite bind_get, Hc, bind_run in H.
  destruct (reader_process fuel RUN (NewWriter n) r) as [[[[[o i] perr] wr]| |] r1] eqn:Ep; try done.
  destruct (reader_process_run _ _ _ _ _ _ _ _ _ Hok Ep) as (Hc1 & Hok1 & rd & cin & cout & Hp & Ho & He).
  rewrite read_error_spec in H. exists perr, wr, r1, rd, cin, cout.
  assert (Hcommon : forall e s, (Ret (o, e, sw_bytes wr), s) = (Ret (cnt, err, data), r') ->
    cnt = o /\ err = e /\ data = sw_bytes wr /\ r' = s) by (by intros e s [= -> -> -> ->]).
  destruct (decide (read_error perr = Some EOF)) as [Heof|Hne].
  - rewrite bind_get in H. cbn [GetBuffers] in H. destruct Hok1 as [K1 K2 K3].
    rewrite pipe_Length_data, zlen_eqb_nil in H by done.
    destruct (bool_decide (pipe_data _ _ = [])) eqn:Eb; cbn [negb] in H.
    + destruct (rd_Read (r_rd r1) 1) as [[bs e] rd1] eqn:Er. rewrite bind_put in H.
      apply bool_decide_eq_true in Eb.
      assert (Hfin : cnt = o /\ data = sw_bytes wr /\ r' = ReaderV (r_Stream r1) rd1 (r_closed r1) (r_world r1) /\
        err = if decide (e <> Some EOF) then Some dataError else Some EOF).
      { destruct (decide (e <> Some EOF)); apply Hcommon in H as (-> & -> & -> & ->); done. }
      destruct Hfin as (-> & -> & -> & ->). split_and!; try done; [congruence|].
      right. split; [done|]. by exists bs, e.
    + apply Hcommon in H as (-> & -> & -> & ->). apply bool_decide_eq_false in Eb.
      split_and!; try done; [congruence|]. by left.
  - apply Hcommon in H as (-> & -> & -> & ->). split_and!; try done. congruence.
Qed.

(** C25: [Read] of the LZMA_ALONE reader reports io.EOF only for a complete
    file: the decoder has reached the end of its stream, every byte it produced
    was delivered, no input is left over in the buffer, and the source itself
    is at its end. The source must not return liblzma's end-of-stream code. *)
Theorem lzma_Read_eof fuel n (r r' : reader R) cnt data :
  (forall rd k, (rd_Read rd k).1.2 <> Some streamEnd) ->
  stream_ok (rstate r None) -> r_closed r = false ->
  lzma_Read fuel n r = (Ret (cnt, Some EOF, data), r') ->
  exists src cin cout rd1 last,
    reads (r_rd r) src rd1 /\ rd_Read rd1 1 = ((last, Some EOF), r_rd r') /\
    in_data (rstate r None) ++ src = cin /\
    codes RUN (coder (r_Stream r)) (mem (r_world r)) cin cout (coder (r_Stream r')) (mem (r_world r')) /\
    out_data (rstate r None) ++ cout = data /\
    (exists c m inp k, let x := lzma_code c m (uint32 RUN) inp k in
       cr_ret x = STREAM_END /\ cr_coder x = coder (r_Stream r') /\ cr_mem x = mem (r_world r')).
Proof.
  intros Hrd Hok Hc H.
  destruct (lzma_Read_run _ _ _ _ _ _ _ Hok Hc H)
    as (perr & wr & r1 & src & cin & cout & [P1 P2 P3 P4 P5] & Hok1 & Hc1 & _ & [_ He] & Hcase).
  assert (Hperr : read_error perr = Some EOF -> perr = Some streamEnd).
  { unfold read_error. repeat case_decide; try done. }
  case_decide as Hd.
  2: { destruct Hcase as [_ Hx]. by rewrite <- Hx in Hd. }
  specialize (Hperr Hd). subst perr. destruct Hcase as (Es & Ew & [[Hx _]|[Hin (last & e & Hr & Hx)]]).
  { done. }
  case_decide as Hd2; [done|]. subst e.
  destruct He as [(x & bs & k & x' & Hx' & _)|[[(i' & o' & c & m & inp & k & _ & X1 & X2 & X3) Ho]|[(x & k & bs & x' & Hx' & _) _]]].
  { by destruct (sw_write _ _ _ _ _ Hx') as [_ [[? _]|?]]. }
  2: { exfalso. apply (Hrd x k). by rewrite Hx'. }
  change (in_data (rstate r1 (Some wr))) with (in_data (rstate r1 None)) in P4.
  change (in_data (rstate r (Some (NewWriter n)))) with (in_data (rstate r None)) in P4.
  change (out_data (rstate r (Some (NewWriter n)))) with (out_data (rstate r None)) in P5.
  rewrite Hin, app_nil_r in P4. rewrite Ho, app_nil_r in P5. cbn in P1, P3, X2, X3.
  exists src, cin, cout, (r_rd r1), last. rewrite Es, Ew. split_and!; try done.
  exists c, m, inp, k. cbv zeta. apply NewError_some in X1 as [_ [= X1]]. done.
Qed.

(** A sequence of [Read]s that all return no error, and what they delivered. *)
Fixpoint reads_ok (fuel : nat) (ns : list Z) (r : reader R) (data : list Z) (r' : reader R) : Prop :=
  match ns with
  | [] => r' = r /\ data = []
  | n :: ns => exists cnt d data' r1, lzma_Read fuel n r = (Ret (cnt, None, d), r1) /\
      data = d ++ data' /\ reads_ok fuel ns r1 data' r'
  end.

(** C26: However the caller cuts its reads, the concatenation of what they
    deliver is the output of the decoder on the bytes taken from the source, in
    order and without loss; what is not delivered yet waits in the buffers. *)
Theorem lzma_reads_lossless fuel ns (r r' : reader R) data :
  stream_ok (rstate r None) -> r_closed r = false -> reads_ok fuel ns r data r' ->
  exists src cin cout,
    reads (r_rd r) src (r_rd r') /\
    codes RUN (coder (r_Stream r)) (mem (r_world r)) cin cout (coder (r_Stream r')) (mem (r_world r')) /\
    in_data (rstate r None) ++ src = cin ++ in_data (rstate r' None) /\
    out_data (rstate r None) ++ cout = data ++ out_data (rstate r' None).
Proof.
  revert r data. induction ns as [|n ns IH]; intros r data Hok Hc H; cbn in H.
  - destruct H as [-> ->]. exists [], [], []. split_and!; try constructor; by rewrite app_nil_r.
  - destruct H as (cnt & d & data' & r1 & H1 & -> & H2).
    destruct (lzma_Read_run _ _ _ _ _ _ _ Hok Hc H1)
      as (perr & wr & r1' & src & cin & cout & [P1 P2 P3 P4 P5] & Hok1 & Hc1 & _ & _ & Hcase).
    case_decide as Hd.
    { destruct Hcase as (_ & _ & [[Hx _]|[_ (last & e & _ & Hx)]]); [done|]. by case_decide. }
    destruct Hcase as [<- _].
    destruct (IH r1 data' Hok1 Hc1 H2) as (src2 & cin2 & cout2 & Q1 & Q3 & Q4 & Q5).
    cbn in P1, P3. exists (src ++ src2), (cin ++ cin2), (cout ++ cout2).
    split; [by eapply reads_trans|]. split; [by eapply codes_trans|].
    change (in_data (rstate r (Some (NewWriter n)))) with (in_data (rstate r None)) in P4.
    change (out_data (rstate r (Some (NewWriter n)))) with (out_data (rstate r None)) in P5.
    change (in_data (rstate r1 (Some wr))) with (in_data (rstate r1 None)) in P4.
    change (out_data (rstate r1 (Some wr))) with (out_data (rstate r1 None)) in P5.
    split.
    + by rewrite app_assoc, P4, <- app_assoc, Q4, app_assoc.
    + by rewrite app_assoc, P5, <- app_assoc, Q5, app_assoc.
Qed.

End reader.
End thms.

(** * On the small library *)
Module LzmaRuns.
#[local] Existing Instance Small.liblzma.
#[local] Existing Instance Small.liblzma_spec.
#[local] Existing Instance Plain.bufpipe.
#[local] Existing Instance Plain.bufpipe_spec.
#[local] Existing Instance PlainErrs.errs.
#[local] Existing Instance PlainErrs.errs_spec.
#[local] Existing Instance PlainIo.ioutil.
#[local] Existing Instance PlainIo.ioutil_spec.

(** A sink with room for 100 bytes, and the writer over it. *)
#[local] Instance sink : IoWriter PlainIo.swriter := PlainIo.write.
#[local] Instance source : IoReader PlainIo.sreader := PlainIo.read.
#[local] Instance sink_spec : IoWriterSpec PlainIo.swriter := sw_spec.
#[local] Instance source_spec : IoReaderSpec PlainIo.sreader := sr_spec.

Definition stream0 : Stream :=
  set_coder (Small.Coder (Small.CBlockEnc 1 [] 0 0 false) false) NewStream.
Definition w0 : writer PlainIo.swriter := WriterV stream0 (PlainIo.Wr [] 100) false empty_world.
Definition w1 := (lzma_Write 10 [1; 200] w0).2.
Definition w2 := (lzma_Write 10 [7] w1).2.

Lemma sink_errors (wr : PlainIo.swriter) bs :
  (wr_Write wr bs).1.2 <> Some EOF /\ (wr_Write wr bs).1.2 <> Some streamEnd.
Proof. unfold wr_Write, sink, PlainIo.write. cbn. case_match; split; discriminate. Defined.

Lemma w0_ok : writer_ok w0.
Proof. split; [split; intros l; discriminate|done]. Defined.

Lemma write1 : (lzma_Write 10 [1; 200] w0).1 = Ret (2, None).
Proof. vm_compute. reflexivity. Defined.
Lemma write2 : (lzma_Write 10 [7] w1).1 = Ret (1, None).
Proof. vm_compute. reflexivity. Defined.
Lemma close2 : (writer_Close 10 w2).1 = Ret None.
Proof. vm_compute. reflexivity. Defined.

Lemma lzma_Write_complete_witness :
  exists out, writes (PlainIo.Wr [] 100) out (w_wr w1) /\ writer_ok w1.
Proof.
  destruct (lzma_Write_complete 10 [1; 200] 2 w0 w1 (fun wr bs => proj1 (sink_errors wr bs)) w0_ok eq_refl
    (run_eta _ _ _ write1)) as (_ & H1 & _ & out & _ & H2).
  by exists out.
Defined.


(** The writer after a [Write] of no bytes: its last call gave the coder nothing
    to do. *)
Definition idle_stream : Stream :=
  set_coder (Small.Coder (Small.CBlockEnc 1 [] 0 0 false) true) NewStream.
Definition w_idle : writer PlainIo.swriter := WriterV idle_stream (PlainIo.Wr [] 100) false empty_world.

Lemma lzma_empty_write_error_witness :
  exists w', lzma_Write 2 [] w_idle = (Ret (0, Some (LibError BUF_ERROR)), w').
Proof.
  apply lzma_empty_write_error.
  - split; [split; intros l; discriminate|done].
  - split; intros l; discriminate.
  - done.
  - lia.
  - intros n. cbn. unfold Small.code. cbn. by destruct (Z.to_nat n).
Defined.

Definition dec0 : Stream := set_coder (Small.Coder (Small.CBlockDec 1 0 0 false) false) NewStream.
Definition r0 : reader PlainIo.sreader := ReaderV dec0 (PlainIo.Rd [1; 2; 3; 255]) false empty_world.
Definition r1 := (lzma_Read 10 2 r0).2.

Lemma source_errors (rd : PlainIo.sreader) k : (rd_Read rd k).1.2 <> Some streamEnd.
Proof. unfold rd_Read, source, PlainIo.read. case_match; discriminate. Defined.

Lemma r0_ok : stream_ok (rstate r0 None).
Proof. split; intros l; discriminate. Defined.

Lemma read1 : (lzma_Read 10 2 r0).1 = Ret (2, None, [1; 2]).
Proof. vm_compute. reflexivity. Defined.
Lemma read_all : (lzma_Read 10 9 r0).1 = Ret (3, Some EOF, [1; 2; 3]).
Proof. vm_compute. reflexivity. Defined.

Lemma lzma_Read_eof_witness :
  exists cout, out_data (rstate r0 None) ++ cout = [1; 2; 3].
Proof.
  destruct (lzma_Read_eof 10 9 r0 (lzma_Read 10 9 r0).2 3 [1; 2; 3] source_errors r0_ok eq_refl
    (run_eta _ _ _ read_all)) as (src & cin & cout & rd1 & last & _ & _ & _ & _ & H & _).
  by exists cout.
Defined.

Lemma lzma_reads_lossless_witness :
  exists src cout, reads (PlainIo.Rd [1; 2; 3; 255]) src (r_rd r1) /\ cout = [1; 2] ++ out_data (rstate r1 None).
Proof.
  destruct (lzma_reads_lossless 10 [2] r0 r1 [1; 2] r0_ok eq_refl) as (src & cin & cout & H1 & _ & _ & H2).
  - exists 2, [1; 2], [], r1. split; [exact (run_eta _ _ _ read1)|done].
  - by exists src, cout.
Defined.

End LzmaRuns.
