(* ===== verification/PipePump.v ===== *)
(** What [Stream.ProcessPipe] does between pipes of the linear modes: it codes
    the unread bytes of a closed source pipe into the free space of a
    destination pipe, until the source is at its end, the destination is full,
    or the coder reports a status. *)

From S2P Require Import Prelude Bufpipe Lines Liblzma Lib World LibIndex Stream StreamPump.

Section pump.
Context {BP : Bufpipe} {L : Liblzma} {BS : BufpipeSpec BP} {LS : LiblzmaSpec L}.

(** The mode of the source pipe. *)
Context {sm : Z}.

(** The pipe at [d] is open, nobody reads it, and [out] was written into it. *)
Definition dst_line (w : world) (d : loc) (cap : Z) (out : list Z) : Prop :=
  exists p, pipes w !! d = Some p /\ line p cap false 0 out.

(** The pipe at [s] is closed, holds [bs], and [rest] of it was not read yet. *)
Definition src_line (w : world) (s : loc) (cap : Z) (bs rest : list Z) : Prop :=
  exists p r, pipes w !! s = Some p /\ @line_in _ sm p cap true r bs /\ drop (Z.to_nat r) bs = rest.

(** The two pipes of [ProcessPipe]; without a source there is nothing to code. *)
Definition lines_ok (w : world) (d : loc) (src : option loc) (dcap scap : Z) (out sbs rest : list Z) : Prop :=
  dst_line w d dcap out /\
  match src with Some s => s <> d /\ src_line w s scap sbs rest | None => rest = [] end.

(** Everything else is left alone. *)
Definition frame (w w' : world) (d : loc) (src : option loc) : Prop :=
  blk_go w' = blk_go w /\ forall k, k <> d -> src <> Some k -> pipes w' !! k = pipes w !! k.

Lemma frame_trans w1 w2 w3 d src : frame w1 w2 d src -> frame w2 w3 d src -> frame w1 w3 d src.
Proof. intros [H1 H2] [H3 H4]. split; [congruence|]. intros k Hd Hs. by rewrite H4, H2. Qed.

(** A status that the last call of the coder returned. *)
Definition coder_status (act : Z) (z : Stream) (w : world) (err : error) : Prop :=
  exists c m inp n, let r := lzma_code c m (uint32 act) inp n in
    err <> None /\ NewError (cr_ret r) = err /\ coder z = cr_coder r /\ mem w = cr_mem r.

(** The windows that the two pipes show. *)
Lemma lines_windows w d src dcap scap out sbs rest :
  lines_ok w d src dcap scap out sbs rest ->
  pipe_WriteSlices w (Some d) = (dcap - zlen out, 0, if zlen out =? dcap then Some ErrShortWrite else None) /\
  zlen out <= dcap /\
  (src <> None -> pipe_ReadSlices w src = (rest, [], if zlen rest =? 0 then Some EOF else None)).
Proof.
  intros [(p & Hp & Hl) Hs]. split; [|split].
  - unfold pipe_WriteSlices, pipe_at. rewrite Hp. by eapply (line_of_write_slices p dcap 0 out).
  - apply (line_bounds _ _ _ _ _ Hl).
  - destruct src as [s|]; [|done]. intros _. destruct Hs as (_ & q & r & Hq & Hlq & <-).
    destruct (line_bounds _ _ _ _ _ Hlq) as [Hr _].
    unfold pipe_ReadSlices, pipe_at. rewrite Hq.
    rewrite (line_of_read_slices _ _ _ _ Hlq), zlen_drop by done. f_equal.
    destruct (Z.eqb_spec r (zlen sbs)), (Z.eqb_spec (zlen sbs - r) 0); lia || done.
Qed.

(** One [CodeSlice] with the marks that follow it. *)
Definition pp_turn (w : world) (d : loc) (src : option loc) (m : cmem_t) (k : Z) (bs : list Z) : world :=
  pipe_WriteMark (Some d) (zlen bs) (pipe_ReadMark src k (pipe_Poke (Some d) bs (set_mem m w))).

Lemma pp_turn_lines w d src dcap scap out sbs rest m k bs :
  lines_ok w d src dcap scap out sbs rest ->
  0 <= k <= zlen rest -> zlen out + zlen bs <= dcap ->
  lines_ok (pp_turn w d src m k bs) d src dcap scap (out ++ bs) sbs (drop (Z.to_nat k) rest) /\
  frame w (pp_turn w d src m k bs) d src /\ mem (pp_turn w d src m k bs) = m.
Proof.
  intros [(p & Hp & Hl) Hs] Hk Hb. unfold pp_turn.
  set (w1 := pipe_ReadMark src k (pipe_Poke (Some d) bs (set_mem m w))).
  assert (Hd : pipes w1 !! d = Some (bp_Poke p bs)).
  { unfold w1, pipe_ReadMark, pipe_Poke. destruct src as [s|]; cbn.
    - rewrite lookup_alter_ne by (apply Hs). by rewrite lookup_alter_eq, Hp.
    - by rewrite lookup_alter_eq, Hp. }
  split; [split|split; [split|]].
  - exists (bp_WriteMark (bp_Poke p bs) (zlen bs)). split; [cbn; by rewrite lookup_alter_eq, Hd|].
    by apply line_of_poke.
  - destruct src as [s|]; [|by rewrite Hs, drop_nil]. destruct Hs as (Hne & q & r & Hq & Hlq & <-).
    split; [done|]. destruct (line_bounds _ _ _ _ _ Hlq) as [Hr _].
    rewrite zlen_drop in Hk by done. exists (bp_ReadMark q k), (r + k). split; [|split].
    + cbn. rewrite lookup_alter_ne by done. rewrite lookup_alter_eq, lookup_alter_ne by done. by rewrite Hq.
    + apply line_of_read_mark; [done|lia].
    + rewrite drop_drop. f_equal. lia.
  - unfold w1, pipe_ReadMark, pipe_Poke. by destruct src.
  - intros j Hj Hsrc. unfold w1, pipe_ReadMark, pipe_Poke. cbn. rewrite lookup_alter_ne by done.
    destruct src as [s|]; cbn; [rewrite lookup_alter_ne by congruence|]; by rewrite lookup_alter_ne.
  - unfold pipe_WriteMark, w1, pipe_ReadMark, pipe_Poke. by rewrite !pipe_upd_mem.
Qed.

(** What a run of [ProcessPipe] did when it stopped with the error [err]. *)
Record piped (act : Z) (d : loc) (src : option loc) (dcap scap : Z) (out sbs rest : list Z)
    (z : Stream) (w : world) (z' : Stream) (w' : world) (cin cout : list Z) (err : error) : Prop := {
  pd_codes : codes act (coder z) (mem w) cin cout (coder z') (mem w');
  pd_rest : exists rest', rest = cin ++ rest' /\ lines_ok w' d src dcap scap (out ++ cout) sbs rest' /\
    (err = Some EOF /\ src <> None /\ rest' = [] \/
     err = Some ErrShortWrite /\ zlen (out ++ cout) = dcap \/
     coder_status act z' w' err);
  pd_frame : frame w w' d src;
}.

Lemma cut_range n : 0 <= n -> 0 <= cut n <= n.
Proof. intros H. unfold cut. destruct (Z.ltb_spec chunkSize n); [|lia]. change chunkSize with 65536 in *. lia. Qed.

(** The body of the loop after the two guards. *)
Lemma pp_body act d src z w inB outB (k : Z * Z * error -> M zw (Z * Z * error)) :
  let r := lzma_code (coder z) (mem w) (uint32 act) inB outB in
  exists z', coder z' = cr_coder r /\
  (r ← CodeSlice act outB inB;
   let '(wrCnt, rdCnt, err) := r in
   modify (fun '(z, w) => (z, pipe_Poke (Some d) (written z) w));;
   modify (fun '(z, w) => (z, pipe_ReadMark src rdCnt w));;
   modify (fun '(z, w) => (z, pipe_WriteMark (Some d) wrCnt w));;
   k (wrCnt, rdCnt, err)) (z, w) =
  k (zlen (cr_out r), cr_consumed r, NewError (cr_ret r))
    (z', pp_turn w d src (cr_mem r) (cr_consumed r) (cr_out r)).
Proof.
  intros r. destruct (CodeSlice_run act outB inB z w) as (z' & Hc & Hz & Hw & _). fold r in Hc, Hz, Hw.
  exists z'. split; [done|]. rewrite (bind_ret _ _ _ _ _ Hc). cbv beta iota. mrun. by rewrite Hw.
Qed.

(** Why the loop stops before it calls the coder. *)
Definition pp_stop (src : option loc) (dcap : Z) (out rest : list Z) (err : error) : Prop :=
  err = Some EOF /\ src <> None /\ rest = [] \/ err = Some ErrShortWrite /\ zlen out = dcap.

(** One turn of the loop: it stops, or it calls the coder on windows of the two
    pipes and goes on, unless the coder reports a status. *)
Lemma processpipe_turn act d src dcap scap sbs fuel z w out rest inB outB o i :
  lines_ok w d src dcap scap out sbs rest -> (src = None -> inB = []) ->
  (exists err, pp_stop src dcap out rest err /\
     processpipe_loop (S fuel) act (Some d) src inB outB o i (z, w) = (Ret (o, i, err), (z, w))) \/
  exists inB' outB' z' w', let r := lzma_code (coder z) (mem w) (uint32 act) inB' outB' in
    (0 <= outB' /\ 0 <= cr_consumed r <= zlen rest /\ (src = None -> inB' = []) /\
     take (Z.to_nat (cr_consumed r)) inB' = take (Z.to_nat (cr_consumed r)) rest) /\
    (coder z' = cr_coder r /\ mem w' = cr_mem r /\ frame w w' d src /\
     lines_ok w' d src dcap scap (out ++ cr_out r) sbs (drop (Z.to_nat (cr_consumed r)) rest)) /\
    processpipe_loop (S fuel) act (Some d) src inB outB o i (z, w) =
    match NewError (cr_ret r) with
    | Some _ => (Ret (o + zlen (cr_out r), i + cr_consumed r, NewError (cr_ret r)), (z', w'))
    | None => processpipe_loop fuel act (Some d) src inB' outB' (o + zlen (cr_out r)) (i + cr_consumed r) (z', w')
    end.
Proof.
  intros Hok Hin. cbn [processpipe_loop]. rewrite bind_get. cbn [snd].
  destruct (lines_windows _ _ _ _ _ _ _ _ Hok) as (Hw & Hcap & Hr).
  (* the input window *)
  set (win := match src with Some _ => pipe_ReadSlices w src | None => (inB, [], None) end).
  assert (Hwin : win = (rest, [], if bool_decide (src <> None /\ rest = []) then Some EOF else None)).
  { unfold win. destruct src as [s|].
    - rewrite Hr by done. destruct (Z.eqb_spec (zlen rest) 0) as [Hz|Hz].
      + by rewrite bool_decide_eq_true_2 by (split; [done|by apply zlen_zero_inv]).
      + by rewrite bool_decide_eq_false_2 by (intros [_ ->]; by apply Hz).
    - destruct Hok as [_ ->]. rewrite Hin, bool_decide_eq_false_2 by (done || intros [H _]; by apply H). done. }
  rewrite Hwin. clear Hwin win. case_bool_decide as Hend; [left; eexists; split; [by left|done]|].
  set (inB' := match src with Some _ => _ | None => _ end).
  assert (Hin' : inB' = take (Z.to_nat (cut (zlen rest))) rest).
  { unfold inB'. destruct src; [done|]. destruct Hok as [_ ->]. by rewrite take_nil. }
  assert (Hnil : src = None -> inB' = []) by (intros ->; destruct Hok as [_ ->]; by rewrite Hin', take_nil).
  clearbody inB'. rewrite Hw. destruct (Z.eqb_spec (zlen out) dcap) as [Hf|Hf]; [left; eexists; split; [by right|done]|].
  destruct (cut_range (dcap - zlen out)) as [Hc0 Hc1]; [lia|].
  destruct (cut_range (zlen rest) (zlen_nonneg rest)) as [Hi0 Hi1].
  assert (Hlen : zlen inB' = cut (zlen rest)) by (rewrite Hin'; apply zlen_take; lia).
  (* the call *)
  set (outB' := cut (dcap - zlen out)) in *.
  destruct (pp_body act d src z w inB' outB' (fun '(wrCnt, rdCnt, err) =>
    match err with
    | Some _ => mret (o + wrCnt, i + rdCnt, err)
    | None => processpipe_loop fuel act (Some d) src inB' outB' (o + wrCnt) (i + rdCnt)
    end)) as (z' & Hz' & Hrun).
  right. eexists inB', outB', z', _. cbv beta zeta in Hrun, Hz' |- *. rewrite Hrun. clear Hrun.
  set (r := lzma_code _ _ _ _ _) in *.
  destruct (code_bounds (coder z) (mem w) (uint32 act) inB' outB') as [Hk Hout]. fold r in Hk, Hout.
  specialize (Hout Hc0).
  destruct (pp_turn_lines w d src dcap scap out sbs rest (cr_mem r) (cr_consumed r) (cr_out r) Hok)
    as (Hok' & Hfr & Hm); [lia|lia|].
  split; [|split]; [|done|by destruct (NewError (cr_ret r))].
  split_and!; try done; try lia. rewrite Hin', take_take. f_equal. lia.
Qed.

Lemma processpipe_run act d src dcap scap sbs fuel : forall z w out rest inB outB o i,
  lines_ok w d src dcap scap out sbs rest -> (src = None -> inB = []) ->
  match processpipe_loop fuel act (Some d) src inB outB o i (z, w) with
  | (NoFuel, _) => True
  | (Pan _, _) => False
  | (Ret (o', i', err), (z', w')) => exists cin cout,
      piped act d src dcap scap out sbs rest z w z' w' cin cout err /\
      o' = o + zlen cout /\ i' = i + zlen cin
  end.
Proof.
  induction fuel as [|fuel IH]; intros z w out rest inB outB o i Hok Hin; [done|].
  destruct (processpipe_turn act d src dcap scap sbs fuel z w out rest inB outB o i Hok Hin)
    as [(err & He & ->)|(inB' & outB' & z' & w' & (_ & Hk & Hnil & Htake) & (Hz' & Hm & Hfr & Hok') & ->)].
  { exists [], []. rewrite zlen_nil. split; [|split; lia]. split; [constructor| |by split].
    exists rest. rewrite app_nil_r. split; [done|]. split; [done|]. destruct He; auto. }
  set (r := lzma_code _ _ _ _ _) in *.
  assert (Hcode : codes act (coder z) (mem w) (take (Z.to_nat (cr_consumed r)) rest) (cr_out r)
                        (coder z') (mem w')).
  { rewrite <- Htake, Hz', Hm.
    exact (codes_snoc act _ _ [] [] _ _ inB' outB' (codes_nil act (coder z) (mem w))). }
  assert (Hcnt : cr_consumed r = zlen (take (Z.to_nat (cr_consumed r)) rest)) by (rewrite zlen_take; lia).
  destruct (NewError (cr_ret r)) as [e|] eqn:Ee.
  - exists (take (Z.to_nat (cr_consumed r)) rest), (cr_out r). split; [|split; [done|by rewrite <- Hcnt]].
    split; [done| |done]. exists (drop (Z.to_nat (cr_consumed r)) rest). rewrite take_drop.
    split; [done|]. split; [done|]. right; right.
    exists (coder z), (mem w), inB', outB'. cbv zeta. fold r. by rewrite Ee.
  - specialize (IH z' w' _ _ inB' outB' (o + zlen (cr_out r)) (i + cr_consumed r) Hok' Hnil).
    destruct (processpipe_loop _ _ _ _ _ _ _ _ (z', w')) as [[[[o' i'] err]| |] [z2 w2]]; try done.
    destruct IH as (cin & cout & [P1 (rest' & P2 & P3 & P4) P5] & -> & ->).
    exists (take (Z.to_nat (cr_consumed r)) rest ++ cin), (cr_out r ++ cout).
    rewrite !zlen_app, <- Hcnt. split; [|split; lia]. rewrite <- app_assoc in P3, P4.
    split; [by eapply codes_trans| |by eapply frame_trans]. exists rest'.
    split; [by rewrite <- app_assoc, <- P2, take_drop|]. by split.
Qed.

(** The loop ends: each call takes input, fills the output, or is the first
    one in a row that does nothing. *)
Lemma processpipe_ends {LI : LiblzmaIdle L} act d src dcap scap sbs fuel : forall z w out rest inB outB o i,
  lines_ok w d src dcap scap out sbs rest -> (src = None -> inB = []) ->
  2 * (zlen rest + (dcap - zlen out)) + (if idle (coder z) then 0 else 1) < Z.of_nat fuel ->
  (processpipe_loop fuel act (Some d) src inB outB o i (z, w)).1 <> NoFuel.
Proof.
  induction fuel as [|fuel IH]; intros z w out rest inB outB o i Hok Hin Hf.
  { destruct (lines_windows _ _ _ _ _ _ _ _ Hok) as (_ & Hcap & _). pose proof (zlen_nonneg rest).
    destruct (idle (coder z)); lia. }
  destruct (processpipe_turn act d src dcap scap sbs fuel z w out rest inB outB o i Hok Hin)
    as [(err & _ & ->)|(inB' & outB' & z' & w' & (Ho & Hk & Hnil & _) & (Hz' & _ & _ & Hok') & ->)]; [done|].
  pose proof (code_idle (coder z) (mem w) (uint32 act) inB' outB') as Hidle. cbv zeta in Hidle.
  set (r := lzma_code _ _ _ _ _) in *. destruct (NewError (cr_ret r)) eqn:Er; [done|].
  apply NewError_nil in Er. apply (IH _ _ _ _ _ _ _ _ Hok' Hnil). rewrite zlen_drop, zlen_app, Hz' by lia.
  pose proof (zlen_nonneg (cr_out r)). destruct (Hidle Ho Er) as [H1|[H1|[H1 H2]]].
  - destruct (idle (coder z)), (idle (cr_coder r)); lia.
  - assert (0 < zlen (cr_out r)) by (destruct (cr_out r); [done|zlen_lia]).
    destruct (idle (coder z)), (idle (cr_coder r)); lia.
  - rewrite H1, H2 in *. lia.
Qed.

Lemma lines_rest w d src dcap scap out sbs rest :
  lines_ok w d src dcap scap out sbs rest -> zlen rest <= Z.max 0 scap.
Proof.
  intros [_ Hs]. destruct src as [s|]; [|subst; rewrite zlen_nil; lia]. destruct Hs as (_ & q & r & _ & Hl & <-).
  destruct (line_bounds _ _ _ _ _ Hl). rewrite zlen_drop by done. lia.
Qed.

(** Enough fuel for [ProcessPipe] between buffers of these sizes. *)
Definition pipe_fuel (dcap scap : Z) : nat := Z.to_nat (2 * (dcap + Z.max 0 scap) + 2).

Lemma ProcessPipe_ends {LI : LiblzmaIdle L} act d src dcap scap sbs fuel z w out rest :
  lines_ok w d src dcap scap out sbs rest -> (pipe_fuel dcap scap <= fuel)%nat ->
  (ProcessPipe fuel act (Some d) src (z, w)).1 <> NoFuel.
Proof.
  intros Hok Hf. unfold ProcessPipe. pose proof (zlen_nonneg out). pose proof (zlen_nonneg rest).
  destruct (lines_windows _ _ _ _ _ _ _ _ Hok) as (_ & Hcap & _). pose proof (lines_rest _ _ _ _ _ _ _ _ Hok).
  pose proof (processpipe_ends act d src dcap scap sbs fuel z w out rest [] 0 0 0 Hok (fun _ => eq_refl)) as He.
  unfold pipe_fuel in Hf. destruct src; apply He; destruct (idle (coder z)); lia.
Qed.

(** [ProcessPipe] itself. *)
Lemma ProcessPipe_run {LI : LiblzmaIdle L} act d src dcap scap sbs fuel z w out rest :
  lines_ok w d src dcap scap out sbs rest ->
  match ProcessPipe fuel act (Some d) src (z, w) with
  | (NoFuel, _) => (fuel < pipe_fuel dcap scap)%nat
  | (Pan _, _) => False
  | (Ret (o', i', err), (z', w')) => exists cin cout,
      piped act d src dcap scap out sbs rest z w z' w' cin cout err
  end.
Proof.
  intros Hok. pose proof (processpipe_run act d src dcap scap sbs fuel z w out rest [] 0 0 0 Hok (fun _ => eq_refl)) as H.
  pose proof (ProcessPipe_ends act d src dcap scap sbs fuel z w out rest Hok) as Hf. revert Hf. unfold ProcessPipe. destruct src as [s|];
    (destruct (processpipe_loop _ _ _ _ _ _ _ _ _) as [[[[o' i'] err]| |] [z' w']]; cbn [fst]; [|done|]);
    first [destruct H as (cin & cout & H & _); eauto|intros Hf; destruct (Nat.lt_ge_cases fuel (pipe_fuel dcap scap)) as [|Hle]; [done|by destruct (Hf Hle)]].
Qed.

End pump.
