(* ===== verification/Writer.v ===== *)
(** [xz/writer.go]: the writer of xz files. This file has the [Writer] object,
    its constructors, the encoding of one block, and the synchronous branches of
    [Write] and [Close], with the encoding of a stream of a single block. The
    asynchronous branches are in [AsyncWriter].

    A method is a computation over the writer together with what its pointers
    lead to: the underlying [io.Writer] and the world. *)

From S2P Require Import Prelude Bufpipe Errs Liblzma SmallLzma Lib XzConst Literal World LibIndex Stream Ioutil.

Section writer.
Context {BP : Bufpipe} {L : Liblzma} {E : Errs} {IU : Ioutil} {W : Type} {IW : IoWriter W}.

(** [Writer]: the fields that the caller's goroutine works with. [inSize] to
    [outMode] configure the pools of the asynchronous mode. *)
Record Writer : Type := WriterV {
  w_wr : W;
  w_flags : StreamFlags;
  w_index : loc;
  w_filters : Filters;
  w_closed : bool;
  w_maxWorkers : Z;
  w_chunkSize : Z;
  w_maxSize : Z;
  w_block : option loc;
  w_stream : option Stream;
  w_rdBuf : option loc;
  w_wrBuf : option loc;
  w_inSize : Z;
  w_outSize : Z;
  w_inMode : Z;
  w_outMode : Z;
  w_world : world;
}.

Definition set_wr_world (wr : W) (wd : world) (w : Writer) : Writer :=
  WriterV wr (w_flags w) (w_index w) (w_filters w) (w_closed w) (w_maxWorkers w) (w_chunkSize w)
    (w_maxSize w) (w_block w) (w_stream w) (w_rdBuf w) (w_wrBuf w) (w_inSize w) (w_outSize w)
    (w_inMode w) (w_outMode w) wd.
Definition set_flags (fl : StreamFlags) (w : Writer) : Writer :=
  WriterV (w_wr w) fl (w_index w) (w_filters w) (w_closed w) (w_maxWorkers w) (w_chunkSize w)
    (w_maxSize w) (w_block w) (w_stream w) (w_rdBuf w) (w_wrBuf w) (w_inSize w) (w_outSize w)
    (w_inMode w) (w_outMode w) (w_world w).
Definition set_closed (w : Writer) : Writer :=
  WriterV (w_wr w) (w_flags w) (w_index w) (w_filters w) true (w_maxWorkers w) (w_chunkSize w)
    (w_maxSize w) (w_block w) (w_stream w) (w_rdBuf w) (w_wrBuf w) (w_inSize w) (w_outSize w)
    (w_inMode w) (w_outMode w) (w_world w).
Definition set_block (b : option loc) (w : Writer) : Writer :=
  WriterV (w_wr w) (w_flags w) (w_index w) (w_filters w) (w_closed w) (w_maxWorkers w) (w_chunkSize w)
    (w_maxSize w) b (w_stream w) (w_rdBuf w) (w_wrBuf w) (w_inSize w) (w_outSize w)
    (w_inMode w) (w_outMode w) (w_world w).
Definition set_stream (z : option Stream) (w : Writer) : Writer :=
  WriterV (w_wr w) (w_flags w) (w_index w) (w_filters w) (w_closed w) (w_maxWorkers w) (w_chunkSize w)
    (w_maxSize w) (w_block w) z (w_rdBuf w) (w_wrBuf w) (w_inSize w) (w_outSize w)
    (w_inMode w) (w_outMode w) (w_world w).
Definition set_bufs (rd wr : option loc) (w : Writer) : Writer :=
  WriterV (w_wr w) (w_flags w) (w_index w) (w_filters w) (w_closed w) (w_maxWorkers w) (w_chunkSize w)
    (w_maxSize w) (w_block w) (w_stream w) rd wr (w_inSize w) (w_outSize w)
    (w_inMode w) (w_outMode w) (w_world w).
Definition set_pools (inSize outSize inMode outMode : Z) (w : Writer) : Writer :=
  WriterV (w_wr w) (w_flags w) (w_index w) (w_filters w) (w_closed w) (w_maxWorkers w) (w_chunkSize w)
    (w_maxSize w) (w_block w) (w_stream w) (w_rdBuf w) (w_wrBuf w) inSize outSize inMode outMode
    (w_world w).

(** * Access to the parts of the state *)
Definition on_world {A} (m : M world A) : M Writer A :=
  zoom w_world (fun wd w => set_wr_world (w_wr w) wd w) m.

(** [w.wr.Write(bs)]: the error, the count being dropped everywhere. *)
Definition write_out (bs : list Z) : M Writer error := fun w =>
  let '((_, err), wr') := wr_Write (w_wr w) bs in (Ret err, set_wr_world wr' (w_world w) w).

(** A method of a pipe, which must not be nil. *)
Definition on_pipe {A} (o : option loc) (f : BufferPipe -> A * BufferPipe) : M world A := fun w =>
  match o with
  | Some l => match pipes w !! l with
              | Some p => let '(a, p') := f p in (Ret a, set_pipes (<[l := p']> (pipes w)) w)
              | None => (Pan (PRun NilDereference), w)
              end
  | None => (Pan (PRun NilDereference), w)
  end.
Definition of_pipe {A} (o : option loc) (f : BufferPipe -> A) : M world A :=
  on_pipe o (fun p => (f p, p)).
Definition upd_pipe (o : option loc) (f : BufferPipe -> BufferPipe) : M world unit :=
  on_pipe o (fun p => (tt, f p)).

(** Code that changes the bytes of [o.Buffer()] in place; what it stored before
    a panic stays stored. *)
Definition on_buffer {A} (o : option loc) (m : M (list Z) A) : M world A :=
  buf ← of_pipe o bp_Buffer;
  let '(r, bytes) := m (slice_bytes buf) in
  upd_pipe o (fun p => bp_Store p 0 bytes);;
  call r.

(** A local variable [stream], or the field [w.stream]. *)
Definition sw : Type := option Stream * Writer.

(** [stream.Process(code, w.wr, src)] *)
Definition stream_Process (fuel : nat) (code : Z) (src : option SliceReader) : M sw (Z * Z * error) :=
  fun '(o, w) =>
    match o with
    | None => (Pan (PRun NilDereference), (o, w))
    | Some z => match Process fuel code (ProcSt z (w_world w) src (Some (w_wr w))) with
                | (r, ProcSt z' wd _ wr) => (r, (Some z', set_wr_world (default (w_wr w) wr) wd w))
                end
    end.

(** [stream.ProcessPipe(code, dst, src)] *)
Definition stream_ProcessPipe (fuel : nat) (code : Z) (dst src : option loc) : M sw (Z * Z * error) :=
  fun '(o, w) =>
    match o with
    | None => (Pan (PRun NilDereference), (o, w))
    | Some z => let '(r, (z', wd)) := ProcessPipe fuel code dst src (z, w_world w) in
                (r, (Some z', set_wr_world (w_wr w) wd w))
    end.

(** [stream.End()] *)
Definition stream_End : M sw unit := fun '(o, w) =>
  match o with
  | None => (Pan (PRun NilDereference), (o, w))
  | Some z => (Ret tt, (Some (Stream_End z), w))
  end.

Definition on_writer {A} (m : M Writer A) : M sw A := fun '(o, w) =>
  let '(r, w') := m w in (r, (o, w')).
(** A body with a local stream. *)
Definition with_stream {A} (z : option Stream) (m : M sw A) : M Writer A := fun w =>
  let '(r, (_, w')) := m (z, w) in (r, w').
(** A body that works on [w.stream]. *)
Definition on_stream {A} (m : M sw A) : M Writer A := fun w =>
  let '(r, (z, w')) := m (w_stream w, w) in (r, set_stream z w').

(** * One block *)

Definition blockInit (compSize uncompSize : Z) : M Writer loc :=
  w ← get;
  on_world (alloc_block (NewBlockCustom (GetCheck (w_flags w)) (w_filters w) compSize uncompSize)).

(** The literal block, when the compressed one does not fit. *)
Definition encode_literal (wrBuf rdBuf : option loc) : M Writer (Z * Z) :=
  ptrs ← on_world (of_pipe rdBuf bp_Pointers);
  let '(_, rdSize) := ptrs in
  input ← on_world (of_pipe rdBuf bp_Buffer);
  w ← get;
  let check := GetCheck (w_flags w) in
  input ← index_or (reslice input rdSize);
  r ← on_world (on_buffer wrBuf (literalBlockEncode check (slice_bytes input)));
  let '(cnt, pad) := r in
  let unpadSize := int64 (cnt - pad) in
  let uncompSize := int64 rdSize in
  on_world (upd_pipe wrBuf bp_Rollback);;
  on_world (upd_pipe wrBuf (fun p => bp_WriteMark p cnt));;
  mret (unpadSize, uncompSize).

(** The header of the compressed block, in front of its data. *)
Definition encode_header (wrBuf : option loc) (block : loc) (headerSize : Z) : M Writer (Z * Z) :=
  buf ← on_world (of_pipe wrBuf bp_Buffer);
  data ← index_or (reslice buf headerSize);
  r ← on_world (on_block block (Block_HeaderEncode (slice_bytes data)));
  let '(data, err) := r in
  on_world (upd_pipe wrBuf (fun p => bp_Store p 0 data));;
  call (errs_Panic err);;
  unpadSize ← on_world (of_block block UnpaddedSize);
  uncompSize ← on_world (of_block block GetUncompressedSize);
  mret (unpadSize, uncompSize).

(** The normal compression: true when it did not fit. *)
Definition encode_stream (fuel : nat) (wrBuf rdBuf : option loc) : M sw bool :=
  let doLiteral := false in
  r ← stream_ProcessPipe fuel RUN wrBuf rdBuf;
  let '(_, _, err) := r in
  let doLiteral := doLiteral || errs_Match err [Some ErrShortWrite] in
  call (errs_Panic (errs_Ignore err [Some ErrShortWrite; Some EOF]));;
  r ← stream_ProcessPipe fuel FINISH wrBuf None;
  let '(_, _, err) := r in
  let doLiteral := doLiteral || errs_Match err [Some ErrShortWrite] in
  call (errs_Panic (errs_Ignore err [Some ErrShortWrite; Some streamEnd]));;
  mret doLiteral.

Definition blockEncode (fuel : nat) (wrBuf rdBuf : option loc) : M Writer (Z * Z) :=
  mode ← on_world (of_pipe wrBuf bp_Mode);
  if negb (mode =? LineMono) then panic (PStr "invalid output pipe mode") else
  w ← get;
  block ← blockInit (int64 (w_chunkSize w)) (int64 (w_maxSize w));
  r ← on_world (on_block block HeaderSize);
  let '(headerSize, err) := r in
  call (errs_Panic err);;
  on_world (upd_pipe wrBuf (fun p => bp_WriteMark p headerSize));;
  r ← on_world (Block_NewStreamEncoder block);
  let '(stream, err) := r in
  with_stream stream (with_defer stream_End (
    call (errs_Panic err);;
    doLiteral ← encode_stream fuel wrBuf rdBuf;
    on_writer (if (doLiteral : bool) then encode_literal wrBuf rdBuf
               else encode_header wrBuf block headerSize))).

Definition blockEncodeSync (fuel : nat) : M Writer unit :=
  w ← get;
  on_world (upd_pipe (w_rdBuf w) bp_Close);;
  with_defer (on_world (upd_pipe (w_rdBuf w) bp_Reset)) (
    r ← blockEncode fuel (w_wrBuf w) (w_rdBuf w);
    let '(unpadSize, uncompSize) := r in
    err ← on_world (Index_Append (w_index w) unpadSize uncompSize);
    call (errs_Panic err);;
    on_world (upd_pipe (w_wrBuf w) bp_Close);;
    with_defer (on_world (upd_pipe (w_wrBuf w) bp_Reset)) (
      r ← on_world (of_pipe (w_wrBuf w) bp_ReadSlices);
      let '(data, _, _) := r in
      err ← write_out data;
      call (errs_Panic err))).

(** * Write *)

(** The state of [Write]: the writer and the named result [cnt]. *)
Definition wc : Type := Writer * Z.
Definition on_w {A} (m : M Writer A) : M wc A := fun '(w, cnt) =>
  let '(r, w') := m w in (r, (w', cnt)).

(** The loop of the synchronous mode with blocks. *)
Fixpoint write_blocks (fuel : nat) (data : list Z) : M wc unit :=
  match fuel with
  | O => no_fuel
  | S fuel' =>
      s ← get;
      let '(w, cnt) := s in
      if cnt <? zlen data then
        rest ← index_or (zdrop data cnt);
        r ← on_w (on_world (on_pipe (w_rdBuf w) (fun p => bp_Write p rest)));
        let '(rdCnt, err) := r in
        modify (fun '(w, cnt) => (w, cnt + rdCnt));;
        (if decide (err = Some ErrShortWrite) then on_w (blockEncodeSync fuel) else mret tt);;
        call (errs_Panic (errs_Ignore err [Some ErrShortWrite]));;
        write_blocks fuel' data
      else mret tt
  end.

(** The two synchronous cases of [Write]. *)
Definition write_sync (fuel : nat) (data : list Z) : M wc (Z * error) :=
  s ← get;
  let '(w, _) := s in
  if w_chunkSize w =? ChunkStream then
    r ← on_w (on_stream (stream_Process fuel RUN (Some (NewReader data))));
    let '(_, rdCnt, err) := r in
    mret (rdCnt, errs_Ignore err [Some EOF])
  else
    write_blocks fuel data;;
    s ← get;
    mret (snd s, None).

(** [Write] of a writer whose [maxWorkers] is [WorkersSync]. *)
Definition Write (fuel : nat) (data : list Z) : M Writer (Z * error) := fun w =>
  let '(r, (w', _)) :=
    with_recover snd (
      s ← get;
      if w_closed (fst s) then mret (0, Some ErrClosedPipe) else write_sync fuel data) (w, 0) in
  (r, w').

(** * Close *)

(** The end of a stream of a single block. *)
Definition finish_stream (fuel : nat) (rest : M Writer unit) : M Writer unit :=
  with_defer (on_stream stream_End) (
    r ← on_stream (stream_Process fuel FINISH None);
    let '(_, _, err) := r in
    call (errs_Panic (errs_Ignore err [Some streamEnd]));;
    w ← get;
    match w_block w with
    | None => panic (PRun NilDereference)
    | Some b =>
        unpadSize ← on_world (of_block b UnpaddedSize);
        uncompSize ← on_world (of_block b GetUncompressedSize);
        err ← on_world (Index_Append (w_index w) unpadSize uncompSize);
        call (errs_Panic err);;
        rest
    end).

(** The index and the footer. *)
Definition write_footer (fuel : nat) : M Writer unit :=
  w ← get;
  r ← on_world (Index_NewStreamEncoder (w_index w));
  let '(stream, err) := r in
  call (errs_Panic err);;
  r ← with_stream stream (stream_Process fuel FINISH None);
  let '(_, _, err) := r in
  call (errs_Panic (errs_Ignore err [Some streamEnd]));;
  size ← on_world (Size (w_index w));
  w ← get;
  r ← on_local (w_flags w) (FooterEncode size);
  let '(buf, err, flags) := r in
  modify (set_flags flags);;
  call (errs_Panic err);;
  err ← write_out buf;
  call (errs_Panic err).

(** [Close] of a writer whose [maxWorkers] is [WorkersSync]. *)
Definition Close (fuel : nat) : M Writer error :=
  r ← with_recover (fun _ => tt) (
    w ← get;
    if w_closed w then mret (tt, None) else
    modify set_closed;;
    with_defer (on_world (End (Some (w_index w)))) (
      (if negb (w_chunkSize w =? ChunkStream) then
         p ← on_world (of_pipe (w_rdBuf w) bp_Length);
         if 0 <? p then blockEncodeSync fuel else mret tt
       else mret tt);;
      (if w_chunkSize w =? ChunkStream then finish_stream fuel (write_footer fuel)
       else write_footer fuel);;
      mret (tt, None)));
  mret (snd r).

(** * The constructors *)

(** The last part of [NewWriterCustom], on the new object. *)
Definition start_stream : M Writer unit :=
  block ← blockInit VLI_UNKNOWN VLI_UNKNOWN;
  modify (set_block (Some block));;
  r ← on_world (on_block block HeaderSize);
  let '(headerSize, err) := r in
  call (errs_Panic err);;
  r ← on_world (on_block block (Block_HeaderEncode (slice_bytes (make_slice headerSize))));
  let '(data, err) := r in
  call (errs_Panic err);;
  err ← write_out data;
  call (errs_Panic err);;
  r ← on_world (Block_NewStreamEncoder block);
  let '(stream, err) := r in
  modify (set_stream stream);;
  call (errs_Panic err).

Definition start_modes : M Writer unit :=
  w ← get;
  (if negb (w_maxWorkers w =? WorkersSync) then
     modify (set_pools (w_chunkSize w) (w_maxSize w) LineDual LineMono)
   else if negb (w_chunkSize w =? ChunkStream) then
     rdBuf ← on_world (alloc_pipe (NewBufferPipe (make_slice (w_chunkSize w)) LineMono));
     wrBuf ← on_world (alloc_pipe (NewBufferPipe (make_slice (w_maxSize w)) LineMono));
     modify (set_bufs (Some rdBuf) (Some wrBuf))
   else mret tt);;
  if w_chunkSize w =? ChunkStream then
    modify (fun w => set_pools (w_inSize w) (w_outSize w) RingBlock RingBlock w);;
    start_stream
  else mret tt.

(** The clamps of the arguments. *)
Definition clamp_chunk (chunkSize : Z) : Z :=
  if chunkSize <? 0 then ChunkStream
  else if (0 <=? chunkSize) && (chunkSize <? ChunkLowest) then ChunkLowest
  else if ChunkHighest <? chunkSize then ChunkHighest else chunkSize.
Definition clamp_workers (maxWorkers : Z) : Z := if maxWorkers <? 0 then WorkersMax else maxWorkers.

Definition NewWriterCustom (level checkType chunkSize maxWorkers : Z) :
    M (W * world) (option Writer * error) :=
  with_recover (fun _ => None) (
    let chunkSize := clamp_chunk chunkSize in
    let maxWorkers := clamp_workers maxWorkers in
    maxSize ← literalBlockSize checkType (int64 chunkSize);
    (* the stream header *)
    r ← on_local NewStreamFlags (HeaderEncode checkType);
    let '(buf, err, flags) := r in
    call (errs_Panic err);;
    r ← zoom snd (fun wd s => (fst s, wd)) NewIndex;
    let '(index, err) := r in
    call (errs_Panic err);;
    (* the filters *)
    let '(opts, err) := NewOptionsLZMA PRESET_DEFAULT in
    call (errs_Panic err);;
    match opts, index with
    | Some opts, Some index =>
        let opts := if (0 <? chunkSize) && (chunkSize <? GetDictSize opts)
                    then SetDictSize (uint32 chunkSize) opts else opts in
        r ← on_local NewFilters (Append FILTER_LZMA2 (Some opts));
        let '(_, filters) := r in
        s ← get;
        let '((_, err), wr) := wr_Write (fst s) buf in
        put (wr, snd s);;
        call (errs_Panic err);;
        (* the object *)
        s ← get;
        let w := WriterV (fst s) flags index filters false maxWorkers chunkSize maxSize
                         None None None None 0 0 0 0 (snd s) in
        let '(r, w) := start_modes w in
        put (w_wr w, w_world w);;
        call r;;
        mret (Some w, None)
    | _, _ => panic (PRun NilDereference)
    end).

Definition NewWriterLevel (level : Z) : M (W * world) (option Writer * error) :=
  NewWriterCustom level CheckDefault ChunkDefault WorkersDefault.
Definition NewWriter : M (W * world) (option Writer * error) := NewWriterLevel DefaultCompression.

End writer.
Arguments Writer {BP L} W.
