(* ===== verification/WriterBlock.v ===== *)
(** The encoding of one block by the xz writer: what [blockEncode] leaves in the
    output pipe, and what it reports for the index. *)

From S2P Require Import Prelude Bufpipe Lines Errs Liblzma SmallLzma Lib XzConst Literal World LibIndex.
From S2P Require Import Stream StreamPump PipePump Ioutil Writer.

Section block.
Context {BP : Bufpipe} {L : Liblzma} {E : Errs} {IU : Ioutil} {W : Type} {IW : IoWriter W}.
Context {BS : BufpipeSpec BP} {LS : LiblzmaSpec L} {ES : ErrsSpec E} {LI : LiblzmaIdle L}.

(** The mode of the input pipe. *)
Context {sm : Z}.
#[local] Abbreviation src_line := (@PipePump.src_line BP L sm).
#[local] Abbreviation lines_ok := (@PipePump.lines_ok BP L sm).

(** * What a block may be *)

(** A literal block of [chunk]. *)
Definition literal_bytes (check : Z) (chunk bytes : list Z) (unpad uncomp : Z) : Prop :=
  exists hdr pad, lzma_block_header_encode (block (literal_header check (zlen chunk))) = (OK, hdr) /\
    (pad < 4)%nat /\ zlen bytes mod 4 = 0 /\
    bytes = hdr ++ literal_data chunk ++ replicate pad 0 ++ check_bytes check chunk /\
    unpad = zlen bytes - Z.of_nat pad /\ uncomp = zlen chunk.

(** The block encoder, started on the block [b] at some address. *)
Definition encoder_for (b : Block) (l : loc) (m : cmem_t) (c : lzma_coder) : Prop :=
  cm_block m !! l = Some (block b) /\ lzma_block_encoder m l = (OK, c).

(** [chunk] coded to the end of the block, behind the header of the block as the
    encoder left it. *)
Definition coded_bytes (b : Block) (chunk bytes : list Z) (unpad uncomp : Z) : Prop :=
  exists l m0 c0 out1 c1 m1 out2 c2 m2 blk hdr,
    encoder_for b l m0 c0 /\ codes RUN c0 m0 chunk out1 c1 m1 /\ codes FINISH c1 m1 [] out2 c2 m2 /\
    (exists c m inp n, let r := lzma_code c m (uint32 FINISH) inp n in
       cr_ret r = STREAM_END /\ cr_coder r = c2 /\ cr_mem r = m2) /\
    cm_block m2 !! l = Some blk /\ lzma_block_header_encode blk = (OK, hdr) /\
    bytes = hdr ++ out1 ++ out2 /\
    unpad = int64 (lzma_block_unpadded_size blk) /\ uncomp = int64 (b_uncompressed_size blk).

(** The encoder filled all [room] bytes, from a prefix of [chunk] and what it
    kept inside, without coming to an end. *)
Definition overflows (b : Block) (room : Z) (chunk : list Z) : Prop :=
  exists l m0 c0 cin out1 c1 m1 out2 c2 m2,
    encoder_for b l m0 c0 /\ codes RUN c0 m0 cin out1 c1 m1 /\ cin `prefix_of` chunk /\
    codes FINISH c1 m1 [] out2 c2 m2 /\ zlen out1 + zlen out2 = room.

(** What [blockEncode] makes of a chunk: [b] is the block with its header size,
    [cap] the size of the output pipe. *)
Definition encoded (check : Z) (b : Block) (cap : Z) (chunk bytes : list Z) (unpad uncomp : Z) : Prop :=
  coded_bytes b chunk bytes unpad uncomp \/
  (literal_bytes check chunk bytes unpad uncomp /\ overflows b (cap - GetHeaderSize b) chunk).

(** * The memory *)

(** A block that a coder works on keeps what the caller configured. *)
Definition same_config (b b' : block_t) : Prop :=
  b_header_size b' = b_header_size b /\ b_version b' = b_version b /\ b_check b' = b_check b /\
  b_filters b' = b_filters b.

Lemma codes_keep act c m i o c' m' :
  codes act c m i o c' m' -> lzma_coder_cell c = None ->
  lzma_coder_cell c' = None /\ mem_keeps m m' /\
  forall l b, cm_block m !! l = Some b -> exists b', cm_block m' !! l = Some b' /\ same_config b b'.
Proof.
  induction 1 as [c m|c m inp n r ins outs c' m' -> Hc IH]; intros Hcell.
  { split_and!; [done|done|]. intros l b Hb. exists b. by split. }
  set (r := lzma_code c m (uint32 act) inp n) in *.
  assert (Hcell1 : lzma_coder_cell (cr_coder r) = None) by (unfold r; by rewrite code_cell_same).
  destruct (IH Hcell1) as (H1 & H2 & H3). split; [done|]. split.
  - eapply mem_keeps_trans; [|done]. split.
    + apply map_eq. intros l. apply code_cell. by rewrite Hcell.
    + intros a x. apply code_index_keep.
  - intros l b Hb. destruct (code_block_keep c m (uint32 act) inp n l b Hb) as (b1 & Hb1 & S1 & S2 & S3 & S4).
    destruct (H3 l b1 Hb1) as (b2 & Hb2 & T1 & T2 & T3 & T4). exists b2. split; [done|].
    split_and!; congruence.
Qed.

(** * Pipes and blocks behind pointers *)

Lemma on_pipe_run {A} (w : world) l p (f : BufferPipe -> A * BufferPipe) :
  pipes w !! l = Some p ->
  on_pipe (Some l) f w = (Ret (f p).1, set_pipes (<[l := (f p).2]> (pipes w)) w).
Proof. intros H. unfold on_pipe. rewrite H. by destruct (f p). Qed.

Lemma upd_bufpipe_run (w : world) l p (f : BufferPipe -> BufferPipe) :
  pipes w !! l = Some p -> upd_pipe (Some l) f w = (Ret tt, set_pipes (<[l := f p]> (pipes w)) w).
Proof. exact (on_pipe_run w l p (fun p => (tt, f p))). Qed.

Lemma of_pipe_run {A} (w : world) l p (f : BufferPipe -> A) :
  pipes w !! l = Some p -> of_pipe (Some l) f w = (Ret (f p), w).
Proof.
  intros H. unfold of_pipe. rewrite (on_pipe_run _ _ _ _ H). cbn.
  rewrite insert_id by done. by destruct w.
Qed.

Lemma on_buffer_run {A} (w : world) l p (m : M (list Z) A) :
  pipes w !! l = Some p ->
  let '(r, bytes) := m (slice_bytes (bp_Buffer p)) in
  on_buffer (Some l) m w = (r, set_pipes (<[l := bp_Store p 0 bytes]> (pipes w)) w).
Proof.
  intros H. unfold on_buffer. rewrite (bind_ret _ _ _ _ _ (of_pipe_run w l p _ H)).
  destruct (m _) as [r bytes]. unfold upd_pipe. by rewrite (bind_ret _ _ _ _ _ (on_pipe_run w l p _ H)).
Qed.

Lemma src_line_pipes (w w' : world) s cap bs rest :
  pipes w' = pipes w -> src_line w s cap bs rest -> src_line w' s cap bs rest.
Proof. intros Hp. unfold src_line. by rewrite Hp. Qed.

(** The output pipe can still be closed. *)
Definition open_at (w : world) (d : loc) : Prop :=
  exists p, pipes w !! d = Some p /\ bp_Mode p = LineMono /\ bp_Closed p = false.

Lemma dst_open (w : world) d cap out : dst_line w d cap out -> open_at w d.
Proof. intros (p & Hp & Hl). exists p. split; [done|]. split; apply Hl. Qed.

Lemma stored_open (w : world) d p off bs wd' :
  bp_Mode p = LineMono -> bp_Closed p = false -> pipes wd' = <[d := bp_Store p off bs]> (pipes w) -> open_at wd' d.
Proof.
  intros Hm Hc Hp. exists (bp_Store p off bs). rewrite Hp, lookup_insert_eq, store_mode, store_closed. done.
Qed.

(** What an encoding that fails leaves behind. *)
Definition aborted (d s : loc) (scap : Z) (chunk : list Z) (wd wd' : world) : Prop :=
  (exists rest, src_line wd' s scap chunk rest) /\ open_at wd' d /\ mem_keeps (mem wd) (mem wd').

Lemma src_line_frame (w w' : world) s cap bs rest :
  pipes w' !! s = pipes w !! s -> src_line w s cap bs rest -> src_line w' s cap bs rest.
Proof. intros Hp. unfold src_line. by rewrite Hp. Qed.

(** * The two endings of [blockEncode] *)

(** The writer [w] in the world [wd]. *)
Definition at_world (w : Writer W) (wd : world) : Writer W := set_wr_world (w_wr w) wd w.

Lemma at_world_id (w : Writer W) : at_world w (w_world w) = w.
Proof. by destruct w. Qed.

Lemma on_world_run {A} (m : M world A) (w : Writer W) wd o wd' :
  m wd = (o, wd') -> on_world m (at_world w wd) = (o, at_world w wd').
Proof. intros H. unfold on_world, zoom. cbn. by rewrite H. Qed.

Lemma bind_on_world {A B} (m : M world A) (k : A -> M (Writer W) B) (w : Writer W) wd a wd' :
  m wd = (Ret a, wd') -> (on_world m ≫= k) (at_world w wd) = k a (at_world w wd').
Proof. intros H. by rewrite (bind_ret _ _ _ _ _ (on_world_run _ w _ _ _ H)). Qed.

(** The other pipes. *)
Definition pipes_but (d : loc) (wd wd' : world) : Prop := forall k, k <> d -> pipes wd' !! k = pipes wd !! k.

Lemma encode_literal_run (w : Writer W) wd d s cap scap out chunk rest size :
  dst_line wd d cap out -> src_line wd s scap chunk rest -> zlen chunk < 2 ^ 60 ->
  literalBlockSize (S:=unit) (GetCheck (w_flags w)) (zlen chunk) tt = (Ret size, tt) -> size <= cap ->
  exists o wd', encode_literal (Some d) (Some s) (at_world w wd) = (o, at_world w wd') /\
    match o with
    | Ret (u, c) => exists bytes, dst_line wd' d cap bytes /\ literal_bytes (GetCheck (w_flags w)) chunk bytes u c /\
        mem wd' = mem wd /\ pipes_but d wd wd'
    | Pan p => (exists e, p = PErr (Some e)) /\ pipes_but d wd wd' /\ open_at wd' d /\ mem wd' = mem wd
    | NoFuel => False
    end.
Proof.
  intros (p & Hp & Hl) (q & r & Hq & Hlq & _) Hlen Hsz Hcap. set (check := GetCheck (w_flags w)) in *.
  destruct (line_array _ _ _ _ _ Hl) as (Ha1 & Ha2 & _).
  destruct (line_array _ _ _ _ _ Hlq) as (Hq1 & _ & qrest & Hq3).
  destruct (line_bounds _ _ _ _ _ Hlq) as [_ Hqb]. pose proof (zlen_nonneg chunk) as Hc0.
  unfold encode_literal.
  rewrite (bind_on_world _ _ _ _ _ _ (of_pipe_run wd s q _ Hq)), (ln_ptrs _ _ _ _ _ Hlq).
  rewrite (bind_on_world _ _ _ _ _ _ (of_pipe_run wd s q _ Hq)), bind_get.
  change (w_flags (at_world w wd)) with (w_flags w). fold check.
  assert (Hre : reslice (bp_Buffer q) (zlen chunk) = Some (Slice (bp_array q) (zlen chunk))).
  { unfold reslice, slice_cap. fold (bp_array q). rewrite bool_decide_eq_true_2 by lia. done. }
  rewrite Hre. cbn [index_or]. rewrite bind_mret.
  assert (Hin : slice_bytes (Slice (bp_array q) (zlen chunk)) = chunk).
  { unfold slice_bytes. cbn. rewrite Hq3. apply take_app_length'. unfold zlen. lia. }
  rewrite Hin. pose proof (on_buffer_run wd d p (literalBlockEncode check chunk) Hp) as Hb.
  rewrite Ha2 in Hb. rewrite bind_run.
  destruct (lzma_block_header_encode (block (literal_header check (zlen chunk)))) as [ret hdr] eqn:He.
  assert (Hout : size <= zlen (bp_array p)) by lia.
  destruct (decide (ret = OK)) as [->|Hne].
  - destruct (encode_exact check chunk size (bp_array p) hdr Hlen Hsz He Hout)
      as (pad & Hpad & Hmod & Hrun & Hsize).
    rewrite Hrun in Hb. set (tail := drop (Z.to_nat size) (bp_array p)) in *.
    set (lit := hdr ++ literal_data chunk ++ replicate pad 0 ++ check_bytes check chunk).
    assert (Hassoc : hdr ++ literal_data chunk ++ replicate pad 0 ++ check_bytes check chunk ++ tail = lit ++ tail)
      by (unfold lit; by rewrite <- !app_assoc).
    rewrite Hassoc in Hb. rewrite (on_world_run _ _ _ _ _ Hb).
    destruct (literalBlockSize_ret _ _ _ _ _ (conj Hc0 Hlen) Hsz) as (Hs & _).
    destruct (literalBlockSize_bound _ _ _ (conj Hc0 Hlen) Hsz) as [_ Hsmall].
    destruct (check_bytes_length check chunk Hs) as (Hcl & _ & _).
    assert (Hlit : zlen lit = size)
      by (unfold lit; rewrite !zlen_app, zlen_replicate, Hcl, literal_data_length by lia; lia).
    assert (0 <= size) by (rewrite <- Hlit; apply zlen_nonneg).
    set (wd1 := set_pipes _ wd).
    assert (Hp1 : pipes wd1 !! d = Some (bp_Store p 0 (lit ++ tail))) by (cbn; by rewrite lookup_insert_eq).
    unfold upd_pipe.
    rewrite (bind_on_world _ _ _ _ _ _ (on_pipe_run wd1 d _ _ Hp1)). cbn [fst snd].
    set (wd2 := set_pipes _ wd1).
    assert (Hp2 : pipes wd2 !! d = Some (bp_Rollback (bp_Store p 0 (lit ++ tail)))) by (cbn; by rewrite lookup_insert_eq).
    rewrite (bind_on_world _ _ _ _ _ _ (on_pipe_run wd2 d _ _ Hp2)). cbn [fst snd].
    set (wd3 := set_pipes _ wd2). do 2 eexists. split; [reflexivity|].
    assert (Hall : zlen (lit ++ tail) = cap).
    { rewrite zlen_app, Hlit. unfold tail. rewrite zlen_drop by lia. lia. }
    exists lit. split; [|split; [|split; [done|]]].
    + exists (bp_WriteMark (bp_Rollback (bp_Store p 0 (lit ++ tail))) size). split; [cbn; by rewrite lookup_insert_eq|].
      pose proof (line_of_restart _ _ _ _ (lit ++ tail) size Hl Hall ltac:(lia)) as Hlast.
      rewrite take_app_length' in Hlast by (unfold zlen in Hlit; lia). done.
    + exists hdr, pad. rewrite Hlit. split_and!; try done.
      * apply int64_id. lia.
      * apply int64_id. lia.
    + intros k Hk. cbn. by rewrite !lookup_insert_ne by done.
  - destruct (encode_header_error check chunk size (bp_array p) ret hdr Hlen Hsz He Hne Hout) as (output' & Hrun).
    rewrite Hrun in Hb. rewrite (on_world_run _ _ _ _ _ Hb). do 2 eexists. split; [reflexivity|].
    split; [by eexists|]. split; [intros k Hk; cbn; by rewrite lookup_insert_ne|]. split; [|done].
    by eapply (stored_open wd d p); [apply Hl|apply Hl|].
Qed.

Lemma encode_header_run (w : Writer W) wd d l b cap junk out :
  dst_line wd d cap (junk ++ out) -> get_block wd l = Some b -> zlen junk = GetHeaderSize b ->
  exists o wd', encode_header (Some d) l (GetHeaderSize b) (at_world w wd) = (o, at_world w wd') /\
    match o with
    | Ret (u, c) => exists hdr, lzma_block_header_encode (block b) = (OK, hdr) /\
        dst_line wd' d cap (hdr ++ out) /\ u = UnpaddedSize b /\ c = GetUncompressedSize b /\
        mem_keeps (mem wd) (mem wd') /\ pipes_but d wd wd'
    | Pan p => (exists e, p = PErr (Some e)) /\ pipes_but d wd wd' /\ open_at wd' d /\ mem_keeps (mem wd) (mem wd')
    | NoFuel => False
    end.
Proof.
  intros (p & Hp & Hl) Hb Hj. set (h := GetHeaderSize b) in *. pose proof (zlen_nonneg junk) as Hh0.
  destruct (line_array _ _ _ _ _ Hl) as (Ha1 & _ & rest & Ha3).
  destruct (line_bounds _ _ _ _ _ Hl) as [_ Hle]. rewrite zlen_app in Hle. pose proof (zlen_nonneg out) as Ho0.
  unfold encode_header. rewrite (bind_on_world _ _ _ _ _ _ (of_pipe_run wd d p _ Hp)).
  assert (Hre : reslice (bp_Buffer p) h = Some (Slice (bp_array p) h)).
  { unfold reslice, slice_cap. fold (bp_array p). rewrite bool_decide_eq_true_2 by lia. done. }
  rewrite Hre. cbn [index_or]. rewrite bind_mret.
  assert (Hin : slice_bytes (Slice (bp_array p) h) = junk).
  { unfold slice_bytes. cbn. rewrite Ha3, <- app_assoc. apply take_app_length'. unfold zlen in *. lia. }
  rewrite Hin. destruct (lzma_block_header_encode (block b)) as [ret hdr] eqn:He.
  assert (Hrun : Block_HeaderEncode junk b = (Ret (overwrite junk 0 hdr, NewError ret), b)).
  { unfold Block_HeaderEncode. rewrite bind_get, He. fold (GetHeaderSize b). fold h.
    by rewrite (proj2 (Z.ltb_ge _ _)) by lia. }
  destruct (on_block_run wd l b (Block_HeaderEncode junk) Hb) as (w1 & R1 & G1 & P1 & M1).
  rewrite Hrun in R1, G1. cbn [fst snd] in R1, G1. rewrite (bind_on_world _ _ _ _ _ _ R1). cbv beta iota.
  assert (Hp1 : pipes w1 !! d = Some p) by (by rewrite P1).
  unfold upd_pipe. rewrite (bind_on_world _ _ _ _ _ _ (on_pipe_run w1 d p _ Hp1)). cbn [fst snd].
  set (w2 := set_pipes _ w1). assert (G2 : get_block w2 l = Some b) by done.
  unfold NewError. destruct (Z.eqb_spec ret OK) as [->|Hne].
  - rewrite Panic_nil, bind_call.
    rewrite (bind_on_world _ _ _ _ _ _ (of_block_run w2 l b _ G2)).
    rewrite (bind_on_world _ _ _ _ _ _ (of_block_run w2 l b _ G2)).
    do 2 eexists. split; [reflexivity|]. exists hdr.
    pose proof (header_encode_length _ _ He) as Hhl. fold (GetHeaderSize b) in Hhl. fold h in Hhl.
    assert (Hov : overwrite junk 0 hdr = hdr).
    { unfold overwrite. cbn. rewrite drop_ge by (unfold zlen in *; lia). apply app_nil_r. }
    split; [done|]. split; [|split_and!; try done].
    + exists (bp_Store p 0 hdr). cbn. rewrite lookup_insert_eq, Hov. split; [done|].
      eapply line_of_store; [done|lia].
    + intros k Hk. cbn. rewrite lookup_insert_ne by done. by rewrite P1.
  - rewrite Panic_err. do 2 eexists. split; [reflexivity|]. split; [by eexists|]. split; [|split; [|done]].
    + intros k Hk. cbn. rewrite lookup_insert_ne by done. by rewrite P1.
    + by eapply (stored_open w1 d p); [apply Hl|apply Hl|].
Qed.

(** * The compression *)

Lemma pipe_fuel_src fuel dcap scap : (fuel < pipe_fuel dcap 0)%nat -> (fuel < pipe_fuel dcap scap)%nat.
Proof. unfold pipe_fuel. lia. Qed.

Lemma coder_status_lib act z w err :
  coder_status act z w err -> exists code, err = Some (LibError code) /\ code <> OK.
Proof.
  intros (c & m & inp & n & H1 & H2 & _). destruct err as [e|]; [|done].
  apply NewError_some in H2 as [H2 ->]. eauto.
Qed.

(** The stream and the world after a call on the pipes. *)
Definition sw_at (w : Writer W) (z : Stream) (wd : world) : sw := (Some z, at_world w wd).

Lemma bind_pipe {B} fuel act dst src (k : Z * Z * error -> M (sw (W:=W)) B) w z wd :
  (stream_ProcessPipe fuel act dst src ≫= k) (sw_at w z wd) =
  match ProcessPipe fuel act dst src (z, wd) with
  | (Ret r, (z', wd')) => k r (sw_at w z' wd')
  | (Pan p, (z', wd')) => (Pan p, sw_at w z' wd')
  | (NoFuel, (z', wd')) => (NoFuel, sw_at w z' wd')
  end.
Proof.
  rewrite bind_run. unfold stream_ProcessPipe, sw_at. cbn [w_world at_world set_wr_world].
  by destruct (ProcessPipe fuel act dst src (z, wd)) as [[r|p|] [z' wd']].
Qed.

(** What the compression leaves behind. *)
Definition compressed (b : Block) (l d s : loc) (cap scap : Z) (junk chunk : list Z)
    (wd wd' : world) (c' : lzma_coder) (doLiteral : bool) : Prop :=
  (exists out, dst_line wd' d cap (junk ++ out) /\
    if doLiteral then overflows b (cap - zlen junk) chunk
    else exists m0 c0 out1 c1 m1 out2, out = out1 ++ out2 /\ encoder_for b l m0 c0 /\
      codes RUN c0 m0 chunk out1 c1 m1 /\ codes FINISH c1 m1 [] out2 c' (mem wd') /\
      exists c m inp n, let r := lzma_code c m (uint32 FINISH) inp n in
        cr_ret r = STREAM_END /\ cr_coder r = c' /\ cr_mem r = mem wd') /\
  (exists rest, src_line wd' s scap chunk rest) /\
  mem_keeps (mem wd) (mem wd') /\ (exists b', get_block wd' l = Some b' /\ GetHeaderSize b' = GetHeaderSize b) /\
  forall k, k <> d -> k <> s -> pipes wd' !! k = pipes wd !! k.

(** The call that finishes the block. *)
Lemma finish_run fuel (w : Writer W) z wd d s cap scap out sbs rest (dl : bool) :
  lzma_coder_cell (coder z) = None -> s <> d -> dst_line wd d cap out -> src_line wd s scap sbs rest ->
  exists o z' wd',
    (r ← stream_ProcessPipe fuel FINISH (Some d) None;
     let '(_, _, err) := r in
     let doLiteral := dl || errs_Match err [Some ErrShortWrite] in
     call (errs_Panic (errs_Ignore err [Some ErrShortWrite; Some streamEnd]));;
     mret doLiteral) (sw_at w z wd) = (o, sw_at w z' wd') /\
    match o with
    | Ret doLiteral => exists out2,
        codes FINISH (coder z) (mem wd) [] out2 (coder z') (mem wd') /\ dst_line wd' d cap (out ++ out2) /\
        src_line wd' s scap sbs rest /\ frame wd wd' d None /\
        if doLiteral then dl = true \/ zlen (out ++ out2) = cap
        else dl = false /\ exists c m inp n, let r := lzma_code c m (uint32 FINISH) inp n in
          cr_ret r = STREAM_END /\ cr_coder r = coder z' /\ cr_mem r = mem wd'
    | Pan p => (exists e, p = PErr (Some e)) /\ aborted d s scap sbs wd wd'
    | NoFuel => (fuel < pipe_fuel cap scap)%nat
    end.
Proof.
  intros Hcell Hne Hd Hs. assert (Hok : lines_ok wd d None cap 0 out [] []) by done.
  pose proof (ProcessPipe_run FINISH d None cap 0 [] fuel z wd out [] Hok) as H.
  rewrite bind_pipe. destruct (ProcessPipe fuel FINISH _ _ _) as [[[[o2 i2] err]|p|] [z' wd']];
    [|done|do 3 eexists; split; [done|by eapply pipe_fuel_src]].
  destruct H as (cin & out2 & [C (rest' & R & [D _] & T) F]). symmetry in R. apply app_eq_nil in R as [-> ->].
  assert (Hs' : src_line wd' s scap sbs rest) by (eapply src_line_frame; [by apply F|done]).
  pose proof (proj1 (proj2 (codes_keep _ _ _ _ _ _ _ C Hcell))) as Hkeep.
  cbv beta iota. rewrite Ignore_spec, Match_eq.
  destruct T as [(_ & Hx & _)|[(-> & Hfull)|Hst]]; [done| |].
  - rewrite decide_True by set_solver. rewrite Panic_nil, bind_call, bool_decide_eq_true_2, orb_true_r by set_solver.
    do 3 eexists. split; [reflexivity|]. exists out2. split_and!; try done. by right.
  - destruct (coder_status_lib _ _ _ _ Hst) as (code & -> & Hcode).
    rewrite bool_decide_eq_false_2, orb_false_r by (rewrite list_elem_of_singleton; done).
    case_decide as Hend.
    + rewrite Panic_nil, bind_call. do 3 eexists. split; [reflexivity|]. exists out2. split_and!; try done.
      assert (code = STREAM_END) as -> by (apply elem_of_cons in Hend as [?|[= ?]%list_elem_of_singleton]; congruence).
      destruct dl; [by left|]. split; [done|]. destruct Hst as (c & m & inp & n & _ & H2 & H3 & H4).
      apply NewError_some in H2 as [_ [= H2]]. exists c, m, inp, n. cbv zeta. by rewrite H2, <- H3, <- H4.
    + rewrite Panic_err. do 3 eexists. split; [reflexivity|]. split; [by eexists|].
      split; [by exists rest|]. split; [by eapply dst_open|done].
Qed.

Lemma encode_stream_run fuel (w : Writer W) z wd b l d s cap scap junk chunk :
  lzma_block_encoder (mem wd) l = (OK, coder z) -> get_block wd l = Some b -> s <> d ->
  dst_line wd d cap junk -> src_line wd s scap chunk chunk ->
  exists o z' wd', encode_stream fuel (Some d) (Some s) (sw_at w z wd) = (o, sw_at w z' wd') /\
    match o with
    | Ret doLiteral => compressed b l d s cap scap junk chunk wd wd' (coder z') doLiteral
    | Pan p => (exists e, p = PErr (Some e)) /\ aborted d s scap chunk wd wd'
    | NoFuel => (fuel < pipe_fuel cap scap)%nat
    end.
Proof.
  intros Hc0 Hb Hne Hd Hs. pose proof (block_encoder_cell _ _ _ Hc0) as Hcell.
  assert (Henc : encoder_for b l (mem wd) (coder z)) by (split; [by apply get_block_mem|done]).
  assert (Hok : lines_ok wd d (Some s) cap scap junk chunk chunk) by done.
  pose proof (ProcessPipe_run RUN d (Some s) cap scap chunk fuel z wd junk chunk Hok) as H1.
  unfold encode_stream. rewrite bind_pipe.
  destruct (ProcessPipe fuel RUN _ _ _) as [[[[o1 i1] err1]|p|] [z1 wd1]]; [|done|by do 3 eexists].
  destruct H1 as (cin & out1 & [C1 (rest & R1 & [D1 [_ S1]] & T1) [F1 F1']]). cbv beta iota.
  destruct (codes_keep _ _ _ _ _ _ _ C1 Hcell) as (Hcell1 & K1 & B1).
  rewrite !Ignore_spec, Match_eq, orb_false_l.
  destruct (decide (err1 ∈ [Some ErrShortWrite; Some EOF])) as [Hin|Hin].
  2: { destruct T1 as [(-> & _)|[(-> & _)|Hst]]; [set_solver|set_solver|].
       destruct (coder_status_lib _ _ _ _ Hst) as (code & -> & _). rewrite Panic_err.
       do 3 eexists. split; [reflexivity|]. split; [by eexists|].
       split; [by exists rest|]. split; [by eapply dst_open|done]. }
  rewrite Panic_nil, bind_call.
  destruct (finish_run fuel w z1 wd1 d s cap scap (junk ++ out1) chunk rest
    (bool_decide (err1 ∈ [Some ErrShortWrite])) Hcell1 Hne D1 S1) as (o & z' & wd' & Hf & H2).
  exists o, z', wd'. split; [exact Hf|].
  destruct o as [doLiteral|p|]; [|destruct H2 as (He & Ha1 & Ha2 & Ha3); split; [done|];
    split; [done|]; split; [done|by eapply mem_keeps_trans]|done].
  destruct H2 as (out2 & C2 & D2 & S2 & [F2 F2'] & T2).
  destruct (codes_keep _ _ _ _ _ _ _ C2 Hcell1) as (_ & K2 & B2).
  rewrite <- app_assoc in D2, T2.
  split; [|split; [by exists rest|split; [by eapply mem_keeps_trans|split]]].
  - exists (out1 ++ out2). split; [done|]. destruct doLiteral.
    + assert (Hfull : zlen (junk ++ out1 ++ out2) = cap).
      { destruct T2 as [Hsw%bool_decide_eq_true|]; [|done]. apply list_elem_of_singleton in Hsw as ->.
        destruct T1 as [(? & _)|[(_ & Hfull)|Hst]]; [done| |].
        - destruct D2 as (p & _ & Hl). apply line_bounds in Hl as [_ Hl].
          rewrite !zlen_app in *. pose proof (zlen_nonneg out2). lia.
        - destruct (coder_status_lib _ _ _ _ Hst) as (? & ? & _). done. }
      exists l, (mem wd), (coder z), cin, out1, (coder z1), (mem wd1), out2, (coder z'), (mem wd').
      split_and!; try done; [by exists rest|]. rewrite !zlen_app in Hfull. lia.
    + destruct T2 as [Hdl%bool_decide_eq_false Hend].
      destruct T1 as [(-> & _ & ->)|[(-> & _)|Hst]]; [|set_solver|].
      * exists (mem wd), (coder z), out1, (coder z1), (mem wd1), out2.
        rewrite app_nil_r in R1. subst cin. split_and!; try done.
      * destruct (coder_status_lib _ _ _ _ Hst) as (code & -> & _). set_solver.
  - destruct (B1 l _ (proj1 Henc)) as (b1 & Hb1 & Q1 & _). destruct (B2 l _ Hb1) as (b2 & Hb2 & Q2 & _).
    unfold get_block. rewrite Hb2, F2, F1. unfold get_block in Hb. rewrite (proj1 Henc) in Hb.
    destruct (blk_go wd !! l) as [f|]; [|done]. eexists. split; [done|]. unfold GetHeaderSize. cbn. congruence.
  - intros k Hkd Hks. rewrite F2', F1' by congruence. done.
Qed.

(** * blockEncode *)

(** The block that the writer configures. *)
Definition start_block (w : Writer W) : Block :=
  NewBlockCustom (GetCheck (w_flags w)) (w_filters w) (int64 (w_chunkSize w)) (int64 (w_maxSize w)).

(** The sizes of a writer with blocks: those that [NewWriterCustom] computes. *)
Record sized (w : Writer W) : Prop := {
  sz_chunk : ChunkLowest <= w_chunkSize w <= ChunkHighest;
  sz_max : literalBlockSize (S:=unit) (GetCheck (w_flags w)) (w_chunkSize w) tt = (Ret (w_maxSize w), tt);
}.

Lemma sized_chunk w : sized w -> 65536 <= w_chunkSize w <= 2 ^ 30.
Proof.
  intros [H _]. unfold ChunkLowest, ChunkHighest, kiloByte, gigaByte in H. rewrite !Z.shiftl_mul_pow2 in H by lia. lia.
Qed.

Lemma sized_max w : sized w -> w_chunkSize w < w_maxSize w < 2 ^ 62.
Proof.
  intros H. pose proof (sized_chunk w H). apply (literalBlockSize_bound (GetCheck (w_flags w))); [lia|apply H].
Qed.

(** The body that runs with the stream, and its deferred [stream.End]. *)
Lemma with_stream_defer {A} (w : Writer W) wd z (m : M (sw (W:=W)) A) o z' wd' :
  m (sw_at w z wd) = (o, sw_at w z' wd') ->
  with_stream (Some z) (with_defer stream_End m) (at_world w wd) = (o, at_world w wd').
Proof. intros H. unfold with_stream, with_defer. fold (sw_at w z wd). rewrite H. by destruct o. Qed.

Definition block_outcome (fuel : nat) (w : Writer W) (wd : world) (d s : loc) (scap : Z) (chunk : list Z)
    (o : outcome (Z * Z)) (wd' : world) : Prop :=
  match o with
  | Ret (u, c) => exists b bytes, HeaderSize (start_block w) = (Ret (GetHeaderSize b, None), b) /\
      encoded (GetCheck (w_flags w)) b (w_maxSize w) chunk bytes u c /\
      dst_line wd' d (w_maxSize w) bytes /\ (exists rest, src_line wd' s scap chunk rest) /\
      mem_keeps (mem wd) (mem wd') /\ forall k, k <> d -> k <> s -> pipes wd' !! k = pipes wd !! k
  | Pan p => ((exists e, p = PErr (Some e)) \/
              (p = PRun NilDereference /\ exists m l, (lzma_block_encoder m l).1 <> OK)) /\
             aborted d s scap chunk wd wd'
  | NoFuel => (fuel < pipe_fuel (w_maxSize w) scap)%nat
  end.

(** What remains of [blockEncode] once the stream is there. *)
Lemma block_body_run fuel (w : Writer W) wd z b l d s scap junk chunk :
  sized w -> zlen chunk <= w_chunkSize w ->
  HeaderSize (start_block w) = (Ret (GetHeaderSize b, None), b) -> zlen junk = GetHeaderSize b ->
  lzma_block_encoder (mem wd) l = (OK, coder z) -> get_block wd l = Some b -> s <> d ->
  dst_line wd d (w_maxSize w) junk -> src_line wd s scap chunk chunk ->
  exists o z' wd',
    (doLiteral ← encode_stream fuel (Some d) (Some s);
     on_writer (if (doLiteral : bool) then encode_literal (Some d) (Some s)
                else encode_header (Some d) l (GetHeaderSize b))) (sw_at w z wd) = (o, sw_at w z' wd') /\
    block_outcome fuel w wd d s scap chunk o wd'.
Proof.
  intros Hsz Hchunk Hhs Hj Hc0 Hb Hne Hd Hs. pose proof (sized_chunk w Hsz) as Hcs.
  destruct (encode_stream_run fuel w z wd b l d s (w_maxSize w) scap junk chunk Hc0 Hb Hne Hd Hs)
    as (o & z' & wd1 & Hrun & H). rewrite bind_run, Hrun.
  destruct o as [doLiteral|p|]; [|exists (Pan p), z', wd1; split; [done|destruct H; split; [by left|done]]|by exists NoFuel, z', wd1].
  destruct H as ((out & D1 & X1) & (rest & S1) & K1 & (b' & B1 & Q1) & F1).
  assert (Hrest : forall wd', pipes_but d wd1 wd' -> mem_keeps (mem wd1) (mem wd') ->
    (exists r, src_line wd' s scap chunk r) /\ mem_keeps (mem wd) (mem wd') /\
    forall k, k <> d -> k <> s -> pipes wd' !! k = pipes wd !! k).
  { intros wd' P M. split; [exists rest; eapply src_line_frame; [by apply P|done]|].
    split; [by eapply mem_keeps_trans|]. intros k Hk1 Hk2. by rewrite P, F1. }
  destruct doLiteral.
  - destruct (blockSize_mono (GetCheck (w_flags w)) (zlen chunk) (w_chunkSize w) (w_maxSize w))
      as (size & Hsize & Hle); [pose proof (zlen_nonneg chunk); lia|lia|apply Hsz|].
    destruct (encode_literal_run w wd1 d s (w_maxSize w) scap (junk ++ out) chunk rest size D1 S1
      ltac:(lia) Hsize Hle) as (o & wd' & Hr & Ho).
    exists o, z', wd'. unfold on_writer, sw_at. rewrite Hr. split; [done|].
    destruct o as [[u c]|p|]; [|destruct Ho as (He & P & Ho1 & Ho2); split; [by left|]; split;
      [exists rest; eapply src_line_frame; [by apply P|done]|split; [done|by rewrite Ho2]]|done].
    destruct Ho as (bytes & O1 & O2 & O3 & O4).
    exists b, bytes. split; [done|]. split; [right; split; [done|by rewrite <- Hj]|]. split; [done|].
    apply Hrest; [done|by rewrite O3].
  - destruct X1 as (m0 & c0 & out1 & c1 & m1 & out2 & -> & E0 & C1 & C2 & Hend).
    destruct (encode_header_run w wd1 d l b' (w_maxSize w) junk (out1 ++ out2) D1 B1) as (o & wd' & Hr & Ho);
      [congruence|]. rewrite Q1 in Hr.
    exists o, z', wd'. unfold on_writer, sw_at. rewrite Hr. split; [done|].
    destruct o as [[u c]|p|]; [|destruct Ho as (He & P & Ho1 & Ho2); split; [by left|]; split;
      [exists rest; eapply src_line_frame; [by apply P|done]|split; [done|by eapply mem_keeps_trans]]|done].
    destruct Ho as (hdr & O1 & O2 & -> & -> & O5 & O6).
    exists b, (hdr ++ out1 ++ out2). split; [done|]. split; [left|].
    + exists l, m0, c0, out1, c1, m1, out2, (coder z'), (mem wd1), (block b'), hdr.
      split_and!; try done. by apply get_block_mem.
    + split; [done|]. by apply Hrest.
Qed.

Lemma blockEncode_run fuel (w : Writer W) d s scap chunk :
  sized w -> zlen chunk <= w_chunkSize w -> s <> d ->
  dst_line (w_world w) d (w_maxSize w) [] -> src_line (w_world w) s scap chunk chunk ->
  exists o wd', blockEncode fuel (Some d) (Some s) w = (o, at_world w wd') /\
    block_outcome fuel w (w_world w) d s scap chunk o wd'.
Proof.
  intros Hsz Hchunk Hne Hd Hs.
  replace (blockEncode fuel (Some d) (Some s) w) with (blockEncode fuel (Some d) (Some s) (at_world w (w_world w)))
    by (by rewrite at_world_id).
  set (wd := w_world w) in *.
  destruct Hd as (p & Hp & Hl). unfold blockEncode.
  rewrite (bind_on_world _ _ _ _ _ _ (of_pipe_run wd d p _ Hp)), (ln_mode _ _ _ _ _ Hl), Z.eqb_refl. cbn [negb].
  rewrite bind_get. unfold blockInit. rewrite bind_run, bind_get.
  change (w_flags (at_world w wd)) with (w_flags w). change (w_filters (at_world w wd)) with (w_filters w).
  change (w_chunkSize (at_world w wd)) with (w_chunkSize w). change (w_maxSize (at_world w wd)) with (w_maxSize w).
  fold (start_block w). destruct (alloc_block_run wd (start_block w)) as (l & wd1 & R1 & B1 & P1 & M1).
  rewrite (on_world_run _ _ _ _ _ R1).
  destruct (on_block_run wd1 l (start_block w) HeaderSize B1) as (wd2 & R2 & B2 & P2 & M2).
  destruct (HeaderSize (start_block w)) as [o b] eqn:Eh. cbn [fst snd] in R2, B2.
  assert (exists h err, o = Ret (h, err)) as (h & err & ->).
  { rewrite HeaderSize_spec in Eh. destruct (lzma_block_header_size _) as [ret size].
    case_match; injection Eh as <- <-; eauto. }
  rewrite (bind_on_world _ _ _ _ _ _ R2). cbv beta iota. rewrite Panic_spec.
  destruct err as [e|].
  { do 2 eexists. split; [reflexivity|]. split; [left; by eexists|]. split; [|split].
    - exists chunk. eapply src_line_pipes; [|done]. congruence.
    - exists p. rewrite P2, P1. split; [done|]. split; apply Hl.
    - by eapply mem_keeps_trans. }
  rewrite bind_call.
  destruct (HeaderSize_ok _ _ _ Eh) as [Es Hbh]. destruct (header_size_range _ _ Es) as [Hr _].
  pose proof block_header_bounds as Hbb. pose proof (sized_chunk w Hsz). pose proof (sized_max w Hsz).
  assert (Hp2 : pipes wd2 !! d = Some p) by (by rewrite P2, P1).
  unfold upd_pipe. rewrite (bind_on_world _ _ _ _ _ _ (on_pipe_run wd2 d p _ Hp2)). cbn [fst snd].
  destruct (line_of_skip _ _ _ _ _ h Hl) as (junk & Hj & Hl3); [change (zlen (@nil Z)) with 0; lia|]. cbn [app] in Hl3.
  set (wd3 := set_pipes _ wd2). assert (B3 : get_block wd3 l = Some b) by done.
  rewrite (bind_on_world (Block_NewStreamEncoder l) _ w wd3 _ wd3 eq_refl).
  unfold stream_of. destruct (lzma_block_encoder (mem wd3) l) as [ret c0] eqn:Ec. cbn [fst snd].
  unfold NewError. destruct (Z.eqb_spec ret OK) as [->|Hret].
  - set (z := foldl _ _ _). assert (Hz : coder z = c0) by done. rewrite Panic_nil. fold (GetHeaderSize b) in Hbh.
    destruct (block_body_run fuel w wd3 z b l d s scap junk chunk) as (o & z' & wd' & Hrun & Ho); try done.
    + by rewrite Eh, Hbh.
    + congruence.
    + exists (bp_WriteMark p h). split; [unfold wd3; cbn; by rewrite lookup_insert_eq|done].
    + eapply src_line_frame; [|done]. unfold wd3. cbn. by rewrite lookup_insert_ne, P2, P1.
    + exists o, wd'. rewrite <- Hbh. split; [by apply with_stream_defer with (z' := z')|].
      assert (Hm3 : mem_keeps (mem wd) (mem wd3)) by (eapply mem_keeps_trans; [exact M1|exact M2]).
      destruct o as [[u c]|p'|]; [|destruct Ho as (He & Ha1 & Ha2 & Ha3); split; [done|]; split; [done|];
        split; [done|by eapply mem_keeps_trans]|done]. destruct Ho as (b0 & bytes & O1 & O2 & O3 & O4 & O5 & O6).
      exists b0, bytes. split_and!; try done.
      * eapply mem_keeps_trans; [exact M1|]. by eapply mem_keeps_trans.
      * intros k Hk1 Hk2. rewrite O6 by done. unfold wd3. cbn. by rewrite lookup_insert_ne, P2, P1.
  - exists (Pan (PRun NilDereference)), wd3. rewrite Panic_err. split; [done|].
    split; [right; split; [done|]; exists (mem wd3), l; by rewrite Ec|]. split; [|split].
    + exists chunk. eapply src_line_frame; [|done]. unfold wd3. cbn. by rewrite lookup_insert_ne, P2, P1.
    + eapply dst_open. exists (bp_WriteMark p h). split; [unfold wd3; cbn; by rewrite lookup_insert_eq|done].
    + eapply mem_keeps_trans; [exact M1|exact M2].
Qed.

End block.
