(* ===== verification/WriterSync.v ===== *)
(** The synchronous xz writer as a whole: the file that a session of [Write]s and
    a [Close] leaves in the underlying writer. *)

From S2P Require Import Prelude Bufpipe Lines Errs Liblzma SmallLzma Lib XzConst Literal World LibIndex.
From S2P Require Import Stream StreamPump PipePump Ioutil Writer WriterBlock.

Section sync.
Context {BP : Bufpipe} {L : Liblzma} {E : Errs} {IU : Ioutil} {W : Type} {IW : IoWriter W}.
Context {BS : BufpipeSpec BP} {LS : LiblzmaSpec L} {ES : ErrsSpec E} {LI : LiblzmaIdle L}.
#[local] Abbreviation src_line := (@PipePump.src_line BP L LineMono).

(** * Traces *)

(** One successful [Write] call, and several. *)
Definition wrote (wr : W) (bs : list Z) (wr' : W) : Prop := exists n, wr_Write wr bs = ((n, None), wr').

Inductive wrote_all : W -> list (list Z) -> W -> Prop :=
| wrote_nil wr : wrote_all wr [] wr
| wrote_cons wr bs wr1 bss wr2 : wrote wr bs wr1 -> wrote_all wr1 bss wr2 -> wrote_all wr (bs :: bss) wr2.

Lemma wrote_app wr a wr1 b wr2 : wrote_all wr a wr1 -> wrote_all wr1 b wr2 -> wrote_all wr (a ++ b) wr2.
Proof. induction 1; intros Hb; [done|]. econstructor; eauto. Qed.

(** A block of the file: the chunk, its bytes, and the two sizes in the index. *)
Record blk : Type := Blk { k_chunk : list Z; k_bytes : list Z; k_unpad : Z; k_uncomp : Z }.

(** The index after [lzma_index_append] of every block. *)
Inductive indexed : lzma_index -> list blk -> lzma_index -> Prop :=
| indexed_nil i : indexed i [] i
| indexed_cons i k i1 ks i2 :
    lzma_index_append i (uint64 (k_unpad k)) (uint64 (k_uncomp k)) = (OK, i1) ->
    indexed i1 ks i2 -> indexed i (k :: ks) i2.

Lemma indexed_app i a i1 b i2 : indexed i a i1 -> indexed i1 b i2 -> indexed i (a ++ b) i2.
Proof. induction 1; intros Hb; [done|]. econstructor; eauto. Qed.

(** * The state between two calls *)

(** The index of the writer, in the memory. *)
Definition index_at (w : Writer W) (i : lzma_index) : Prop :=
  exists a, cm_ixptr (mem (w_world w)) !! w_index w = Some (Some a) /\
    cm_index (mem (w_world w)) !! a = Some i.

(** A writer with blocks whose input buffer holds [buf]. *)
Record sync_ok (w : Writer W) (buf : list Z) (i : lzma_index) : Prop := {
  sy_sized : sized w;
  sy_sync : w_maxWorkers w = WorkersSync;
  sy_bufs : exists s d p, w_rdBuf w = Some s /\ w_wrBuf w = Some d /\ s <> d /\
    pipes (w_world w) !! s = Some p /\ line p (w_chunkSize w) false 0 buf /\
    dst_line (w_world w) d (w_maxSize w) [];
  sy_index : index_at w i;
}.

(** What a block of the file must be. *)
Definition block_ok (w : Writer W) (k : blk) : Prop :=
  exists b, HeaderSize (start_block w) = (Ret (GetHeaderSize b, None), b) /\
    encoded (GetCheck (w_flags w)) b (w_maxSize w) (k_chunk k) (k_bytes k) (k_unpad k) (k_uncomp k).

(** From [w] to [w'], the blocks [ks] were written and indexed; nothing else of
    the writer changed. *)
Record emitted (w : Writer W) (i : lzma_index) (ks : list blk) (w' : Writer W) (i' : lzma_index) : Prop := {
  em_config : w' = set_wr_world (w_wr w') (w_world w') w;
  em_wrote : wrote_all (w_wr w) (map k_bytes ks) (w_wr w');
  em_index : indexed i ks i';
  em_blocks : Forall (block_ok w) ks;
}.

Lemma emitted_nil w i : emitted w i [] w i.
Proof. split; [by destruct w|constructor|constructor|constructor]. Qed.

Lemma emitted_trans w i a w1 i1 b w2 i2 :
  emitted w i a w1 i1 -> emitted w1 i1 b w2 i2 -> emitted w i (a ++ b) w2 i2.
Proof.
  intros [A1 A2 A3 A4] [B1 B2 B3 B4]. split.
  - rewrite B1, A1. by destruct w.
  - rewrite map_app. by eapply wrote_app.
  - by eapply indexed_app.
  - apply Forall_app. split; [done|]. eapply Forall_impl; [exact B4|]. intros k Hk.
    unfold block_ok in *. rewrite A1 in Hk. exact Hk.
Qed.

(** * One block *)

Lemma index_append_run (wd : world) ix a i u c :
  cm_ixptr (mem wd) !! ix = Some (Some a) -> cm_index (mem wd) !! a = Some i ->
  Index_Append ix u c wd =
  (Ret (NewError (lzma_index_append i (uint64 u) (uint64 c)).1),
   set_mem (CMem (cm_block (mem wd)) (<[a := (lzma_index_append i (uint64 u) (uint64 c)).2]> (cm_index (mem wd)))
                 (cm_ixptr (mem wd))) wd).
Proof.
  intros Hp Hi. unfold Index_Append, c_update. rewrite (bind_ret _ _ _ (Some a) wd).
  2: { unfold ptr. rewrite bind_get, Hp. done. }
  rewrite (bind_ret _ _ _ (a, i) wd).
  2: { unfold c_index. rewrite bind_get, Hi. done. }
  cbv beta iota. by destruct (lzma_index_append i (uint64 u) (uint64 c)).
Qed.

(** How a block can fail. *)
Definition block_panic (p : panicval) : Prop :=
  (exists e, p = PErr (Some e)) \/ (p = PRun NilDereference /\ exists m l, (lzma_block_encoder m l).1 <> OK).

(** [on_world] on a writer whose underlying writer moved on. *)
Lemma on_world_at {A} (m : M world A) (w : Writer W) wr wd o wd' :
  m wd = (o, wd') -> on_world m (set_wr_world wr wd w) = (o, set_wr_world wr wd' w).
Proof. intros H. unfold on_world, zoom. cbn. by rewrite H. Qed.

(** The end of [blockEncodeSync]: the pipe is closed, written out and reset. *)
Lemma flush_run (w : Writer W) wd d cap bytes :
  dst_line wd d cap bytes ->
  exists o wr' wd',
    (on_world (upd_pipe (Some d) bp_Close);;
     with_defer (on_world (upd_pipe (Some d) bp_Reset)) (
       r ← on_world (of_pipe (Some d) bp_ReadSlices);
       let '(data, _, _) := r in
       err ← write_out data;
       call (errs_Panic err))) (at_world w wd) = (o, set_wr_world wr' wd' w) /\
    mem wd' = mem wd /\ pipes_but d wd wd' /\ dst_line wd' d cap [] /\
    match o with
    | Ret _ => wrote (w_wr w) bytes wr'
    | Pan p => exists e, p = PErr (Some e)
    | NoFuel => False
    end.
Proof.
  intros (p & Hp & Hl). rewrite (bind_on_world _ _ _ _ _ _ (upd_bufpipe_run wd d p _ Hp)).
  set (wd1 := set_pipes _ wd). pose proof (line_of_close _ _ _ _ _ Hl) as Hc.
  assert (Hp1 : pipes wd1 !! d = Some (bp_Close p)) by (cbn; by rewrite lookup_insert_eq).
  destruct (wr_Write (w_wr w) bytes) as [[n err] wr'] eqn:Ew.
  unfold with_defer. rewrite (bind_on_world _ _ _ _ _ _ (of_pipe_run wd1 d _ _ Hp1)), (line_of_read_slices _ _ _ _ Hc).
  cbv beta iota. rewrite drop_0, bind_run. unfold write_out at 1. cbn [w_wr at_world set_wr_world]. rewrite Ew.
  set (wd2 := set_pipes (<[d := bp_Reset (bp_Close p)]> (pipes wd1)) wd1).
  assert (Hreset : on_world (upd_pipe (Some d) bp_Reset) (set_wr_world wr' wd1 w) =
    (Ret tt, set_wr_world wr' wd2 w)) by (apply on_world_at, (upd_bufpipe_run wd1 d _ _ Hp1)).
  change (w_world (at_world w wd1)) with wd1.
  change (set_wr_world wr' wd1 (at_world w wd1)) with (set_wr_world wr' wd1 w).
  exists (errs_Panic err), wr', wd2. unfold call. rewrite Panic_spec.
  split; [destruct err; by rewrite Hreset|]. split; [done|]. split; [|split].
  - intros k Hk. cbn. by rewrite !lookup_insert_ne.
  - exists (bp_Reset (bp_Close p)). cbn. rewrite lookup_insert_eq. split; [done|]. by eapply line_of_reset.
  - destruct err as [e|]; [by eexists|]. by exists n.
Qed.

(** Enough fuel for one block. *)
Definition block_fuel (w : Writer W) : nat := pipe_fuel (w_maxSize w) (w_chunkSize w).

Lemma sized_same (w : Writer W) wr wd : sized w -> sized (set_wr_world wr wd w).
Proof. intros [H1 H2]. by split. Qed.

Lemma blockEncodeSync_run fuel (w : Writer W) buf i :
  sync_ok w buf i ->
  match blockEncodeSync fuel w with
  | (Ret _, w') => exists k i', k_chunk k = buf /\ emitted w i [k] w' i' /\ sync_ok w' [] i'
  | (Pan p, _) => block_panic p
  | (NoFuel, _) => (fuel < block_fuel w)%nat
  end.
Proof.
  intros [Hsz Hw (s & d & q & Hs & Hd & Hne & Hq & Hlq & Hdst) (a & Hpa & Hia)].
  assert (Hat : blockEncodeSync fuel w = blockEncodeSync fuel (at_world w (w_world w))) by (by rewrite at_world_id).
  rewrite Hat. set (wd := w_world w) in *. unfold blockEncodeSync. rewrite bind_get.
  change (w_rdBuf (at_world w wd)) with (w_rdBuf w). change (w_wrBuf (at_world w wd)) with (w_wrBuf w).
  change (w_index (at_world w wd)) with (w_index w). rewrite Hs, Hd.
  rewrite (bind_on_world _ _ _ _ _ _ (upd_bufpipe_run wd s q _ Hq)). set (wd1 := set_pipes _ wd).
  assert (Hsrc1 : src_line wd1 s (w_chunkSize w) buf buf).
  { exists (bp_Close q), 0. unfold wd1. cbn. rewrite lookup_insert_eq. split_and!; [done|by eapply line_of_close|done]. }
  assert (Hdst1 : dst_line wd1 d (w_maxSize w) []).
  { destruct Hdst as (p & Hp & Hl). exists p. unfold wd1. cbn. by rewrite lookup_insert_ne. }
  destruct (line_bounds _ _ _ _ _ Hlq) as [_ Hlen].
  destruct (blockEncode_run fuel (at_world w wd1) d s (w_chunkSize w) buf (sized_same _ _ _ Hsz) Hlen Hne Hdst1 Hsrc1)
    as (o & wd2 & Hrun & Hout). change (at_world (at_world w wd1) wd2) with (at_world w wd2) in Hrun.
  unfold with_defer at 1. rewrite bind_run, Hrun.
  assert (Hreset : forall wr wd3, (exists rest, src_line wd3 s (w_chunkSize w) buf rest) ->
    exists wd4, on_world (upd_pipe (Some s) bp_Reset) (set_wr_world wr wd3 w) = (Ret tt, set_wr_world wr wd4 w) /\
      mem wd4 = mem wd3 /\ pipes_but s wd3 wd4 /\
      exists p, pipes wd4 !! s = Some p /\ line p (w_chunkSize w) false 0 []).
  { intros wr wd3 (rest & p & r & Hp & Hl & _). eexists.
    split; [apply on_world_at, (upd_bufpipe_run wd3 s p _ Hp)|]. split; [done|]. split.
    - intros k Hk. cbn. by rewrite lookup_insert_ne.
    - exists (bp_Reset p). cbn. rewrite lookup_insert_eq. split; [done|]. by eapply line_of_reset. }
  destruct o as [[u c]|p|]; [| |done].
  2: { destruct Hout as (Hp & Hsrc & _). destruct (Hreset (w_wr w) wd2 Hsrc) as (wd4 & Hr & _).
       unfold at_world. by rewrite Hr. }
  destruct Hout as (b & bytes & Hh & Henc & Hdst2 & Hsrc2 & [Hk1 Hk2] & Hfr).
  assert (Hpa2 : cm_ixptr (mem wd2) !! w_index w = Some (Some a)) by (by rewrite Hk1).
  assert (Hia2 : cm_index (mem wd2) !! a = Some i) by (by apply Hk2).
  pose proof (index_append_run wd2 (w_index w) a i u c Hpa2 Hia2) as Happ.
  rewrite (bind_on_world _ _ _ _ _ _ Happ). set (wd3 := set_mem _ wd2).
  assert (Hsrc3 : exists rest, src_line wd3 s (w_chunkSize w) buf rest) by done.
  destruct (lzma_index_append i (uint64 u) (uint64 c)) as [ret i'] eqn:Ei. cbn [fst].
  rewrite Panic_spec. unfold NewError. destruct (Z.eqb_spec ret OK) as [->|Hret].
  2: { destruct (Hreset (w_wr w) wd3 Hsrc3) as (wd4 & Hr & _). unfold at_world. rewrite bind_run. cbn.
       rewrite Hr. left. by eexists. }
  rewrite bind_call. destruct (flush_run w wd3 d (w_maxSize w) bytes Hdst2) as (o & wr' & wd4 & Hf & Hm4 & Hb4 & Hd4 & Ho4).
  rewrite Hf.
  assert (Hsrc4 : exists rest, src_line wd4 s (w_chunkSize w) buf rest).
  { destruct Hsrc3 as (rest & Hsrc3). exists rest. eapply src_line_frame; [by apply Hb4|done]. }
  destruct (Hreset wr' wd4 Hsrc4) as (wd5 & Hr & Hm5 & Hb5 & Hs5). rewrite Hr.
  destruct o as [[]|p|]; [|by left|done].
  exists (Blk buf bytes u c), i'. split; [done|]. split.
  - split; [by destruct w| | |].
    + cbn. econstructor; [done|constructor].
    + econstructor; [exact Ei|constructor].
    + constructor; [|constructor]. by exists b.
  - split; [by apply sized_same|done| |].
    + destruct Hs5 as (p & Hp & Hl). exists s, d, p. split_and!; try done. cbn.
      destruct Hd4 as (p' & Hp' & Hl'). exists p'. by rewrite Hb5.
    + exists a. cbn. rewrite Hm5, Hm4. cbn. by rewrite lookup_insert_eq.
Qed.

(** * Write *)

(** The chunks of the blocks [ks], one after the other. *)
Definition chunks (ks : list blk) : list Z := concat (map k_chunk ks).

Lemma chunks_app a b : chunks (a ++ b) = chunks a ++ chunks b.
Proof. unfold chunks. by rewrite map_app, concat_app. Qed.

(** The bytes [xs] go to the input buffer, as many as fit. *)
Lemma buffer_run (w : Writer W) buf i xs :
  sync_ok w buf i ->
  let n := Z.min (zlen xs) (w_chunkSize w - zlen buf) in
  exists wd', on_world (on_pipe (w_rdBuf w) (fun p => bp_Write p xs)) w =
    (Ret (n, if n <? zlen xs then Some ErrShortWrite else None), at_world w wd') /\
    sync_ok (at_world w wd') (buf ++ take (Z.to_nat n) xs) i /\ 0 <= n <= zlen xs.
Proof.
  intros [Hsz Hw (s & d & q & Hs & Hd & Hne & Hq & Hlq & Hdst) Hix] n.
  destruct (line_of_write _ _ _ _ xs Hlq) as (q' & Ew & Hlq'). fold n in Ew, Hlq'.
  pose proof (on_pipe_run (w_world w) s q (fun p => bp_Write p xs) Hq) as Hrun. cbv beta in Hrun. rewrite Ew in Hrun.
  cbn [fst snd] in Hrun. rewrite Hs. eexists. split; [|split].
  - rewrite <- (at_world_id w) at 1. by apply on_world_run.
  - split; [by apply sized_same|done| |done].
    exists s, d, q'. split_and!; try done; [cbn; by rewrite lookup_insert_eq|].
    destruct Hdst as (p & Hp & Hl). exists p. cbn. by rewrite lookup_insert_ne.
  - destruct (line_bounds _ _ _ _ _ Hlq). pose proof (zlen_nonneg xs). lia.
Qed.

(** How many more turns the loop of [write_blocks] makes at most. *)
Definition turns (w : Writer W) (buf : list Z) (left : Z) : nat :=
  Z.to_nat left + (if (0 <? left) && (w_chunkSize w <=? zlen buf) then 2 else 1).

Lemma write_blocks_run fuel data : forall w buf i cnt,
  sync_ok w buf i -> 0 <= cnt <= zlen data ->
  match write_blocks fuel data (w, cnt) with
  | (Ret _, (w', cnt')) => exists ks i' buf',
      emitted w i ks w' i' /\ sync_ok w' buf' i' /\ cnt' = zlen data /\
      buf ++ drop (Z.to_nat cnt) data = chunks ks ++ buf' /\
      Forall (fun k => zlen (k_chunk k) = w_chunkSize w) ks
  | (Pan p, (_, cnt')) => block_panic p /\ cnt <= cnt' <= zlen data
  | (NoFuel, _) => (fuel < block_fuel w + turns w buf (zlen data - cnt))%nat
  end.
Proof.
  induction fuel as [|fuel IH]; intros w buf i cnt Hok Hcnt; [cbn; unfold turns; case_match; lia|]. cbn [write_blocks].
  rewrite bind_get. cbv beta iota. destruct (Z.ltb_spec cnt (zlen data)) as [Hlt|Hge].
  2: { exists [], i, buf. split; [apply emitted_nil|]. split_and!; [done|lia| |done].
       rewrite drop_ge by (unfold zlen in *; lia). by rewrite app_nil_r. }
  assert (Hdrop : zdrop data cnt = Some (drop (Z.to_nat cnt) data)).
  { unfold zdrop. rewrite (proj2 (Z.leb_le _ _)), (proj2 (Z.leb_le _ _)) by lia. done. }
  rewrite Hdrop. cbn [index_or]. rewrite bind_mret. set (rest := drop (Z.to_nat cnt) data) in *.
  assert (Hrest : zlen rest = zlen data - cnt) by (apply zlen_drop; lia).
  destruct (buffer_run w buf i rest Hok) as (wd & Hrun & Hok1 & Hn). set (n := Z.min _ _) in *.
  rewrite bind_run. unfold on_w at 1. rewrite Hrun. cbv beta iota. rewrite bind_run. unfold modify at 1. cbv beta iota.
  set (buf1 := buf ++ take (Z.to_nat n) rest) in *.
  assert (Hem : emitted w i [] (at_world w wd) i) by (split; [done|constructor..]).
  assert (Hcut : rest = take (Z.to_nat n) rest ++ drop (Z.to_nat (cnt + n)) data).
  { unfold rest at 2. rewrite Z2Nat.inj_add, <- drop_drop by lia. fold rest. by rewrite take_drop. }
  destruct (Z.ltb_spec n (zlen rest)) as [Hshort|Hall].
  - (* the chunk is full *)
    assert (Hfull : zlen buf1 = w_chunkSize w) by (unfold buf1; rewrite zlen_app, zlen_take; lia).
    rewrite decide_True by done. rewrite bind_run. unfold on_w at 1.
    pose proof (blockEncodeSync_run (S fuel) _ _ _ Hok1) as Hblk.
    destruct (blockEncodeSync (S fuel) (at_world w wd)) as [[[]|p|] w1];
      [|split; [done|lia]|unfold block_fuel in *; cbn in Hblk |- *; lia].
    destruct Hblk as (k & i1 & Hk & Hem1 & Hok2). rewrite Ignore_spec, decide_True, Panic_nil, bind_call by set_solver.
    specialize (IH w1 [] i1 (cnt + n) Hok2 ltac:(lia)).
    destruct (write_blocks fuel data (w1, cnt + n)) as [[[]|p|] [w2 cnt2]]; [|destruct IH; split; [done|lia]|].
    2: { rewrite (em_config _ _ _ _ _ Hem1) in IH. unfold block_fuel, turns in *. cbn [w_maxSize w_chunkSize set_wr_world at_world] in IH.
         change (zlen (@nil Z)) with 0 in IH. pose proof (sized_chunk _ (sy_sized _ _ _ Hok)). destruct (Z.leb_spec (w_chunkSize w) 0) in IH; [lia|].
         rewrite andb_false_r in IH. destruct (Z.ltb_spec 0 (zlen data - cnt)); [|lia].
         destruct (Z.leb_spec (w_chunkSize w) (zlen buf)); cbn [andb]; lia. }
    destruct IH as (ks & i2 & buf' & Hem2 & Hok3 & -> & Hdata & Hks).
    exists (k :: ks), i2, buf'. split; [exact (emitted_trans _ _ _ _ _ _ _ _ Hem (emitted_trans _ _ _ _ _ _ _ _ Hem1 Hem2))|].
    split; [done|]. split; [done|]. split.
    + cbn in Hdata. unfold chunks. cbn. rewrite Hk. unfold buf1. rewrite <- !app_assoc. f_equal.
      rewrite Hcut at 1. f_equal. exact Hdata.
    + constructor; [by rewrite Hk|]. rewrite (em_config _ _ _ _ _ Hem1) in Hks. exact Hks.
  - rewrite decide_False by done. rewrite bind_mret, Ignore_nil, Panic_nil, bind_call.
    specialize (IH _ buf1 i (cnt + n) Hok1 ltac:(lia)).
    destruct (write_blocks fuel data (at_world w wd, cnt + n)) as [[[]|p|] [w2 cnt2]];
      [|destruct IH; split; [done|lia]|].
    2: { unfold block_fuel, turns in *. cbn [w_maxSize w_chunkSize set_wr_world at_world] in IH.
         rewrite (proj2 (Z.ltb_ge _ _)) in IH by lia. cbn [andb] in IH. case_match; lia. }
    destruct IH as (ks & i2 & buf' & Hem2 & Hok3 & -> & Hdata & Hks). exists ks, i2, buf'.
    split; [exact (emitted_trans _ _ _ _ _ _ _ _ Hem Hem2)|]. split_and!; try done.
    rewrite <- Hdata. unfold buf1. rewrite <- app_assoc. f_equal. exact Hcut.
Qed.

(** Enough fuel for a [Write]. *)
Definition write_fuel (w : Writer W) (data : list Z) : nat := block_fuel w + length data + 2.

(** A [Write] of the synchronous writer with blocks. *)
Lemma Write_run fuel data w buf i :
  sync_ok w buf i -> w_closed w = false ->
  match Write fuel data w with
  | (Ret (n, None), w') => exists ks i' buf',
      n = zlen data /\ emitted w i ks w' i' /\ sync_ok w' buf' i' /\ buf ++ data = chunks ks ++ buf' /\
      Forall (fun k => zlen (k_chunk k) = w_chunkSize w) ks
  | (Ret (n, Some _), _) => 0 <= n <= zlen data
  | (Pan p, _) => block_panic p /\ (forall e, p <> PErr (Some e))
  | (NoFuel, _) => (fuel < write_fuel w data)%nat
  end.
Proof.
  intros Hok Ho. pose proof (sized_chunk _ (sy_sized _ _ _ Hok)) as Hcs. pose proof (zlen_nonneg data) as Hz.
  unfold Write, with_recover. rewrite bind_get. cbn [fst]. rewrite Ho.
  unfold write_sync. rewrite bind_get. cbv beta iota.
  rewrite (proj2 (Z.eqb_neq _ _)) by (unfold ChunkStream; lia). rewrite bind_run.
  pose proof (write_blocks_run fuel data w buf i 0 Hok ltac:(lia)) as H.
  destruct (write_blocks fuel data (w, 0)) as [[[]|p|] [w' cnt]]; [|destruct H as [H1 H2]|].
  3: { unfold turns, write_fuel, zlen in *. cbn. case_match; lia. }
  - destruct H as (ks & i' & buf' & H1 & H2 & -> & H3 & H4). rewrite bind_get. cbn. eauto 10.
  - destruct H1 as [[e ->]|[-> Hl]]; [rewrite Recover_err; cbn; lia|].
    destruct (errs_Recover (PRun NilDereference) None) as [[e|]|] eqn:Er; cbn; [lia| |].
    + by apply Recover_run in Er.
    + split; [right; eauto|done].
Qed.

(** C12: One block. On a writer whose input buffer holds a chunk (at most the
    chunk size), [blockEncodeSync] with enough fuel ends. When it returns, one
    [Write] of the underlying writer carried the block: the compressed block
    with its header in front, when that fits the literal size, and else the
    literal block of the whole chunk; the index got the two sizes of that block;
    and the writer is ready for the next chunk, its buffers reset. Otherwise it
    panics with an error, or with the nil dereference of the deferred
    [stream.End] when liblzma gave no block encoder. *)
Theorem blockEncodeSync_emits fuel (w : Writer W) buf i :
  sync_ok w buf i -> (block_fuel w <= fuel)%nat ->
  match blockEncodeSync fuel w with
  | (Ret _, w') => exists k i', k_chunk k = buf /\ emitted w i [k] w' i' /\ sync_ok w' [] i'
  | (Pan p, _) => block_panic p
  | (NoFuel, _) => False
  end.
Proof.
  intros Hok Hf. pose proof (blockEncodeSync_run fuel w buf i Hok) as H.
  destruct (blockEncodeSync fuel w) as [[]  ?]; [done|done|lia].
Qed.

(** C14: [Write] keeps the invariant of the writer. With enough fuel it ends; a
    nil error comes with the full count, the data joined the buffered bytes,
    every full chunk of them was emitted as a block and what is left is
    buffered; an error comes with a count within the data. *)
Theorem Write_cuts fuel data w buf i :
  sync_ok w buf i -> w_closed w = false -> (write_fuel w data <= fuel)%nat ->
  match Write fuel data w with
  | (Ret (n, None), w') => exists ks i' buf',
      n = zlen data /\ emitted w i ks w' i' /\ sync_ok w' buf' i' /\ buf ++ data = chunks ks ++ buf' /\
      Forall (fun k => zlen (k_chunk k) = w_chunkSize w) ks
  | (Ret (n, Some _), _) => 0 <= n <= zlen data
  | (Pan p, _) => block_panic p /\ (forall e, p <> PErr (Some e))
  | (NoFuel, _) => False
  end.
Proof.
  intros Hok Ho Hf. pose proof (Write_run fuel data w buf i Hok Ho) as H.
  destruct (Write fuel data w) as [[[n e]| |] ?]; [done|done|lia].
Qed.

End sync.
