(* ===== verification/WriterNew.v ===== *)
(** The constructors of the xz writer: the state that [NewWriterCustom] sets up,
    the header it writes, and the argument it refuses. *)

From S2P Require Import Prelude Bufpipe Lines Errs Liblzma SmallLzma Lib XzConst Literal World LibIndex.
From S2P Require Import Stream StreamPump PipePump Ioutil Writer WriterBlock WriterSync.

Section new.
Context {BP : Bufpipe} {L : Liblzma} {E : Errs} {IU : Ioutil} {W : Type} {IW : IoWriter W}.
Context {BS : BufpipeSpec BP} {LS : LiblzmaSpec L} {ES : ErrsSpec E} {LI : LiblzmaIdle L}.

(** * Inversion of computations *)

Lemma bind_rets {S A B} (m : M S A) (k : A -> M S B) s b s' :
  (m ≫= k) s = (Ret b, s') -> exists a s1, m s = (Ret a, s1) /\ k a s1 = (Ret b, s').
Proof. rewrite bind_run. destruct (m s) as [[a|q|] s1]; intros H; [eauto|done|done]. Qed.

Lemma Panic_rets {S B} e (k : unit -> M S B) s b s' :
  (call (errs_Panic e) ≫= k) s = (Ret b, s') -> e = None /\ k tt s = (Ret b, s').
Proof. rewrite bind_run. unfold call. rewrite Panic_spec. by destruct e. Qed.

Lemma local_rets {S A B C} (b : B) (m : M B A) (k : A * B -> M S C) s c s' :
  (on_local b m ≫= k) s = (Ret c, s') -> exists a b', m b = (Ret a, b') /\ k (a, b') s = (Ret c, s').
Proof.
  intros (r & s1 & H & Hk)%bind_rets. revert H. unfold on_local. destruct (m b) as [[a|p|] b'] eqn:Em; [|done|done].
  intros [= <- <-]. eauto.
Qed.

(** * The arguments *)

Lemma clamp_chunk_range cs : 0 <= cs -> ChunkLowest <= clamp_chunk cs <= ChunkHighest.
Proof.
  intros H. unfold clamp_chunk. assert (65536 = ChunkLowest /\ 2 ^ 30 = ChunkHighest) as [<- <-] by done.
  rewrite (proj2 (Z.ltb_ge _ _)), (proj2 (Z.leb_le _ _)) by lia. cbn [andb].
  destruct (Z.ltb_spec cs 65536); [lia|]. destruct (Z.ltb_spec (2 ^ 30) cs); lia.
Qed.

Lemma clamp_chunk_neg cs : cs < 0 -> clamp_chunk cs = ChunkStream.
Proof. intros H. unfold clamp_chunk. by rewrite (proj2 (Z.ltb_lt _ _)). Qed.

(** The flags of a file with the check [check], and its header. *)
Definition file_flags (check : Z) : StreamFlags := (SetCheck check NewStreamFlags).2.

Lemma file_flags_check check : supported check = true -> GetCheck (file_flags check) = check.
Proof.
  exact (supported_uint32 check).
Qed.

Lemma NewIndex_rets (wd wd' : world) ix e :
  NewIndex wd = (Ret (ix, e), wd') -> e = None ->
  exists l a, ix = Some l /\ cm_ixptr (mem wd') !! l = Some (Some a) /\
    cm_index (mem wd') !! a = Some lzma_index_empty.
Proof.
  unfold NewIndex, c_alloc. rewrite bind_run, bind_get. destruct (lzma_alloc (mem wd)) as [a|].
  - rewrite bind_run. unfold set_index, modify, mret, M_ret. cbv beta iota.
    unfold new_Index. rewrite bind_run, bind_get. intros [= <- <- <-] _. eexists _, a. cbn.
    by rewrite !lookup_insert_eq.
  - intros [= <- <- <-] H. apply NewError_nil, error_code_not_ok in H; [done|done|]. unfold lzma_rets. set_solver.
Qed.

(** * What a new writer is *)
Record opened (cs check : Z) (wr : W) (w : Writer W) : Prop := {
  op_sync : sync_ok w [] lzma_index_empty;
  op_open : w_closed w = false;
  op_chunk : w_chunkSize w = clamp_chunk cs;
  op_flags : w_flags w = file_flags check;
  op_check : supported check = true;
  op_header : exists hdr, lzma_stream_header_encode (file_flags check) = (OK, hdr) /\ wrote wr hdr (w_wr w);
}.

(** The object before its mode is set up. *)
Record configured (cs check mw : Z) (wr : W) (w : Writer W) : Prop := {
  cf_sized : sized w;
  cf_workers : w_maxWorkers w = clamp_workers mw;
  cf_index : index_at w lzma_index_empty;
  cf_open : w_closed w = false;
  cf_chunk : w_chunkSize w = clamp_chunk cs;
  cf_flags : w_flags w = file_flags check;
  cf_check : supported check = true;
  cf_header : exists hdr, lzma_stream_header_encode (file_flags check) = (OK, hdr) /\ wrote wr hdr (w_wr w);
}.

(** The two buffers of the synchronous mode. *)
Lemma start_modes_run (w : Writer W) :
  sized w -> w_maxWorkers w = WorkersSync -> index_at w lzma_index_empty ->
  exists s d wd', start_modes w = (Ret tt, set_bufs (Some s) (Some d) (at_world w wd')) /\
    sync_ok (set_bufs (Some s) (Some d) (at_world w wd')) [] lzma_index_empty.
Proof.
  intros Hsz Hw Hix. pose proof (sized_chunk w Hsz) as Hc. pose proof (sized_max w Hsz) as Hm.
  unfold start_modes. rewrite bind_get, Hw. cbn [negb Z.eqb WorkersSync].
  rewrite (proj2 (Z.eqb_neq _ _)) by (unfold ChunkStream; lia). cbn [negb]. rewrite bind_run.
  destruct (alloc_pipe_run (w_world w) (NewBufferPipe (make_slice (w_chunkSize w)) LineMono)) as (s & Hs & _).
  set (wd1 := set_pipes _ _) in Hs.
  destruct (alloc_pipe_run wd1 (NewBufferPipe (make_slice (w_maxSize w)) LineMono)) as (d & Hd & Hfr).
  set (wd2 := set_pipes _ wd1) in Hd.
  pose proof (on_world_run _ w _ _ _ Hs) as Hs'. rewrite at_world_id in Hs'.
  pose proof (on_world_run _ w _ _ _ Hd) as Hd'.
  exists s, d, wd2. split.
  { rewrite (bind_ret _ _ _ _ _ Hs'), (bind_ret _ _ _ _ _ Hd'). unfold modify. cbv beta iota. done. }
  assert (Hne : s <> d).
  { intros <-. unfold wd1 in Hfr. cbn in Hfr. by rewrite lookup_insert_eq in Hfr. }
  split; [by destruct Hsz as [Z1 Z2]; split|done| |done].
  exists s, d, (NewBufferPipe (make_slice (w_chunkSize w)) LineMono). split_and!; try done.
  - unfold wd2, wd1. cbn. rewrite lookup_insert_ne by done. by rewrite lookup_insert_eq.
  - by apply (line_of_new (make_slice (w_chunkSize w))), make_slice_wf; lia.
  - exists (NewBufferPipe (make_slice (w_maxSize w)) LineMono). unfold wd2. cbn. rewrite lookup_insert_eq. split; [done|].
    by apply (line_of_new (make_slice (w_maxSize w))), make_slice_wf; lia.
Qed.

Lemma recovered_some {S A} (m : M S (option A * error)) s a e s' :
  with_recover (fun _ => None) m s = (Ret (Some a, e), s') -> m s = (Ret (Some a, e), s').
Proof.
  unfold with_recover. destruct (m s) as [[r|p|] s1]; [done| |done]. by destruct (errs_Recover p None).
Qed.

Lemma literalBlockSize_unit {S} check n (s : S) :
  literalBlockSize check n s = ((literalBlockSize (S:=unit) check n tt).1, s).
Proof.
  unfold literalBlockSize. rewrite !bind_run, !checkSupport_spec. destruct (supported check); [|done].
  cbv beta iota. rewrite !bind_run. unfold on_local. destruct (HeaderSize _) as [[[h err]|p|] b']; [|done|done].
  cbv beta iota. cbn [fst]. rewrite !bind_run. unfold call. rewrite Panic_spec. by destruct err.
Qed.

Lemma NewWriterCustom_made lv check cs mw (wr : W) wd w s' :
  0 <= cs -> NewWriterCustom lv check cs mw (wr, wd) = (Ret (Some w, None), s') ->
  exists w0, configured cs check mw wr w0 /\ start_modes w0 = (Ret tt, w) /\ s' = (w_wr w, w_world w).
Proof.
  intros Hcs H%recovered_some. pose proof (clamp_chunk_range cs Hcs) as Hcl. revert H.
  set (ck := clamp_chunk cs) in *. intros (maxSize & s1 & H1 & H)%bind_rets.
  rewrite literalBlockSize_unit in H1. injection H1 as H1 <-.
  assert (Hck0 : 0 <= ck < 2 ^ 60).
  { assert (65536 = ChunkLowest /\ 2 ^ 30 = ChunkHighest) as [E1 E2] by done. lia. }
  assert (Hck : int64 ck = ck) by (apply int64_id; lia).
  rewrite Hck in H1. apply run_unit in H1.
  assert (Hs : supported check = true) by (by eapply literalBlockSize_ret in H1; [apply H1|]).
  apply local_rets in H as ([buf err] & fl & Hhd & H). apply Panic_rets in H as [-> H].
  destruct (HeaderEncode_run LS check NewStreamFlags) as (buf' & err' & Hhd' & Hok).
  rewrite Hhd in Hhd'. injection Hhd' as <- <- ->. specialize (Hok eq_refl). fold (file_flags check) in *.
  apply bind_rets in H as ([ix err] & s2 & Hix & H). unfold zoom in Hix. cbn [snd fst] in Hix.
  destruct (NewIndex wd) as [r wd2] eqn:Ei. injection Hix as -> <-. apply Panic_rets in H as [-> H].
  apply NewIndex_rets in Ei as (l & a & -> & Hl & Ha); [|done].
  destruct (NewOptionsLZMA PRESET_DEFAULT) as [opts err]. apply Panic_rets in H as [-> H].
  destruct opts as [opts|]; [|done].
  apply local_rets in H as ([] & filters & _ & H). rewrite bind_get in H. cbn [fst snd] in H.
  destruct (wr_Write wr buf) as [[n err] wr1] eqn:Ew. rewrite bind_put in H. apply Panic_rets in H as [-> H].
  rewrite bind_get in H. cbn [fst snd] in H.
  set (w0 := WriterV _ _ _ _ _ _ _ _ _ _ _ _ _ _ _ _ _) in H. exists w0.
  assert (Hfl : GetCheck (file_flags check) = check) by (by apply file_flags_check).
  assert (Hcf : configured cs check mw wr w0).
  { split; try done; [|by exists a|exists buf; split; [done|by exists n]].
    split; [done|]. change (w_flags w0) with (file_flags check). by rewrite Hfl. }
  split; [done|]. destruct (start_modes w0) as [r w1]. rewrite bind_put in H.
  rewrite bind_run in H. unfold Prelude.call in H. destruct r as [[]|p|]; [|done|done].
  unfold mret, M_ret in H. by injection H as <- <-.
Qed.

Lemma NewWriterCustom_run lv check cs (wr : W) wd w s' :
  0 <= cs -> NewWriterCustom lv check cs WorkersSync (wr, wd) = (Ret (Some w, None), s') ->
  opened cs check wr w /\ s' = (w_wr w, w_world w).
Proof.
  intros Hcs H. destruct (NewWriterCustom_made _ _ _ _ _ _ _ _ Hcs H) as (w0 & [Hsz Hmw Hix Ho Hc Hf Hs Hh] & Hm & ->).
  destruct (start_modes_run w0 Hsz Hmw Hix) as (s & d & wd3 & Hm' & Hsy). rewrite Hm' in Hm. injection Hm as <-. by split.
Qed.

(** A new writer of the asynchronous mode. *)
Record opened_async (cs check mw : Z) (wr : W) (w : Writer W) : Prop := {
  oa_made : configured cs check mw wr w;
  oa_sizes : w_inSize w = w_chunkSize w /\ w_outSize w = w_maxSize w;
  oa_modes : w_inMode w = LineDual /\ w_outMode w = LineMono;
}.

Lemma NewWriterCustom_async lv check cs mw (wr : W) wd w s' :
  0 <= cs -> mw <> WorkersSync -> NewWriterCustom lv check cs mw (wr, wd) = (Ret (Some w, None), s') ->
  opened_async cs check mw wr w /\ s' = (w_wr w, w_world w).
Proof.
  intros Hcs Hmw H. destruct (NewWriterCustom_made _ _ _ _ _ _ _ _ Hcs H) as (w0 & Hcf & Hm & ->). split; [|done].
  pose proof (sized_chunk w0 (cf_sized _ _ _ _ _ Hcf)) as Hck. unfold start_modes in Hm. rewrite bind_get in Hm.
  assert (Hw : (w_maxWorkers w0 =? WorkersSync) = false).
  { apply Z.eqb_neq. rewrite (cf_workers _ _ _ _ _ Hcf). unfold clamp_workers, WorkersMax, WorkersSync in *.
    destruct (Z.ltb_spec mw 0); lia. }
  assert (Hs : (w_chunkSize w0 =? ChunkStream) = false) by (apply Z.eqb_neq; unfold ChunkStream; lia).
  rewrite Hw, Hs in Hm. cbn [negb] in Hm. rewrite bind_run in Hm. unfold modify in Hm. cbv beta iota in Hm.
  injection Hm as <-. split; [|done|done]. destruct Hcf as [[] ? ? ? ? ? ? ?]. by split.
Qed.

(** * The arguments it refuses *)

Lemma literal_block_comp check n :
  b_compressed_size (block (literal_block check n)) = uint64 (literalCompSize n).
Proof. done. Qed.

Lemma HeaderSize_err (b : Block) ret h :
  lzma_block_header_size (block b) = (ret, h) -> ret <> OK ->
  HeaderSize b = (Ret (b_header_size (block b), Some (LibError ret)), b).
Proof.
  intros E0 Hr. unfold HeaderSize. rewrite bind_get, E0. unfold NewError.
  by rewrite (proj2 (Z.eqb_neq ret OK) Hr).
Qed.

(** C15: A negative chunk size selects a file of a single block, for which
    [blockInit] needs no literal block, but [NewWriterCustom] sizes one all the
    same: the block of minus one byte has a compressed size of zero, which
    liblzma refuses. So every such call fails, whatever the level, the check and
    the number of workers are, and nothing has been written. *)
Theorem stream_mode_refused lv check cs mw (s : W * world) :
  cs < 0 -> exists e, NewWriterCustom lv check cs mw s = (Ret (None, Some e), s).
Proof.
  intros Hcs. unfold NewWriterCustom. rewrite (clamp_chunk_neg cs Hcs).
  destruct (supported check) eqn:Hs.
  2: { exists optionsError. rewrite (recover_err _ _ _ optionsError s); [done|].
       unfold literalBlockSize. rewrite !bind_run, checkSupport_spec, Hs. done. }
  destruct (lzma_block_header_size (block (literal_block check (-1)))) as [ret h] eqn:Eh.
  assert (Hr : ret <> OK).
  { pose proof (header_size_zero (block (literal_block check (-1)))) as Hr. rewrite literal_block_comp, Eh in Hr.
    specialize (Hr eq_refl). cbn [fst] in Hr.
    rewrite Hr. apply error_code_not_ok; [done|]. unfold lzma_rets. set_solver. }
  exists (LibError ret). rewrite (recover_err _ _ _ (LibError ret) s); [done|].
  apply bind_panic. unfold literalBlockSize. rewrite bind_run, checkSupport_spec, Hs.
  change (int64 ChunkStream) with (-1). fold (literal_block check (-1)). cbv beta iota zeta.
  rewrite (bind_local _ _ _ _ _ _ (HeaderSize_err _ _ _ Eh Hr)). cbv beta iota. cbn [fst].
  rewrite bind_run. unfold call. by rewrite Panic_err.
Qed.

End new.
