(* ===== verification/WriterSession.v ===== *)
(** A session of the synchronous xz writer with blocks: the constructor, any
    sequence of [Write]s, and [Close]. *)

From S2P Require Import Prelude Bufpipe Lines Errs Liblzma SmallLzma Lib XzConst Literal World LibIndex.
From S2P Require Import Stream StreamPump PipePump Ioutil Writer WriterBlock WriterSync WriterNew.

Section session.
Context {BP : Bufpipe} {L : Liblzma} {E : Errs} {IU : Ioutil} {W : Type} {IW : IoWriter W}.
Context {BS : BufpipeSpec BP} {LS : LiblzmaSpec L} {ES : ErrsSpec E} {LI : LiblzmaIdle L} {IS : IoutilSpec IU} {WS : IoWriterSpec W}.

(** * The index and the footer *)

(** What [write_footer] writes: the encoded index [i], at address [a], and the
    footer for the flags [fl]. *)
Definition footed (i : lzma_index) (fl : StreamFlags) (wr wr' : W) : Prop :=
  exists m a c0 ix c m' wr1 ftr,
    cm_index m !! a = Some i /\ lzma_index_encoder m a = (OK, c0) /\
    codes FINISH c0 m [] ix c m' /\
    (exists c1 m1 inp n, let r := lzma_code c1 m1 (uint32 FINISH) inp n in
       cr_ret r = STREAM_END /\ cr_coder r = c /\ cr_mem r = m') /\
    writes wr ix wr1 /\
    lzma_stream_footer_encode (SetBackwardSize (int64 (lzma_index_size i)) fl).2 = (OK, ftr) /\
    wrote wr1 ftr wr'.

Lemma index_encoder_run (wd : world) ix a i :
  cm_ixptr (mem wd) !! ix = Some (Some a) -> cm_index (mem wd) !! a = Some i ->
  Index_NewStreamEncoder ix wd = (Ret (stream_of (lzma_index_encoder (mem wd) a) [RefIndex ix]), wd).
Proof.
  intros Hp Hi. unfold Index_NewStreamEncoder.
  rewrite (bind_ret _ _ _ _ _ (ptr_run _ _ _ Hp)). by rewrite (bind_ret _ _ _ _ _ (c_index_run _ _ _ Hi)).
Qed.

(** The writer never reports liblzma's end-of-stream status as its own error. *)
Definition honest_writer : Prop := forall (wr : W) bs, (wr_Write wr bs).1.2 <> Some streamEnd.

Lemma write_footer_run fuel (w : Writer W) i :
  honest_writer -> index_at w i ->
  match write_footer fuel w with
  | (Ret _, w') => footed i (w_flags w) (w_wr w) (w_wr w') /\ w_index w' = w_index w /\
      w_closed w' = w_closed w /\ index_at w' i
  | (Pan p, w') => exists e, p = PErr (Some e)
  | (NoFuel, _) => True
  end.
Proof.
  intros Hhon (a & Hp & Hi). unfold write_footer. rewrite bind_get.
  pose proof (on_world_run _ w _ _ _ (index_encoder_run _ _ _ _ Hp Hi)) as Hrun. rewrite at_world_id in Hrun.
  rewrite (bind_ret _ _ _ _ _ Hrun). unfold stream_of.
  destruct (lzma_index_encoder (mem (w_world w)) a) as [ret c0] eqn:Ec. cbn [fst snd].
  unfold NewError at 1. destruct (Z.eqb_spec ret OK) as [->|Hret].
  2: { rewrite Panic_err. by eexists. }
  set (z := foldl _ _ _). rewrite Panic_nil, bind_call, bind_run. unfold with_stream, stream_Process.
  destruct (Process fuel FINISH _) as [[[[o i0] err]|p|] [z' wd' rd' wr']] eqn:Ep; [| |done].
  2: { exfalso. eapply (Process_pan fuel FINISH); [|by rewrite Ep]. split; cbn; intros l; done. }
  destruct (Process_finish fuel FINISH z (w_world w) (w_wr w) _ _ _ _ eq_refl eq_refl Ep) as [Hne He].
  rewrite Ignore_spec, Panic_spec. case_decide as Hend.
  2: { destruct err; [by eexists|done]. }
  apply list_elem_of_singleton in Hend as ->. rewrite bind_call.
  destruct He as [(x & bs & Hx)|(cout & wr1 & Hw1 & Hwr & Hcodes & c & m & inp & n & Hst & Hst1 & Hst2)].
  { by destruct (Hhon x bs). }
  cbn in Hw1, Hwr, Hcodes, Hst1, Hst2. subst wr'. cbn [default].
  destruct (codes_keep _ _ _ _ _ _ _ Hcodes (index_encoder_cell _ _ _ Ec)) as (_ & [Kp Ki] & _).
  set (w1 := set_wr_world _ _ w).
  assert (Hsize : on_world (Size (w_index w)) w1 = (Ret (int64 (lzma_index_size i)), w1)).
  { unfold w1. apply on_world_at, (c_read_run wd' _ a i); cbn; [by rewrite Kp|by apply Ki]. }
  rewrite (bind_ret _ _ _ _ _ Hsize), bind_get.
  change (w_flags w1) with (w_flags w).
  destruct (FooterEncode_run LS (int64 (lzma_index_size i)) (w_flags w)) as (buf & err & Hf & Hftr).
  rewrite (bind_local _ _ _ _ _ _ Hf), bind_run. unfold modify. cbv beta iota. rewrite Panic_spec.
  destruct err as [e|]; [by eexists|]. rewrite bind_call, bind_run. unfold write_out.
  cbn [w_wr set_flags w1 set_wr_world]. unfold id. destruct (wr_Write wr1 buf) as [[n1 err] wr2] eqn:Ew.
  unfold call. rewrite Panic_spec. destruct err as [e|]; [by eexists|]. split; [|split; [done|split; [done|]]].
  - exists (mem (w_world w)), a, c0, cout, (coder z'), (mem wd'), wr1, buf. split_and!; try done.
    + exists c, m, inp, n. apply NewError_some in Hst as [_ [= ?]]. by split.
    + by apply Hftr.
    + by exists n1.
  - exists a. cbn. rewrite Kp. split; [done|]. by apply Ki.
Qed.

(** * Close *)

Lemma End_pan o (wd wd' : world) p : End o wd = (Pan p, wd') -> exists r, p = PRun r.
Proof.
  unfold End, ptr, c_index, set_ptr, set_index. destruct o as [ix|]; [|intros [= <- _]; by eexists]. mrun.
  destruct (cm_ixptr (mem wd) !! ix) as [[a|]|]; mrun; [|done|intros [= <- _]; by eexists].
  destruct (cm_index (mem wd) !! a); [done|intros [= <- _]; by eexists].
Qed.

(** The last block of the file, of what is left in the input buffer. *)
Definition last_block (buf : list Z) (ks : list blk) : Prop :=
  match buf with [] => ks = [] | _ => exists k, ks = [k] /\ k_chunk k = buf end.

Lemma last_block_run fuel (w : Writer W) buf i :
  sync_ok w buf i ->
  match (p ← on_world (of_pipe (w_rdBuf w) bp_Length);
         if 0 <? p then blockEncodeSync fuel else mret tt) w with
  | (Ret _, w') => exists ks i', last_block buf ks /\ emitted w i ks w' i' /\ sync_ok w' [] i'
  | (Pan p, _) => block_panic p
  | (NoFuel, _) => (fuel < block_fuel w)%nat
  end.
Proof.
  intros Hok. pose proof Hok as [_ _ (s & d & q & Hs & _ & _ & Hq & Hlq & _) _].
  pose proof (on_world_run _ w _ _ _ (of_pipe_run (w_world w) s q bp_Length Hq)) as Hrun.
  rewrite at_world_id in Hrun. rewrite Hs, (bind_ret _ _ _ _ _ Hrun).
  rewrite (line_length q (ln_is _ _ _ _ _ Hlq)), (line_wr _ _ _ _ _ Hlq), (line_rd _ _ _ _ _ Hlq), Z.sub_0_r.
  destruct buf as [|x buf].
  - exists [], i. split; [done|]. split; [apply emitted_nil|done].
  - rewrite (proj2 (Z.ltb_lt _ _)) by (rewrite zlen_cons; pose proof (zlen_nonneg buf); lia).
    pose proof (blockEncodeSync_run fuel w (x :: buf) i Hok) as H.
    destruct (blockEncodeSync fuel w) as [[[]|p|] w']; [|done|done].
    destruct H as (k & i' & Hk & Hem & Hok'). exists [k], i'. split; [by exists k|done].
Qed.

Lemma block_panic_error p : block_panic p -> error_panic p.
Proof. intros [H|[-> _]]; [by left|right; by eexists]. Qed.

Lemma deferred_ret {S A} (d : M S unit) (m : M S A) s a s' :
  with_defer d m s = (Ret a, s') -> exists s1 u, m s = (Ret a, s1) /\ d s1 = (Ret u, s').
Proof.
  unfold with_defer. destruct (m s) as [[r|p|] s1]; [| |done]; destruct (d s1) as [[u|p'|] s2] eqn:Ed;
    intros [= <- <-]; by eauto.
Qed.

Lemma deferred_panic {S A} (d : M S unit) (m : M S A) s p s' :
  with_defer d m s = (Pan p, s') ->
  (exists s1, m s = (Pan p, s1)) \/ (exists s1 s2, d s1 = (Pan p, s2)).
Proof.
  unfold with_defer. destruct (m s) as [[r|q|] s1]; [| |done]; destruct (d s1) as [[u|p'|] s2] eqn:Ed;
    intros [= <- <-]; by eauto.
Qed.

Lemma bind_panics {S A B} (m : M S A) (k : A -> M S B) s p s' :
  (m ≫= k) s = (Pan p, s') ->
  m s = (Pan p, s') \/ exists a s1, m s = (Ret a, s1) /\ k a s1 = (Pan p, s').
Proof. rewrite bind_run. destruct (m s) as [[a|q|] s1]; intros H; [right; eauto|left; congruence|done]. Qed.

Lemma on_world_end (w : Writer W) o r w' :
  on_world (End o) w = (r, w') ->
  w' = set_wr_world (w_wr w) (w_world w') w /\ (forall p, r = Pan p -> error_panic p).
Proof.
  unfold on_world, zoom. destruct (End o (w_world w)) as [r0 wd] eqn:E0. intros [= <- <-]. split; [done|].
  intros p ->. right. exact (End_pan _ _ _ _ E0).
Qed.

(** What [Close] does between its guard and its deferred calls. *)
Definition closing (fuel : nat) (w : Writer W) : M (Writer W) (unit * error) :=
  ((p ← on_world (of_pipe (w_rdBuf w) bp_Length); if 0 <? p then blockEncodeSync fuel else mret tt);;
   write_footer fuel;;
   mret (tt, None)).

Lemma Close_closing fuel (w : Writer W) :
  w_closed w = false -> w_chunkSize w <> ChunkStream ->
  Close fuel w = (r ← with_recover (fun _ => tt) (fun _ =>
    with_defer (on_world (End (Some (w_index w)))) (closing fuel w) (set_closed w)); mret (snd r)) w.
Proof.
  intros Ho Hc. unfold Close. rewrite !bind_run. unfold with_recover. rewrite bind_get, Ho, bind_run.
  unfold modify. cbv beta iota. by rewrite (proj2 (Z.eqb_neq _ _) Hc).
Qed.

Lemma closing_run fuel (w : Writer W) buf i :
  honest_writer -> sync_ok w buf i ->
  match closing fuel w (set_closed w) with
  | (Ret _, w') => exists ks wr1 i1, last_block buf ks /\ wrote_all (w_wr w) (map k_bytes ks) wr1 /\
      indexed i ks i1 /\ Forall (block_ok w) ks /\ footed i1 (w_flags w) wr1 (w_wr w') /\ w_closed w' = true
  | (Pan p, _) => error_panic p
  | (NoFuel, _) => True
  end.
Proof.
  intros Hhon Hok. set (wc := set_closed w).
  assert (Hokc : sync_ok wc buf i) by (destruct Hok as [[Z1 Z2] ? ? ?]; split; [by split|done..]).
  pose proof (last_block_run fuel wc buf i Hokc) as Hb. change (w_rdBuf wc) with (w_rdBuf w) in Hb.
  unfold closing. rewrite bind_run. match type of Hb with match ?x with _ => _ end => destruct x as [[u|p|] w3] end;
    [|by apply block_panic_error|done].
  destruct Hb as (ks & i1 & Hlast & [Hcfg Hwr Hix Hblk] & Hok3).
  pose proof (write_footer_run fuel w3 i1 Hhon (sy_index _ _ _ Hok3)) as Hf. rewrite bind_run.
  destruct (write_footer fuel w3) as [[u2|p|] w4]; [|by left|done].
  destruct Hf as (Hf & _ & Hcl & _). rewrite Hcfg in Hf, Hcl. exists ks, (w_wr w3), i1. by split_and!.
Qed.

Lemma chunk_not_stream (w : Writer W) buf i : sync_ok w buf i -> w_chunkSize w <> ChunkStream.
Proof. intros Hok. pose proof (sized_chunk _ (sy_sized _ _ _ Hok)). unfold ChunkStream. lia. Qed.

Lemma Close_body_panics fuel (w : Writer W) buf i p s1 :
  honest_writer -> sync_ok w buf i ->
  with_defer (on_world (End (Some (w_index w)))) (closing fuel w) (set_closed w) = (Pan p, s1) -> error_panic p.
Proof.
  intros Hhon Hok [[s2 Hp]|[s2 [s3 Hp]]]%deferred_panic; [|by eapply on_world_end in Hp as [_ Hp]; apply Hp].
  pose proof (closing_run fuel w buf i Hhon Hok) as H. by rewrite Hp in H.
Qed.

Lemma Close_run fuel (w w' : Writer W) buf i :
  honest_writer -> sync_ok w buf i -> w_closed w = false -> Close fuel w = (Ret None, w') ->
  exists ks wr1 i1, last_block buf ks /\ wrote_all (w_wr w) (map k_bytes ks) wr1 /\
    indexed i ks i1 /\ Forall (block_ok w) ks /\ footed i1 (w_flags w) wr1 (w_wr w') /\ w_closed w' = true.
Proof.
  intros Hhon Hok Ho H. rewrite (Close_closing _ _ Ho (chunk_not_stream _ _ _ Hok)) in H.
  apply bind_rets in H as ([[] e] & w1 & H & Hr). cbv in Hr. injection Hr as -> ->.
  apply recovered_ret in H; [|intros p s1; by apply Close_body_panics with (buf := buf) (i := i)].
  apply deferred_ret in H as (w2 & u & H & Hend). pose proof (closing_run fuel w buf i Hhon Hok) as Hc.
  rewrite H in Hc. destruct Hc as (ks & wr1 & i1 & R). apply on_world_end in Hend as [-> _].
  by exists ks, wr1, i1.
Qed.

Lemma Close_panics fuel (w w' : Writer W) buf i p :
  honest_writer -> sync_ok w buf i -> w_closed w = false -> Close fuel w = (Pan p, w') -> exists r, p = PRun r.
Proof.
  intros Hhon Hok Ho. rewrite (Close_closing _ _ Ho (chunk_not_stream _ _ _ Hok)).
  intros [H|(a & s1 & _ & Hr)]%bind_panics; [|done]. revert H. unfold with_recover.
  destruct (with_defer _ _ _) as [[r|q|] s1] eqn:E0; [done| |done].
  destruct (Close_body_panics _ _ _ _ _ _ Hhon Hok E0) as [[e ->]|[r ->]]; [by rewrite Recover_err|].
  destruct (errs_Recover _ _); [done|]. intros [= <- <-]. by eexists.
Qed.

(** * A session *)

(** The calls of a client: some [Write]s, each of which must succeed, then
    [Close]. *)
Fixpoint session (fuel : nat) (datas : list (list Z)) : M (Writer W) error :=
  match datas with
  | [] => Close fuel
  | data :: datas =>
      r ← Write fuel data;
      match r.2 with
      | Some e => mret (Some e)
      | None => session fuel datas
      end
  end.

(** The blocks that [data] is cut into: all but the last have [size] bytes. *)
Definition cut (size : Z) (data : list Z) (ks : list blk) : Prop :=
  exists full last, ks = full ++ last /\ chunks ks = data /\
    Forall (fun k => zlen (k_chunk k) = size) full /\
    (last = [] \/ exists k, last = [k] /\ 0 < zlen (k_chunk k) <= size).

Lemma block_ok_emitted (w w' : Writer W) i ks i' k : emitted w i ks w' i' -> block_ok w' k -> block_ok w k.
Proof. intros H Hk. unfold block_ok in *. by rewrite (em_config _ _ _ _ _ H) in Hk. Qed.

Lemma session_run fuel datas : forall (w w' : Writer W) buf i,
  honest_writer -> sync_ok w buf i -> w_closed w = false -> session fuel datas w = (Ret None, w') ->
  exists ks wr1 i1, cut (w_chunkSize w) (buf ++ concat datas) ks /\ wrote_all (w_wr w) (map k_bytes ks) wr1 /\
    indexed i ks i1 /\ Forall (block_ok w) ks /\ footed i1 (w_flags w) wr1 (w_wr w') /\ w_closed w' = true.
Proof.
  induction datas as [|data datas IH]; intros w w' buf i Hhon Hok Ho H; cbn [session] in H.
  - destruct (Close_run _ _ _ _ _ Hhon Hok Ho H) as (ks & wr1 & i1 & Hl & R). exists ks, wr1, i1. split; [|done].
    exists [], ks. cbn. rewrite app_nil_r. destruct buf as [|x buf].
    + cbn in Hl. subst ks. split_and!; [done|done|constructor|by left].
    + destruct Hl as (k & -> & Hk). unfold chunks. cbn. rewrite app_nil_r. split_and!; [done|done|constructor|].
      right. exists k. split; [done|]. rewrite Hk. destruct (sy_bufs _ _ _ Hok) as (s & d & q & _ & _ & _ & _ & Hlq & _).
      destruct (line_bounds _ _ _ _ _ Hlq) as [_ ?]. split; [|done]. rewrite zlen_cons. pose proof (zlen_nonneg buf). lia.
  - apply bind_rets in H as ([n err] & w1 & Hw & H). pose proof (Write_run fuel data w buf i Hok Ho) as Hr.
    rewrite Hw in Hr. cbn [snd] in H. destruct err as [e|]; [done|].
    destruct Hr as (ks1 & i1 & buf1 & -> & Hem & Hok1 & Hdata & Hfull).
    assert (Ho1 : w_closed w1 = false) by (by rewrite (em_config _ _ _ _ _ Hem)).
    destruct (IH w1 w' buf1 i1 Hhon Hok1 Ho1 H) as (ks2 & wr2 & i2 & (full & last & -> & Hc & Hf & Hl) & Hwr & Hix & Hblk & Hft & Hcl).
    assert (Hcs : w_chunkSize w1 = w_chunkSize w) by (by rewrite (em_config _ _ _ _ _ Hem)).
    assert (Hfl : w_flags w1 = w_flags w) by (by rewrite (em_config _ _ _ _ _ Hem)). rewrite Hcs in Hf, Hl.
    exists (ks1 ++ full ++ last), wr2, i2. split_and!; try done.
    + exists (ks1 ++ full), last. split; [by rewrite app_assoc|]. split; [|split; [by apply Forall_app|done]].
      cbn. by rewrite chunks_app, Hc, !app_assoc, Hdata.
    + rewrite map_app. eapply wrote_app; [apply Hem|done].
    + eapply indexed_app; [apply Hem|done].
    + apply Forall_app. split; [apply Hem|]. eapply Forall_impl; [exact Hblk|]. intros k. by apply (block_ok_emitted _ _ _ _ _ _ Hem).
    + by rewrite <- Hfl.
Qed.

(** C1: The file that a synchronous writer produces. When the constructor, all
    the [Write]s and [Close] succeed, the underlying writer received, in this
    order: the stream header for the check; one block for each chunk of the
    data, where the chunks in order are all the data and every chunk but the
    last has exactly the (clamped) chunk size; the index, which lists those
    blocks with their sizes in order; and the footer. *)
Theorem sync_session_file fuel lv check cs (wr : W) wd w s' datas w' :
  honest_writer -> 0 <= cs -> NewWriterCustom lv check cs WorkersSync (wr, wd) = (Ret (Some w, None), s') ->
  session fuel datas w = (Ret None, w') ->
  exists hdr wr1 ks wr2 i,
    lzma_stream_header_encode (file_flags check) = (OK, hdr) /\ wrote wr hdr wr1 /\
    cut (clamp_chunk cs) (concat datas) ks /\ Forall (block_ok w) ks /\
    wrote_all wr1 (map k_bytes ks) wr2 /\ indexed lzma_index_empty ks i /\
    footed i (file_flags check) wr2 (w_wr w').
Proof.
  intros Hhon Hcs Hn Hs. destruct (NewWriterCustom_run _ _ _ _ _ _ _ Hcs Hn) as [[Hsy Ho Hc Hfl Hsup (hdr & He & Hw)] _].
  destruct (session_run _ _ _ _ _ _ Hhon Hsy Ho Hs) as (ks & wr2 & i & Hcut & Hwr & Hix & Hblk & Hft & _).
  exists hdr, (w_wr w), ks, wr2, i. rewrite Hc in Hcut. rewrite Hfl in Hft. by split_and!.
Qed.

End session.
