(* ===== verification/WriterTotal.v ===== *)
(** The synchronous xz writer returns: with enough fuel every [Write] and
    [Close] comes to an end, when the coders make the progress that liblzma
    documents and the underlying writer keeps its contract. *)

From S2P Require Import Prelude Bufpipe Lines Errs Liblzma SmallLzma Lib XzConst Literal World LibIndex.
From S2P Require Import Stream StreamPump StreamTerm PipePump Ioutil Writer WriterBlock WriterSync WriterNew WriterSession.

Section total.
Context {BP : Bufpipe} {L : Liblzma} {E : Errs} {IU : Ioutil} {W : Type} {IW : IoWriter W}.
Context {BS : BufpipeSpec BP} {LS : LiblzmaSpec L} {ES : ErrsSpec E} {LI : LiblzmaIdle L} {IS : IoutilSpec IU} {WS : IoWriterSpec W}.

(** * More fuel changes nothing *)

Lemma extends_recover {S A} (named : S -> A) (m m' : M S (A * error)) :
  extends m m' -> extends (with_recover named m) (with_recover named m').
Proof.
  intros Hm s H. unfold with_recover in *. rewrite Hm; [done|]. intros E0. by destruct (m s) as [[| |] ?].
Qed.

Lemma extends_on_w {A} (m m' : M (Writer W) A) : extends m m' -> extends (on_w m) (on_w m').
Proof.
  intros Hm [w cnt] H. unfold on_w in *. rewrite Hm; [done|]. by destruct (m w).
Qed.

Lemma extends_with_stream {A} z (m m' : M (sw (W:=W)) A) : extends m m' -> extends (with_stream z m) (with_stream z m').
Proof.
  intros Hm w H. unfold with_stream in *. rewrite Hm; [done|]. by destruct (m (z, w)) as [? []].
Qed.

Lemma extends_on_stream {A} (m m' : M (sw (W:=W)) A) : extends m m' -> extends (on_stream m) (on_stream m').
Proof.
  intros Hm w H. unfold on_stream in *. rewrite Hm; [done|]. by destruct (m (w_stream w, w)) as [? []].
Qed.

#[local] Hint Resolve extends_recover extends_on_w extends_with_stream extends_on_stream : fuel.

Lemma processpipe_more act dst src f : forall f' inB outB o i, (f <= f')%nat ->
  extends (processpipe_loop f act dst src inB outB o i) (processpipe_loop f' act dst src inB outB o i).
Proof. induction f as [|f IH]; intros [|f'] inB outB o i Hle; try lia; cbn [processpipe_loop]; extends. Qed.

#[local] Hint Resolve processpipe_more : fuel.

Lemma stream_pipe_more act dst src f f' : (f <= f')%nat ->
  extends (stream_ProcessPipe f act dst src : M (sw (W:=W)) _) (stream_ProcessPipe f' act dst src).
Proof.
  intros Hle [[z|] w] H; [|done]. unfold stream_ProcessPipe in *.
  assert (Hp : extends (ProcessPipe f act dst src) (ProcessPipe f' act dst src)) by (unfold ProcessPipe; extends).
  rewrite Hp; [done|]. by destruct (ProcessPipe _ _ _ _ _) as [? []].
Qed.

Lemma stream_process_more act src f f' : (f <= f')%nat ->
  extends (stream_Process f act src : M (sw (W:=W)) _) (stream_Process f' act src).
Proof.
  intros Hle [[z|] w] H; [|done]. unfold stream_Process in *. rewrite (Process_more act f f' Hle); [done|].
  by destruct (Process _ _ _) as [? []].
Qed.

#[local] Hint Resolve stream_pipe_more stream_process_more : fuel.

Lemma blockEncodeSync_more f f' : (f <= f')%nat ->
  extends (blockEncodeSync f : M (Writer W) _) (blockEncodeSync f').
Proof.
  intros Hle. unfold blockEncodeSync. extends. unfold blockEncode. extends.
  apply extends_with_stream. extends. unfold encode_stream. extends.
Qed.

#[local] Hint Resolve blockEncodeSync_more : fuel.

Lemma write_blocks_more data f : forall f', (f <= f')%nat ->
  extends (write_blocks f data : M (wc (W:=W)) _) (write_blocks f' data).
Proof. induction f as [|f IH]; intros [|f'] Hle; try lia; cbn [write_blocks]; extends. Qed.

#[local] Hint Resolve write_blocks_more : fuel.

Lemma Write_more data f f' : (f <= f')%nat -> extends (Write f data : M (Writer W) _) (Write f' data).
Proof.
  intros Hle w H. unfold Write in *.
  set (body := fun f : nat => (s ← get; if w_closed (fst s) then mret (0, Some ErrClosedPipe) else write_sync f data) :
    M (wc (W:=W)) (Z * error)).
  assert (Hm : extends (with_recover snd (body f)) (with_recover snd (body f'))).
  { apply extends_recover. unfold body, write_sync. extends. }
  specialize (Hm (w, 0)). unfold body in Hm. rewrite Hm; [done|].
  by destruct (with_recover _ _ _) as [? []].
Qed.

Lemma write_footer_more f f' : (f <= f')%nat -> extends (write_footer f : M (Writer W) _) (write_footer f').
Proof. intros Hle. unfold write_footer. extends. Qed.

#[local] Hint Resolve Write_more write_footer_more : fuel.

Lemma Close_more f f' : (f <= f')%nat -> extends (Close f : M (Writer W) _) (Close f').
Proof.
  intros Hle. unfold Close. apply extends_bind; [|intros ?; extends]. apply extends_recover. extends.
  all: unfold finish_stream; extends.
Qed.

#[local] Hint Resolve Close_more : fuel.

Lemma session_more f f' datas : (f <= f')%nat -> extends (session f datas : M (Writer W) _) (session f' datas).
Proof. intros Hle. induction datas as [|data datas IH]; cbn [session]; extends. Qed.

(** * Computations without fuel *)

Definition fuelless {S A} (m : M S A) : Prop := forall s, (m s).1 <> NoFuel.

Lemma fuelless_bind {S A B} (m : M S A) (k : A -> M S B) :
  fuelless m -> (forall a, fuelless (k a)) -> fuelless (m ≫= k).
Proof.
  intros Hm Hk s. rewrite bind_run. specialize (Hm s). destruct (m s) as [[a|p|] s']; [apply Hk|done|done].
Qed.

Lemma fuelless_Panic {S} e : fuelless (call (errs_Panic e) : M S unit).
Proof. intros s. unfold call. rewrite Panic_spec. by destruct e. Qed.

Lemma fuelless_zoom {S T A} (f : S -> T) g (m : M T A) : fuelless m -> fuelless (zoom f g m).
Proof. intros Hm s. unfold zoom. specialize (Hm (f s)). by destruct (m (f s)). Qed.

Lemma fuelless_local {S B A} (b : B) (m : M B A) : fuelless m -> fuelless (on_local b m : M S _).
Proof. intros Hm s. unfold on_local. specialize (Hm b). by destruct (m b) as [[] ?]. Qed.

Lemma fuelless_write (bs : list Z) : fuelless (write_out bs : M (Writer W) error).
Proof. intros w. unfold write_out. by destruct (wr_Write (w_wr w) bs) as [[n err] wr']. Qed.

Ltac fuelless :=
  repeat lazymatch goal with
         | |- fuelless (_ ≫= _) => apply fuelless_bind; [|intros ?]
         | |- fuelless (call (errs_Panic _)) => apply fuelless_Panic
         | |- fuelless (zoom _ _ _) => apply fuelless_zoom
         | |- fuelless (on_world _) => apply fuelless_zoom
         | |- fuelless (on_local _ _) => apply fuelless_local
         | |- fuelless (write_out _) => apply fuelless_write
         | |- fuelless (match ?x with _ => _ end) => destruct x
         | |- fuelless _ => solve [intros ?; done]
         end.

Lemma fuelless_Size ix : fuelless (Size ix).
Proof. unfold Size, c_read, ptr, c_index. fuelless. Qed.

Lemma fuelless_Append ix u c : fuelless (Index_Append ix u c).
Proof. unfold Index_Append, c_update, ptr, c_index. fuelless. Qed.

Lemma fuelless_FooterEncode size : fuelless (FooterEncode size).
Proof. unfold FooterEncode, SetBackwardSize. fuelless. Qed.

(** * The end of a file *)

(** [Write]'s contract: a short count comes with an error. *)
Hypothesis write_contract : forall (wr : W) bs n err wr',
  wr_Write wr bs = ((n, err), wr') -> n < zlen bs -> err <> None.

(** The coders that an index encoder becomes. *)
Definition index_coder (c : lzma_coder) (m : cmem_t) : Prop :=
  exists m0 a c0 inp out, lzma_index_encoder m0 a = (OK, c0) /\ codes FINISH c0 m0 inp out c m.

(** An index is finite: as long as there is room, every call of its encoder
    brings it closer to its end ([work]). *)
Context (work : lzma_coder -> cmem_t -> nat).
Hypothesis index_progress : forall c m inp n,
  let r := lzma_code c m (uint32 FINISH) inp n in index_coder c m -> 0 < n ->
  cr_ret r = OK \/ cr_ret r = BUF_ERROR -> (work (cr_coder r) (cr_mem r) < work c m)%nat.

Lemma slice_reader_progress (r : SliceReader) n bs err r' :
  0 < n -> rd_Read r n = ((bs, err), r') -> err <> None \/ (length (sr_rest r') < length (sr_rest r))%nat.
Proof.
  intros Hn H. destruct (sr_read _ _ _ _ _ H) as [Hr [->|[-> _]]]; [right|by left].
  pose proof (sr_progress _ _ _ _ Hn H) as Hp. rewrite Hr, length_app. destruct bs; [done|]. cbn. lia.
Qed.

Lemma write_footer_returns (w : Writer W) i :
  index_at w i -> exists fuel, (write_footer fuel w).1 <> NoFuel.
Proof.
  intros (a & Hp & Hi). unfold write_footer.
  pose proof (on_world_run _ w _ _ _ (index_encoder_run _ _ _ _ Hp Hi)) as Hrun. rewrite at_world_id in Hrun.
  unfold stream_of in Hrun.
  destruct (lzma_index_encoder (mem (w_world w)) a) as [ret c0] eqn:Ec. cbn [fst snd] in Hrun.
  unfold NewError in Hrun. destruct (Z.eqb_spec ret OK) as [->|Hret].
  2: { exists O. rewrite bind_get, (bind_ret _ _ _ _ _ Hrun), Panic_err. done. }
  set (z := foldl _ _ _) in Hrun.
  destruct (Process_returns (R:=SliceReader) (W:=W) (fun r => length (sr_rest r)) slice_reader_progress write_contract
    FINISH index_coder work True False) with (s := ProcSt z (w_world w) (@None SliceReader) (Some (w_wr w)))
    as (fuel & r & s' & Hpr).
  - intros c m inp n (m0 & a0 & c1 & i0 & o0 & H1 & H2). exists m0, a0, c1. do 2 eexists. split; [done|].
    by eapply codes_snoc.
  - intros c m inp n r Hg _ [Hn|[]] Hr. right. by apply index_progress.
  - done.
  - by split; cbn; intros l; done.
  - split; cbn; intros l p; done.
  - done.
  - unfold z. cbn. exists (mem (w_world w)), a, c0, [], []. split; [done|constructor].
  - done.
  - done.
  - exists fuel. rewrite bind_get, (bind_ret _ _ _ _ _ Hrun). rewrite Panic_nil, bind_call, bind_run.
    unfold with_stream, stream_Process. rewrite (Hpr fuel) by lia. destruct s' as [z' wd' rd' wr'].
    match goal with |- (?m _).1 <> _ => assert (Hf : fuelless m) end; [|apply Hf].
    destruct r as [[? ?] ?]. fuelless; [apply fuelless_Size|apply fuelless_FooterEncode].
Qed.

Lemma returns_bind {S A B} (m : nat -> M S A) (k : nat -> A -> M S B) s f1 :
  (forall f f', (f <= f')%nat -> extends (m f) (m f')) ->
  (forall a f f', (f <= f')%nat -> extends (k f a) (k f' a)) ->
  (m f1 s).1 <> NoFuel -> (forall a s', m f1 s = (Ret a, s') -> exists f2, (k f2 a s').1 <> NoFuel) ->
  exists f, ((m f ≫= k f) s).1 <> NoFuel.
Proof.
  intros Hm Hk H1 H2. destruct (m f1 s) as [[a|p|] s'] eqn:E1; [| |done].
  - destruct (H2 a s' eq_refl) as [f2 Hf2]. exists (Nat.max f1 f2). rewrite bind_run.
    rewrite (extends_run _ _ _ _ _ (Hm f1 (Nat.max f1 f2) ltac:(lia)) E1) by done.
    by rewrite (Hk a f2 (Nat.max f1 f2)) by (done || lia).
  - exists f1. by rewrite bind_run, E1.
Qed.

Lemma fuelless_End o : fuelless (on_world (End o) : M (Writer W) unit).
Proof. destruct o; unfold End, ptr, c_index, set_ptr, set_index; fuelless. Qed.

Lemma closing_fuel fuel (w : Writer W) :
  w_closed w = false -> w_chunkSize w <> ChunkStream ->
  (closing fuel w (set_closed w)).1 <> NoFuel -> (Close fuel w).1 <> NoFuel.
Proof.
  intros Ho Hc H. rewrite (Close_closing _ _ Ho Hc), bind_run. unfold with_recover, with_defer.
  destruct (closing fuel w (set_closed w)) as [[r|p|] s1]; [| |done];
    pose proof (fuelless_End (Some (w_index w)) s1) as He;
    destruct (on_world (End (Some (w_index w))) s1) as [[u|q|] s2]; try done;
    by repeat case_match.
Qed.

Lemma Close_returns (w : Writer W) buf i :
  sync_ok w buf i -> w_closed w = false -> exists fuel, (Close fuel w).1 <> NoFuel.
Proof.
  intros Hok Ho. pose proof (sized_chunk _ (sy_sized _ _ _ Hok)) as Hcs. set (wc := set_closed w).
  assert (Hokc : sync_ok wc buf i) by (destruct Hok as [[Z1 Z2] ? ? ?]; split; [by split|done..]).
  pose proof (last_block_run (block_fuel wc) wc buf i Hokc) as Hb. change (w_rdBuf wc) with (w_rdBuf w) in Hb.
  enough (exists fuel, (closing fuel w wc).1 <> NoFuel) as [fuel Hf].
  { exists fuel. apply closing_fuel; [done|unfold ChunkStream; lia|done]. }
  unfold closing. apply (returns_bind _ (fun f _ => write_footer f;; mret (tt, None)) wc (block_fuel wc)).
  - intros f f' Hle. extends.
  - intros _ f f' Hle. extends.
  - match type of Hb with match ?x with _ => _ end => destruct x as [[u|p|] w1] end; [done|done|lia].
  - intros u w1 E1. rewrite E1 in Hb. destruct Hb as (ks & i1 & _ & _ & Hok1).
    destruct (write_footer_returns w1 i1 (sy_index _ _ _ Hok1)) as [f2 Hf2]. exists f2. rewrite bind_run.
    by destruct (write_footer f2 w1) as [[] ?].
Qed.

Lemma session_returns datas : forall (w : Writer W) buf i,
  sync_ok w buf i -> w_closed w = false -> exists fuel, (session fuel datas w).1 <> NoFuel.
Proof.
  induction datas as [|data datas IH]; intros w buf i Hok Ho; [by eapply Close_returns|].
  cbn [session]. apply (returns_bind (fun f => Write f data) (fun f r => match r.2 with
    | Some e => mret (Some e) | None => session f datas end) w (write_fuel w data)).
  - intros f f' Hle. by apply Write_more.
  - intros r f f' Hle. destruct (r.2); [apply extends_refl|by apply session_more].
  - pose proof (Write_run (write_fuel w data) data w buf i Hok Ho) as Hw.
    destruct (Write (write_fuel w data) data w) as [[r|p|] w1]; [done|done|lia].
  - intros [n err] w1 E1. pose proof (Write_run (write_fuel w data) data w buf i Hok Ho) as Hw. rewrite E1 in Hw.
    cbn [snd]. destruct err as [e|]; [by exists O|]. destruct Hw as (ks & i1 & buf1 & _ & Hem & Hok1 & _).
    apply (IH w1 buf1 i1 Hok1). by rewrite (em_config _ _ _ _ _ Hem).
Qed.

Lemma session_panics fuel datas : forall (w w' : Writer W) buf i p,
  honest_writer -> sync_ok w buf i -> w_closed w = false -> session fuel datas w = (Pan p, w') -> exists r, p = PRun r.
Proof.
  induction datas as [|data datas IH]; intros w w' buf i p Hh Hok Ho H; cbn [session] in H.
  { by eapply Close_panics. }
  pose proof (Write_run fuel data w buf i Hok Ho) as Hw. rewrite bind_run in H.
  destruct (Write fuel data w) as [[[n err]|q|] w1]; [|injection H as -> ->|done].
  - cbn [snd] in H. destruct err as [e|]; [done|]. destruct Hw as (ks & i1 & buf1 & _ & Hem & Hok1 & _).
    eapply (IH w1 w' buf1 i1); [done|done|by rewrite (em_config _ _ _ _ _ Hem)|done].
  - destruct Hw as [[[e ->]|[-> _]] Hn]; [by destruct (Hn e)|by eexists].
Qed.

(** C13: A synchronous session returns: for a writer that [NewWriterCustom] made
    there is an amount of fuel from which on the [Write]s and [Close] end, with
    the same result, unless a run-time error of the language passes through
    [errs.Recover] (the nil [stream] of [blockEncode] is one). An index encoder
    with room comes closer to its end, the writer keeps the contract of
    [io.Writer] and does not return liblzma's end-of-stream status. *)
Theorem sync_session_returns lv check cs (wr : W) wd w s' datas :
  honest_writer -> 0 <= cs -> NewWriterCustom lv check cs WorkersSync (wr, wd) = (Ret (Some w, None), s') ->
  exists fuel o w', (forall fuel', (fuel <= fuel')%nat -> session fuel' datas w = (o, w')) /\
    match o with Ret _ => True | Pan p => exists r, p = PRun r | NoFuel => False end.
Proof.
  intros Hh Hcs Hn. destruct (NewWriterCustom_run _ _ _ _ _ _ _ Hcs Hn) as [[Hok Ho _ _ _ _] _].
  destruct (session_returns datas w _ _ Hok Ho) as [fuel Hf].
  destruct (session fuel datas w) as [o w'] eqn:E0. exists fuel, o, w'. split.
  - intros fuel' Hle. by rewrite (session_more fuel fuel' datas Hle), E0 by (by rewrite E0).
  - destruct o as [r|p|]; [done| |done]. by eapply session_panics.
Qed.

End total.
