(* ===== verification/WriterRuns.v ===== *)
(** Runs of the synchronous xz writer on the small library, and the instances of
    the theorems about it. *)

From S2P Require Import Prelude Bufpipe Lines Errs Liblzma SmallLzma Lib XzConst Literal World LibIndex.
From S2P Require Import Stream StreamPump StreamTerm StreamRuns PipePump Ioutil Writer WriterBlock WriterSync WriterNew WriterSession WriterTotal.

Module WriterRun.
Import Mem.
#[local] Existing Instance Small.liblzma.
#[local] Existing Instance Small.liblzma_spec.
#[local] Existing Instance Small.liblzma_idle.
#[local] Existing Instance Plain.bufpipe.
#[local] Existing Instance Plain.bufpipe_spec.
#[local] Existing Instance PlainErrs.errs.
#[local] Existing Instance PlainErrs.errs_spec.
#[local] Existing Instance PlainIo.ioutil.
#[local] Existing Instance PlainIo.ioutil_spec.

Definition sink : writer := Wr [] 1000000.

Lemma stream_mode_refused_witness :
  (-5 < 0) /\ exists e, NewWriterCustom 6 CheckCRC32 (-5) 0 (sink, empty_world) = (Ret (None, Some e), (sink, empty_world)).
Proof. split; [lia|]. apply stream_mode_refused. lia. Defined.

Lemma sink_honest : honest_writer (W:=writer).
Proof.
  intros wr bs. unfold wr_Write, mem_writer. cbn. by case_match.
Qed.

(** A run that made an object on which [f] holds. *)
Definition made {A B} (o : outcome (option A * error) * B) (f : A -> bool) : bool :=
  match o with (Ret (Some w, None), _) => f w | _ => false end.
Definition succeeded {B} (o : outcome error * B) : bool :=
  match o with (Ret None, _) => true | _ => false end.

Lemma made_run {A B} (o : outcome (option A * error) * B) f :
  made o f = true -> exists w s', o = (Ret (Some w, None), s') /\ f w = true.
Proof. destruct o as [[[[w|] [e|]]| |] s']; try done. cbn. eauto. Qed.

Lemma succeeded_run {B} (o : outcome error * B) : succeeded o = true -> exists w', o = (Ret None, w').
Proof. destruct o as [[[e|]| |] w']; try done. eauto. Qed.

(** A file of two writes, closed. *)
Lemma demo_true :
  made (NewWriterCustom 6 CheckCRC32 0 WorkersSync (sink, empty_world))
    (fun w => succeeded (session 60 [[1; 2; 3]; [4]] w)) = true.
Proof. vm_compute. reflexivity. Qed.

Lemma blockEncodeSync_emits_witness :
  exists w : Writer writer, match blockEncodeSync (block_fuel w) w with
    | (Ret _, w') => exists k i', k_chunk k = [] /\ emitted w lzma_index_empty [k] w' i' /\ sync_ok w' [] i'
    | (Pan p, _) => block_panic p
    | (NoFuel, _) => False
    end.
Proof.
  destruct (made_run _ _ demo_true) as (w & s' & En & _).
  destruct (NewWriterCustom_run _ _ _ _ _ _ _ (Z.le_refl 0) En) as [Ho _].
  exists w. exact (blockEncodeSync_emits _ w [] lzma_index_empty (op_sync _ _ _ _ Ho) (Nat.le_refl _)).
Defined.

Lemma Write_cuts_witness :
  exists w : Writer writer, match Write (write_fuel w [1; 2; 3]) [1; 2; 3] w with
    | (Ret (n, None), w') => exists ks i' buf',
        n = zlen [1; 2; 3] /\ emitted w lzma_index_empty ks w' i' /\ sync_ok w' buf' i' /\ [] ++ [1; 2; 3] = chunks ks ++ buf' /\
        Forall (fun k => zlen (k_chunk k) = w_chunkSize w) ks
    | (Ret (n, Some _), _) => 0 <= n <= zlen [1; 2; 3]
    | (Pan p, _) => block_panic p /\ (forall e, p <> PErr (Some e))
    | (NoFuel, _) => False
    end.
Proof.
  destruct (made_run _ _ demo_true) as (w & s' & En & _).
  destruct (NewWriterCustom_run _ _ _ _ _ _ _ (Z.le_refl 0) En) as [Ho _].
  exists w. exact (Write_cuts _ [1; 2; 3] w [] lzma_index_empty (op_sync _ _ _ _ Ho) (op_open _ _ _ _ Ho) (Nat.le_refl _)).
Defined.

Lemma sync_session_file_witness :
  exists (w w' : Writer writer) hdr wr1 ks wr2 i,
    lzma_stream_header_encode (file_flags CheckCRC32) = (OK, hdr) /\ wrote sink hdr wr1 /\
    cut (clamp_chunk 0) [1; 2; 3; 4] ks /\ Forall (block_ok w) ks /\
    wrote_all wr1 (map k_bytes ks) wr2 /\ indexed lzma_index_empty ks i /\
    footed i (file_flags CheckCRC32) wr2 (w_wr w').
Proof.
  destruct (made_run _ _ demo_true) as (w & s' & En & [w' Es]%succeeded_run).
  exists w, w'. exact (sync_session_file 60 6 CheckCRC32 0 sink empty_world w s' [[1; 2; 3]; [4]] w' sink_honest (Z.le_refl 0) En Es).
Defined.

(** What an index encoder has left. *)
Definition index_work (c : lzma_coder) (m : cmem_t) : nat :=
  match Small.kind_of c with Small.CIndexEnc rest => length rest | _ => 0 end.

Lemma index_coder_kind (c : lzma_coder) m : index_coder c m -> exists rest, Small.kind_of c = Small.CIndexEnc rest.
Proof.
  intros (m0 & a & c0 & inp & out & [= <-] & Hc).
  assert (Hk : forall (c c' : lzma_coder) m m' i o, codes FINISH c m i o c' m' ->
    (exists r, Small.kind_of c = Small.CIndexEnc r) -> exists r, Small.kind_of c' = Small.CIndexEnc r).
  { clear. intros c c' m m' i o H. induction H as [c m|c m inp n r ins outs c' m' -> Hc IH]; [done|]. intros [rs Hk].
    apply IH. cbn. unfold Small.code. rewrite Hk. cbn. by eexists. }
  eapply Hk; [exact Hc|]. by eexists.
Qed.

Lemma small_index_progress c m inp n :
  let r := lzma_code c m (uint32 FINISH) inp n in index_coder c m -> 0 < n ->
  cr_ret r = OK \/ cr_ret r = BUF_ERROR -> (index_work (cr_coder r) (cr_mem r) < index_work c m)%nat.
Proof.
  intros r Hg Hn Hr. destruct (index_coder_kind _ _ Hg) as [rs Hk]. unfold r, index_work in *. cbn in Hr |- *. unfold Small.code in *.
  rewrite Hk in *. cbn in Hr |- *. rewrite length_drop. destruct rs as [|x rs].
  - rewrite drop_nil in Hr. cbn in Hr. unfold OK, BUF_ERROR in Hr. cbn in Hr. rewrite decide_True in Hr by done. cbn in Hr. lia.
  - cbn [length]. lia.
Qed.

Lemma sync_session_returns_witness :
  exists (w : Writer writer) fuel o w', (forall fuel', (fuel <= fuel')%nat -> session fuel' [[1; 2; 3]; [4]] w = (o, w')) /\
    match o with Ret _ => True | Pan p => exists r, p = PRun r | NoFuel => False end.
Proof.
  destruct (made_run _ _ demo_true) as (w & s' & En & _).
  exists w. exact (sync_session_returns StreamRun.mem_write_contract index_work small_index_progress
    6 CheckCRC32 0 sink empty_world w s' [[1; 2; 3]; [4]] sink_honest (Z.le_refl 0) En).
Defined.

End WriterRun.
