(* ===== verification/AsyncWriter.v ===== *)
(** [xz/writer.go], the asynchronous mode: the goroutines around a [Writer].

    The caller's goroutine cuts the data into pipes of the input pool; workers
    encode one pipe each into a pipe of the output pool; one goroutine writes the
    output pipes out in the order of their indices; a monitor sets the number of
    workers. Each goroutine is at a point of its code, and a step runs one of them
    up to its next operation on what they share: the two pools, the channels, the
    [Writer] object, a pipe.

    The encoding of a block is a single step that is taken when its input pipe is
    closed. The code begins earlier and waits inside [ProcessPipe] for the bytes
    that the caller has yet to write; what it did so far is seen by nobody until
    it closes the output pipe. An encoding that fails before its input is complete
    is the step [LFail]. *)

From S2P Require Import Prelude Bufpipe Pool PoolView WorkerPool Errs Liblzma SmallLzma Lib XzConst.
From S2P Require Import World LibIndex Stream Ioutil PipeClose Writer.

(** The result of encoding one block; a [*sizeStats] is an address. *)
Record sizeStats : Type := SizeStats { unpadSize : Z; uncompSize : Z }.

(** [make(chan error, 1)]. *)
Record errchan : Type := ErrChan { ec_buf : list error; ec_closed : bool }.

(** A send and a receive; [None] where the goroutine waits. A receive from a
    closed channel gives nil. *)
Definition send (e : error) (c : errchan) : option errchan :=
  match ec_buf c with [] => Some (ErrChan [e] (ec_closed c)) | _ => None end.
Definition receive (c : errchan) : option (error * errchan) :=
  match ec_buf c with
  | e :: r => Some (e, ErrChan r (ec_closed c))
  | [] => if ec_closed c then Some (None, c) else None
  end.

(** * The points of the goroutines *)

(** The caller: [todo] are the [Write]s it still has to make before [Close]. It
    gives up at the first error. *)
Inductive main_pc : Type :=
| MNext (todo : list (list Z))
| MLoop (data : list Z) (cnt : Z) (todo : list (list Z))
| MGet (data : list Z) (cnt : Z) (todo : list (list Z))
| MFull (data : list Z) (cnt : Z) (todo : list (list Z))
| MStop (cnt : Z) (todo : list (list Z))
| MShut
| MWait
| MDone (err : error).

Inductive worker_pc : Type :=
| KGet
| KOut (inBuf sizes : loc)
| KEncode (inBuf sizes outBuf : loc)
| KClose (inBuf outBuf : loc) (err : error)
| KRestore (inBuf : loc)
| KSelect.

Inductive writer_pc : Type :=
| WGet (index : Z)
| WWrite (index : Z) (outBuf : loc)
| WAppend (index : Z) (outBuf : loc) (wrErr : error)
| WRestore (index : Z) (outBuf : loc) (wrErr ixErr : error)
| WLast (index : Z)
| WSend (err : error)
| WClose
| WDone
| WEnd.

(** The monitor runs straight through: what it has left to do. *)
Inductive mon_op : Type :=
| NIn (n : Z) | NOut (n : Z) | NWork (n : Z)
| NWait
| NTermWork | NTermOut | NTermIn.

Section async.
Context {BP : Bufpipe} {BC : BufpipeClose BP} {L : Liblzma} {E : Errs} {IU : Ioutil} {W : Type} {IW : IoWriter W}.

(** * The state *)

(** The fields of [Writer] for the asynchronous mode next to those of the record
    [Writer], and the goroutines. [as_crash] is a panic that nobody recovered. *)
Record async : Type := Async {
  as_w : Writer W;
  as_idx : Z;
  as_pipe : option loc;
  as_inPool : @psys BP unit;
  as_outPool : @psys BP loc;
  as_sizes : gmap loc sizeStats;
  as_workPool : workerPool;
  as_errChan : errchan;
  as_doneChan : bool;
  as_lastErr : error;
  as_main : main_pc;
  as_worker : gmap chan worker_pc;
  as_writer : writer_pc;
  as_monitor : list mon_op;
  as_crash : option panicval;
}.

Definition set_w v s := Async v (as_idx s) (as_pipe s) (as_inPool s) (as_outPool s) (as_sizes s)
  (as_workPool s) (as_errChan s) (as_doneChan s) (as_lastErr s) (as_main s) (as_worker s) (as_writer s)
  (as_monitor s) (as_crash s).
Definition set_pipe i v s := Async (as_w s) i v (as_inPool s) (as_outPool s) (as_sizes s)
  (as_workPool s) (as_errChan s) (as_doneChan s) (as_lastErr s) (as_main s) (as_worker s) (as_writer s)
  (as_monitor s) (as_crash s).
Definition set_inPool v s := Async (as_w s) (as_idx s) (as_pipe s) v (as_outPool s) (as_sizes s)
  (as_workPool s) (as_errChan s) (as_doneChan s) (as_lastErr s) (as_main s) (as_worker s) (as_writer s)
  (as_monitor s) (as_crash s).
Definition set_outPool v s := Async (as_w s) (as_idx s) (as_pipe s) (as_inPool s) v (as_sizes s)
  (as_workPool s) (as_errChan s) (as_doneChan s) (as_lastErr s) (as_main s) (as_worker s) (as_writer s)
  (as_monitor s) (as_crash s).
Definition set_sizes v s := Async (as_w s) (as_idx s) (as_pipe s) (as_inPool s) (as_outPool s) v
  (as_workPool s) (as_errChan s) (as_doneChan s) (as_lastErr s) (as_main s) (as_worker s) (as_writer s)
  (as_monitor s) (as_crash s).
Definition set_workPool v s := Async (as_w s) (as_idx s) (as_pipe s) (as_inPool s) (as_outPool s) (as_sizes s)
  v (as_errChan s) (as_doneChan s) (as_lastErr s) (as_main s) (as_worker s) (as_writer s)
  (as_monitor s) (as_crash s).
Definition set_chans c d e s := Async (as_w s) (as_idx s) (as_pipe s) (as_inPool s) (as_outPool s) (as_sizes s)
  (as_workPool s) c d e (as_main s) (as_worker s) (as_writer s) (as_monitor s) (as_crash s).
Definition set_main v s := Async (as_w s) (as_idx s) (as_pipe s) (as_inPool s) (as_outPool s) (as_sizes s)
  (as_workPool s) (as_errChan s) (as_doneChan s) (as_lastErr s) v (as_worker s) (as_writer s)
  (as_monitor s) (as_crash s).
Definition set_worker v s := Async (as_w s) (as_idx s) (as_pipe s) (as_inPool s) (as_outPool s) (as_sizes s)
  (as_workPool s) (as_errChan s) (as_doneChan s) (as_lastErr s) (as_main s) v (as_writer s)
  (as_monitor s) (as_crash s).
Definition set_writer v s := Async (as_w s) (as_idx s) (as_pipe s) (as_inPool s) (as_outPool s) (as_sizes s)
  (as_workPool s) (as_errChan s) (as_doneChan s) (as_lastErr s) (as_main s) (as_worker s) v
  (as_monitor s) (as_crash s).
Definition set_monitor v s := Async (as_w s) (as_idx s) (as_pipe s) (as_inPool s) (as_outPool s) (as_sizes s)
  (as_workPool s) (as_errChan s) (as_doneChan s) (as_lastErr s) (as_main s) (as_worker s) (as_writer s)
  v (as_crash s).
Definition crash p s := Async (as_w s) (as_idx s) (as_pipe s) (as_inPool s) (as_outPool s) (as_sizes s)
  (as_workPool s) (as_errChan s) (as_doneChan s) (as_lastErr s) (as_main s) (as_worker s) (as_writer s)
  (as_monitor s) (Some p).

(** The goroutines by name, for the condition variables of the pools. *)
Definition main_tid : tid := 0%nat.
Definition writer_tid : tid := 1%nat.
Definition worker_tid (c : chan) : tid := S (Pos.to_nat c).

(** A pipe of a pool, and a change of it. *)
Definition pipe_of {D} (p : @psys BP D) (l : loc) : option BufferPipe := p_buf <$> heap (base p) !! l.
Definition on_buf {D} (f : BufferPipe -> BufferPipe) (l : loc) (p : @psys BP D) : @psys BP D :=
  PSys (PoolSt (pp (base p)) (alter (fun q => Pipe (f (p_buf q)) (p_idx q) (p_data q)) l (heap (base p))))
       (pending p).

(** * The caller *)

(** A call of the caller returned: it goes on, or stops at the error. *)
Definition returned (todo : list (list Z)) (o : outcome (Z * error)) (s : async) : async :=
  match o with
  | Ret (_, None) => set_main (MNext todo) s
  | Ret (_, Some e) => set_main (MDone (Some e)) s
  | Pan p => crash p s
  | NoFuel => s
  end.

(** [checkErr] up to its last line: the error it panics with, [None] while
    it waits for the channel. *)
Definition checkErr (s : async) : option (error * async) :=
  match as_lastErr s with
  | Some e => Some (Some e, s)
  | None =>
      '(e, c) ← receive (as_errChan s);
      Some (e, set_chans c (as_doneChan s) e s)
  end.

(** [Write] after its loop was left early, with what [checkErr] found. *)
Definition write_stop (err : error) : M Z (Z * error) :=
  with_recover id (
    Prelude.call (errs_Panic err);;
    Prelude.call (errs_Panic (Some ErrShortWrite));;
    cnt ← get;
    mret (cnt, None)).

(** One turn of the loop of [Write], from the test of its condition to the
    next operation on a pool. *)
Definition write_loop (data : list Z) (cnt : Z) (todo : list (list Z)) (s : async) : option async :=
  if cnt <? zlen data then
    match as_pipe s with
    | None => Some (set_main (MGet data cnt todo) s)
    | Some l =>
        p ← pipe_of (as_inPool s) l;
        rest ← zdrop data cnt;
        let '((rdCnt, err), p) := bp_Write p rest in
        let s := set_inPool (on_buf (fun _ => p) l (as_inPool s)) s in
        let cnt := cnt + rdCnt in
        if decide (err = Some ErrShortWrite) then Some (set_main (MFull data cnt todo) s)
        else if decide (err = None) then Some (set_main (MLoop data cnt todo) s)
        else Some (set_main (MStop cnt todo) s)
    end
  else if cnt =? zlen data then Some (set_main (MNext todo) s)
  else Some (set_main (MStop cnt todo) s).

(** [w.inPool.getWriter(w.idx, w.inSize, w.inMode, nil)] *)
Definition write_get (ch : choice) (data : list Z) (cnt : Z) (todo : list (list Z)) (s : async) : option async :=
  '(o, p) ← enter ch main_tid (CWriter (as_idx s) (w_inSize (as_w s)) (w_inMode (as_w s)) None) (as_inPool s);
  let s := set_inPool p s in
  match o with
  | Ret None => Some s
  | Ret (Some None) => Some (set_main (MStop cnt todo) s)
  | Ret (Some (Some l)) => Some (set_main (MLoop data cnt todo) (set_pipe (as_idx s + 1) (Some l) s))
  | Pan p => Some (returned todo (with_recover id (panic p) cnt).1 s)
  | NoFuel => None
  end.

(** [w.pipe.Close(); w.pipe = nil] *)
Definition drop_pipe (s : async) : async :=
  match as_pipe s with
  | Some l => set_pipe (as_idx s) None (set_inPool (on_buf bp_Close l (as_inPool s)) s)
  | None => s
  end.

(** The end of [Close], with what [checkErr] found. *)
Definition close_tail (fuel : nat) (err : error) : M (Writer W) (unit * error) :=
  w ← get;
  with_recover (fun _ => tt) (
    with_defer (on_world (End (Some (w_index w)))) (
      Prelude.call (errs_Panic err);;
      (if w_chunkSize w =? ChunkStream then finish_stream fuel (write_footer fuel)
       else write_footer fuel);;
      mret (tt, None))).

Definition main_step (ch : choice) (fuel : nat) (s : async) : option async :=
  match as_main s with
  | MNext (data :: todo) =>
      if w_closed (as_w s) then Some (set_main (MDone (Some ErrClosedPipe)) s)
      else Some (set_main (MLoop data 0 todo) s)
  | MLoop data cnt todo => write_loop data cnt todo s
  | MGet data cnt todo => write_get ch data cnt todo s
  | MFull data cnt todo => Some (set_main (MLoop data cnt todo) (drop_pipe s))
  | MStop cnt todo =>
      '(err, s) ← checkErr s;
      Some (returned todo (write_stop err cnt).1 s)
  | MNext [] =>
      if w_closed (as_w s) then Some (set_main (MDone None) s)
      else Some (set_main MShut (drop_pipe (set_w (set_closed (as_w s)) s)))
  | MShut =>
      let '(_, p) := request ch RClose (as_inPool s) in
      Some (set_main MWait (set_inPool p s))
  | MWait =>
      '(err, s) ← checkErr s;
      match close_tail fuel err (as_w s) with
      | (Ret (_, err), w) => Some (set_main (MDone err) (set_w w s))
      | (Pan p, w) => Some (crash p (set_w w s))
      | (NoFuel, _) => None
      end
  | MDone _ => None
  end.

(** * The workers *)

(** The function literal inside [worker]: the sizes, in the mode with blocks,
    and the error. *)
Definition encode_body (fuel : nat) (wrBuf rdBuf : option loc) : M (Writer W) (option (Z * Z) * error) :=
  with_recover (fun _ => None) (
    w ← get;
    if negb (w_chunkSize w =? ChunkStream) then
      r ← blockEncode fuel wrBuf rdBuf;
      mret (Some r, None)
    else
      r ← on_stream (stream_ProcessPipe fuel RUN wrBuf rdBuf);
      let '(_, _, err) := r in
      Prelude.call (errs_Panic (errs_Ignore err [Some EOF]));;
      mret (None, None)).

(** A computation on two pipes that live in the pools. *)
Definition with_pipes {A} (dst src : BufferPipe) (m : option loc -> option loc -> M (Writer W) A)
    (w : Writer W) : outcome A * (BufferPipe * BufferPipe * Writer W) :=
  let wd := w_world w in
  let d := 1%positive in
  let r := 2%positive in
  let '(o, w') := m (Some d) (Some r) (set_wr_world (w_wr w) (set_pipes {[d := dst; r := src]} wd) w) in
  let wd' := w_world w' in
  (o, (default dst (pipes wd' !! d), default src (pipes wd' !! r),
       set_wr_world (w_wr w') (set_pipes (pipes wd) wd') w')).

Definition at_worker (c : chan) (pc : worker_pc) (s : async) : async :=
  set_worker (<[c := pc]> (as_worker s)) s.

(** The deferred [group.Done()]. *)
Definition worker_return (c : chan) (s : async) : async :=
  set_worker (delete c (as_worker s)) (set_workPool (worker_exit c (as_workPool s)) s).

(** The encoding of a block whose input is complete. *)
Definition worker_encode (fuel : nat) (c : chan) (inBuf sizes outBuf : loc) (s : async) : option async :=
  src ← pipe_of (as_inPool s) inBuf;
  dst ← pipe_of (as_outPool s) outBuf;
  if bp_Closed src then
    match with_pipes dst src (encode_body fuel) (as_w s) with
    | (Ret (r, err), (dst, src, w)) =>
        let s := set_inPool (on_buf (fun _ => src) inBuf (as_inPool s)) (set_w w s) in
        let s := set_outPool (on_buf (fun _ => dst) outBuf (as_outPool s)) s in
        let s := match r with
                 | Some (u, c) => set_sizes (<[sizes := SizeStats u c]> (as_sizes s)) s
                 | None => s
                 end in
        Some (at_worker c (KClose inBuf outBuf err) s)
    | (Pan p, (_, _, w)) => Some (crash p (set_w w s))
    | (NoFuel, _) => None
    end
  else None.

(** An encoding that fails while its input pipe is still open. What it read
    and wrote so far is gone with the two pipes. *)
Definition worker_fail (c : chan) (e : goerr) (s : async) : option async :=
  match as_worker s !! c with
  | Some (KEncode inBuf _ outBuf) =>
      src ← pipe_of (as_inPool s) inBuf;
      if bp_Closed src then None else Some (at_worker c (KClose inBuf outBuf (Some e)) s)
  | _ => None
  end.

Definition worker_step (ch : choice) (fuel : nat) (c : chan) (s : async) : option async :=
  pc ← as_worker s !! c;
  match pc with
  | KGet => (* for w.inPool.iterReader(&inBuf) { sizes := new(sizeStats) *)
      '(o, p) ← enter ch (worker_tid c) (CReader (-1)) (as_inPool s);
      let s := set_inPool p s in
      match o with
      | Ret None => Some s
      | Ret (Some None) => Some (worker_return c s)
      | Ret (Some (Some l)) =>
          let z := fresh (dom (as_sizes s)) in
          Some (at_worker c (KOut l z) (set_sizes (<[z := SizeStats 0 0]> (as_sizes s)) s))
      | Pan p => Some (crash p s)
      | NoFuel => None
      end
  | KOut l z =>
      let idx := idx_of (heap (base (as_inPool s))) l in
      '(o, p) ← enter ch (worker_tid c) (CWriter idx (w_outSize (as_w s)) (w_outMode (as_w s)) (Some z))
                      (as_outPool s);
      let s := set_outPool p s in
      match o with
      | Ret None => Some s
      | Ret (Some None) => Some (at_worker c (KRestore l) s)
      | Ret (Some (Some m)) => Some (at_worker c (KEncode l z m) s)
      | Pan p => Some (crash p s)
      | NoFuel => None
      end
  | KEncode l z m => worker_encode fuel c l z m s
  | KClose l m err =>
      Some (at_worker c (KRestore l)
        (set_outPool (on_buf (fun p => bp_CloseWithError p err) m (as_outPool s)) s))
  | KRestore l =>
      let '(o, p) := request ch (RRestore (Some l)) (as_inPool s) in
      let s := set_inPool p s in
      match o with
      | Ret _ => Some (at_worker c KSelect s)
      | Pan p => Some (crash p s)
      | NoFuel => None
      end
  | KSelect =>
      if as_doneChan s || bool_decide (c ∈ closed_chans (as_workPool s)) then Some (worker_return c s)
      else Some (at_worker c KGet s)
  end.

(** [wp.end()], which is [w.outPool.close], once [group.Wait()] returned. *)
Definition end_step (ch : choice) (s : async) : option async :=
  let wp := as_workPool s in
  if waiting wp && (group wp =? 0) then
    let s := set_workPool (monitor_end wp) s in
    if has_end wp then
      let '(_, p) := request ch RClose (as_outPool s) in Some (set_outPool p s)
    else Some s
  else None.

(** * The writer *)

(** [defer errs.Recover(&err)] of [writer]. *)
Definition writer_panic (p : panicval) (s : async) : async :=
  match errs_Recover p None with
  | Some err => set_writer (WSend err) s
  | None => crash p s
  end.

(** The type assertion on [outBuf.data]. *)
Definition stats_of (m : loc) (s : async) : option sizeStats :=
  q ← heap (base (as_outPool s)) !! m;
  z ← p_data q;
  as_sizes s !! z.

Definition writer_append (index : Z) (m : loc) (wrErr : error) (s : async) : async :=
  match stats_of m s with
  | Some ss =>
      if negb (unpadSize ss =? 0) then
        match on_world (Index_Append (w_index (as_w s)) (unpadSize ss) (uncompSize ss)) (as_w s) with
        | (Ret ixErr, w) => set_writer (WRestore index m wrErr ixErr) (set_w w s)
        | (Pan p, w) => writer_panic p (set_w w s)
        | (NoFuel, _) => s
        end
      else set_writer (WRestore index m wrErr None) s
  | None => set_writer (WRestore index m wrErr None) s
  end.

(** [terminate]: closing a closed channel panics, which [NilRecover] stops. *)
Definition terminate (s : async) : async := set_chans (as_errChan s) true (as_lastErr s) s.

Definition writer_step (ch : choice) (s : async) : option async :=
  match as_writer s with
  | WGet index => (* for w.outPool.iterReaderIdx(&outBuf, &index) *)
      '(o, p) ← enter ch writer_tid (CReader index) (as_outPool s);
      let s := set_outPool p s in
      match o with
      | Ret None => Some s
      | Ret (Some None) => Some (set_writer (WLast (index + 1)) s)
      | Ret (Some (Some m)) => Some (set_writer (WWrite (index + 1) m) s)
      | Pan p => Some (writer_panic p s)
      | NoFuel => None
      end
  | WWrite index m =>
      p ← pipe_of (as_outPool s) m;
      if bp_Closed p then
        let '((_, wrErr), (p, wr)) := bp_WriteTo p (w_wr (as_w s)) in
        let s := set_outPool (on_buf (fun _ => p) m (as_outPool s)) s in
        Some (set_writer (WAppend index m wrErr) (set_w (set_wr_world wr (w_world (as_w s)) (as_w s)) s))
      else None
  | WAppend index m wrErr => Some (writer_append index m wrErr s)
  | WRestore index m wrErr ixErr =>
      let '(o, p) := request ch (RRestore (Some m)) (as_outPool s) in
      let s := set_outPool p s in
      match o with
      | Ret _ => match errs_Panic (errs_First [wrErr; ixErr]) with
                 | Ret _ => Some (set_writer (WGet index) s)
                 | Pan p => Some (writer_panic p s)
                 | NoFuel => None
                 end
      | Pan p => Some (writer_panic p s)
      | NoFuel => None
      end
  | WLast _ => (* errs.Assert(w.outPool.getReader(-1) == nil, dataError) *)
      '(o, p) ← enter ch writer_tid (CReader (-1)) (as_outPool s);
      let s := set_outPool p s in
      match o with
      | Ret None => Some s
      | Ret (Some r) => match errs_Assert (bool_decide (r = None)) (Some dataError) with
                        | Ret _ => Some (set_writer (WSend None) s)
                        | Pan p => Some (writer_panic p s)
                        | NoFuel => None
                        end
      | Pan p => Some (writer_panic p s)
      | NoFuel => None
      end
  | WSend err =>
      c ← send err (as_errChan s);
      Some (set_writer WClose (set_chans c (as_doneChan s) (as_lastErr s) s))
  | WClose =>
      Some (set_writer WDone
        (set_chans (ErrChan (ec_buf (as_errChan s)) true) (as_doneChan s) (as_lastErr s) s))
  | WDone => Some (set_writer WEnd (terminate s))
  | WEnd => None
  end.

(** * The monitor *)

(** [runtime.NumCPU()] *)
Context (NumCPU : Z).

Definition set_capacity (resCnt : Z) : list mon_op := [NIn resCnt; NOut resCnt; NWork resCnt].

Definition monitor_code (w : Writer W) : list mon_op :=
  set_capacity 1 ++
  (if negb (w_chunkSize w =? ChunkStream) then
     if w_maxWorkers w =? WorkersMax then set_capacity NumCPU else set_capacity (w_maxWorkers w)
   else []) ++
  [NWait; NTermWork; NTermOut; NTermIn].

(** The new goroutines of [setCapacity] start at the top of [worker]. *)
Definition spawned_at (wp wp' : workerPool) (ws : gmap chan worker_pc) : gmap chan worker_pc :=
  gset_to_gmap KGet (running wp' ∖ running wp) ∪ ws.

Definition monitor_op (ch : choice) (op : mon_op) (s : async) : option async :=
  match op with
  | NIn n => let '(_, p) := request ch (RSetCapacity n) (as_inPool s) in Some (set_inPool p s)
  | NOut n => let '(_, p) := request ch (RSetCapacity n) (as_outPool s) in Some (set_outPool p s)
  | NWork n =>
      let wp := as_workPool s in
      match WorkerPool.setCapacity (turns n wp) n wp with
      | (Ret _, wp') => Some (set_worker (spawned_at wp wp' (as_worker s)) (set_workPool wp' s))
      | (Pan p, wp') => Some (crash p (set_workPool wp' s))
      | (NoFuel, _) => None
      end
  | NWait => if as_doneChan s then Some s else None
  | NTermWork =>
      match WorkerPool.terminate (as_workPool s) with
      | (Ret _, wp) => Some (set_workPool wp s)
      | (Pan p, wp) => Some (crash p (set_workPool wp s))
      | (NoFuel, _) => None
      end
  | NTermOut => let '(_, p) := request ch RTerminate (as_outPool s) in Some (set_outPool p s)
  | NTermIn => let '(_, p) := request ch RTerminate (as_inPool s) in Some (set_inPool p s)
  end.

Definition monitor_step (ch : choice) (s : async) : option async :=
  match as_monitor s with
  | [] => None
  | op :: rest => monitor_op ch op (set_monitor rest s)
  end.

(** * The transition relation *)

(** Which goroutine moves, and the choices of the run-time system. *)
Inductive label : Type :=
| LMain (ch : choice) (fuel : nat)
| LWorker (ch : choice) (fuel : nat) (c : chan)
| LFail (c : chan) (e : goerr)
| LEnd (ch : choice)
| LWriter (ch : choice)
| LMonitor (ch : choice).

Definition exec (lab : label) (s : async) : option async :=
  match as_crash s with
  | Some _ => None
  | None =>
      match lab with
      | LMain ch fuel => main_step ch fuel s
      | LWorker ch fuel c => worker_step ch fuel c s
      | LFail c e => worker_fail c e s
      | LEnd ch => end_step ch s
      | LWriter ch => writer_step ch s
      | LMonitor ch => monitor_step ch s
      end
  end.

Definition astep (s s' : async) : Prop := exists lab, exec lab s = Some s'.

(** The asynchronous part of [NewWriterCustom], for an object that is complete
    otherwise, and a caller that will write [datas]. *)
Definition start (w : Writer W) (datas : list (list Z)) : async :=
  Async w 0 None psys0 psys0 ∅ (newWorkerPool true) (ErrChan [] false) false None
    (MNext datas) ∅ (WGet 0) (monitor_code w) None.

Definition areachable (w : Writer W) (datas : list (list Z)) (s : async) : Prop := rtc astep (start w datas) s.

(** A run-time system for concrete runs: [n] rounds in which the goroutines of
    [labs] have their turns, those that wait being passed over. *)
Definition turn (s : async) (lab : label) : async := default s (exec lab s).
Fixpoint rounds (n : nat) (labs : list label) (s : async) : async :=
  match n with O => s | S n => rounds n labs (foldl turn s labs) end.

Lemma rounds_steps labs n : forall s, rtc astep s (rounds n labs s).
Proof.
  assert (HT : forall l s, rtc astep s (foldl turn s l)).
  { induction l as [|lab l IH]; intros s; [constructor|]. cbn [foldl]. unfold turn at 2.
    destruct (exec lab s) as [s'|] eqn:E0; [|apply IH]. eapply rtc_l; [by exists lab|apply IH]. }
  induction n as [|n IH]; intros s; [constructor|]. cbn [rounds]. etransitivity; [apply HT|apply IH].
Qed.

End async.
Arguments async {BP L} W.
