(* ===== verification/AsyncInv.v ===== *)
(** The invariant of the asynchronous writer while its writing goroutine runs:
    where each block of the data is on its way through the two pools. *)

From S2P Require Import Prelude Bufpipe Pool PoolInv PoolView WorkerPool Lines Errs Liblzma SmallLzma Lib XzConst.
From S2P Require Import Literal World LibIndex Stream StreamPump PipePump Ioutil PipeClose Writer WriterBlock.
From S2P Require Import WriterSync WriterNew WriterSession AsyncWriter.

Section inv.
Context {BP : Bufpipe} {BC : BufpipeClose BP} {L : Liblzma} {E : Errs} {IU : Ioutil} {W : Type} {IW : IoWriter W}.

(** The object that the constructor made, and the data that will be written. *)
Context (w0 : Writer W) (data : list Z).
Implicit Types (s : async W) (k : Z) (l m z : loc) (c : chan).

(** * What a block's index leads to *)

Definition ib s : @poolst BP unit := base (as_inPool s).
Definition ob s : @poolst BP loc := base (as_outPool s).
Definition in_ready s k : option loc := Pool.entries (ready (pp (ib s))) !! k.
Definition in_active s k : option loc := Pool.entries (active (pp (ib s))) !! k.
Definition out_ready s k : option loc := Pool.entries (ready (pp (ob s))) !! k.
Definition out_active s k : option loc := Pool.entries (active (pp (ob s))) !! k.

(** The output pipe of a block that is not written yet. *)
Definition slot s k : option loc :=
  match out_ready s k with
  | Some m => Some m
  | None => match as_writer s with
            | WWrite j m => if j =? k + 1 then Some m else None
            | _ => None
            end
  end.

(** The blocks below this index have left the output pool. *)
Definition past s : Z :=
  match as_writer s with
  | WGet j => j
  | WWrite j _ => j - 1
  | WAppend j _ _ | WRestore j _ _ _ => j
  | WLast j => j - 1
  | _ => 0
  end.

(** The pipe that a worker took from the input pool. *)
Definition holds (pc : worker_pc) : option loc :=
  match pc with
  | KOut l _ | KEncode l _ _ | KClose l _ _ | KRestore l => Some l
  | KGet | KSelect => None
  end.

(** The caller is done with the chunk [k]. *)
Definition sealed s k : Prop := as_pipe s = None \/ k < as_idx s - 1.
Definition current s k l : Prop := as_pipe s = Some l /\ k = as_idx s - 1.

(** * The stages of a block

    [cs] are the chunks so far, [zo] tells for which block a [sizeStats] was
    made. *)
Section stages.
Context (cs : list (list Z)) (zo : gmap loc Z).

Definition chunk_at k : option (list Z) := cs !! Z.to_nat k.

(** The input pipe of the chunk [k], which nobody has read from. *)
Definition in_line s k l : Prop :=
  exists q chunk cl, heap (ib s) !! l = Some q /\ chunk_at k = Some chunk /\
    @line_in _ LineDual (p_buf q) (w_chunkSize w0) cl 0 chunk /\
    if (cl : bool) then sealed s k else current s k l.

(** [bytes] are the block of the chunk [k]. *)
Definition block_at s k (bytes : list Z) (u v : Z) : Prop :=
  sealed s k /\ u <> 0 /\ exists chunk, chunk_at k = Some chunk /\ block_ok w0 (Blk chunk bytes u v).

(** The output pipe at [m] has the block [k], and its sizes are recorded. *)
Definition filled s k m (closed : bool) (bytes : list Z) (u v : Z) : Prop :=
  exists q z, heap (ob s) !! m = Some q /\ p_data q = Some z /\ zo !! z = Some k /\
    as_sizes s !! z = Some (SizeStats u v) /\ line (p_buf q) (w_maxSize w0) closed 0 bytes /\ block_at s k bytes u v.

Definition got s k l z : Prop :=
  in_active s k = Some l /\ in_line s k l /\ zo !! z = Some k /\ slot s k = None.

Definition encoding s k l z m : Prop :=
  in_active s k = Some l /\ in_line s k l /\ zo !! z = Some k /\ slot s k = Some m /\
  exists q, heap (ob s) !! m = Some q /\ p_data q = Some z /\ line (p_buf q) (w_maxSize w0) false 0 [].

Definition closing s k l m (err : error) : Prop :=
  in_active s k = Some l /\ slot s k = Some m /\
  match err with
  | Some _ => exists q, heap (ob s) !! m = Some q /\ bp_Mode (p_buf q) = LineMono /\ bp_Closed (p_buf q) = false
  | None => exists bytes u v, filled s k m false bytes u v
  end.

(** [WriteTo] reports the error that the pipe was closed with. *)
Definition faulty s m : Prop :=
  exists q, heap (ob s) !! m = Some q /\ bp_Closed (p_buf q) = true /\ forall wr : W, (bp_WriteTo (p_buf q) wr).1.2 <> None.

Definition finished s k m : Prop :=
  slot s k = Some m /\ (faulty s m \/ exists bytes u v, filled s k m true bytes u v).

(** The block [k] has the output pipe [m]. *)
Definition slotted s k m : Prop :=
  (exists c l z, as_worker s !! c = Some (KEncode l z m) /\ encoding s k l z m) \/
  (exists c l err, as_worker s !! c = Some (KClose l m err) /\ closing s k l m err) \/
  finished s k m.

(** A block that was begun and not written yet. *)
Definition live s k : Prop :=
  (exists l, in_ready s k = Some l /\ in_line s k l /\ slot s k = None) \/
  (exists c l z, as_worker s !! c = Some (KOut l z) /\ got s k l z) \/
  exists m, slotted s k m.

Definition worker_ok s (pc : worker_pc) : Prop :=
  match pc with
  | KGet | KSelect => True
  | KOut l z => exists k, past s <= k < as_idx s /\ got s k l z
  | KEncode l z m => exists k, past s <= k < as_idx s /\ encoding s k l z m
  | KClose l m err => exists k, past s <= k < as_idx s /\ closing s k l m err
  | KRestore l => exists k, in_active s k = Some l
  end.

(** Every block on its way. *)
Record blocks s : Prop := {
  bk_len : zlen cs = as_idx s;
  bk_past : 0 <= past s <= as_idx s;
  bk_live k : past s <= k < as_idx s -> live s k;
  bk_queue k l : in_ready s k = Some l ->
    past s <= k < as_idx s /\ in_line s k l /\ slot s k = None /\ in_active s k = None;
  bk_active k l : in_active s k = Some l -> 0 <= k < as_idx s;
  bk_slot k m : slot s k = Some m -> past s <= k < as_idx s /\ slotted s k m;
  bk_workers c pc : as_worker s !! c = Some pc -> worker_ok s pc;
  bk_holds c c' pc pc' l : as_worker s !! c = Some pc -> as_worker s !! c' = Some pc' ->
    holds pc = Some l -> holds pc' = Some l -> c = c';
  bk_sizes z k : zo !! z = Some k -> is_Some (as_sizes s !! z);
}.

End stages.

(** * Steps and blocks

    From [s] to [s'], the block [k] stays where it is. *)
Record moves (cs cs' : list (list Z)) (zo zo' : gmap loc Z) s s' k : Prop := {
  mv_ready : in_ready s' k = in_ready s k;
  mv_active : in_active s' k = in_active s k;
  mv_slot : slot s' k = slot s k;
  mv_out m : slot s k = Some m -> heap (ob s') !! m = heap (ob s) !! m;
  mv_zo z : zo !! z = Some k -> zo' !! z = Some k;
  mv_workers c pc l : as_worker s !! c = Some pc -> holds pc = Some l -> in_active s k = Some l ->
    as_worker s' !! c = Some pc;
  mv_line l : in_ready s k = Some l \/ in_active s k = Some l -> in_line cs s k l -> in_line cs' s' k l;
  mv_filled m b bytes u v : slot s k = Some m -> filled cs zo s k m b bytes u v ->
    filled cs' zo' s' k m b bytes u v;
}.

(** Nothing that belongs to the block [k] changes. *)
Record agree (zo : gmap loc Z) s s' k : Prop := {
  ag_sealed : sealed s k -> sealed s' k;
  ag_current l : current s k l -> current s' k l;
  ag_ready : in_ready s' k = in_ready s k;
  ag_active : in_active s' k = in_active s k;
  ag_in l : in_ready s k = Some l \/ in_active s k = Some l -> heap (ib s') !! l = heap (ib s) !! l;
  ag_slot : slot s' k = slot s k;
  ag_out m : slot s k = Some m -> heap (ob s') !! m = heap (ob s) !! m;
  ag_sizes z : zo !! z = Some k -> as_sizes s' !! z = as_sizes s !! z;
  ag_workers c pc l : as_worker s !! c = Some pc -> holds pc = Some l -> in_active s k = Some l ->
    as_worker s' !! c = Some pc;
}.

Lemma agree_moves cs cs' zo zo' s s' k :
  chunk_at cs' k = chunk_at cs k -> (forall z, zo !! z = Some k -> zo' !! z = Some k) ->
  agree zo s s' k -> moves cs cs' zo zo' s s' k.
Proof.
  intros Hcs Hzo A. split; try apply A; [done|..].
  - intros l Hl (q & chunk & cl & Hq & Hch & Hln & Hcl). exists q, chunk, cl.
    rewrite Hcs, (ag_in _ _ _ _ A l Hl). split_and!; try done.
    destruct cl; [by apply (ag_sealed _ _ _ _ A)|by apply (ag_current _ _ _ _ A)].
  - intros m b bytes u v Hm (q & z & Hq & Hd & Hz & Hs & Hl & Hb & Hu & chunk & Hch & Hok). exists q, z.
    rewrite (ag_out _ _ _ _ A m Hm), (ag_sizes _ _ _ _ A z Hz). split_and!; try done; [by apply Hzo|].
    split; [by apply (ag_sealed _ _ _ _ A)|]. split; [done|]. exists chunk. by rewrite Hcs.
Qed.

Section frame.
Context (cs cs' : list (list Z)) (zo zo' : gmap loc Z) s s' k (A : moves cs cs' zo zo' s s' k).

Lemma got_moves l z : got cs zo s k l z -> got cs' zo' s' k l z.
Proof.
  intros (H1 & H2 & H3 & H4). unfold got. rewrite (mv_active _ _ _ _ _ _ _ A), (mv_slot _ _ _ _ _ _ _ A).
  split_and!; auto; [apply A; auto|by apply A].
Qed.

Lemma encoding_moves l z m : encoding cs zo s k l z m -> encoding cs' zo' s' k l z m.
Proof.
  intros (H1 & H2 & H3 & H4 & H5). unfold encoding.
  rewrite (mv_active _ _ _ _ _ _ _ A), (mv_slot _ _ _ _ _ _ _ A), (mv_out _ _ _ _ _ _ _ A m H4).
  split_and!; auto; [apply A; auto|by apply A].
Qed.

Lemma closing_moves l m err : closing cs zo s k l m err -> closing cs' zo' s' k l m err.
Proof.
  intros (H1 & H2 & H3). unfold closing. rewrite (mv_active _ _ _ _ _ _ _ A), (mv_slot _ _ _ _ _ _ _ A).
  split_and!; auto. destruct err.
  - by rewrite (mv_out _ _ _ _ _ _ _ A m H2).
  - destruct H3 as (bytes & u & v & H3). exists bytes, u, v. by apply A.
Qed.

Lemma finished_moves m : finished cs zo s k m -> finished cs' zo' s' k m.
Proof.
  intros (H1 & H2). unfold finished, faulty.
  rewrite (mv_slot _ _ _ _ _ _ _ A), (mv_out _ _ _ _ _ _ _ A m H1). split; [done|].
  destruct H2 as [H2|(bytes & u & v & H2)]; [by left|]. right. exists bytes, u, v. by apply A.
Qed.

Lemma slotted_moves m : slotted cs zo s k m -> slotted cs' zo' s' k m.
Proof.
  intros [(c & l & z & Hc & H)|[(c & l & err & Hc & H)|H]].
  - left. exists c, l, z. split; [|by apply encoding_moves]. apply (mv_workers _ _ _ _ _ _ _ A c _ l Hc eq_refl). apply H.
  - right; left. exists c, l, err. split; [|by apply closing_moves]. apply (mv_workers _ _ _ _ _ _ _ A c _ l Hc eq_refl). apply H.
  - right; right. by apply finished_moves.
Qed.

Lemma live_moves : live cs zo s k -> live cs' zo' s' k.
Proof.
  intros [(l & H1 & H2 & H3)|[(c & l & z & Hc & H)|(m & H)]].
  - left. exists l. rewrite (mv_ready _ _ _ _ _ _ _ A), (mv_slot _ _ _ _ _ _ _ A). split_and!; auto. apply A; auto.
  - right; left. exists c, l, z. split; [|by apply got_moves]. apply (mv_workers _ _ _ _ _ _ _ A c _ l Hc eq_refl). apply H.
  - right; right. exists m. by apply slotted_moves.
Qed.

End frame.

(** A step that moves the blocks [T] only: what has to be shown for those, and
    for the workers that moved. *)
Lemma blocks_step (T : Z -> Prop) cs cs' zo zo' s s' :
  blocks cs zo s -> (forall k, T k \/ ~ T k) ->
  as_idx s <= as_idx s' -> past s <= past s' <= as_idx s' -> zlen cs' = as_idx s' ->
  (forall k, as_idx s <= k < as_idx s' \/ past s <= k < past s' -> T k) ->
  (forall k, ~ T k -> moves cs cs' zo zo' s s' k) ->
  (forall z k, zo' !! z = Some k -> is_Some (as_sizes s' !! z)) ->
  (forall k, T k -> past s' <= k < as_idx s' -> live cs' zo' s' k) ->
  (forall k l, T k -> in_ready s' k = Some l ->
     past s' <= k < as_idx s' /\ in_line cs' s' k l /\ slot s' k = None /\ in_active s' k = None) ->
  (forall k l, T k -> in_active s' k = Some l -> 0 <= k < as_idx s') ->
  (forall k m, T k -> slot s' k = Some m -> past s' <= k < as_idx s' /\ slotted cs' zo' s' k m) ->
  (forall c pc, as_worker s' !! c = Some pc ->
     (as_worker s !! c = Some pc /\ forall k l, T k -> in_active s k = Some l -> holds pc <> Some l) \/
     worker_ok cs' zo' s' pc) ->
  (forall c c' pc pc' l, as_worker s' !! c = Some pc -> as_worker s' !! c' = Some pc' ->
     holds pc = Some l -> holds pc' = Some l -> c = c') ->
  blocks cs' zo' s'.
Proof.
  intros [B1 B2 B3 B4 B5 B6 B7 B8 B9] HT Hidx Hpast Hlen Hnew Hag Hsz Hlive Hq Ha Hsl Hw Hh.
  assert (Hin : forall k, ~ T k -> past s' <= k < as_idx s' <-> past s <= k < as_idx s).
  { intros k Hk. pose proof (fun H => Hk (Hnew k H)). lia. }
  split; try done; [lia|..].
  - intros k Hk. destruct (HT k) as [Hy|Hn]; [by apply Hlive|]. rewrite (Hin k Hn) in Hk.
    eapply live_moves; [exact (Hag k Hn)|by apply B3].
  - intros k l Hk. destruct (HT k) as [Hy|Hn]; [by apply Hq|]. pose proof (Hag k Hn) as A.
    rewrite (mv_ready _ _ _ _ _ _ _ A) in Hk. destruct (B4 k l Hk) as (C1 & C2 & C3 & C4).
    rewrite (mv_slot _ _ _ _ _ _ _ A), (mv_active _ _ _ _ _ _ _ A). rewrite (Hin k Hn).
    split; [done|]. split; [|done]. apply A; auto.
  - intros k l Hk. destruct (HT k) as [Hy|Hn]; [by eapply Ha|]. pose proof (Hag k Hn) as A.
    rewrite (mv_active _ _ _ _ _ _ _ A) in Hk. pose proof (B5 _ _ Hk). lia.
  - intros k m Hk. destruct (HT k) as [Hy|Hn]; [by apply Hsl|]. pose proof (Hag k Hn) as A.
    rewrite (mv_slot _ _ _ _ _ _ _ A) in Hk. destruct (B6 k m Hk). rewrite (Hin k Hn).
    split; [done|]. by eapply slotted_moves.
  - intros c pc Hc. destruct (Hw c pc Hc) as [[Hold Hno]|Hok]; [|done]. specialize (B7 c pc Hold).
    assert (Hout : forall k l, in_active s k = Some l -> holds pc = Some l -> ~ T k) by (intros k l Hk Hl Hy; by eapply Hno).
    unfold worker_ok in *.
    destruct pc as [|l z|l z m|l m err|l|]; try done; destruct B7 as (k & B7).
    + assert (Hn : ~ T k) by (eapply Hout; [apply B7|done]). exists k. rewrite (Hin k Hn). split; [apply B7|].
      eapply got_moves; [by apply Hag|apply B7].
    + assert (Hn : ~ T k) by (eapply Hout; [apply B7|done]). exists k. rewrite (Hin k Hn). split; [apply B7|].
      eapply encoding_moves; [by apply Hag|apply B7].
    + assert (Hn : ~ T k) by (eapply Hout; [apply B7|done]). exists k. rewrite (Hin k Hn). split; [apply B7|].
      eapply closing_moves; [by apply Hag|apply B7].
    + exists k. rewrite (mv_active _ _ _ _ _ _ _ (Hag k (Hout k l B7 eq_refl))). done.
Qed.

(** * The rest of the invariant *)

(** The writer object: what the constructor set up stays. *)
Definition kept (w : Writer W) : Prop :=
  exists cl : bool, w = (if cl then set_closed else id) (set_wr_world (w_wr w) (w_world w) w0).

(** The blocks [ks] were written and indexed. *)
Record written cs s (ks : list blk) : Prop := {
  wn_chunks : map k_chunk ks = take (length ks) cs;
  wn_writes : writes (w_wr w0) (concat (map k_bytes ks)) (w_wr (as_w s));
  wn_index : exists i, indexed lzma_index_empty ks i /\ index_at (as_w s) i;
  wn_blocks : Forall (block_ok w0) ks;
  wn_sealed : sealed s (zlen ks - 1);
}.

Definition progress cs s (n : Z) : Prop := exists ks, zlen ks = n /\ written cs s ks.

(** Between [WriteTo] and [Append], the block [n] is written and not indexed. *)
Definition lagging cs (zo : gmap loc Z) s (n : Z) m : Prop :=
  exists ks b i, zlen ks = n /\ map k_chunk (ks ++ [b]) = take (length ks + 1) cs /\
    writes (w_wr w0) (concat (map k_bytes (ks ++ [b]))) (w_wr (as_w s)) /\
    indexed lzma_index_empty ks i /\ index_at (as_w s) i /\ Forall (block_ok w0) (ks ++ [b]) /\ sealed s n /\
    k_unpad b <> 0 /\ exists q z, heap (ob s) !! m = Some q /\ p_data q = Some z /\ zo !! z = Some n /\
      as_sizes s !! z = Some (SizeStats (k_unpad b) (k_uncomp b)).

Definition writer_ok cs (zo : gmap loc Z) s : Prop :=
  match as_writer s with
  | WGet j => progress cs s j
  | WWrite j m => progress cs s (j - 1) /\ out_ready s (j - 1) = None /\ out_active s (j - 1) = Some m
  | WAppend j m wrErr => out_active s (j - 1) = Some m /\
      (exists i, index_at (as_w s) i) /\ (wrErr <> None \/ lagging cs zo s (j - 1) m)
  | WRestore j m wrErr ixErr => out_active s (j - 1) = Some m /\
      (exists i, index_at (as_w s) i) /\ (wrErr <> None \/ ixErr <> None \/ progress cs s j)
  | WLast j => progress cs s (j - 1) /\ closed (pp (ob s)) = true
  | _ => False
  end.

Definition full (chunk : list Z) : Prop := zlen chunk = w_chunkSize w0.

(** The pipe that the caller fills; [shut] says that a worker closed it. *)
Definition pipe_ok cs s (shut : bool) l : Prop :=
  exists q cl r bs, heap (ib s) !! l = Some q /\ p_idx q = as_idx s - 1 /\
    @line_in _ LineDual (p_buf q) (w_chunkSize w0) cl r bs /\ (cl = false -> r = 0 /\ last cs = Some bs) /\
    (shut = true -> cl = true).

Definition cut_ok cs s : Prop :=
  match as_pipe s with
  | None => Forall full cs
  | Some l => pipe_ok cs s false l /\ exists fs x, cs = fs ++ [x] /\ Forall full fs /\ zlen x <= w_chunkSize w0
  end.

(** The data that the caller has not put into a pipe yet. *)
Definition left_over (pc : main_pc) : option (list Z) :=
  match pc with
  | MNext todo => Some (concat todo)
  | MLoop d cnt todo | MGet d cnt todo | MFull d cnt todo => Some (drop (Z.to_nat cnt) d ++ concat todo)
  | _ => None
  end.

Definition main_ok cs s : Prop :=
  (forall rest, left_over (as_main s) = Some rest ->
     concat cs ++ rest = data /\ w_closed (as_w s) = false /\ cut_ok cs s) /\
  match as_main s with
  | MNext _ => as_pipe s <> None -> last cs <> Some []
  | MLoop d cnt _ => 0 <= cnt <= zlen d /\ (as_pipe s <> None -> cnt = zlen d -> last cs <> Some [])
  | MGet d cnt _ => 0 <= cnt < zlen d /\ as_pipe s = None
  | MFull d cnt _ => 0 <= cnt <= zlen d /\ exists x, last cs = Some x /\ full x
  | MStop _ _ => exists l, as_pipe s = Some l /\ pipe_ok cs s true l
  | MShut | MWait => as_pipe s = None /\ w_closed (as_w s) = true /\ concat cs = data /\
      exists fs lst, cs = fs ++ lst /\ Forall full fs /\
        (lst = [] \/ exists x, lst = [x] /\ 0 < zlen x <= w_chunkSize w0)
  | MDone err => err <> None
  end /\
  (closed (pp (ib s)) = true <-> as_main s = MWait).

(** The input pool is closed and empty. *)
Definition drained s : Prop := closed (pp (ib s)) = true /\ forall k, in_ready s k = None.

(** The monitor never asks for fewer workers. *)
Fixpoint growing (n : Z) (ops : list mon_op) : Prop :=
  match ops with
  | NWork m :: ops => n <= m /\ 1 <= m /\ growing m ops
  | NIn _ :: ops | NOut _ :: ops => growing n ops
  | NWait :: _ => True
  | _ => False
  end.

(** The workers and their pool. *)
Record crew s : Prop := {
  cr_inv : wp_inv (as_workPool s);
  cr_end : has_end (as_workPool s) = true;
  cr_running c : c ∈ WorkerPool.running (as_workPool s) <-> is_Some (as_worker s !! c);
  cr_killed : closed_chans (as_workPool s) = ∅;
  cr_open : wp_closed (as_workPool s) = false;
  cr_made : waiting (as_workPool s) = true -> exists c, c ∈ made (as_workPool s);
  cr_growing : growing (zlen (workers (as_workPool s))) (as_monitor s);
  cr_exit c : c ∈ made (as_workPool s) -> as_worker s !! c = None -> drained s;
  cr_closed : closed (pp (ob s)) = true -> drained s /\ forall c pc, as_worker s !! c = Some pc -> holds pc = None;
}.

Record running_ok cs (zo : gmap loc Z) s : Prop := {
  ro_crash : as_crash s = None;
  ro_in : core 0 (ib s);
  ro_out : core 0 (ob s);
  ro_kept : kept (as_w s);
  ro_blocks : blocks cs zo s;
  ro_main : main_ok cs s;
  ro_writer : writer_ok cs zo s;
  ro_crew : crew s;
  ro_chan : as_errChan s = ErrChan [] false /\ as_lastErr s = None /\ as_doneChan s = false;
}.

End inv.
