(* ===== verification/AsyncFlow.v ===== *)
(** Steps of the asynchronous writer that leave most of the state alone: how the
    parts of the invariant follow. *)

From S2P Require Import Prelude Bufpipe Pool PoolInv PoolView WorkerPool Lines Errs Liblzma SmallLzma Lib XzConst.
From S2P Require Import Literal World LibIndex Stream StreamPump PipePump Ioutil PipeClose Writer WriterBlock.
From S2P Require Import WriterSync WriterNew WriterSession AsyncWriter AsyncInv.

Section flow.
Context {BP : Bufpipe} {BC : BufpipeClose BP} {L : Liblzma} {E : Errs} {IU : Ioutil} {W : Type} {IW : IoWriter W}.
Context (w0 : Writer W) (data : list Z).
Implicit Types (s : async W) (k : Z) (l m z : loc) (c : chan).

(** ** Changes of a pipe's buffer *)

Lemma core_on_buf {D} (p : @psys BP D) f l : core 0 (base p) -> core 0 (base (on_buf f l p)).
Proof.
  intros [I J K F A R]. split; try done. intros x k l' H. destruct (I x k l' H) as (q & Hq & Hi). cbn.
  destruct (decide (l' = l)) as [->|Hne].
  - rewrite lookup_alter_eq, Hq. eexists. split; [reflexivity|done].
  - rewrite lookup_alter_ne by done. eauto.
Qed.

(** ** Nothing moved *)

Record same_flow s s' : Prop := {
  sf_idx : as_idx s' = as_idx s;
  sf_pipe : as_pipe s' = as_pipe s;
  sf_in : same_store (ib s) (ib s');
  sf_out : same_store (ob s) (ob s');
  sf_sizes : as_sizes s' = as_sizes s;
  sf_worker : as_worker s' = as_worker s;
  sf_writer : as_writer s' = as_writer s;
}.

Lemma out_slot s s' k :
  Pool.entries (ready (pp (ob s'))) = Pool.entries (ready (pp (ob s))) -> as_writer s' = as_writer s ->
  slot s' k = slot s k.
Proof. intros H1 H2. unfold slot, out_ready. by rewrite H1, H2. Qed.

Lemma flow_agree zo s s' k : same_flow s s' -> agree zo s s' k.
Proof.
  intros [H1 H2 H3 H4 H5 H6 H7]. split.
  - unfold sealed. by rewrite H1, H2.
  - unfold current. intros l. by rewrite H1, H2.
  - unfold in_ready. by rewrite (ss_ready _ _ H3).
  - unfold in_active. by rewrite (ss_active _ _ H3).
  - intros l _. by rewrite (ss_heap _ _ H3).
  - by apply out_slot; [apply (ss_ready _ _ H4)|].
  - intros m _. by rewrite (ss_heap _ _ H4).
  - intros z _. by rewrite H5.
  - intros c pc l Hc _ _. by rewrite H6.
Qed.

(** Steps that move no worker and no block. *)
Lemma blocks_all cs cs' zo s s' :
  blocks w0 cs zo s -> as_idx s' = as_idx s -> as_writer s' = as_writer s -> zlen cs' = zlen cs ->
  (forall k, moves w0 cs cs' zo zo s s' k) -> as_worker s' = as_worker s -> as_sizes s' = as_sizes s ->
  blocks w0 cs' zo s'.
Proof.
  intros B Hidx Hw Hlen Hm Hk Hs. pose proof B as [B1 B2 _ _ _ _ _ B8 B9].
  assert (Hp : past s' = past s) by (unfold past; by rewrite Hw).
  eapply (blocks_step w0 (fun _ => False)); [exact B|intros k; right; tauto|lia|lia|lia|lia| | |done|done|done|done| |].
  - intros k _. apply Hm.
  - intros z k Hz. rewrite Hs. eauto.
  - intros c pc Hc. left. rewrite Hk in Hc. split; [done|by intros ? ? []].
  - rewrite Hk. exact B8.
Qed.

Lemma flow_blocks cs zo s s' : same_flow s s' -> blocks w0 cs zo s -> blocks w0 cs zo s'.
Proof.
  intros F B. eapply blocks_all; [exact B|apply F|apply F|done| |apply F|apply F].
  intros k. apply agree_moves; [done|done|]. by apply flow_agree.
Qed.

Lemma flow_pipe_ok cs s s' b l : same_flow s s' -> pipe_ok w0 cs s b l -> pipe_ok w0 cs s' b l.
Proof.
  intros F (q & cl & r & bs & H). exists q, cl, r, bs. by rewrite (ss_heap _ _ (sf_in _ _ F)), (sf_idx _ _ F).
Qed.

Lemma drained_ready s s' :
  closed (pp (ib s')) = closed (pp (ib s)) ->
  Pool.entries (ready (pp (ib s'))) = Pool.entries (ready (pp (ib s))) -> drained s -> drained s'.
Proof. intros H1 H2 [H3 H4]. split; [by rewrite H1|]. intros k. unfold in_ready. rewrite H2. apply H4. Qed.

(** The caller's and the writer's steps leave the workers alone. *)
Lemma crew_same s s' :
  as_workPool s' = as_workPool s -> as_worker s' = as_worker s -> as_monitor s' = as_monitor s ->
  (drained s -> drained s') -> closed (pp (ob s')) = closed (pp (ob s)) -> crew s -> crew s'.
Proof.
  intros H1 H2 H3 H4 H5 [C1 C2 C3 C4 C5 C6 C7 C8 C9]. split; rewrite ?H1, ?H2, ?H3, ?H5; try done.
  - intros c Hc Hn. eauto.
  - intros Hc. destruct (C9 Hc). auto.
Qed.

Lemma main_keep cs s s' :
  as_main s' = as_main s -> as_pipe s' = as_pipe s -> w_closed (as_w s') = w_closed (as_w s) ->
  closed (pp (ib s')) = closed (pp (ib s)) ->
  (forall b l, as_pipe s = Some l -> pipe_ok w0 cs s b l -> pipe_ok w0 cs s' b l) ->
  main_ok w0 data cs s -> main_ok w0 data cs s'.
Proof.
  intros Hm Hp Hc Hcl Hok (H1 & H2 & H3). unfold main_ok. rewrite Hm, Hc, Hp, Hcl.
  split; [|split; [|done]].
  - intros rest Hr. destruct (H1 rest Hr) as (A1 & A2 & A3). split_and!; try done. unfold cut_ok in *. rewrite Hp.
    destruct (as_pipe s) as [l|]; [|done]. destruct A3 as [A3 A4]. split; [by apply Hok|done].
  - destruct (as_main s); try done.
    destruct H2 as (l & Hl & H2). exists l. split; [done|by apply Hok].
Qed.

Lemma main_flow cs s s' :
  same_flow s s' -> as_main s' = as_main s -> w_closed (as_w s') = w_closed (as_w s) ->
  main_ok w0 data cs s -> main_ok w0 data cs s'.
Proof.
  intros F Hm Hc. apply main_keep; [done|apply F|done|apply F|]. intros b l _. by apply flow_pipe_ok.
Qed.

(** ** The written blocks *)

Lemma written_length cs s ks : written w0 cs s ks -> (length ks <= length cs)%nat.
Proof. intros H. pose proof (wn_chunks _ _ _ _ H) as Hc. apply (f_equal length) in Hc. rewrite length_map, length_take in Hc. lia. Qed.

Section keep.
Context (cs cs' : list (list Z)) (s s' : async W).
Context (Hwr : w_wr (as_w s') = w_wr (as_w s)) (Hix : forall i, index_at (as_w s) i -> index_at (as_w s') i).
Context (Hsl : forall k, k < zlen cs -> sealed s k -> sealed s' k).
Context (Htk : forall n, (n <= length cs)%nat -> sealed s (Z.of_nat n - 1) -> take n cs' = take n cs).

Lemma written_keep ks : written w0 cs s ks -> written w0 cs' s' ks.
Proof.
  intros H. pose proof (written_length _ _ _ H) as Hl. destruct H as [H1 H2 (i & H3 & H4) H5 H6].
  split; [by rewrite Htk|by rewrite Hwr|by exists i; auto|done|]. apply Hsl; [unfold zlen; lia|done].
Qed.

Lemma progress_keep n : progress w0 cs s n -> progress w0 cs' s' n.
Proof. intros (ks & Hn & H). exists ks. split; [done|]. by apply written_keep. Qed.

Lemma lagging_keep zo zo' n m :
  heap (ob s') !! m = heap (ob s) !! m ->
  (forall z, zo !! z = Some n -> zo' !! z = Some n /\ as_sizes s' !! z = as_sizes s !! z) ->
  lagging w0 cs zo s n m -> lagging w0 cs' zo' s' n m.
Proof.
  intros Hq Hz (ks & b & i & H1 & H2 & H3 & H4 & H5 & H6 & H7 & H8 & q & z & G1 & G2 & G3 & G4). exists ks, b, i.
  assert (Hl : (length ks + 1 <= length cs)%nat).
  { apply (f_equal length) in H2. rewrite length_map, length_app, length_take in H2. cbn in H2. lia. }
  rewrite Htk, Hwr; [|done|].
  - split_and!; auto; [apply Hsl; [unfold zlen in *; lia|done]|]. exists q, z. destruct (Hz z G3) as [Hz1 Hz2].
    by rewrite Hq, Hz2.
  - unfold zlen in H1. by replace (Z.of_nat (length ks + 1) - 1) with n by lia.
Qed.

(** What the writer looks at. *)
Record same_view (zo zo' : gmap loc Z) (v v' : async W) : Prop := {
  vw_writer : as_writer v' = as_writer v;
  vw_ready j m : as_writer v = WWrite j m -> out_ready v (j - 1) = None -> out_active v (j - 1) = Some m ->
    out_ready v' (j - 1) = None;
  vw_active k : out_active v' k = out_active v k;
  vw_closed : closed (pp (ob v)) = true -> closed (pp (ob v')) = true;
  vw_stats j m e : as_writer v = WAppend j m e -> out_active v (j - 1) = Some m ->
    heap (ob v') !! m = heap (ob v) !! m /\
    forall z, zo !! z = Some (j - 1) -> zo' !! z = Some (j - 1) /\ as_sizes v' !! z = as_sizes v !! z;
}.

Lemma writer_ok_keep zo zo' : same_view zo zo' s s' -> writer_ok w0 cs zo s -> writer_ok w0 cs' zo' s'.
Proof.
  intros [Hw V1 V2 V3 V4]. unfold writer_ok. rewrite Hw.
  destruct (as_writer s) as [j|j m|j m e1|j m e1 e2|j|e| | |] eqn:Hpc; try done; rewrite ?V2.
  - apply progress_keep.
  - intros (H1 & H2 & H3). split; [by apply progress_keep|]. split; [by apply (V1 j m)|done].
  - intros (H1 & (i & H2) & H3). destruct (V4 _ _ _ eq_refl H1) as [V5 V6]. split; [done|]. split; [eauto|].
    destruct H3 as [H3|H3]; [by left|]. right. by apply (lagging_keep zo).
  - intros (H1 & (i & H2) & H3). split; [done|]. split; [eauto|]. destruct H3 as [H3|[H3|H3]]; [by left|by right; left|].
    right; right. by apply progress_keep.
  - intros [H1 H2]. split; [by apply progress_keep|auto].
Qed.

End keep.

(** The output pool and the sizes are what they were. *)
Lemma store_view zo s s' :
  as_writer s' = as_writer s -> same_store (ob s) (ob s') -> as_sizes s' = as_sizes s -> same_view zo zo s s'.
Proof.
  intros H1 [H2 H3 H4 H5] H6. split; [done|..]; unfold out_ready, out_active; rewrite ?H2, ?H3, ?H4, ?H5, ?H6; try done.
Qed.

Lemma flow_writer_ok cs zo s s' :
  same_flow s s' -> w_wr (as_w s') = w_wr (as_w s) -> (forall i, index_at (as_w s) i -> index_at (as_w s') i) ->
  writer_ok w0 cs zo s -> writer_ok w0 cs zo s'.
Proof.
  intros F Hwr Hix. eapply writer_ok_keep; [done|done| |done|by apply store_view; apply F].
  intros k _. unfold sealed. by rewrite (sf_idx _ _ F), (sf_pipe _ _ F).
Qed.

(** The channels and the workers' pool are left alone. *)
Record same_rest s s' : Prop := {
  sr_workPool : as_workPool s' = as_workPool s;
  sr_monitor : as_monitor s' = as_monitor s;
  sr_errChan : as_errChan s' = as_errChan s;
  sr_doneChan : as_doneChan s' = as_doneChan s;
  sr_lastErr : as_lastErr s' = as_lastErr s;
  sr_crash : as_crash s' = as_crash s;
}.

(** The writer object keeps its configuration, its output and its index. *)
Definition same_w s s' : Prop :=
  (kept w0 (as_w s) -> kept w0 (as_w s')) /\ w_wr (as_w s') = w_wr (as_w s) /\
  forall i, index_at (as_w s) i -> index_at (as_w s') i.

Lemma same_w_refl s s' : as_w s' = as_w s -> same_w s s'.
Proof. unfold same_w. intros ->. done. Qed.

(** A step that moves no block. *)
Lemma running_flow cs zo s s' :
  running_ok w0 data cs zo s -> same_flow s s' -> core 0 (ib s') -> core 0 (ob s') ->
  same_w s s' -> main_ok w0 data cs s' ->
  as_errChan s' = as_errChan s -> as_doneChan s' = as_doneChan s -> as_lastErr s' = as_lastErr s ->
  as_crash s' = as_crash s -> crew s' ->
  running_ok w0 data cs zo s'.
Proof.
  intros [R1 R2 R3 R4 R5 R6 R7 R8 R9] F C1 C2 (W1 & W2 & W3) Hm H1 H2 H3 H4 Hcr. split; try done.
  - by rewrite H4.
  - by apply W1.
  - by eapply flow_blocks.
  - by eapply flow_writer_ok.
  - by rewrite H1, H2, H3.
Qed.

End flow.
