(* ===== verification/AsyncMain.v ===== *)
(** The asynchronous writer: the steps of the caller's goroutine keep the
    invariant. *)

From S2P Require Import Prelude Bufpipe Pool PoolInv PoolView WorkerPool Lines Errs Liblzma SmallLzma Lib XzConst.
From S2P Require Import Literal World LibIndex Stream StreamPump PipePump Ioutil PipeClose Writer WriterBlock.
From S2P Require Import WriterSync WriterNew WriterSession AsyncWriter AsyncInv AsyncFlow.

Section main.
Context {BP : Bufpipe} {BC : BufpipeClose BP} {L : Liblzma} {E : Errs} {IU : Ioutil} {W : Type} {IW : IoWriter W}.
Context {BS : BufpipeSpec BP} {LS : LiblzmaSpec L} {ES : ErrsSpec E}.
Context (w0 : Writer W) (data : list Z).
Context (Hsz : sized w0) (Hin : w_inSize w0 = w_chunkSize w0) (Him : w_inMode w0 = LineDual).
Implicit Types (s : async W) (k : Z) (l m z : loc) (c : chan).

#[local] Abbreviation running_ok := (running_ok w0 data).
#[local] Abbreviation main_ok := (main_ok w0 data).

Lemma kept_sizes (w : Writer W) : kept w0 w -> w_inSize w = w_chunkSize w0 /\ w_inMode w = LineDual.
Proof. intros [[] ->]; done. Qed.

(** ** Only the point of the code changes *)

Lemma running_main cs zo s pc :
  running_ok cs zo s -> main_ok cs (set_main pc s) -> running_ok cs zo (set_main pc s).
Proof.
  intros R Hm. apply (running_flow w0 data cs zo s); try done; [apply R|apply R|].
  apply (crew_same s); try done. apply R.
Qed.

(** ** The pipe in hand *)

(** The pipe [l], of the last chunk, becomes [p']; the last chunk becomes [x']. *)
Definition with_pipe (p' : BufferPipe) l (o : option loc) s : async W :=
  set_pipe (as_idx s) o (set_inPool (on_buf (fun _ => p') l (as_inPool s)) s).

Lemma with_pipe_heap p' l o s l' : l' <> l -> heap (ib (with_pipe p' l o s)) !! l' = heap (ib s) !! l'.
Proof. intros H. unfold ib. cbn. by rewrite lookup_alter_ne. Qed.

Lemma with_pipe_at p' l o s q : heap (ib s) !! l = Some q ->
  heap (ib (with_pipe p' l o s)) !! l = Some (Pipe p' (p_idx q) (p_data q)).
Proof. intros H. unfold ib in *. cbn. by rewrite lookup_alter_eq, H. Qed.

Lemma filed s k l q :
  core 0 (ib s) -> in_ready s k = Some l \/ in_active s k = Some l -> heap (ib s) !! l = Some q -> p_idx q = k.
Proof.
  intros C [H|H] Hq; [destruct (core_idx _ _ C SReady k l H) as (q' & Hq' & <-)|
    destruct (core_idx _ _ C SActive k l H) as (q' & Hq' & <-)]; congruence.
Qed.

Lemma filed_range cs zo s k l : blocks w0 cs zo s -> in_ready s k = Some l \/ in_active s k = Some l -> 0 <= k < as_idx s.
Proof.
  intros B [H|H]; [|by apply (bk_active _ _ _ _ B) in H].
  destruct (bk_queue _ _ _ _ B k l H) as [? _]. pose proof (bk_past _ _ _ _ B). lia.
Qed.

Lemma last_chunk (fs : list (list Z)) x k : 0 <= k -> k = zlen (fs ++ [x]) - 1 -> chunk_at (fs ++ [x]) k = Some x.
Proof.
  intros Hk ->. unfold chunk_at. rewrite zlen_app. unfold zlen. cbn [length].
  replace (Z.to_nat _) with (length fs) by lia. rewrite lookup_app_r, Nat.sub_diag by lia. done.
Qed.

Lemma other_chunk (fs : list (list Z)) x x' k : 0 <= k < zlen (fs ++ [x]) - 1 ->
  chunk_at (fs ++ [x']) k = chunk_at (fs ++ [x]) k.
Proof.
  intros Hk. unfold chunk_at. rewrite zlen_app in Hk. unfold zlen in Hk. cbn [length] in Hk.
  by rewrite !lookup_app_l by lia.
Qed.

Lemma with_pipe_blocks fs x x' zo s l q p' o cl :
  core 0 (ib s) -> blocks w0 (fs ++ [x]) zo s -> as_pipe s = Some l -> heap (ib s) !! l = Some q ->
  p_idx q = as_idx s - 1 -> bp_Closed (p_buf q) = false ->
  @line_in _ LineDual p' (w_chunkSize w0) cl 0 x' ->
  (if (cl : bool) then o = None else o = as_pipe s) -> (o = None -> x' = x) ->
  blocks w0 (fs ++ [x']) zo (with_pipe p' l o s).
Proof.
  intros C B Hp Hq Hi Hopen Hl' Ho Hx. pose proof (bk_len _ _ _ _ B) as Hlen.
  assert (Hlen' : zlen (fs ++ [x']) = as_idx s) by (rewrite <- Hlen, !zlen_app; done).
  assert (Hseal : forall k, sealed s k -> k < as_idx s - 1) by (intros k [H|H]; [congruence|done]).
  assert (Hnew : forall k, sealed s k -> sealed (with_pipe p' l o s) k) by (intros k Hk; right; cbn; by apply Hseal).
  assert (Hch : forall k, 0 <= k -> sealed s k -> chunk_at (fs ++ [x']) k = chunk_at (fs ++ [x]) k).
  { intros k Hk Hs. apply other_chunk. apply Hseal in Hs. lia. }
  eapply blocks_all; [exact B|done|done|lia| |done|done].
  intros k. split; try done.
  - intros l' Hk (q' & chunk & b & Hq' & Hc & Hln & Hb).
    pose proof (filed_range _ _ _ _ _ B Hk) as Hr. pose proof (filed _ _ _ _ C Hk Hq') as Hi'.
    destruct b.
    + assert (l' <> l) as Hne.
      { intros ->. apply Hseal in Hb. rewrite Hq in Hq'. injection Hq' as <-. lia. }
      exists q', chunk, true. rewrite with_pipe_heap, (Hch k) by (done || lia).
      split_and!; try done. by apply Hnew.
    + destruct Hb as [Hb ->]. rewrite Hp in Hb. injection Hb as <-.
      rewrite last_chunk in Hc by lia. injection Hc as <-.
      exists (Pipe p' (p_idx q) (p_data q)), x', cl. rewrite (with_pipe_at _ _ _ _ q) by done.
      rewrite last_chunk by lia.
      split_and!; try done. destruct cl; [by left|]. split; [by rewrite <- Hp|done].
  - intros m b bytes u v Hm (q' & z & H1 & H2 & H3 & H4 & H5 & H6 & H7 & chunk & H8 & H9). exists q', z.
    destruct (bk_slot _ _ _ _ B k m Hm) as [Hr _]. pose proof (bk_past _ _ _ _ B).
    split_and!; try done. split; [by apply Hnew|]. split; [done|]. exists chunk. by rewrite Hch by (lia || done).
Qed.

(** A pipe that the worker closed in front of the caller: its block failed. *)
Lemma with_closed_pipe_blocks cs zo s l q p' o :
  core 0 (ib s) -> blocks w0 cs zo s -> as_pipe s = Some l -> heap (ib s) !! l = Some q ->
  p_idx q = as_idx s - 1 -> bp_Closed (p_buf q) = true -> blocks w0 cs zo (with_pipe p' l o s).
Proof.
  intros C B Hp Hq Hi Hclosed.
  assert (Hseal : forall k, sealed s k -> k < as_idx s - 1) by (intros k [H|H]; [congruence|done]).
  assert (Hnew : forall k, sealed s k -> sealed (with_pipe p' l o s) k) by (intros k Hk; right; cbn; by apply Hseal).
  eapply blocks_all; [exact B|done|done|done| |done|done].
  intros k. split; try done.
  - intros l' Hk (q' & chunk & b & Hq' & Hc & Hln & Hb).
    pose proof (filed _ _ _ _ C Hk Hq') as Hi'. destruct b.
    + assert (l' <> l) as Hne.
      { intros ->. apply Hseal in Hb. rewrite Hq in Hq'. injection Hq' as <-. lia. }
      exists q', chunk, true. rewrite with_pipe_heap by done. split_and!; try done. by apply Hnew.
    + destruct Hb as [Hb ->]. rewrite Hp in Hb. injection Hb as <-. rewrite Hq in Hq'. injection Hq' as <-.
      pose proof (ln_closed _ _ _ _ _ Hln). congruence.
  - intros m b bytes u v Hm (q' & z & H1 & H2 & H3 & H4 & H5 & H6 & H7 & chunk & H8 & H9). exists q', z.
    split_and!; try done. split; [by apply Hnew|]. split; [done|]. by exists chunk.
Qed.

Lemma with_pipe_running cs cs' zo s s' l p' o :
  running_ok cs zo s -> as_pipe s = Some l -> blocks w0 cs' zo (with_pipe p' l o s) ->
  (forall n, (n <= length cs)%nat -> sealed s (Z.of_nat n - 1) -> take n cs' = take n cs) ->
  same_flow (with_pipe p' l o s) s' -> ib s' = ib (with_pipe p' l o s) -> ob s' = ob s ->
  same_rest s s' -> same_w w0 s s' -> main_ok cs' s' ->
  running_ok cs' zo s'.
Proof.
  intros [R1 R2 R3 R4 R5 R6 R7 R8 R9] Hp Hb Htk F Fi Fo [S1 S2 S3 S4 S5 S6] (W1 & W2 & W3) Hm.
  pose proof F as [F1 F2 F3 F4 F5 F6 F7].
  assert (Hs : forall k, k < zlen cs -> sealed s k -> sealed s' k).
  { intros k _ [H|H]; [congruence|]. right. by rewrite F1. }
  assert (Hin' : core 0 (ib (with_pipe p' l o s))) by (by apply core_on_buf).
  split; try done.
  - by rewrite S6.
  - by rewrite Fi.
  - by rewrite Fo.
  - by apply W1.
  - by apply (flow_blocks w0 cs' zo (with_pipe p' l o s)).
  - eapply (writer_ok_keep w0 cs cs' s); [done|done|done|done| |exact R7].
    apply store_view; [done|by rewrite Fo|done].
  - apply (crew_same s); try done; [|by rewrite Fo]. apply drained_ready; by rewrite Fi.
  - by rewrite S3, S4, S5.
Qed.

(** ** The loop of Write *)

Lemma take_but_last (fs : list (list Z)) x x' s n :
  zlen (fs ++ [x]) = as_idx s -> as_pipe s <> None -> sealed s (Z.of_nat n - 1) ->
  take n (fs ++ [x']) = take n (fs ++ [x]).
Proof.
  intros Hl Hp [H|H]; [done|]. rewrite zlen_app in Hl. unfold zlen in Hl. cbn [length] in Hl.
  by rewrite !take_app_le by lia.
Qed.

Lemma not_waiting (P : Prop) (pc : main_pc) : (P <-> False) -> pc <> MWait -> (P <-> pc = MWait).
Proof. tauto. Qed.

Lemma write_loop_running d cnt todo cs zo s s' :
  running_ok cs zo s -> as_main s = MLoop d cnt todo -> write_loop d cnt todo s = Some s' ->
  exists cs' zo', running_ok cs' zo' s'.
Proof.
  intros R Hpc. pose proof (ro_main _ _ _ _ _ R) as (M1 & M2 & M3). rewrite Hpc in M1, M2, M3.
  destruct (M1 _ eq_refl) as (Hd & Hcl & Hcut). destruct M2 as [Hcnt Hne].
  assert (Hopen : closed (pp (ib s)) = true <-> False) by (rewrite M3; done).
  unfold write_loop. destruct (Z.ltb_spec cnt (zlen d)) as [Hlt|Hge].
  2: { assert (cnt = zlen d) as -> by lia. rewrite Z.eqb_refl. intros [= <-]. exists cs, zo.
       apply running_main; [done|]. split; [|split; [intros Hp; by apply Hne|by apply not_waiting]].
       intros rest [= <-]. split_and!; [|done|done]. rewrite drop_ge in Hd by (unfold zlen; lia). done. }
  destruct (as_pipe s) as [l|] eqn:Hp.
  2: { intros [= <-]. exists cs, zo. apply running_main; [done|]. split; [|split; [|by apply not_waiting]].
       - intros rest [= <-]. done.
       - split; [lia|done]. }
  unfold cut_ok in Hcut. rewrite Hp in Hcut. destruct Hcut as [(q & cl & r & bs & Hq & Hi & Hln & Hbs & _) (fs & x & -> & Hfs & Hx)].
  unfold pipe_of. change (base (as_inPool s)) with (ib s). rewrite Hq. cbn [fmap option_fmap option_map mbind option_bind].
  assert (Hdrop : zdrop d cnt = Some (drop (Z.to_nat cnt) d)).
  { unfold zdrop. rewrite (proj2 (Z.leb_le _ _)), (proj2 (Z.leb_le _ _)) by lia. done. }
  rewrite Hdrop. set (rest := drop (Z.to_nat cnt) d) in *. cbn [mbind option_bind].
  assert (Hrest : zlen rest = zlen d - cnt) by (apply zlen_drop; lia).
  destruct cl.
  - (* closed by the worker *)
    rewrite (line_write_closed (p_buf q) rest (ln_is _ _ _ _ _ Hln) (ln_closed _ _ _ _ _ Hln)).
    rewrite decide_False, decide_False by done. intros [= <-]. exists (fs ++ [x]), zo.
    pose proof (with_closed_pipe_blocks _ _ _ _ _ (p_buf q) (Some l) (ro_in _ _ _ _ _ R) (ro_blocks _ _ _ _ _ R) Hp Hq Hi
      (ln_closed _ _ _ _ _ Hln)) as Hb.
    assert (Heq : set_inPool (on_buf (fun _ => p_buf q) l (as_inPool s)) s = with_pipe (p_buf q) l (Some l) s)
      by (rewrite <- Hp; by destruct s). rewrite Heq.
    apply (with_pipe_running (fs ++ [x]) _ zo s _ l (p_buf q) (Some l)); try done.
    assert (pipe_ok w0 (fs ++ [x]) (with_pipe (p_buf q) l (Some l) s) true l).
    { exists (Pipe (p_buf q) (p_idx q) (p_data q)), true, r, bs. by rewrite (with_pipe_at _ _ _ _ q). }
    split; [done|]. split; [|by apply not_waiting]. by exists l.
  - destruct (Hbs eq_refl) as [-> Hlast]. rewrite last_snoc in Hlast. injection Hlast as <-.
    destruct (line_of_write _ _ _ _ rest Hln) as (p' & Ew & Hln'). set (n := Z.min (zlen rest) _) in *. rewrite Ew.
    destruct (line_bounds _ _ _ _ _ Hln) as [_ Hcap]. pose proof (zlen_nonneg x) as Hx0. pose proof (zlen_nonneg rest).
    set (x' := x ++ take (Z.to_nat n) rest) in *.
    assert (Heq : set_inPool (on_buf (fun _ => p') l (as_inPool s)) s = with_pipe p' l (Some l) s)
      by (rewrite <- Hp; by destruct s). rewrite Heq.
    pose proof (with_pipe_blocks fs x x' zo s l q p' (Some l) false (ro_in _ _ _ _ _ R) (ro_blocks _ _ _ _ _ R) Hp Hq Hi
      (ln_closed _ _ _ _ _ Hln) Hln' (eq_sym Hp) ltac:(done)) as Hb.
    assert (Hx' : zlen x' = zlen x + n) by (unfold x'; rewrite zlen_app, zlen_take by lia; lia).
    assert (Hpipe : pipe_ok w0 (fs ++ [x']) (with_pipe p' l (Some l) s) false l).
    { exists (Pipe p' (p_idx q) (p_data q)), false, 0, x'. rewrite (with_pipe_at _ _ _ _ q) by done.
      split_and!; try done. intros _. by rewrite last_snoc. }
    assert (Hcut' : cut_ok w0 (fs ++ [x']) (with_pipe p' l (Some l) s)).
    { split; [done|]. exists fs, x'. split_and!; [done|done|lia]. }
    assert (Hdata : concat (fs ++ [x']) ++ drop (Z.to_nat (cnt + n)) d ++ concat todo = data).
    { rewrite <- Hd. rewrite !concat_app. cbn [concat]. rewrite !app_nil_r. unfold x'. rewrite <- !app_assoc. do 2 f_equal.
      rewrite Z2Nat.inj_add, <- drop_drop by lia. fold rest. by rewrite app_assoc, take_drop. }
    assert (Hmain : forall pc, left_over pc = Some (drop (Z.to_nat (cnt + n)) d ++ concat todo) -> pc <> MWait ->
      match pc with
      | MFull d' cnt' _ => 0 <= cnt' <= zlen d' /\ exists y, last (fs ++ [x']) = Some y /\ full w0 y
      | MLoop d' cnt' _ => 0 <= cnt' <= zlen d' /\ (Some l <> None -> cnt' = zlen d' -> last (fs ++ [x']) <> Some [])
      | _ => False end ->
      running_ok (fs ++ [x']) zo (set_main pc (with_pipe p' l (Some l) s))).
    { intros pc Hlo Hw Hpcs. apply (with_pipe_running (fs ++ [x]) _ zo s _ l p' (Some l)); try done.
      - intros j Hj Hs. apply (take_but_last fs x x' s); [apply (bk_len _ _ _ _ (ro_blocks _ _ _ _ _ R))|congruence|done].
      - split; [|split].
        + cbn [as_main set_main]. rewrite Hlo. intros rest' [= <-]. done.
        + cbn [as_main set_main]. by destruct pc.
        + by apply not_waiting. }
    destruct (Z.ltb_spec n (zlen rest)) as [Hshort|Hall].
    + rewrite decide_True by done. intros [= <-]. exists (fs ++ [x']), zo. apply Hmain; [done|done|]. split; [lia|].
      exists x'. rewrite last_snoc. split; [done|]. unfold full. lia.
    + rewrite decide_False, decide_True by done. intros [= <-]. exists (fs ++ [x']), zo. apply Hmain; [done|done|].
      split; [lia|]. intros _ Hend. rewrite last_snoc. intros [= Hnil]. rewrite Hnil, zlen_nil in Hx'. lia.
Qed.

(** ** The pipe is closed *)

Lemma on_buf_at {D} (p : @psys BP D) f l q :
  heap (base p) !! l = Some q -> on_buf f l p = on_buf (fun _ => f (p_buf q)) l p.
Proof.
  intros H. unfold on_buf. do 2 f_equal. apply alter_ext. intros q' Hq'. rewrite H in Hq'. by injection Hq' as <-.
Qed.

Lemma drop_pipe_eq s l q : as_pipe s = Some l -> heap (ib s) !! l = Some q ->
  drop_pipe s = with_pipe (bp_Close (p_buf q)) l None s.
Proof. intros Hp Hq. unfold drop_pipe, with_pipe. rewrite Hp. by rewrite (on_buf_at _ _ _ q). Qed.

Lemma drop_running fs x zo s s' l :
  running_ok (fs ++ [x]) zo s -> as_pipe s = Some l -> pipe_ok w0 (fs ++ [x]) s false l ->
  same_flow (drop_pipe s) s' -> ib s' = ib (drop_pipe s) -> ob s' = ob s -> same_rest s s' -> same_w w0 s s' ->
  main_ok (fs ++ [x]) s' -> running_ok (fs ++ [x]) zo s'.
Proof.
  intros R Hp (q & cl & r & bs & Hq & Hi & Hln & Hbs & _). rewrite (drop_pipe_eq s l q) by done.
  intros F Fi Fo S Hw Hm. eapply (with_pipe_running (fs ++ [x])); try done.
  destruct cl.
  - eapply with_closed_pipe_blocks; [apply R|apply R|done|done|done|apply (ln_closed _ _ _ _ _ Hln)].
  - destruct (Hbs eq_refl) as [-> Hlast]. rewrite last_snoc in Hlast. injection Hlast as <-.
    eapply (with_pipe_blocks fs x x _ _ _ _ _ _ true); [apply R|apply R|done|done|done|
      apply (ln_closed _ _ _ _ _ Hln)|by eapply line_of_close|done|done].
Qed.

Lemma pipe_full_running d cnt todo cs zo s :
  running_ok cs zo s -> as_main s = MFull d cnt todo ->
  running_ok cs zo (set_main (MLoop d cnt todo) (drop_pipe s)).
Proof.
  intros R Hpc. pose proof (ro_main _ _ _ _ _ R) as (M1 & M2 & M3). rewrite Hpc in M1, M2, M3.
  destruct (M1 _ eq_refl) as (Hd & Hcl & Hcut). destruct M2 as (Hcnt & y & Hy & Hfull).
  assert (Hopen : closed (pp (ib s)) = true <-> False) by (rewrite M3; done).
  unfold cut_ok in Hcut. destruct (as_pipe s) as [l|] eqn:Hp.
  - destruct Hcut as [Hpipe (fs & x & -> & Hfs & Hx)]. rewrite last_snoc in Hy. injection Hy as ->.
    assert (Hdp : as_pipe (drop_pipe s) = None) by (unfold drop_pipe; by rewrite Hp).
    assert (Hcd : closed (pp (ib (drop_pipe s))) = closed (pp (ib s))) by (unfold drop_pipe; by rewrite Hp).
    assert (Hwd : as_w (drop_pipe s) = as_w s) by (unfold drop_pipe; by rewrite Hp).
    apply (drop_running fs y zo s _ l); try done; [unfold drop_pipe; by rewrite Hp|
      split; unfold drop_pipe; by rewrite Hp|by apply same_w_refl|].
    split; [|split].
    + intros rest [= <-]. split_and!; [done|by rewrite <- Hcl, <- Hwd|]. unfold cut_ok.
      change (as_pipe (set_main _ (drop_pipe s))) with (as_pipe (drop_pipe s)). rewrite Hdp.
      apply Forall_app. split; [done|]. by constructor.
    + split; [done|]. intros Hn. exfalso. by apply Hn.
    + change (closed (pp (ib (drop_pipe s))) = true <-> MLoop d cnt todo = MWait). rewrite Hcd. by apply not_waiting.
  - assert (Hds : drop_pipe s = s) by (unfold drop_pipe; by rewrite Hp). rewrite Hds.
    apply running_main; [done|]. split; [|split; [|by apply not_waiting]].
    + intros rest [= <-]. split_and!; [done|done|]. unfold cut_ok. change (as_pipe (set_main _ s)) with (as_pipe s).
      by rewrite Hp.
    + split; [done|]. change (as_pipe (set_main _ s)) with (as_pipe s). by rewrite Hp.
Qed.

(** ** A new pipe *)

Lemma line_of_fits (p : @pipe BP unit) size :
  fits size LineDual p -> @line_in _ LineDual (p_buf p) size false 0 [].
Proof.
  intros (H1 & H2 & H3). destruct (H3 (or_intror eq_refl)) as [H4 H5].
  split; try done; [by right|]. unfold bp_Written, bp_wrPtr. by rewrite H4.
Qed.

(** [l] is the pipe of the next block. *)
Definition with_new_pipe l (p : @psys BP unit) s : async W := set_pipe (as_idx s + 1) (Some l) (set_inPool p s).

Lemma new_pipe_blocks cs zo s l p :
  blocks w0 cs zo s -> as_pipe s = None ->
  new_pipe (as_idx s) (w_chunkSize w0) LineDual None l (ib s) (base p) ->
  blocks w0 (cs ++ [[]]) zo (with_new_pipe l p s).
Proof.
  intros B Hp N. pose proof B as [B1 B2 B3 B4 B5 B6 B7 B8 B9]. pose proof (sized_chunk w0 Hsz) as Hck.
  destruct (np_pipe _ _ _ _ _ _ _ N) as (q & Hq & Hi & _ & Hfit).
  pose proof (line_of_fits q _ (Hfit ltac:(lia))) as Hln.
  set (s' := with_new_pipe l p s). assert (Hps : past s' = past s) by done.
  assert (Hrd : forall k, k <> as_idx s -> in_ready s' k = in_ready s k).
  { intros k Hk. unfold in_ready, ib. cbn. rewrite (np_ready _ _ _ _ _ _ _ N). by rewrite lookup_insert_ne. }
  assert (Hrd' : in_ready s' (as_idx s) = Some l).
  { unfold in_ready, ib. cbn. rewrite (np_ready _ _ _ _ _ _ _ N). by rewrite lookup_insert_eq. }
  assert (Hac : forall k, in_active s' k = in_active s k).
  { intros k. unfold in_active, ib. cbn. by rewrite (np_active _ _ _ _ _ _ _ N). }
  assert (Hsl : forall k, slot s' k = slot s k) by done.
  assert (Hnew : in_line w0 (cs ++ [[]]) s' (as_idx s) l).
  { exists q, [], false. split; [done|]. split; [|split; [done|]].
    - apply last_chunk; [lia|]. rewrite zlen_app. change (zlen [[]]) with 1. lia.
    - split; [done|]. cbn. lia. }
  assert (Hno : forall k m, ~ 0 <= k < as_idx s -> slot s k = Some m -> False).
  { intros k m Hk Hs. apply Hk. destruct (B6 k m Hs). lia. }
  assert (Hslot : slot s' (as_idx s) = None).
  { rewrite Hsl. destruct (slot s (as_idx s)) eqn:Hs; [|done]. exfalso. by eapply (Hno (as_idx s)); [lia|]. }
  assert (Hact : forall k x, ~ 0 <= k < as_idx s -> in_active s k = Some x -> False).
  { intros k x Hk Hx. by apply Hk, (B5 k x). }
  assert (Hactive : in_active s' (as_idx s) = None).
  { rewrite Hac. destruct (in_active s (as_idx s)) eqn:Hs; [|done]. exfalso. by eapply (Hact (as_idx s)); [lia|]. }
  apply (blocks_step w0 (fun k => ~ 0 <= k < as_idx s) cs (cs ++ [[]]) zo zo s s'); try done.
  - intros k. lia.
  - cbn. lia.
  - rewrite Hps. cbn. lia.
  - rewrite zlen_app. change (zlen [[]]) with 1. cbn. lia.
  - rewrite Hps. cbn. lia.
  - intros k Hk. apply agree_moves; [|done|].
    { apply (lookup_app_l cs). unfold zlen in B1. lia. }
    split; try done.
    + intros _. right. cbn. lia.
    + unfold current. rewrite Hp. by intros x [? _].
    + apply Hrd. lia.
    + intros l' Hl. apply (np_heap _ _ _ _ _ _ _ N). intros ->. destruct Hl as [Hl|Hl].
      * by apply (np_not_ready _ _ _ _ _ _ _ N) in Hl.
      * by apply (np_not_active _ _ _ _ _ _ _ N) in Hl.
  - intros k Hk Hr. assert (k = as_idx s) as -> by (cbn in Hr; lia). left. by exists l.
  - intros k x Hk Hx. destruct (decide (k = as_idx s)) as [->|Hne].
    + rewrite Hrd' in Hx. injection Hx as <-. rewrite Hps. cbn. split_and!; try done; lia.
    + rewrite Hrd in Hx by done. destruct (B4 k x Hx). lia.
  - intros k x Hk Hx. rewrite Hac in Hx. by destruct (Hact k x).
  - intros k m Hk Hm. by destruct (Hno k m).
  - intros c pc Hc. left. split; [done|]. intros k x Hk Hx. by destruct (Hact k x).
Qed.

Lemma write_get_running ch d cnt todo cs zo s s' :
  running_ok cs zo s -> as_main s = MGet d cnt todo -> write_get ch d cnt todo s = Some s' ->
  exists cs' zo', running_ok cs' zo' s'.
Proof.
  intros R Hpc. pose proof R as [R1 R2 R3 R4 R5 (M1 & M2 & M3) R7 R8 R9]. rewrite Hpc in M1, M2, M3.
  destruct (M1 _ eq_refl) as (Hd & Hcl & Hcut). destruct M2 as [Hcnt Hp].
  assert (Hopen : closed (pp (ib s)) = false) by (destruct (closed (pp (ib s))); [by destruct M3 as [M3 _]; specialize (M3 eq_refl)|done]).
  pose proof (bk_past _ _ _ _ R5) as Hpast. pose proof (sized_chunk w0 Hsz) as Hck.
  destruct (kept_sizes _ R4) as [Hs1 Hs2]. unfold write_get. rewrite Hs1, Hs2.
  destruct (enter _ _ _ _) as [[o p]|] eqn:E0; [|done]. cbn [mbind option_bind].
  assert (Hnone : Pool.entries (ready (pp (base (as_inPool s)))) !! as_idx s = None).
  { change (in_ready s (as_idx s) = None). destruct (in_ready s (as_idx s)) eqn:Hr; [|done].
    destruct (bk_queue _ _ _ _ R5 _ _ Hr). lia. }
  destruct (enter_writer_total ch main_tid (as_idx s) (w_chunkSize w0) LineDual None _ o p R2 ltac:(lia) ltac:(lia) Hnone E0)
    as [r ->].
  destruct (enter_writer _ _ _ _ _ _ _ _ _ R2 E0) as [C Hr]. fold (ib s) in Hr.
  destruct r as [[l|]|]; intros [= <-].
  - exists (cs ++ [[]]), zo.
    pose proof (new_pipe_blocks cs zo s l p R5 Hp Hr) as Hb.
    destruct (np_pipe _ _ _ _ _ _ _ Hr) as (q & Hq & Hi & _ & Hfit).
    pose proof (line_of_fits q _ (Hfit ltac:(lia))) as Hln.
    split; try done.
    + by apply (flow_blocks w0 _ zo (with_new_pipe l p s)).
    + split; [|split; [split; [lia|intros _ Hx; lia]|]].
      * intros rest [= <-]. split; [|split; [done|]].
        { by rewrite concat_app, app_nil_r. }
        split.
        { exists q, false, 0, []. split_and!; [done|cbn; lia|done| |done]. intros _. by rewrite last_snoc. }
        exists cs, []. split; [done|]. change (zlen (@nil Z)) with 0. split; [|lia].
        unfold cut_ok in Hcut. by rewrite Hp in Hcut.
      * apply not_waiting; [|done]. unfold ib. cbn. by rewrite (np_open' _ _ _ _ _ _ _ Hr).
    + eapply (writer_ok_keep w0 cs _ s); [done|done| | |by apply store_view|exact R7].
      * intros k Hk _. right. cbn. pose proof (bk_len _ _ _ _ R5). lia.
      * intros n Hn _. by rewrite take_app_le.
    + apply (crew_same s); try done. intros [H _]. congruence.
  - destruct Hr as [_ Hr]. congruence.
  - exists cs, zo. apply (running_flow w0 data cs zo s); try done.
    + apply (main_flow w0 data cs s); try done. unfold main_ok. by rewrite Hpc.
    + apply (crew_same s); try done. apply drained_ready; apply Hr.
Qed.

(** ** Close *)

Lemma write_next_running d todo cs zo s :
  running_ok cs zo s -> as_main s = MNext (d :: todo) -> running_ok cs zo (set_main (MLoop d 0 todo) s).
Proof.
  intros R Hpc. pose proof (ro_main _ _ _ _ _ R) as (M1 & M2 & M3). rewrite Hpc in M1, M2, M3.
  destruct (M1 _ eq_refl) as (Hd & Hcl & Hcut). apply running_main; [done|]. split; [|split].
  - intros rest [= <-]. done.
  - split; [pose proof (zlen_nonneg d); lia|]. intros Hp _. by apply M2.
  - apply not_waiting; [|done]. change (closed (pp (ib s)) = true <-> False). by rewrite M3.
Qed.

Lemma shut_running cs zo s :
  running_ok cs zo s -> as_main s = MNext [] ->
  running_ok cs zo (set_main MShut (drop_pipe (set_w (set_closed (as_w s)) s))).
Proof.
  intros R Hpc. pose proof (ro_main _ _ _ _ _ R) as (M1 & M2 & M3). rewrite Hpc in M1, M2, M3.
  destruct (M1 _ eq_refl) as (Hd & Hcl & Hcut). cbn [concat] in Hd. rewrite app_nil_r in Hd.
  assert (Hopen : closed (pp (ib s)) = true <-> False) by (rewrite M3; done).
  assert (Hw : (kept w0 (as_w s) -> kept w0 (set_closed (as_w s))) /\ w_wr (set_closed (as_w s)) = w_wr (as_w s) /\
    forall i, index_at (as_w s) i -> index_at (set_closed (as_w s)) i).
  { split; [|done]. intros [b Hb]. exists true. rewrite Hb. by destruct b. }
  unfold cut_ok in Hcut. destruct (as_pipe s) as [l|] eqn:Hp.
  - destruct Hcut as [Hpipe (fs & x & -> & Hfs & Hx)].
    assert (Hne : x <> []) by (intros ->; apply M2; [done|apply last_snoc]).
    assert (Heq : drop_pipe (set_w (set_closed (as_w s)) s) = set_w (set_closed (as_w s)) (drop_pipe s))
      by (unfold drop_pipe; cbn; by rewrite Hp).
    rewrite Heq. apply (drop_running fs x zo s _ l); try done; [unfold drop_pipe; by rewrite Hp|
      split; unfold drop_pipe; by rewrite Hp|].
    split; [done|]. split.
    + split; [unfold drop_pipe; by rewrite Hp|]. split; [done|]. split; [done|]. exists fs, [x].
      split; [done|]. split; [done|]. right. exists x. split; [done|]. pose proof (zlen_nonneg x).
      assert (zlen x <> 0) by (destruct x; [done|]; rewrite zlen_cons; pose proof (zlen_nonneg x); lia). lia.
    + apply not_waiting; [|done]. change (closed (pp (ib (drop_pipe s))) = true <-> False).
      replace (closed (pp (ib (drop_pipe s)))) with (closed (pp (ib s))) by (unfold drop_pipe; by rewrite Hp). done.
  - assert (Heq : drop_pipe (set_w (set_closed (as_w s)) s) = set_w (set_closed (as_w s)) s)
      by (unfold drop_pipe; cbn; by rewrite Hp). rewrite Heq.
    apply (running_flow w0 data cs zo s); try done; [apply R|apply R| |].
    + split; [done|]. split.
      * split; [done|]. split; [done|]. split; [done|]. exists cs, []. rewrite app_nil_r. split_and!; [done|done|by left].
      * by apply not_waiting.
    + apply (crew_same s); try done. apply R.
Qed.

Lemma close_running ch cs zo s o p :
  running_ok cs zo s -> as_main s = MShut -> request ch RClose (as_inPool s) = (o, p) ->
  running_ok cs zo (set_main MWait (set_inPool p s)).
Proof.
  intros R Hpc Hreq. pose proof R as [R1 R2 R3 R4 R5 (M1 & M2 & M3) R7 R8 R9]. rewrite Hpc in M1, M2, M3.
  destruct (request_close ch (as_inPool s) R2) as (p' & E0 & C & Hcl & Hh & Hr & Ha). rewrite E0 in Hreq.
  injection Hreq as <- <-. fold (ib s) in Hh, Hr, Ha.
  assert (Hag : forall k, agree zo s (set_main MWait (set_inPool p' s)) k).
  { intros k. split; try done; unfold in_ready, in_active, ib; cbn.
    - by rewrite Hr.
    - by rewrite Ha.
    - intros l _. by rewrite Hh. }
  split; try done.
  - eapply blocks_all; [exact R5|done|done|done| |done|done]. intros k. by apply agree_moves.
  - eapply (writer_ok_keep w0 cs cs s); [done|done|done|done|by apply store_view|exact R7].
  - apply (crew_same s); try done. intros [_ H]. split; [exact Hcl|].
    intros k. rewrite <- (H k). apply Hag.
Qed.

Lemma no_error cs zo s : running_ok cs zo s -> checkErr s = None.
Proof. intros R. destruct (ro_chan _ _ _ _ _ R) as (H1 & H2 & _). unfold checkErr. by rewrite H2, H1. Qed.

Lemma main_running ch fuel cs zo s s' :
  running_ok cs zo s -> main_step ch fuel s = Some s' -> exists cs' zo', running_ok cs' zo' s'.
Proof.
  intros R. pose proof (ro_main _ _ _ _ _ R) as (M1 & M2 & _). unfold main_step. rewrite (no_error _ _ _ R).
  destruct (as_main s) as [[|d todo]|d cnt todo|d cnt todo|d cnt todo|cnt todo| | |err] eqn:Hpc; try done.
  - destruct (M1 _ eq_refl) as (_ & -> & _). intros [= <-]. exists cs, zo. by apply shut_running.
  - destruct (M1 _ eq_refl) as (_ & -> & _). intros [= <-]. exists cs, zo. by apply write_next_running.
  - by eapply write_loop_running.
  - by eapply write_get_running.
  - intros [= <-]. exists cs, zo. by apply pipe_full_running.
  - destruct (request ch RClose (as_inPool s)) as [o p] eqn:E0. intros [= <-]. exists cs, zo.
    by eapply close_running.
Qed.

End main.
