(* ===== verification/AsyncWorkers.v ===== *)
(** The asynchronous writer: the steps of the workers, of the goroutine that waits
    for them and of the monitor keep the invariant. *)

From S2P Require Import Prelude Bufpipe Pool PoolInv PoolView WorkerPool Lines Errs Liblzma SmallLzma Lib XzConst.
From S2P Require Import Literal World LibIndex Stream StreamPump PipePump Ioutil PipeClose Writer WriterBlock.
From S2P Require Import WriterSync WriterNew WriterSession AsyncWriter AsyncInv AsyncFlow AsyncMain.

Section workers.
Context {BP : Bufpipe} {BC : BufpipeClose BP} {L : Liblzma} {E : Errs} {IU : Ioutil} {W : Type} {IW : IoWriter W}.
Context {BS : BufpipeSpec BP} {LS : LiblzmaSpec L} {ES : ErrsSpec E} {LI : LiblzmaIdle L} {BCS : BufpipeCloseSpec BP BC}.
Context (w0 : Writer W) (data : list Z).
Context (Hsz : sized w0) (Hout : w_outSize w0 = w_maxSize w0) (Hom : w_outMode w0 = LineMono).
Implicit Types (s : async W) (k : Z) (l m z : loc) (c : chan).

#[local] Abbreviation running_ok := (running_ok w0 data).
#[local] Abbreviation main_ok := (main_ok w0 data).

(** ** A step of one block *)

(** Nothing changes but what belongs to the block [k]. *)
Record elsewhere (zo zo' : gmap loc Z) k (s s' : async W) : Prop := {
  ew_idx : as_idx s' = as_idx s;
  ew_pipe : as_pipe s' = as_pipe s;
  ew_writer : as_writer s' = as_writer s;
  ew_ready k' : k' <> k -> in_ready s' k' = in_ready s k';
  ew_active k' : k' <> k -> in_active s' k' = in_active s k';
  ew_in k' l : k' <> k -> in_ready s k' = Some l \/ in_active s k' = Some l -> heap (ib s') !! l = heap (ib s) !! l;
  ew_slots k' : k' <> k -> out_ready s' k' = out_ready s k';
  ew_out k' m : k' <> k -> slot s k' = Some m -> heap (ob s') !! m = heap (ob s) !! m;
  ew_sizes k' z : k' <> k -> zo !! z = Some k' -> zo' !! z = Some k' /\ as_sizes s' !! z = as_sizes s !! z;
}.

Lemma slot_elsewhere zo zo' k s s' k' : elsewhere zo zo' k s s' -> k' <> k -> slot s' k' = slot s k'.
Proof. intros A Hne. unfold slot. by rewrite (ew_slots _ _ _ _ _ A), (ew_writer _ _ _ _ _ A). Qed.

Lemma elsewhere_moves cs zo zo' k s s' c pc pc' k' :
  elsewhere zo zo' k s s' -> as_worker s !! c = Some pc -> as_worker s' = <[c := pc']> (as_worker s) ->
  (forall k1 l, k1 <> k -> in_active s k1 = Some l -> holds pc <> Some l) ->
  k' <> k -> moves w0 cs cs zo zo' s s' k'.
Proof.
  intros A Hc Hw Hpc Hne. apply agree_moves; [done|by intros z Hz; apply (ew_sizes _ _ _ _ _ A k')|].
  split; try (intros; by eapply A).
  - unfold sealed. by rewrite (ew_pipe _ _ _ _ _ A), (ew_idx _ _ _ _ _ A).
  - unfold current. intros l. by rewrite (ew_pipe _ _ _ _ _ A), (ew_idx _ _ _ _ _ A).
  - by eapply slot_elsewhere.
  - intros c1 pc1 l H1 H2 H3. rewrite Hw, lookup_insert_ne; [done|]. intros <-.
    rewrite Hc in H1. injection H1 as <-. by eapply Hpc.
Qed.

(** The worker [c] goes from [pc] to [pc'], on the block [k]. *)
Lemma blocks_one k c pc pc' cs zo zo' s s' :
  blocks w0 cs zo s -> elsewhere zo zo' k s s' ->
  as_worker s !! c = Some pc -> as_worker s' = <[c := pc']> (as_worker s) ->
  (forall k1 l, k1 <> k -> in_active s k1 = Some l -> holds pc <> Some l) ->
  (forall c1 pc1 l, c1 <> c -> as_worker s !! c1 = Some pc1 -> in_active s k = Some l -> holds pc1 <> Some l) ->
  (forall c1 pc1 l, c1 <> c -> as_worker s !! c1 = Some pc1 -> holds pc' = Some l -> holds pc1 <> Some l) ->
  (forall z k1, zo' !! z = Some k1 -> is_Some (as_sizes s' !! z)) ->
  in_ready s' k = None -> (forall l, in_active s' k = Some l -> 0 <= k < as_idx s) ->
  (past s <= k < as_idx s -> live w0 cs zo' s' k) ->
  (forall m, slot s' k = Some m -> past s <= k < as_idx s /\ slotted w0 cs zo' s' k m) ->
  worker_ok w0 cs zo' s' pc' ->
  blocks w0 cs zo' s'.
Proof.
  intros B A Hc Hw Hpc Hoth Hnew Hdom Hrd Hac Hlive Hslot Hok. pose proof B as [B1 B2 _ _ _ _ _ B8 _].
  assert (Hidx : as_idx s' = as_idx s) by apply A.
  assert (Hpast : past s' = past s) by (unfold past; by rewrite (ew_writer _ _ _ _ _ A)).
  apply (blocks_step w0 (fun k' => k' = k) cs cs zo zo' s s'); try done; try lia.
  - intros k' Hne. by eapply elsewhere_moves.
  - intros k' ->. rewrite Hpast, Hidx. done.
  - intros k' l ->. by rewrite Hrd.
  - intros k' l ->. rewrite Hidx. apply Hac.
  - intros k' m ->. rewrite Hpast, Hidx. apply Hslot.
  - intros c1 pc1 H1. rewrite Hw, lookup_insert in H1. case_decide; [right; by injection H1 as <-|].
    left. split; [done|]. intros k' l -> Hl. by eapply Hoth.
  - intros c1 c2 pc1 pc2 l. rewrite Hw, !lookup_insert. repeat case_decide; subst; try done.
    + intros [= <-] H2 H3 H4. exfalso. by eapply (Hnew c2).
    + intros H1 [= <-] H3 H4. exfalso. by eapply (Hnew c1).
    + intros H1 H2 H3 H4. by eapply B8.
Qed.

(** ** The rest of the invariant *)

Lemma crew_moved c pc pc' s s' :
  as_workPool s' = as_workPool s -> as_monitor s' = as_monitor s -> as_worker s !! c = Some pc ->
  as_worker s' = <[c := pc']> (as_worker s) -> (drained s -> drained s') ->
  closed (pp (ob s')) = closed (pp (ob s)) -> (closed (pp (ob s)) = true -> holds pc' = None) ->
  crew s -> crew s'.
Proof.
  intros H1 H2 Hc Hw H3 H4 H5 [C1 C2 C3 C4 C5 C6 C7 C8 C9]. split; rewrite ?H1, ?H2, ?H4; try done.
  - intros c1. rewrite Hw, C3, lookup_insert_is_Some'. split; [by right|]. intros [<-|H]; [by exists pc|done].
  - intros c1 Hm. rewrite Hw, lookup_insert. case_decide; [done|]. eauto.
  - intros Hcl. destruct (C9 Hcl) as [D1 D2]. split; [auto|]. intros c1 pc1. rewrite Hw, lookup_insert.
    case_decide; [intros [= <-]; auto|eauto].
Qed.

(** A step of the worker [c] on the block [k]. *)
Lemma touched_running k c pc pc' cs zo zo' s s' :
  running_ok cs zo s -> elsewhere zo zo' k s s' -> blocks w0 cs zo' s' ->
  as_worker s !! c = Some pc -> as_worker s' = <[c := pc']> (as_worker s) ->
  core 0 (ib s') -> core 0 (ob s') -> same_w w0 s s' -> w_closed (as_w s') = w_closed (as_w s) ->
  same_rest s s' -> as_main s' = as_main s ->
  closed (pp (ib s')) = closed (pp (ib s)) -> closed (pp (ob s')) = closed (pp (ob s)) ->
  (closed (pp (ob s)) = true -> holds pc' = None) -> (drained s -> drained s') ->
  (forall b l, as_pipe s = Some l -> pipe_ok w0 cs s b l -> pipe_ok w0 cs s' b l) -> same_view zo zo' s s' ->
  running_ok cs zo' s'.
Proof.
  intros [R1 R2 R3 R4 R5 R6 R7 R8 R9] A B Hc Hw C1 C2 (W1 & W2 & W3) Hcl [S1 S2 S3 S4 S5 S6] Hm H1 H2 H3 H4 H5 V.
  split; try done.
  - by rewrite S6.
  - by apply W1.
  - eapply main_keep; [done|apply A|done|done|done|done].
  - eapply writer_ok_keep; [done|done| |done|done|done].
    intros k1 _. unfold sealed. by rewrite (ew_pipe _ _ _ _ _ A), (ew_idx _ _ _ _ _ A).
  - by eapply crew_moved.
  - by rewrite S3, S4, S5.
Qed.

(** ** Where the pipes are *)

Lemma holder_active cs zo s c pc l : blocks w0 cs zo s -> as_worker s !! c = Some pc -> holds pc = Some l ->
  exists k, in_active s k = Some l.
Proof.
  intros B Hc Hl. pose proof (bk_workers _ _ _ _ B c pc Hc) as H.
  destruct pc; try done; injection Hl as <-; destruct H as (k & H); try (destruct H as [_ H]; by exists k; apply H).
  by exists k.
Qed.

Lemma active_once s k k' l : core 0 (ib s) -> in_active s k = Some l -> in_active s k' = Some l -> k = k'.
Proof.
  intros C H1 H2. destruct (core_idx _ _ C SActive k l H1) as (q1 & Hq1 & <-).
  destruct (core_idx _ _ C SActive k' l H2) as (q2 & Hq2 & <-). congruence.
Qed.

Lemma active_not_ready s k k' l : core 0 (ib s) -> in_active s k = Some l -> in_ready s k' = Some l -> False.
Proof. intros C H1 H2. by pose proof (core_disj _ _ C SActive SReady k k' l H1 H2). Qed.

(** The pipe of a slot is filed under its block. *)
Lemma slot_filed cs zo s k m : core 0 (ob s) -> writer_ok w0 cs zo s -> slot s k = Some m ->
  (exists q, heap (ob s) !! m = Some q /\ p_idx q = k) /\
  (out_ready s k = Some m \/ out_active s k = Some m).
Proof.
  intros C V. unfold slot. destruct (out_ready s k) as [m'|] eqn:Hr.
  - intros [= ->]. split; [apply (core_idx _ _ C SReady k m Hr)|by left].
  - unfold writer_ok in V. destruct (as_writer s) as [|j m'| | | | | | |]; try done.
    destruct (Z.eqb_spec j (k + 1)) as [->|]; [|done]. intros [= ->]. destruct V as (_ & _ & Ha).
    replace (k + 1 - 1) with k in Ha by lia. split; [apply (core_idx _ _ C SActive k m Ha)|by right].
Qed.

Lemma slot_once cs zo s k k' m : core 0 (ob s) -> writer_ok w0 cs zo s ->
  slot s k = Some m -> slot s k' = Some m -> k = k'.
Proof.
  intros C V H1 H2. destruct (slot_filed _ _ _ _ _ C V H1) as [(q1 & Hq1 & <-) _].
  destruct (slot_filed _ _ _ _ _ C V H2) as [(q2 & Hq2 & <-) _]. congruence.
Qed.

Lemma kept_pools (w : Writer W) : kept w0 w -> w_outSize w = w_maxSize w0 /\ w_outMode w = LineMono.
Proof. intros [[] ->]; done. Qed.

(** A step that moves no block: workers that hold no pipe come, go and move. *)
Record settled (s s' : async W) : Prop := {
  st_idx : as_idx s' = as_idx s;
  st_pipe : as_pipe s' = as_pipe s;
  st_writer : as_writer s' = as_writer s;
  st_main : as_main s' = as_main s;
  st_w : as_w s' = as_w s;
  st_sizes : as_sizes s' = as_sizes s;
  st_in : same_store (ib s) (ib s');
  st_heap : heap (ob s') = heap (ob s);
  st_ready : Pool.entries (ready (pp (ob s'))) = Pool.entries (ready (pp (ob s)));
  st_active : Pool.entries (active (pp (ob s'))) = Pool.entries (active (pp (ob s)));
  st_closed : closed (pp (ob s)) = true -> closed (pp (ob s')) = true;
  st_chans : as_errChan s' = as_errChan s /\ as_lastErr s' = as_lastErr s /\ as_doneChan s' = as_doneChan s;
  st_crash : as_crash s' = as_crash s;
  st_core : core 0 (ib s') /\ core 0 (ob s');
  st_new c pc : as_worker s' !! c = Some pc -> as_worker s !! c = Some pc \/ holds pc = None;
  st_old c pc l : as_worker s !! c = Some pc -> holds pc = Some l -> as_worker s' !! c = Some pc;
}.

Lemma settled_running cs zo s s' : running_ok cs zo s -> settled s s' -> crew s' -> running_ok cs zo s'.
Proof.
  intros [R1 R2 R3 R4 R5 R6 R7 R8 R9] [T1 T2 T3 T4 T5 T6 T7 T8 T9 T10 T11 (T12 & T13 & T14) T15 [T16 T17] T18 T19] Hcr.
  assert (Hag : forall k, agree zo s s' k).
  { intros k. split; unfold sealed, current, in_ready, in_active.
    - by rewrite T1, T2.
    - intros l. by rewrite T1, T2.
    - by rewrite (ss_ready _ _ T7).
    - by rewrite (ss_active _ _ T7).
    - intros l _. by rewrite (ss_heap _ _ T7).
    - by apply out_slot.
    - intros m _. by rewrite T8.
    - intros z _. by rewrite T6.
    - intros c pc l H1 H2 _. by eapply T19. }
  assert (Hheld : forall c pc l, as_worker s' !! c = Some pc -> holds pc = Some l -> as_worker s !! c = Some pc).
  { intros c pc l H1 H2. destruct (T18 c pc H1); [done|congruence]. }
  assert (Hpast : past s' = past s) by (unfold past; by rewrite T3).
  pose proof R5 as [B1 B2 _ _ _ _ _ B8 B9]. split; try done.
  - by rewrite T15.
  - by rewrite T5.
  - eapply (blocks_step w0 (fun _ => False)); [exact R5|intros k; right; tauto|lia|lia|lia| | | |done|done|done|done| |].
    + lia.
    + intros k _. by apply agree_moves.
    + intros z k H. rewrite T6. by eapply B9.
    + intros c pc H1. destruct (T18 c pc H1) as [H2|H2]; [left|right; by destruct pc]. split; [done|by intros ? ? []].
    + intros c c' pc pc' l H1 H2 H3 H4. eapply B8; eauto.
  - apply (main_keep w0 data cs s); try done; [by rewrite T5|apply T7|].
    intros b l _ (q & cl & r & bs & H). exists q, cl, r, bs. by rewrite (ss_heap _ _ T7), T1.
  - eapply (writer_ok_keep w0 cs cs s); [by rewrite T5|by rewrite T5| |done| |exact R7].
    + intros k _. unfold sealed. by rewrite T1, T2.
    + split; unfold out_ready, out_active; rewrite ?T8, ?T9, ?T10, ?T6; done.
  - by rewrite T12, T13, T14.
Qed.

(** The worker [c] is at another point and nothing else happened. *)
Lemma idle_running c pc pc' cs zo s p :
  running_ok cs zo s -> as_worker s !! c = Some pc -> holds pc = None -> holds pc' = None ->
  core 0 (base p) -> same_store (ib s) (base p) -> running_ok cs zo (at_worker c pc' (set_inPool p s)).
Proof.
  intros R Hc Hh Hh' C S. apply (settled_running cs zo s); [done| |].
  - split; try done; [split; [done|apply R]|..]; intros c1 pc1; cbn; rewrite lookup_insert; case_decide; subst; auto.
    + intros [= <-]. by right.
    + intros l H1 H2. congruence.
  - eapply (crew_moved c pc pc' s); try done; [|apply R]. apply drained_ready; apply S.
Qed.

(** ** The worker takes an input pipe *)

Lemma take_running c k l cs zo s p :
  running_ok cs zo s -> as_worker s !! c = Some KGet -> core 0 (base p) -> taken k l (ib s) (base p) ->
  let z := fresh (dom (as_sizes s)) in
  running_ok cs (<[z := k]> zo) (at_worker c (KOut l z) (set_sizes (<[z := SizeStats 0 0]> (as_sizes s)) (set_inPool p s))).
Proof.
  intros R Hc C T z. pose proof R as [R1 R2 R3 R4 R5 R6 R7 R8 R9]. set (s' := at_worker c (KOut l z) _).
  assert (Hwas : in_ready s k = Some l) by apply T.
  destruct (bk_queue _ _ _ _ R5 k l Hwas) as (Hk & Hin & Hsl & Hna).
  assert (Hz : as_sizes s !! z = None) by (apply not_elem_of_dom, is_fresh).
  assert (Hzo : forall z1 k1, zo !! z1 = Some k1 -> z1 <> z).
  { intros z1 k1 H ->. destruct (bk_sizes _ _ _ _ R5 _ _ H). congruence. }
  assert (A : elsewhere zo (<[z := k]> zo) k s s').
  { split; try done; unfold in_ready, in_active, ib; cbn.
    - intros k' Hne. rewrite (tk_ready _ _ _ _ T). by rewrite lookup_delete_ne.
    - intros k' Hne. rewrite (tk_active _ _ _ _ T). by rewrite lookup_insert_ne.
    - intros k' l' _ _. by rewrite (tk_heap _ _ _ _ T).
    - intros k' z' _ Hz'. rewrite !lookup_insert_ne by (by apply not_eq_sym, (Hzo _ k')). done. }
  assert (Hact : in_active s' k = Some l) by (unfold in_active, ib; cbn; rewrite (tk_active _ _ _ _ T); apply lookup_insert_eq).
  assert (Hrd : in_ready s' k = None) by (unfold in_ready, ib; cbn; rewrite (tk_ready _ _ _ _ T); apply lookup_delete_eq).
  assert (Hgot : got w0 cs (<[z := k]> zo) s' k l z).
  { split; [done|]. split; [|split; [apply lookup_insert_eq|done]]. destruct Hin as (q & chunk & cl & H). exists q, chunk, cl.
    unfold ib. cbn. by rewrite (tk_heap _ _ _ _ T). }
  assert (Hpast : past s' = past s) by done.
  assert (Hw : as_worker s' !! c = Some (KOut l z)) by apply lookup_insert_eq.
  assert (Hb : blocks w0 cs (<[z := k]> zo) s').
  { eapply (blocks_one k c KGet (KOut l z) cs zo _ s s'); try done.
    - intros c1 pc1 l1 _ _ Hk1. by rewrite Hna in Hk1.
    - intros c1 pc1 l1 _ H1 [= <-] H2. destruct (holder_active _ _ _ _ _ _ R5 H1 H2) as (k1 & Hk1).
      by eapply (active_not_ready s k1 k l).
    - intros z1 k1. cbn. rewrite !lookup_insert. case_decide; [by eexists|]. intros Hx. exact (bk_sizes _ _ _ _ R5 _ _ Hx).
    - intros _ _. pose proof (bk_past _ _ _ _ R5). lia.
    - intros _. right; left. by exists c, l, z.
    - intros m Hm. change (slot s' k) with (slot s k) in Hm. congruence.
    - exists k. split; [done|exact Hgot]. }
  eapply (touched_running k c KGet (KOut l z)); try done.
  - apply T.
  - intros Hcl. destruct (cr_closed _ R8 Hcl) as [[_ D] _]. by rewrite D in Hwas.
  - intros [_ D]. by rewrite D in Hwas.
  - intros b l' _ (q & cl & r & bs & Hq & H). exists q, cl, r, bs. split; [by unfold ib; cbn; rewrite (tk_heap _ _ _ _ T)|done].
  - split; try done. intros j m e Hj _. split; [done|]. intros z1 H1.
    cbn. by rewrite !lookup_insert_ne by (by apply not_eq_sym, (Hzo _ (j - 1))).
Qed.

(** ** The worker gets an output pipe *)

(** The block that the worker [c] works on: nobody else has its pipe. *)
Lemma own_block k c pc l cs zo s :
  core 0 (ib s) -> blocks w0 cs zo s -> as_worker s !! c = Some pc -> holds pc = Some l -> in_active s k = Some l ->
  (forall k1 l1, k1 <> k -> in_active s k1 = Some l1 -> holds pc <> Some l1) /\
  (forall c1 pc1 l1, c1 <> c -> as_worker s !! c1 = Some pc1 -> in_active s k = Some l1 -> holds pc1 <> Some l1) /\
  (forall c1 pc1 l1, c1 <> c -> as_worker s !! c1 = Some pc1 -> l1 = l -> holds pc1 <> Some l1) /\ in_ready s k = None.
Proof.
  intros C B Hc Hl Hk. split_and!.
  - intros k1 l1 Hne H1 H2. rewrite Hl in H2. injection H2 as <-. by pose proof (active_once _ _ _ _ C Hk H1).
  - intros c1 pc1 l1 Hne H1 H2 H3. rewrite Hk in H2. injection H2 as <-.
    by pose proof (bk_holds _ _ _ _ B c1 c pc1 pc l H1 Hc H3 Hl).
  - intros c1 pc1 l1 Hne H1 -> H3. by pose proof (bk_holds _ _ _ _ B c1 c pc1 pc l H1 Hc H3 Hl).
  - destruct (in_ready s k) as [l1|] eqn:Hr; [|done]. destruct (bk_queue _ _ _ _ B k l1 Hr) as (_ & _ & _ & Hn). congruence.
Qed.

Lemma out_running c k l z m cs zo s p :
  running_ok cs zo s -> as_worker s !! c = Some (KOut l z) -> past s <= k < as_idx s -> got w0 cs zo s k l z ->
  core 0 (base p) -> new_pipe k (w_maxSize w0) LineMono (Some z) m (ob s) (base p) ->
  running_ok cs zo (at_worker c (KEncode l z m) (set_outPool p s)).
Proof.
  intros R Hc Hk (Hact & Hin & Hz & Hsl) C N. pose proof R as [R1 R2 R3 R4 R5 R6 R7 R8 R9].
  set (s' := at_worker c (KEncode l z m) _). pose proof (sized_chunk w0 Hsz). pose proof (sized_max w0 Hsz).
  destruct (own_block k c _ l cs zo s R2 R5 Hc eq_refl Hact) as (O1 & O2 & O3 & O4).
  assert (Hm : forall k1, out_active s k1 <> Some m) by apply N.
  assert (Hslm : forall k1, slot s k1 <> Some m).
  { intros k1 H1. destruct (slot_filed _ _ _ _ _ R3 R7 H1) as [_ [H2|H2]]; [by eapply N|by eapply Hm]. }
  assert (A : elsewhere zo zo k s s').
  { split; try done.
    - intros k' Hne. unfold out_ready, ob. cbn. rewrite (np_ready _ _ _ _ _ _ _ N). by rewrite lookup_insert_ne.
    - intros k' m' _ Hm'. unfold ob. cbn. apply (np_heap _ _ _ _ _ _ _ N). intros ->. by eapply Hslm. }
  assert (Hslot : slot s' k = Some m).
  { unfold slot, out_ready, ob. cbn. by rewrite (np_ready _ _ _ _ _ _ _ N), lookup_insert_eq. }
  destruct (np_pipe _ _ _ _ _ _ _ N) as (q & Hq & Hi & Hd & Hfit).
  assert (Hw : as_worker s' !! c = Some (KEncode l z m)) by apply lookup_insert_eq.
  assert (Henc : encoding w0 cs zo s' k l z m).
  { split; [done|]. split; [done|]. split; [done|]. split; [done|]. exists q. split; [done|]. split; [done|].
    destruct (Hfit ltac:(lia)) as (F1 & F2 & F3). destruct (F3 (or_introl eq_refl)) as [F4 F5].
    split; try done; [by left|]. unfold bp_Written, bp_wrPtr. by rewrite F4. }
  assert (Hb : blocks w0 cs zo s').
  { eapply (blocks_one k c (KOut l z) (KEncode l z m) cs zo zo s s'); try done.
    - intros c1 pc1 l1 Hne H1 [= <-]. by eapply O3.
    - intros z1 k1. exact (bk_sizes _ _ _ _ R5 z1 k1).
    - intros l1 H1. exact (bk_active _ _ _ _ R5 k l1 H1).
    - intros _. right; right. exists m. left. by exists c, l, z.
    - intros m1 Hm1. rewrite Hslot in Hm1. injection Hm1 as <-. split; [done|]. left. by exists c, l, z.
    - by exists k. }
  eapply (touched_running k c (KOut l z) (KEncode l z m)); try done.
  - change (closed (pp (base p)) = closed (pp (ob s))). by rewrite (np_open _ _ _ _ _ _ _ N), (np_open' _ _ _ _ _ _ _ N).
  - intros Hcl. pose proof (np_open _ _ _ _ _ _ _ N). congruence.
  - split; try done.
    + intros j m' Hj Hr _. unfold out_ready, ob. cbn. rewrite (np_ready _ _ _ _ _ _ _ N).
      destruct (decide (j - 1 = k)) as [<-|Hne]; [|by rewrite lookup_insert_ne].
      unfold slot in Hsl. rewrite Hr, Hj, (proj2 (Z.eqb_eq _ _)) in Hsl by lia. done.
    + intros k1. unfold out_active, ob. cbn. by rewrite (np_active _ _ _ _ _ _ _ N).
    + intros Hcl. pose proof (np_open _ _ _ _ _ _ _ N). congruence.
    + intros j m' e _ Ha. split; [|done]. unfold ob. cbn. apply (np_heap _ _ _ _ _ _ _ N). intros ->. by eapply Hm.
Qed.

(** ** The encoding *)

Lemma int64_nonzero x : 0 < x < 2 ^ 64 -> int64 x <> 0.
Proof.
  intros H. unfold int64. pose proof (Z.div_mod (x + 2 ^ 63) (2 ^ 64) ltac:(lia)).
  pose proof (Z.mod_pos_bound (x + 2 ^ 63) (2 ^ 64) ltac:(lia)). lia.
Qed.

(** The unpadded size of a block is never zero, the value that stands for a
    block that was not encoded. *)
Lemma encoded_unpad check b cap chunk bytes u v : encoded check b cap chunk bytes u v -> u <> 0.
Proof.
  intros [(l & m0 & c0 & out1 & c1 & m1 & out2 & c2 & m2 & blk & hdr & H)|[(hdr & pad & H) _]].
  - destruct H as (_ & _ & _ & _ & _ & He & _ & -> & _). apply int64_nonzero. by eapply header_encode_unpadded.
  - destruct H as (_ & _ & _ & -> & -> & _). unfold literal_data. rewrite !zlen_app, zlen_cons, zlen_nil, zlen_replicate.
    pose proof (zlen_nonneg hdr). pose proof (zlen_nonneg (lit_chunks (length chunk) chunk)).
    pose proof (zlen_nonneg (check_bytes check chunk)). lia.
Qed.

(** Only the world changed, and no index in it. *)
Definition quiet (w w' : Writer W) : Prop :=
  w' = set_wr_world (w_wr w) (w_world w') w /\ mem_keeps (mem (w_world w)) (mem (w_world w')).

Lemma quiet_refl w : quiet w w.
Proof. split; [by destruct w|apply mem_keeps_refl]. Qed.

Lemma quiet_same s s' : quiet (as_w s) (as_w s') -> same_w w0 s s'.
Proof.
  intros [Hw [K1 K2]]. split; [|split].
  - intros [b Hb]. exists b. rewrite Hw, Hb. by destruct b.
  - by rewrite Hw.
  - intros i (a & H1 & H2). exists a. rewrite Hw. cbn. rewrite K1. split; [done|]. by apply K2.
Qed.

Lemma quiet_closed w w' : quiet w w' -> w_closed w' = w_closed w.
Proof. by intros [-> _]. Qed.

Lemma kept_block_ok (w : Writer W) (b : blk) : kept w0 w -> block_ok w b -> block_ok w0 b.
Proof. intros [[] ->]; done. Qed.

Lemma kept_sized (w : Writer W) : kept w0 w -> sized w.
Proof. destruct Hsz as [Z1 Z2]. intros [[] ->]; by split. Qed.

(** What the encoding of [chunk] does to the pipes and the writer. *)
Definition encode_outcome (fuel : nat) (chunk : list Z) (w : Writer W)
    (x : outcome (option (Z * Z) * error) * (BufferPipe * BufferPipe * Writer W)) : Prop :=
  match x with
  | (Ret (r, err), (dst, _, w')) => quiet w w' /\
      match err with
      | None => exists bytes u v, r = Some (u, v) /\ u <> 0 /\ block_ok w0 (Blk chunk bytes u v) /\
          line dst (w_maxSize w0) false 0 bytes
      | Some _ => r = None /\ bp_Mode dst = LineMono /\ bp_Closed dst = false
      end
  | (Pan _, _) => True
  | (NoFuel, _) => (fuel < block_fuel w0)%nat
  end.

Lemma encode_body_run fuel (w : Writer W) d r scap chunk :
  kept w0 w -> zlen chunk <= w_chunkSize w0 -> r <> d ->
  dst_line (w_world w) d (w_maxSize w0) [] ->
  @src_line BP L LineDual (w_world w) r scap chunk chunk ->
  exists o wd', encode_body fuel (Some d) (Some r) w = (o, at_world w wd') /\
    match o with
    | Ret (res, err) => mem_keeps (mem (w_world w)) (mem wd') /\
        match err with
        | None => exists bytes u v, res = Some (u, v) /\ u <> 0 /\ block_ok w0 (Blk chunk bytes u v) /\
            dst_line wd' d (w_maxSize w0) bytes
        | Some _ => res = None /\ open_at wd' d
        end
    | Pan _ => True
    | NoFuel => (fuel < pipe_fuel (w_maxSize w0) scap)%nat
    end.
Proof.
  intros Hkept Hlen Hne Hd Hr. pose proof (kept_sized w Hkept) as Hs.
  assert (Hcs : w_chunkSize w = w_chunkSize w0 /\ w_maxSize w = w_maxSize w0) by (destruct Hkept as [[] ->]; done).
  destruct Hcs as [Hc1 Hc2]. pose proof (sized_chunk w Hs) as Hcr.
  unfold encode_body. unfold with_recover. rewrite bind_get.
  rewrite (proj2 (Z.eqb_neq _ _)) by (unfold ChunkStream; lia). cbn [negb].
  destruct (blockEncode_run fuel w d r scap chunk Hs ltac:(lia) Hne ltac:(by rewrite Hc2) Hr) as (o & wd' & Hrun & Ho).
  rewrite bind_run, Hrun. destruct o as [[u v]|p|].
  - exists (Ret (Some (u, v), None)), wd'. split; [done|].
    destruct Ho as (b & bytes & Hh & Henc & Hdst & _ & Hm & _). split; [done|]. exists bytes, u, v.
    split; [done|]. split; [by eapply encoded_unpad|]. split; [|by rewrite <- Hc2].
    apply (kept_block_ok w); [done|]. by exists b.
  - destruct Ho as (Hp & _ & Hop & Hm).
    assert (error_panic p) as Hep by (apply block_panic_error; exact Hp).
    destruct (errs_Recover p None) as [err|] eqn:Er; [|by exists (Pan p), wd'].
    exists (Ret (None, err)), wd'. split; [done|]. split; [done|]. destruct err as [e|]; [done|].
    exfalso. destruct Hep as [[e ->]|[x ->]]; [by rewrite Recover_err in Er|by apply (Recover_run x None)].
  - exists NoFuel, wd'. by rewrite <- Hc2.
Qed.

Lemma with_pipes_run fuel dst src (w : Writer W) cl chunk :
  kept w0 w -> line dst (w_maxSize w0) false 0 [] -> cl = true ->
  @line_in _ LineDual src (w_chunkSize w0) cl 0 chunk ->
  encode_outcome fuel chunk w (with_pipes dst src (encode_body fuel) w).
Proof.
  intros Hkept Hd -> Hs. unfold with_pipes. set (ps := {[1%positive := dst; 2%positive := src]}).
  set (w1 := set_wr_world _ _ w).
  assert (Hkept1 : kept w0 w1) by (destruct Hkept as [b Hb]; exists b; unfold w1; rewrite Hb; by destruct b).
  destruct (line_bounds _ _ _ _ _ Hs) as [_ Hlen].
  destruct (encode_body_run fuel w1 1 2 (w_chunkSize w0) chunk Hkept1 Hlen) as (o & wd' & Hrun & Ho).
  - done.
  - exists dst. split; [|done]. apply lookup_insert_eq.
  - exists src, 0. split; [|done]. unfold w1. cbn. unfold ps. rewrite lookup_insert_ne by done. apply lookup_insert_eq.
  - rewrite Hrun. destruct o as [[r err]|p|]; [|done|done]. destruct Ho as [Hm Ho]. split; [split; [by destruct w|done]|].
    change (w_world (at_world w1 wd')) with wd'. destruct err as [e|].
    + destruct Ho as (-> & q & Hq & H1 & H2). by rewrite Hq.
    + destruct Ho as (bytes & u & v & -> & Hu & Hb & q & Hq & Hl). exists bytes, u, v. by rewrite Hq.
Qed.

(** A step of the worker [c] that changes the two pipes and the sizes of its block. *)
Record at_block (l m z : loc) (s s' : async W) : Prop := {
  ab_idx : as_idx s' = as_idx s;
  ab_pipe : as_pipe s' = as_pipe s;
  ab_writer : as_writer s' = as_writer s;
  ab_main : as_main s' = as_main s;
  ab_rest : same_rest s s';
  ab_in : pp (ib s') = pp (ib s);
  ab_out : pp (ob s') = pp (ob s);
  ab_core : core 0 (ib s') /\ core 0 (ob s');
  ab_inheap l' : l' <> l -> heap (ib s') !! l' = heap (ib s) !! l';
  ab_outheap m' : m' <> m -> heap (ob s') !! m' = heap (ob s) !! m';
  ab_sizes z' : z' <> z -> as_sizes s' !! z' = as_sizes s !! z';
  ab_dom z' : is_Some (as_sizes s !! z') -> is_Some (as_sizes s' !! z');
  ab_quiet : quiet (as_w s) (as_w s');
}.

Lemma at_block_elsewhere k l m z cs zo s s' :
  running_ok cs zo s -> in_active s k = Some l -> slot s k = Some m ->
  zo !! z = Some k \/ as_sizes s' = as_sizes s -> at_block l m z s s' -> elsewhere zo zo k s s'.
Proof.
  intros R Hact Hsl Hz A. destruct A as [A1 A2 A3 A4 A5 A6 A7 A8 A9 A10 A11 A12 A13]. split; try done.
  - intros k' _. unfold in_ready. by rewrite A6.
  - intros k' _. unfold in_active. by rewrite A6.
  - intros k' l' Hne Hl. apply A9. intros ->. destruct Hl as [Hl|Hl].
    + exact (active_not_ready s k k' l (ro_in _ _ _ _ _ R) Hact Hl).
    + by pose proof (active_once s k k' l (ro_in _ _ _ _ _ R) Hact Hl).
  - intros k' _. unfold out_ready. by rewrite A7.
  - intros k' m' Hne Hm. apply A10. intros ->.
    by pose proof (slot_once _ _ _ _ _ _ (ro_out _ _ _ _ _ R) (ro_writer _ _ _ _ _ R) Hsl Hm).
  - intros k' z' Hne Hz'. split; [done|]. destruct Hz as [Hz| ->]; [|done]. apply A11. intros ->. congruence.
Qed.

Lemma at_block_running k c pc pc' l m z cs zo s s' :
  running_ok cs zo s -> as_worker s !! c = Some pc -> holds pc = Some l -> holds pc' = Some l ->
  past s <= k < as_idx s -> in_active s k = Some l -> slot s k = Some m ->
  zo !! z = Some k \/ as_sizes s' = as_sizes s -> at_block l m z s s' -> as_worker s' = <[c := pc']> (as_worker s) ->
  worker_ok w0 cs zo s' pc' -> slotted w0 cs zo s' k m ->
  (forall b l', as_pipe s = Some l' -> pipe_ok w0 cs s b l' -> heap (ib s') !! l' = heap (ib s) !! l') ->
  running_ok cs zo s'.
Proof.
  intros R Hc Hh Hh' Hk Hact Hsl Hz A Hw Hok Hslot Hpipe. pose proof R as [R1 R2 R3 R4 R5 R6 R7 R8 R9].
  pose proof (at_block_elsewhere _ _ _ _ _ _ _ _ R Hact Hsl Hz A) as El.
  destruct (own_block k c _ l cs zo s R2 R5 Hc Hh Hact) as (O1 & O2 & O3 & O4).
  destruct A as [A1 A2 A3 A4 A5 A6 A7 [A8 A8'] A9 A10 A11 A12 A13].
  assert (Hsl' : slot s' k = slot s k) by (unfold slot, out_ready; by rewrite A7, A3).
  assert (Hb : blocks w0 cs zo s').
  { eapply (blocks_one k c pc pc' cs zo zo s s'); try done.
    - intros c1 pc1 l1 Hne H1 H2. eapply O3; [done|done|congruence].
    - intros z1 k1 H1. apply A12. exact (bk_sizes _ _ _ _ R5 z1 k1 H1).
    - unfold in_ready. by rewrite A6.
    - intros _ _. pose proof (bk_past _ _ _ _ R5). lia.
    - intros _. right; right. by exists m.
    - intros m1. rewrite Hsl', Hsl. intros [= <-]. done. }
  eapply (touched_running k c pc pc'); try done.
  - by apply quiet_same.
  - by apply quiet_closed.
  - by rewrite A6.
  - by rewrite A7.
  - intros Hcl. destruct (cr_closed _ R8 Hcl) as [_ D]. specialize (D c pc Hc). congruence.
  - apply drained_ready; by rewrite A6.
  - intros b l' Hl' Hok'. pose proof Hok' as (q & cl & r & bs & Hq & H). exists q, cl, r, bs.
    by rewrite (Hpipe b l' Hl' Hok'), A1.
  - split; try done.
    + intros j m' _ Hr _. unfold out_ready. by rewrite A7.
    + intros k1. unfold out_active. by rewrite A7.
    + by rewrite A7.
    + intros j m' e Hj Ha. split.
      * apply A10. intros ->. destruct (slot_filed _ _ _ _ _ R3 R7 Hsl) as [(q & Hq & Hi) _].
        assert (Hp : past s = j) by (unfold past; by rewrite Hj).
        destruct (core_idx _ _ R3 SActive (j - 1) m Ha) as (q' & Hq' & Hi'). rewrite Hq in Hq'. injection Hq' as <-. lia.
      * intros z1 H1. split; [done|]. destruct Hz as [Hz| ->]; [|done]. apply A11. intros ->. rewrite Hz in H1. injection H1 as H1.
        assert (Hp : past s = j) by (unfold past; by rewrite Hj). lia.
Qed.

Lemma fail_running c e cs zo s s' :
  running_ok cs zo s -> worker_fail c e s = Some s' -> running_ok cs zo s'.
Proof.
  intros R. unfold worker_fail. destruct (as_worker s !! c) as [pc|] eqn:Hc; [|done].
  destruct pc as [|l z|l z m|l m err|l|]; try done.
  destruct (pipe_of (as_inPool s) l) as [src|]; [|done]. cbn [mbind option_bind]. destruct (bp_Closed src); [done|].
  intros [= <-]. pose proof (bk_workers _ _ _ _ (ro_blocks _ _ _ _ _ R) c _ Hc) as (k & Hk & Henc).
  pose proof Henc as (Hact & Hin & Hz & Hsl & q & Hq & Hd & Hln). set (s' := at_worker c (KClose l m (Some e)) s).
  assert (Hclo : closing w0 cs zo s' k l m (Some e)).
  { split; [done|]. split; [done|]. exists q. split; [done|]. split; apply Hln. }
  eapply (at_block_running k c (KEncode l z m) (KClose l m (Some e)) l m z cs zo s s'); try done.
  - by left.
  - split; try done; [split; apply R|apply quiet_refl].
  - by exists k.
  - right; left. exists c, l, (Some e). split; [apply lookup_insert_eq|done].
Qed.

Lemma on_buf_lookup {D} (p : @psys BP D) f l q :
  heap (base p) !! l = Some q -> heap (base (on_buf f l p)) !! l = Some (Pipe (f (p_buf q)) (p_idx q) (p_data q)).
Proof. intros H. cbn. by rewrite lookup_alter_eq, H. Qed.

(** The state after the encoding of a block. *)
Definition after_encode c (l z m : loc) (dst src : BufferPipe) (r : option (Z * Z)) (err : error) (w : Writer W) s : async W :=
  let s := set_inPool (on_buf (fun _ => src) l (as_inPool s)) (set_w w s) in
  let s := set_outPool (on_buf (fun _ => dst) m (as_outPool s)) s in
  let s := match r with
           | Some (u, v) => set_sizes (<[z := SizeStats u v]> (as_sizes s)) s
           | None => s
           end in
  at_worker c (KClose l m err) s.

Lemma after_encode_running fuel c l z m dst src r err w chunk cs zo s k :
  running_ok cs zo s -> as_worker s !! c = Some (KEncode l z m) -> past s <= k < as_idx s ->
  encoding w0 cs zo s k l z m -> sealed s k -> chunk_at cs k = Some chunk ->
  encode_outcome fuel chunk (as_w s) (Ret (r, err), (dst, src, w)) ->
  running_ok cs zo (after_encode c l z m dst src r err w s).
Proof.
  intros R Hc Hk (Hact & Hin & Hz & Hsl & q & Hq & Hd & Hln) Hseal Hch [Hw Hout'].
  set (s' := after_encode c l z m dst src r err w s).
  assert (A : at_block l m z s s' /\ as_worker s' = <[c := KClose l m err]> (as_worker s) /\ ib s' = base (on_buf (fun _ => src) l (as_inPool s)) /\
    ob s' = base (on_buf (fun _ => dst) m (as_outPool s))).
  { unfold s', after_encode. destruct r as [[u v]|]; (split; [|done]); split; try done;
      try (split; apply core_on_buf; apply R);
      try (intros ? ?; cbn; by rewrite ?lookup_alter_ne, ?lookup_insert_ne).
    intros z' Hz'. cbn. rewrite lookup_insert. case_decide; [by eexists|done]. }
  destruct A as (A & Hwk & Hib & Hob).
  assert (Hq' : heap (ob s') !! m = Some (Pipe dst (p_idx q) (p_data q))) by (rewrite Hob; by apply (on_buf_lookup _ (fun _ => dst))).
  assert (Hsl' : slot s' k = Some m) by (rewrite <- Hsl; unfold slot, out_ready; by rewrite (ab_out _ _ _ _ _ A), (ab_writer _ _ _ _ _ A)).
  assert (Hact' : in_active s' k = Some l) by (unfold in_active; by rewrite (ab_in _ _ _ _ _ A)).
  assert (Hclo : closing w0 cs zo s' k l m err).
  { split; [done|]. split; [done|]. destruct err as [e|].
    - destruct Hout' as (_ & H1 & H2). by exists (Pipe dst (p_idx q) (p_data q)).
    - destruct Hout' as (bytes & u & v & -> & Hu & Hb & Hl). exists bytes, u, v, (Pipe dst (p_idx q) (p_data q)), z.
      split_and!; try done; [apply lookup_insert_eq|]. split; [done|]. split; [done|]. by exists chunk. }
  eapply (at_block_running k c (KEncode l z m) (KClose l m err) l m z cs zo s s'); try done.
  - by left.
  - exists k. unfold past. rewrite (ab_writer _ _ _ _ _ A), (ab_idx _ _ _ _ _ A). done.
  - right; left. exists c, l, err. split; [rewrite Hwk; apply lookup_insert_eq|done].
  - intros b l' Hl' (q' & _ & _ & _ & Hq1 & Hi & _). apply (ab_inheap _ _ _ _ _ A). intros ->.
    pose proof (filed s k l q' (ro_in _ _ _ _ _ R) (or_intror Hact) Hq1). destruct Hseal; [congruence|lia].
Qed.

Lemma encode_running fuel c l z m cs zo s s' :
  running_ok cs zo s -> as_worker s !! c = Some (KEncode l z m) -> worker_encode fuel c l z m s = Some s' ->
  (exists p, as_crash s' = Some p /\ as_main s' = as_main s) \/ running_ok cs zo s'.
Proof.
  intros R Hc. unfold worker_encode. pose proof (bk_workers _ _ _ _ (ro_blocks _ _ _ _ _ R) c _ Hc) as (k & Hk & Henc).
  pose proof Henc as (Hact & (q & chunk & cl & Hq & Hch & Hln & Hcl) & Hz & Hsl & q2 & Hq2 & Hd2 & Hln2).
  unfold pipe_of. change (base (as_inPool s)) with (ib s). change (base (as_outPool s)) with (ob s). rewrite Hq, Hq2.
  cbn [fmap option_fmap option_map mbind option_bind]. rewrite (ln_closed _ _ _ _ _ Hln). destruct cl; [|done].
  pose proof (with_pipes_run fuel (p_buf q2) (p_buf q) (as_w s) true chunk (ro_kept _ _ _ _ _ R) Hln2 eq_refl Hln) as Ho.
  destruct (with_pipes _ _ _ _) as [[[r err]|p|] [[dst src] w]]; intros [= <-].
  - right. exact (after_encode_running fuel c l z m dst src r err w chunk cs zo s k R Hc Hk Henc Hcl Hch Ho).
  - left. by exists p.
Qed.

(** ** The output pipe is closed *)

Lemma close_out_running c l m err cs zo s :
  running_ok cs zo s -> as_worker s !! c = Some (KClose l m err) ->
  running_ok cs zo (at_worker c (KRestore l) (set_outPool (on_buf (fun p => bp_CloseWithError p err) m (as_outPool s)) s)).
Proof.
  intros R Hc. pose proof (bk_workers _ _ _ _ (ro_blocks _ _ _ _ _ R) c _ Hc) as (k & Hk & Hact & Hsl & Herr).
  set (s' := at_worker c (KRestore l) _).
  assert (Hfin : finished w0 cs zo s' k m).
  { split; [done|]. destruct err as [e|].
    - left. destruct Herr as (q & Hq & Hm & Hcl). eexists. split; [exact (on_buf_lookup (as_outPool s) _ m q Hq)|].
      cbn [p_buf]. split; [apply line_close_fault; by left|]. intros wr. apply line_write_to_fault; [by left|exact Hcl].
    - right. destruct Herr as (bytes & u & v & q & z & Hq & Hd & Hzo & Hs & Hln & Hb). exists bytes, u, v.
      eexists. exists z. split; [exact (on_buf_lookup (as_outPool s) _ m q Hq)|]. cbn [p_buf p_data].
      rewrite close_without_error. split_and!; try done. by eapply line_of_close. }
  eapply (at_block_running k c (KClose l m err) (KRestore l) l m xH cs zo s s'); try done.
  - by right.
  - split; try done; [split; [apply R|apply core_on_buf; apply R]| |apply quiet_refl].
    intros m' Hm'. unfold ob. cbn. by rewrite lookup_alter_ne.
  - by exists k.
  - by right; right.
Qed.

(** ** The input pipe is restored *)

Lemma restore_running ch c l cs zo s u p :
  running_ok cs zo s -> as_worker s !! c = Some (KRestore l) ->
  request ch (RRestore (Some l)) (as_inPool s) = (Ret u, p) ->
  running_ok cs zo (at_worker c KSelect (set_inPool p s)).
Proof.
  intros R Hc Hreq. pose proof R as [R1 R2 R3 R4 R5 R6 R7 R8 R9].
  destruct (bk_workers _ _ _ _ R5 c _ Hc) as (k & Hact). set (s' := at_worker c KSelect _).
  destruct (core_idx _ _ R2 SActive k l Hact) as (q & Hq & Hi).
  assert (Hix : idx_of (heap (base (as_inPool s))) l = k) by (unfold idx_of; change (base (as_inPool s)) with (ib s); by rewrite Hq).
  destruct (request_restore ch l _ _ _ R2 ltac:(rewrite Hix; intros l' Hl'; unfold in_active, ib in Hact; congruence) Hreq)
    as (C & Ha & Hr & Hh & Hcl). rewrite Hix in Ha. fold (ib s) in Ha, Hr, Hh, Hcl.
  destruct (own_block k c _ l cs zo s R2 R5 Hc eq_refl Hact) as (O1 & O2 & O3 & O4).
  assert (A : elsewhere zo zo k s s').
  { split; try done; unfold in_ready, in_active, ib; cbn.
    - intros k' _. by rewrite Hr.
    - intros k' Hne. rewrite Ha. by rewrite lookup_delete_ne.
    - intros k' l' Hne Hl. rewrite Hh, lookup_alter_ne; [done|]. intros <-. destruct Hl as [Hl|Hl].
      + exact (active_not_ready s k k' l R2 Hact Hl).
      + by pose proof (active_once s k k' l R2 Hact Hl). }
  assert (Hrd : in_ready s' k = None) by (unfold in_ready, ib; cbn; rewrite Hr; exact O4).
  assert (Hac : in_active s' k = None) by (unfold in_active, ib; cbn; rewrite Ha; apply lookup_delete_eq).
  assert (Hown : forall c1 pc1, as_worker s !! c1 = Some pc1 -> holds pc1 = Some l -> pc1 = KRestore l).
  { intros c1 pc1 H1 H2. pose proof (bk_holds _ _ _ _ R5 c1 c pc1 _ l H1 Hc H2 eq_refl) as ->. congruence. }
  assert (Hact1 : forall l1, in_active s k = Some l1 -> l1 = l) by (intros l1 H1; congruence).
  assert (Hslotted : forall m, slotted w0 cs zo s k m -> finished w0 cs zo s' k m).
  { intros m [(c1 & l1 & z & H1 & H2 & _)|[(c1 & l1 & err & H1 & H2 & _)|H]]; [| |exact H];
      rewrite (Hact1 _ H2) in H1; by pose proof (Hown _ _ H1 eq_refl). }
  assert (Hb : blocks w0 cs zo s').
  { eapply (blocks_one k c (KRestore l) KSelect cs zo zo s s'); try done.
    - intros z1 k1. exact (bk_sizes _ _ _ _ R5 z1 k1).
    - intros l1 H1. congruence.
    - intros Hk. destruct (bk_live _ _ _ _ R5 k Hk) as [(l1 & H1 & _)|[(c1 & l1 & z & H1 & H2 & _)|(m & H)]]; [congruence| |].
      + rewrite (Hact1 _ H2) in H1. by pose proof (Hown _ _ H1 eq_refl).
      + right; right. exists m. right; right. by apply Hslotted.
    - intros m Hm. destruct (bk_slot _ _ _ _ R5 k m Hm) as [Hk H]. split; [done|]. right; right. by apply Hslotted. }
  eapply (touched_running k c (KRestore l) KSelect); try done.
  - apply drained_ready; [exact Hcl|exact Hr].
  - intros b l' _ (q' & cl & r & bs & Hq' & Hi' & Hln & Hop). destruct (decide (l' = l)) as [->|Hne].
    + exists (close_pipe q'), true, r, bs. split; [unfold ib; cbn; by rewrite Hh, lookup_alter_eq, Hq'|].
      split; [done|]. split; [by eapply line_of_close|done].
    + exists q', cl, r, bs. split; [unfold ib; cbn; by rewrite Hh, lookup_alter_ne|done].
Qed.

(** ** The worker returns *)

Lemma return_running c cs zo s p :
  running_ok cs zo s -> as_worker s !! c = Some KGet -> core 0 (base p) -> same_store (ib s) (base p) -> drained s ->
  running_ok cs zo (worker_return c (set_inPool p s)).
Proof.
  intros R Hc C S D. set (s' := worker_return c _).
  assert (D' : drained s') by (eapply drained_ready; [apply S|apply S|done]).
  assert (Hold : forall c1 pc1, as_worker s' !! c1 = Some pc1 -> as_worker s !! c1 = Some pc1).
  { intros c1 pc1 H. cbn in H. by apply lookup_delete_Some in H as [_ H]. }
  apply (settled_running cs zo s); [done| |].
  - split; try done; [split; [done|apply R]|intros c1 pc1 H%Hold; by left|].
    intros c1 pc1 l H1 H2. cbn. rewrite lookup_delete_ne; [done|]. intros <-. rewrite Hc in H1. by injection H1 as <-.
  - destruct (ro_crew _ _ _ _ _ R) as [C1 C2 C3 C4 C5 C6 C7 C8 C9]. split; try done.
    + apply worker_exit_inv; [done|]. apply C3. by eexists.
    + intros c1. cbn. rewrite elem_of_difference, elem_of_singleton, C3. destruct (decide (c1 = c)) as [->|Hne].
      * rewrite lookup_delete_eq. split; [by intros [_ []]|by intros []].
      * rewrite lookup_delete_ne by done. naive_solver.
    + intros Hcl. split; [done|]. intros c1 pc1 H1%Hold. destruct (C9 Hcl) as [_ H2]. by eapply H2.
Qed.

(** ** The steps of a worker *)

Definition crashed (s s' : async W) : Prop := is_Some (as_crash s') /\ as_main s' = as_main s.

Lemma worker_running ch fuel c cs zo s s' :
  running_ok cs zo s -> worker_step ch fuel c s = Some s' -> crashed s s' \/ exists zo', running_ok cs zo' s'.
Proof.
  intros R. pose proof R as [R1 R2 R3 R4 R5 R6 R7 R8 (_ & _ & R9)]. unfold worker_step.
  destruct (as_worker s !! c) as [pc|] eqn:Hc; [|done]. cbn [mbind option_bind].
  pose proof (bk_workers _ _ _ _ R5 c pc Hc) as Hok.
  destruct pc as [|l z|l z m|l m err|l|].
  - destruct (enter _ _ _ _) as [[o p]|] eqn:E0; [|done]. cbn [mbind option_bind].
    destruct (enter_reader _ _ _ _ _ _ R2 E0) as [C Ho]. fold (ib s) in Ho.
    destruct o as [[[l|]|]|p'|]; [| | | |done]; intros [= <-].
    + destruct Ho as (k & _ & T). right. eexists. by apply (take_running c k l).
    + destruct Ho as (S & Hcl & Hn). right. exists zo. apply return_running; try done.
      split; [done|]. intros k. unfold in_ready. cbn in Hn. by rewrite Hn.
    + right. exists zo. assert (set_inPool p s = at_worker c KGet (set_inPool p s)) as ->.
      { unfold at_worker. destruct s; cbn in *. unfold set_worker, set_inPool. cbn. by rewrite insert_id. }
      by apply (idle_running c KGet).
    + left. split; [by eexists|done].
  - destruct Hok as (k & Hk & Hgot). pose proof Hgot as (Hact & _ & _ & Hsl).
    assert (idx_of (heap (base (as_inPool s))) l = k) as -> by (by apply (core_idx_of 0 _ SActive k l R2)).
    destruct (kept_pools _ R4) as [-> ->]. destruct (enter _ _ _ _) as [[o p]|] eqn:E0; [|done]. cbn [mbind option_bind].
    destruct (enter_writer _ _ _ _ _ _ _ _ _ R3 E0) as [C Ho]. fold (ob s) in Ho.
    destruct o as [[[m|]|]|p'|]; [| | | |done]; intros [= <-].
    + right. exists zo. by apply (out_running c k l z m).
    + destruct Ho as [_ Hcl]. destruct (cr_closed _ R8 Hcl) as [_ D]. by specialize (D c _ Hc).
    + right. exists zo. apply (running_flow w0 data cs zo s); try done.
      apply (crew_same s); try done. apply Ho.
    + left. split; [by eexists|done].
  - intros H. destruct (encode_running fuel c l z m cs zo s s' R Hc H) as [(p & H1 & H2)|H1]; [|right; by exists zo].
    left. split; [by exists p|done].
  - intros [= <-]. right. exists zo. by apply close_out_running.
  - destruct (request ch (RRestore (Some l)) (as_inPool s)) as [o p] eqn:E0.
    destruct o as [u|p'|]; [| |done]; intros [= <-]; [|left; split; [by eexists|done]].
    right. exists zo. by eapply restore_running.
  - rewrite R9, (cr_killed _ R8). cbn [orb]. rewrite bool_decide_eq_false_2 by set_solver. intros [= <-].
    right. exists zo. assert (at_worker c KGet s = at_worker c KGet (set_inPool (as_inPool s) s)) as -> by (by destruct s).
    by apply (idle_running c KSelect).
Qed.

End workers.
