(* ===== verification/AsyncMonitor.v ===== *)
(** The asynchronous writer: the steps of the monitor and of the goroutine that
    waits for the workers keep the invariant. *)

From S2P Require Import Prelude Bufpipe Pool PoolInv PoolView WorkerPool Lines Errs Liblzma SmallLzma Lib XzConst.
From S2P Require Import Literal World LibIndex Stream StreamPump PipePump Ioutil PipeClose Writer WriterBlock.
From S2P Require Import WriterSync WriterNew WriterSession AsyncWriter AsyncInv AsyncFlow AsyncMain AsyncWorkers.

Section monitor.
Context {BP : Bufpipe} {BC : BufpipeClose BP} {L : Liblzma} {E : Errs} {IU : Ioutil} {W : Type} {IW : IoWriter W}.
Context (w0 : Writer W) (data : list Z).
Implicit Types (s : async W) (k : Z) (l m z : loc) (c : chan).

#[local] Abbreviation running_ok := (running_ok w0 data).

(** ** All the workers are gone *)

Lemma end_running ch cs zo s s' :
  running_ok cs zo s -> end_step ch s = Some s' -> running_ok cs zo s'.
Proof.
  intros R. pose proof (ro_crew _ _ _ _ _ R) as [C1 C2 C3 C4 C5 C6 C7 C8 C9]. unfold end_step. rewrite C2.
  destruct (waiting (as_workPool s)) eqn:Hw; [|done]. cbn [andb].
  destruct (Z.eqb_spec (group (as_workPool s)) 0) as [Hg|]; [|done].
  assert (Hno : forall c, as_worker s !! c = None).
  { intros c. destruct (as_worker s !! c) eqn:Hc; [|done]. exfalso.
    assert (c ∈ WorkerPool.running (as_workPool s)) as Hr by (apply C3; by eexists).
    rewrite (wi_group _ C1) in Hg. assert (size (WorkerPool.running (as_workPool s)) = 0%nat) as Hs by lia.
    apply size_empty_inv in Hs. set_solver. }
  destruct (C6 eq_refl) as (c0 & Hc0). pose proof (C8 c0 Hc0 (Hno c0)) as Hd.
  cbn [as_outPool set_workPool].
  destruct (request_close ch (as_outPool s) (ro_out _ _ _ _ _ R)) as (p & -> & C & Hcl & Hh & Hr & Ha). intros [= <-].
  fold (ob s) in Hh, Hr, Ha. apply (settled_running w0 data cs zo s); [done| |].
  - split; try done; [by unfold ob; cbn; rewrite Hr|by unfold ob; cbn; rewrite Ha|split; [apply R|done]|
      intros c pc H; by left].
  - split; try done; [by apply monitor_end_inv|]. intros _. split; [done|]. intros c pc. cbn. by rewrite Hno.
Qed.

(** ** The monitor *)

Lemma crew_monitor s s' op rest :
  as_monitor s = op :: rest -> as_workPool s' = as_workPool s -> as_worker s' = as_worker s -> as_monitor s' = rest ->
  (exists n, op = NIn n \/ op = NOut n) -> (drained s -> drained s') -> closed (pp (ob s')) = closed (pp (ob s)) ->
  crew s -> crew s'.
Proof.
  intros Hm H1 H2 H3 (n & Hop) H4 H5 [C1 C2 C3 C4 C5 C6 C7 C8 C9].
  split; rewrite ?H1, ?H2, ?H3, ?H5; try done.
  - rewrite Hm in C7. by destruct Hop as [-> | ->].
  - intros c Hc Hn. eauto.
  - intros Hc. destruct (C9 Hc). auto.
Qed.

Lemma turns_ok n wp : 0 <= n ->
  n - zlen (workers wp) <= Z.of_nat (WorkerPool.turns n wp) /\ zlen (workers wp) - n <= Z.of_nat (WorkerPool.turns n wp).
Proof. exact (turns_enough n wp). Qed.

(** The new workers start. *)
Lemma spawn_running n rest wp' new cs zo s :
  running_ok cs zo s -> as_monitor s = NWork n :: rest -> wp_inv wp' ->
  workers wp' = workers (as_workPool s) ++ new -> zlen (workers wp') = n ->
  closed_chans wp' = ∅ -> (forall c, c ∈ WorkerPool.running wp' <-> c ∈ WorkerPool.running (as_workPool s) \/ c ∈ new) ->
  wp_closed wp' = false -> has_end wp' = has_end (as_workPool s) ->
  running_ok cs zo (set_worker (spawned_at (as_workPool s) wp' (as_worker s)) (set_workPool wp' (set_monitor rest s))).
Proof.
  intros R Hm I Hws Hn Hk Hr Hcl He. pose proof (ro_crew _ _ _ _ _ R) as [C1 C2 C3 C4 C5 C6 C7 C8 C9].
  rewrite Hm in C7. destruct C7 as (G1 & G2 & G3). set (s' := set_worker _ _).
  assert (Hlook : forall c, as_worker s' !! c =
    if decide (c ∈ WorkerPool.running wp' ∖ WorkerPool.running (as_workPool s)) then Some KGet else as_worker s !! c).
  { intros c. cbn. unfold spawned_at. case_decide as Hc.
    - apply lookup_union_Some_l, lookup_gset_to_gmap_Some. done.
    - rewrite lookup_union_r; [done|]. by apply lookup_gset_to_gmap_None. }
  assert (Hold : forall c pc, as_worker s !! c = Some pc -> as_worker s' !! c = Some pc).
  { intros c pc Hc. rewrite Hlook, decide_False; [done|]. intros [_ H]%elem_of_difference. apply H, C3. by eexists. }
  apply (settled_running w0 data cs zo s); [done| |].
  - split; try done; [split; apply R| |intros c pc l Hc _; by apply Hold].
    intros c pc. rewrite Hlook. case_decide; [intros [= <-]; by right|by left].
  - split; try done.
    + cbn. by rewrite He.
    + intros c. rewrite Hlook. case_decide as Hc.
      * apply elem_of_difference in Hc as [Hc _]. split; [by eexists|done].
      * rewrite <- C3. split; [|intros H; apply Hr; by left]. intros H.
        destruct (decide (c ∈ WorkerPool.running (as_workPool s))) as [|Hno]; [done|].
        exfalso. by apply Hc, elem_of_difference.
    + intros _. cbn. destruct (workers wp') as [|c ws] eqn:Hw; [rewrite zlen_nil in Hn; lia|].
      exists c. apply (wi_workers _ I). rewrite Hw. left.
    + cbn. by rewrite Hn.
    + cbn. intros c Hc. rewrite Hlook. case_decide as Hx; [done|]. intros Hno. apply (C8 c); [|done].
      destruct (wi_killed _ I c Hc) as [H|H]; [|by rewrite Hk in H; apply not_elem_of_empty in H].
      rewrite Hws in H. apply elem_of_app in H as [H|H]; [by apply (wi_workers _ C1)|].
      exfalso. apply Hx, elem_of_difference. split; [apply Hr; by right|]. intros Hb%C3. rewrite Hno in Hb. by destruct Hb.
    + intros Hc. split; [exact (proj1 (C9 Hc))|]. intros c pc. rewrite Hlook. case_decide; [by intros [= <-]|].
      exact (proj2 (C9 Hc) c pc).
Qed.

Lemma monitor_running ch cs zo s s' :
  running_ok cs zo s -> monitor_step ch s = Some s' -> running_ok cs zo s'.
Proof.
  intros R. pose proof (ro_crew _ _ _ _ _ R) as Hcr. pose proof Hcr as [C1 C2 C3 C4 C5 C6 C7 C8 C9].
  unfold monitor_step. destruct (as_monitor s) as [|op rest] eqn:Hm; [done|].
  destruct op as [n|n|n| | | |]; cbn [monitor_op]; try (by destruct C7); cbn [as_workPool set_monitor as_inPool as_outPool].
  - destruct (request_quiet ch (RSetCapacity n) (as_inPool s) (ro_in _ _ _ _ _ R)) as (p & -> & C & S); [by exists n|].
    intros [= <-]. apply (settled_running w0 data cs zo s); [done| |].
    + split; try done; [split; [done|apply R]|intros c pc H; by left].
    + eapply (crew_monitor s); try done; [by exists n; left|]. apply drained_ready; apply S.
  - destruct (request_quiet ch (RSetCapacity n) (as_outPool s) (ro_out _ _ _ _ _ R)) as (p & -> & C & [S1 S2 S3 S4]); [by exists n|].
    intros [= <-]. apply (settled_running w0 data cs zo s); [done| |].
    + split; try done; [exact (fun H => eq_trans S4 H)|split; [apply R|done]|intros c pc H; by left].
    + eapply (crew_monitor s); try done. by exists n; right.
  - pose proof C7 as (G1 & G2 & _). destruct (turns_ok n (as_workPool s) ltac:(lia)) as [T1 T2].
    destruct (setCapacity_run _ _ n C1 C5 ltac:(lia) T1 T2) as (wp' & new & -> & I & Hws & Hn & Hk & Hr & Hcl & He).
    intros [= <-]. rewrite take_ge in Hws by (unfold zlen in G1; lia).
    eapply (spawn_running n rest wp' new); try done. apply elem_of_equiv_empty_L. intros c. rewrite Hk, C4, drop_ge by (unfold zlen in G1; lia).
    rewrite elem_of_nil. set_solver.
  - destruct (ro_chan _ _ _ _ _ R) as (_ & _ & Hd). change (as_doneChan (set_monitor rest s)) with (as_doneChan s).
    by rewrite Hd.
Qed.

End monitor.
