(* ===== verification/AsyncOut.v ===== *)
(** The asynchronous writer: the steps of the goroutine that writes the blocks out,
    and how it ends. *)

From S2P Require Import Prelude Bufpipe Pool PoolInv PoolView WorkerPool Lines Errs Liblzma SmallLzma Lib XzConst.
From S2P Require Import Literal World LibIndex Stream StreamPump PipePump Ioutil PipeClose Writer WriterBlock.
From S2P Require Import WriterSync WriterNew WriterSession AsyncWriter AsyncInv AsyncFlow AsyncMain AsyncWorkers.

Section out.
Context {BP : Bufpipe} {BC : BufpipeClose BP} {L : Liblzma} {E : Errs} {IU : Ioutil} {W : Type} {IW : IoWriter W}.
Context {BS : BufpipeSpec BP} {LS : LiblzmaSpec L} {ES : ErrsSpec E} {LI : LiblzmaIdle L} {BCS : BufpipeCloseSpec BP BC}.
Context (w0 : Writer W) (data : list Z).
Context (Hsz : sized w0).
Implicit Types (s : async W) (k : Z) (l m z : loc) (c : chan).

#[local] Abbreviation running_ok := (running_ok w0 data).

(** * How it ends *)

(** An error is on its way to the caller. *)
Definition errored s : Prop :=
  as_lastErr s <> None \/ (exists e r, ec_buf (as_errChan s) = Some e :: r) \/
  (exists e, as_writer s = WSend (Some e) /\ as_errChan s = ErrChan [] false).

(** The caller will not see a success. *)
Definition bad s : Prop :=
  as_main s <> MDone None /\
  (as_crash s <> None \/ (exists e, as_main s = MDone (Some e)) \/
   (errored s /\ forall rest, left_over (as_main s) = Some rest -> w_closed (as_w s) = false)).

(** All the blocks are in the output and in the index. *)
Definition complete s : Prop :=
  exists ks i, cut (w_chunkSize w0) data ks /\ Forall (block_ok w0) ks /\
    writes (w_wr w0) (concat (map k_bytes ks)) (w_wr (as_w s)) /\ indexed lzma_index_empty ks i /\
    index_at (as_w s) i /\ kept w0 (as_w s).

(** No worker has work, and there is none to come. *)
Definition idle_crew s : Prop :=
  core 0 (ib s) /\ drained s /\ forall c pc, as_worker s !! c = Some pc -> holds pc = None.

(** The file ends with the index and the footer. *)
Definition filed s : Prop :=
  exists ks wr i, cut (w_chunkSize w0) data ks /\ Forall (block_ok w0) ks /\
    writes (w_wr w0) (concat (map k_bytes ks)) wr /\ indexed lzma_index_empty ks i /\
    footed i (w_flags w0) wr (w_wr (as_w s)).

Definition after_send (pc : writer_pc) : Prop := pc = WClose \/ pc = WDone \/ pc = WEnd.

(** The writer found no error. *)
Definition good s : Prop :=
  idle_crew s /\
  ((as_main s = MWait /\ as_lastErr s = None /\ complete s /\
    (as_writer s = WSend None /\ as_errChan s = ErrChan [] false \/
     after_send (as_writer s) /\ ec_buf (as_errChan s) = [None])) \/
   (as_main s = MDone None /\ after_send (as_writer s) /\ filed s)).

(** * The steps *)

(** The point of the writer and its pipe are all that changes, and no block moves. *)
Record emits s s' : Prop := {
  em_same : as_idx s' = as_idx s /\ as_pipe s' = as_pipe s /\ as_main s' = as_main s /\ as_sizes s' = as_sizes s /\
    as_worker s' = as_worker s /\ as_inPool s' = as_inPool s;
  em_rest : same_rest s s';
  em_core : core 0 (ob s');
  em_kept : kept w0 (as_w s) -> kept w0 (as_w s');
  em_wclosed : w_closed (as_w s') = w_closed (as_w s);
  em_past : past s' = past s;
  em_slot k : slot s' k = slot s k;
  em_heap k m : slot s k = Some m -> heap (ob s') !! m = heap (ob s) !! m;
  em_closed : closed (pp (ob s')) = closed (pp (ob s));
}.

Lemma emits_running cs zo s s' :
  running_ok cs zo s -> emits s s' -> writer_ok w0 cs zo s' -> running_ok cs zo s'.
Proof.
  intros [R1 R2 R3 R4 R5 R6 R7 R8 R9] [(H1 & H2 & H3 & H4 & H5 & H6) [S1 S2 S3 S4 S5 S6] M3 M4 M5 M6 M7 M8 M9] Hw.
  assert (Hib : ib s' = ib s) by (unfold ib; by rewrite H6).
  assert (Hag : forall k, agree zo s s' k).
  { intros k. split; unfold sealed, current, in_ready, in_active; rewrite ?Hib, ?H1, ?H2, ?H4, ?H5; try done.
    intros m. apply M8. }
  pose proof R5 as [B1 B2 _ _ _ _ _ B8 B9]. split; try done.
  - by rewrite S6.
  - by rewrite Hib.
  - by apply M4.
  - eapply (blocks_step w0 (fun _ => False)); [exact R5|intros k; right; tauto|lia|lia|lia|lia| | |done|done|done|done| |].
    + intros k _. by apply agree_moves.
    + intros z k H. rewrite H4. by eapply B9.
    + intros c pc Hc. left. rewrite H5 in Hc. split; [done|by intros ? ? []].
    + rewrite H5. exact B8.
  - apply (main_keep w0 data cs s); try done; [by rewrite Hib|].
    intros b l _ (q & cl & r & bs & H). exists q, cl, r, bs. by rewrite Hib, H1.
  - apply (crew_same s); try done. unfold drained, in_ready. by rewrite Hib.
  - by rewrite S3, S4, S5.
Qed.

Lemma writer_panic_bad p cs zo s s1 :
  running_ok cs zo s -> as_main s1 = as_main s -> as_errChan s1 = as_errChan s -> w_closed (as_w s1) = w_closed (as_w s) ->
  p <> PErr None -> bad (writer_panic p s1).
Proof.
  intros R Hm He Hc Hp. destruct (ro_main _ _ _ _ _ R) as (M1 & M2 & _). destruct (ro_chan _ _ _ _ _ R) as (C1 & _).
  assert (Hne : as_main s <> MDone None) by (intros H; rewrite H in M2; by destruct M2).
  unfold writer_panic. destruct (errs_Recover p None) as [err|] eqn:Er.
  - pose proof (Recover_loud _ _ Hp Er) as Hne'. destruct err as [e|]; [|done].
    split; [cbn; by rewrite Hm|]. right; right. split.
    + right; right. exists e. split; [done|]. cbn. by rewrite He, C1.
    + cbn. intros rest. rewrite Hm, Hc. intros Hr. by destruct (M1 rest Hr) as (_ & ? & _).
  - split; [cbn; by rewrite Hm|]. by left.
Qed.

(** ** The next block *)

Lemma get_running ch j cs zo s s' :
  running_ok cs zo s -> as_writer s = WGet j -> writer_step ch s = Some s' -> running_ok cs zo s' \/ bad s'.
Proof.
  intros R Hpc. pose proof R as [R1 R2 R3 R4 R5 R6 R7 R8 R9]. unfold writer_step. rewrite Hpc.
  unfold writer_ok in R7. rewrite Hpc in R7. pose proof (bk_past _ _ _ _ R5) as Hp. unfold past in Hp. rewrite Hpc in Hp.
  destruct (enter _ _ _ _) as [[o p]|] eqn:E0; [|done]. cbn [mbind option_bind].
  destruct (enter_reader _ _ _ _ _ _ R3 E0) as [C Ho]. fold (ob s) in Ho.
  assert (Hslot : forall k, slot s k = out_ready s k) by (intros k; unfold slot; rewrite Hpc; by destruct (out_ready s k)).
  assert (Hprog : forall f : async W -> async W, (forall v, as_w (f v) = as_w v) -> (forall v, as_idx (f v) = as_idx v) ->
    (forall v, as_pipe (f v) = as_pipe v) -> progress w0 cs (f s) j).
  { intros f F1 F2 F3. eapply progress_keep; [by rewrite F1|by rewrite F1| |done|exact R7]. intros k _. unfold sealed. by rewrite F2, F3. }
  destruct o as [[[m|]|]|p'|]; [| | | |done]; intros [= <-].
  - destruct Ho as (k & Hk & [T1 T2 T3 T4 T5]). specialize (Hk ltac:(lia)) as ->. left.
    assert (Hsl : forall k, slot (set_writer (WWrite (j + 1) m) (set_outPool p s)) k = slot s k).
    { intros k. rewrite Hslot. unfold slot, out_ready, ob. cbn. rewrite T2.
      destruct (decide (k = j)) as [->|Hne].
      - rewrite lookup_delete_eq, Z.eqb_refl. by symmetry.
      - rewrite lookup_delete_ne by done. destruct (Pool.entries _ !! k); [done|]. by rewrite (proj2 (Z.eqb_neq _ _)) by lia. }
    apply (emits_running cs zo s); [done| |].
    + split; try done; [unfold past; rewrite Hpc; cbn; lia|]. intros k m' _. unfold ob. cbn. by rewrite T4.
    + cbn [writer_ok as_writer set_writer]. replace (j + 1 - 1) with j by lia. split; [|split].
      * by apply (Hprog (fun v => set_writer (WWrite (j + 1) m) (set_outPool p v))).
      * unfold out_ready, ob. cbn. rewrite T2. apply lookup_delete_eq.
      * unfold out_active, ob. cbn. rewrite T3. apply lookup_insert_eq.
  - destruct Ho as ([S1 S2 S3 S4] & Hcl & _). left. apply (emits_running cs zo s); [done| |].
    + split; try done.
      * unfold past. rewrite Hpc. cbn. lia.
      * intros k. rewrite Hslot. unfold slot, out_ready, ob. cbn. rewrite S2. by destruct (Pool.entries _ !! k).
      * intros k m _. unfold ob. cbn. by rewrite S1.
    + cbn [writer_ok as_writer set_writer]. replace (j + 1 - 1) with j by lia. split.
      * by apply (Hprog (fun v => set_writer (WLast (j + 1)) (set_outPool p v))).
      * unfold ob. cbn. by rewrite S4.
  - destruct Ho as [S1 S2 S3 S4]. left. apply (emits_running cs zo s); [done| |].
    + split; try done; [|intros k m _; unfold ob; cbn; by rewrite S1].
      intros k. apply out_slot; [exact S2|done].
    + unfold writer_ok. cbn [as_writer set_outPool]. rewrite Hpc. by apply (Hprog (set_outPool p)).
  - right. eapply (writer_panic_bad p' cs zo s); try done. apply Ho.
Qed.

(** ** The block goes to the underlying writer *)

Lemma slot_of_write s j m : as_writer s = WWrite j m -> out_ready s (j - 1) = None -> slot s (j - 1) = Some m.
Proof. intros H1 H2. unfold slot. by rewrite H2, H1, (proj2 (Z.eqb_eq _ _)) by lia. Qed.

(** No worker fills the pipe any more. *)
Lemma closed_slot cs zo s k m q :
  slotted w0 cs zo s k m -> heap (ob s) !! m = Some q -> bp_Closed (p_buf q) = true -> finished w0 cs zo s k m.
Proof.
  intros [(c & l & z & _ & _ & _ & _ & _ & q' & Hq & _ & Hl)|[(c & l & err & _ & _ & _ & Herr)|H]] Hm Hcl; [| |done].
  - pose proof (ln_closed _ _ _ _ _ Hl). congruence.
  - destruct err as [e|]; [destruct Herr as (q' & Hq & _ & Ho); congruence|].
    destruct Herr as (bytes & u & v & q' & z & Hq & _ & _ & _ & Hl & _). pose proof (ln_closed _ _ _ _ _ Hl). congruence.
Qed.

Lemma written_workers cs zo s k m q c pc l :
  running_ok cs zo s -> slot s k = Some m -> heap (ob s) !! m = Some q -> bp_Closed (p_buf q) = true ->
  as_worker s !! c = Some pc -> in_active s k = Some l -> holds pc = Some l -> pc = KRestore l.
Proof.
  intros R Hsl Hq Hcl Hc Hk Hl. pose proof (bk_workers _ _ _ _ (ro_blocks _ _ _ _ _ R) c pc Hc) as Hok.
  assert (Hkk : forall k', in_active s k' = Some l -> k' = k) by (intros k' H; by apply (active_once s k' k l (ro_in _ _ _ _ _ R))).
  destruct pc as [|l' z|l' z m'|l' m' err|l'|]; try done; injection Hl as ->; [| | |done]; exfalso.
  - destruct Hok as (k' & _ & H1 & _ & _ & H2). rewrite (Hkk k' H1) in H2. congruence.
  - destruct Hok as (k' & _ & H1 & _ & _ & H2 & q' & H3 & _ & H4). rewrite (Hkk k' H1) in H2.
    pose proof (ln_closed _ _ _ _ _ H4). congruence.
  - destruct Hok as (k' & _ & H1 & H2 & H3). rewrite (Hkk k' H1) in H2. destruct err as [e|].
    + destruct H3 as (q' & H3 & _ & H4). congruence.
    + destruct H3 as (bytes & u & v & q' & z & H3 & _ & _ & _ & H4 & _). pose proof (ln_closed _ _ _ _ _ H4). congruence.
Qed.

(** The state after [WriteTo]. *)
Definition after_write j m (err : error) (p : BufferPipe) (wr : W) s : async W :=
  let s := set_outPool (on_buf (fun _ => p) m (as_outPool s)) s in
  set_writer (WAppend j m err) (set_w (set_wr_world wr (w_world (as_w s)) (as_w s)) s).

Lemma after_write_blocks j m err p wr q cs zo s :
  running_ok cs zo s -> as_writer s = WWrite j m -> out_ready s (j - 1) = None ->
  heap (ob s) !! m = Some q -> bp_Closed (p_buf q) = true -> blocks w0 cs zo (after_write j m err p wr s).
Proof.
  intros R Hpc Hr Hq Hcl. pose proof R as [R1 R2 R3 R4 R5 R6 R7 R8 R9]. pose proof (slot_of_write s j m Hpc Hr) as Hsl.
  pose proof R5 as [B1 B2 B3 B4 B5 B6 B7 B8 B9]. assert (Hp : past s = j - 1) by (unfold past; by rewrite Hpc).
  destruct (B6 _ _ Hsl) as [Hj _]. set (s' := after_write j m err p wr s).
  assert (Hp' : past s' = j) by done.
  assert (Hsl' : slot s' (j - 1) = None) by (unfold slot; change (out_ready s' (j - 1)) with (out_ready s (j - 1)); by rewrite Hr).
  eapply (blocks_step w0 (fun k => k = j - 1) cs cs zo zo s s' R5); try done; try lia.
  - cbn. lia.
  - rewrite Hp, Hp'. cbn. lia.
  - intros k Hne. apply agree_moves; [done|done|]. split; try done.
    + unfold slot. change (out_ready s' k) with (out_ready s k). destruct (out_ready s k); [done|].
      rewrite Hpc. cbn. by rewrite (proj2 (Z.eqb_neq _ _)) by lia.
    + intros m' Hm'. unfold ob. cbn. rewrite lookup_alter_ne; [done|]. intros <-.
      apply Hne. symmetry. exact (slot_once w0 _ _ _ _ _ _ R3 R7 Hsl Hm').
  - intros k l -> Hl. destruct (B4 _ _ Hl) as (_ & _ & H & _). congruence.
  - intros k l ->. exact (B5 (j - 1) l).
  - intros k m' -> Hm'. congruence.
  - intros c pc Hc. destruct pc as [|l z|l z m1|l m1 e1|l|]; [by right| | | | |by right];
      try (left; split; [done|]; intros k l1 -> Hk Hh; by pose proof (written_workers _ _ _ _ _ _ _ _ _ R Hsl Hq Hcl Hc Hk Hh)).
    right. exact (B7 c _ Hc).
Qed.

Lemma write_running ch j m cs zo s s' :
  running_ok cs zo s -> as_writer s = WWrite j m -> writer_step ch s = Some s' -> running_ok cs zo s'.
Proof.
  intros R Hpc. pose proof R as [R1 R2 R3 R4 R5 R6 R7 R8 R9]. unfold writer_step. rewrite Hpc.
  pose proof R7 as V. unfold writer_ok in V. rewrite Hpc in V. destruct V as ((ks & Hn & Hw) & Hr & Ha).
  pose proof (slot_of_write s j m Hpc Hr) as Hsl. destruct (bk_slot _ _ _ _ R5 _ _ Hsl) as [Hj Hslot].
  assert (Hp : past s = j - 1) by (unfold past; by rewrite Hpc).
  unfold pipe_of. change (base (as_outPool s)) with (ob s).
  destruct (heap (ob s) !! m) as [q|] eqn:Hq; [|done]. cbn [fmap option_fmap option_map mbind option_bind].
  destruct (bp_Closed (p_buf q)) eqn:Hcl; [|done]. pose proof (closed_slot _ _ _ _ _ _ Hslot Hq Hcl) as [_ Hfin].
  destruct (bp_WriteTo (p_buf q) (w_wr (as_w s))) as [[n err] [p wr]] eqn:Ew. intros [= <-].
  change (running_ok cs zo (after_write j m err p wr s)). set (s' := after_write j m err p wr s).
  pose proof (after_write_blocks j m err p wr q cs zo s R Hpc Hr Hq Hcl) as Hb. split; try done.
  - by apply core_on_buf.
  - destruct R4 as [b Hb4]. exists b. cbn. rewrite Hb4. by destruct b.
  - split; [exact Ha|]. destruct (wn_index _ _ _ _ Hw) as (i & Hi1 & Hi2). split; [by exists i|].
    destruct err as [e|]; [by left|]. right. destruct Hfin as [(q' & Hq' & _ & Hf)|(bytes & u & v & q' & z & Hq' & Hd & Hz & Hs & Hln & Hse & Hu & chunk & Hch & Hok)].
    { rewrite Hq in Hq'. injection Hq' as <-. specialize (Hf (w_wr (as_w s))). by rewrite Ew in Hf. }
    rewrite Hq in Hq'. injection Hq' as <-. pose proof (line_of_write_to _ _ _ _ _ _ _ Hln Ew) as Hwr.
    exists ks, (Blk chunk bytes u v), i. split; [done|]. split; [|split; [|split; [done|split; [done|split; [|split; [done|split; [done|]]]]]]].
    + rewrite map_app, (wn_chunks _ _ _ _ Hw). cbn [map k_chunk]. unfold chunk_at in Hch. rewrite Nat.add_1_r.
      symmetry. apply take_S_r. replace (Z.to_nat (j - 1)) with (length ks) in Hch by (unfold zlen in Hn; lia). done.
    + rewrite map_app, concat_app. cbn [map k_bytes concat]. rewrite app_nil_r. eapply writes_trans; [apply Hw|done].
    + apply Forall_app. split; [apply Hw|]. by constructor.
    + exists (Pipe p (p_idx q) (p_data q)), z. split_and!; try done. apply (on_buf_lookup (as_outPool s) (fun _ => p) m q Hq).
  - apply (crew_same s); try done.
Qed.

(** ** The block goes to the index *)

Lemma set_w_id s : set_w (as_w s) s = s.
Proof. by destruct s. Qed.

Lemma append_sized j m wrErr u v i s :
  stats_of m s = Some (SizeStats u v) -> index_at (as_w s) i ->
  exists ixErr w', writer_append j m wrErr s = set_writer (WRestore j m wrErr ixErr) (set_w w' s) /\
    w' = set_wr_world (w_wr (as_w s)) (w_world w') (as_w s) /\ (exists i', index_at w' i') /\
    (u <> 0 -> ixErr = None -> exists i', lzma_index_append i (uint64 u) (uint64 v) = (OK, i') /\ index_at w' i').
Proof.
  intros Hst Hix. pose proof Hix as (a & Hp & Hi). unfold writer_append. rewrite Hst. cbn [unpadSize uncompSize].
  destruct (Z.eqb_spec u 0) as [->|Hu]; cbn [negb].
  { exists None, (as_w s). rewrite set_w_id. split; [done|]. split; [by destruct (as_w s)|]. split; [by exists i|done]. }
  pose proof (index_append_run (w_world (as_w s)) _ a i u v Hp Hi) as Happ.
  pose proof (on_world_run _ (as_w s) _ _ _ Happ) as Hrun. rewrite at_world_id in Hrun. rewrite Hrun.
  eexists _, _. split; [reflexivity|]. split; [by destruct (as_w s)|].
  set (r := lzma_index_append i (uint64 u) (uint64 v)).
  assert (Hat : index_at (at_world (as_w s) (set_mem (CMem (cm_block (mem (w_world (as_w s))))
    (<[a := r.2]> (cm_index (mem (w_world (as_w s))))) (cm_ixptr (mem (w_world (as_w s))))) (w_world (as_w s)))) r.2).
  { exists a. cbn. split; [done|]. apply lookup_insert_eq. }
  split; [by exists r.2|]. intros _ Hn. apply NewError_nil in Hn. exists r.2. split; [|done].
  destruct r as [ret i']. cbn in Hn. by rewrite Hn.
Qed.

Lemma index_append_total j m wrErr i s :
  index_at (as_w s) i ->
  exists ixErr w', writer_append j m wrErr s = set_writer (WRestore j m wrErr ixErr) (set_w w' s) /\
    w' = set_wr_world (w_wr (as_w s)) (w_world w') (as_w s) /\ exists i', index_at w' i'.
Proof.
  intros Hix. destruct (stats_of m s) as [[u v]|] eqn:Hst.
  - destruct (append_sized j m wrErr u v i s Hst Hix) as (e & w' & H1 & H2 & H3 & _). by exists e, w'.
  - exists None, (as_w s). rewrite set_w_id. unfold writer_append. rewrite Hst. split; [done|].
    split; [by destruct (as_w s)|by exists i].
Qed.

Lemma kept_same_config (w w' : Writer W) : w' = set_wr_world (w_wr w) (w_world w') w -> kept w0 w -> kept w0 w'.
Proof. intros Hw [b Hb]. exists b. rewrite Hw, Hb. by destruct b. Qed.

Lemma append_running ch j m wrErr cs zo s s' :
  running_ok cs zo s -> as_writer s = WAppend j m wrErr -> writer_step ch s = Some s' -> running_ok cs zo s'.
Proof.
  intros R Hpc. pose proof R as [R1 R2 R3 R4 R5 R6 R7 R8 R9]. unfold writer_step. rewrite Hpc. intros [= <-].
  unfold writer_ok in R7. rewrite Hpc in R7. destruct R7 as (Ha & (i0 & Hi0) & Hcase).
  assert (HE : forall ixErr w', w' = set_wr_world (w_wr (as_w s)) (w_world w') (as_w s) ->
    emits s (set_writer (WRestore j m wrErr ixErr) (set_w w' s))).
  { intros ixErr w' Hw'. split; try done.
    - by apply kept_same_config.
    - cbn. by rewrite Hw'.
    - unfold past. by rewrite Hpc.
    - intros k. unfold slot. cbn. rewrite Hpc. done. }
  destruct Hcase as [He|(ks & b & i & Hn & Hch & Hwr & Hix & Hat & Hok & Hse & Hu & q & z & Hq & Hd & Hz & Hs)].
  - destruct (index_append_total j m wrErr i0 s Hi0) as (ixErr & w' & -> & Hw' & Hi').
    apply (emits_running cs zo s); [done|by apply HE|]. split; [done|]. split; [done|by left].
  - assert (Hst : stats_of m s = Some (SizeStats (k_unpad b) (k_uncomp b))).
    { unfold stats_of. change (base (as_outPool s)) with (ob s). rewrite Hq. cbn. rewrite Hd. cbn. done. }
    destruct (append_sized j m wrErr _ _ i s Hst Hat) as (ixErr & w' & -> & Hw' & Hi' & Happ).
    apply (emits_running cs zo s); [done|by apply HE|]. split; [done|]. split; [done|].
    right. destruct ixErr as [e|]; [by left|]. right. destruct (Happ Hu eq_refl) as (i' & Hap & Hat').
    exists (ks ++ [b]). split; [rewrite zlen_app, zlen_cons, zlen_nil; lia|]. split.
    + rewrite length_app. exact Hch.
    + cbn. by rewrite Hw'.
    + exists i'. split; [|exact Hat']. eapply indexed_app; [exact Hix|]. econstructor; [exact Hap|constructor].
    + exact Hok.
    + rewrite zlen_app, zlen_cons, zlen_nil, Hn. replace (j - 1 + (1 + 0) - 1) with (j - 1) by lia. exact Hse.
Qed.

(** ** The output pipe is restored *)

Lemma restored_running ch j m wrErr ixErr cs zo s s' :
  running_ok cs zo s -> as_writer s = WRestore j m wrErr ixErr -> writer_step ch s = Some s' ->
  running_ok cs zo s' \/ bad s'.
Proof.
  intros R Hpc. pose proof R as [R1 R2 R3 R4 R5 R6 R7 R8 R9]. unfold writer_step. rewrite Hpc.
  unfold writer_ok in R7. rewrite Hpc in R7. destruct R7 as (Ha & Hi0 & Hcase).
  destruct (core_idx _ _ R3 SActive (j - 1) m Ha) as (q & Hq & Hi).
  assert (Hix : idx_of (heap (base (as_outPool s))) m = j - 1)
    by (unfold idx_of; change (base (as_outPool s)) with (ob s); by rewrite Hq).
  destruct (request ch (RRestore (Some m)) (as_outPool s)) as [o p] eqn:E0.
  destruct (request_restore ch m _ _ _ R3 ltac:(rewrite Hix; intros l' Hl'; unfold out_active, ob in Ha; congruence) E0)
    as (C & Ho). destruct o as [u|p'|]; [| |done].
  2: { intros [= <-]. right. by apply (writer_panic_bad p' cs zo s). }
  destruct Ho as (Hac & Hr & Hh & Hcl). fold (ob s) in Hac, Hr, Hh, Hcl.
  destruct (errs_First [wrErr; ixErr]) as [e|] eqn:Ef.
  { rewrite Panic_err. intros [= <-]. right. by apply (writer_panic_bad (PErr (Some e)) cs zo s). }
  rewrite Panic_nil. intros [= <-]. left.
  assert (Hne : wrErr = None /\ ixErr = None).
  { rewrite !First_cons in Ef. destruct wrErr; [done|]. by destruct ixErr. }
  destruct Hne as [-> ->]. destruct Hcase as [?|[?|Hprog]]; [done|done|].
  apply (emits_running cs zo s); [done| |].
  - split; try done.
    + unfold past. by rewrite Hpc.
    + intros k. unfold slot, out_ready, ob. cbn. rewrite Hr. by rewrite Hpc.
    + intros k m' Hm'. unfold ob. cbn. rewrite Hh, lookup_alter_ne; [done|]. intros <-.
      unfold slot in Hm'. rewrite Hpc in Hm'. destruct (out_ready s k) as [m1|] eqn:Hrd; [|done]. injection Hm' as ->.
      by pose proof (core_disj _ _ R3 SActive SReady (j - 1) k m Ha Hrd).
  - cbn [writer_ok as_writer set_writer]. by apply (progress_keep w0 cs cs s).
Qed.

(** ** The end of the blocks *)

Lemma cut_of_chunks size (ks : list blk) fs lst :
  map k_chunk ks = fs ++ lst -> Forall (fun x => zlen x = size) fs ->
  lst = [] \/ (exists x, lst = [x] /\ 0 < zlen x <= size) -> cut size (concat (fs ++ lst)) ks.
Proof.
  intros Hm Hf Hl. apply map_eq_app in Hm as (ka & kb & -> & <- & <-). exists ka, kb. split; [done|].
  split; [unfold chunks; by rewrite map_app|]. split; [by apply Forall_map in Hf|].
  destruct Hl as [Hl|(x & Hl & Hx)].
  - left. by apply map_eq_nil in Hl.
  - right. destruct kb as [|b [|]]; try done. injection Hl as <-. by exists b.
Qed.

Lemma last_complete j cs zo s :
  running_ok cs zo s -> as_writer s = WLast j -> Pool.entries (ready (pp (ob s))) = ∅ ->
  idle_crew s /\ as_main s = MWait /\ complete s.
Proof.
  intros R Hpc Hout. pose proof R as [R1 R2 R3 R4 R5 (_ & M2 & M3) R7 R8 R9].
  unfold writer_ok in R7. rewrite Hpc in R7. destruct R7 as [(ks & Hn & Hw) Hcl].
  destruct (cr_closed _ R8 Hcl) as [D Hh]. pose proof D as [Dc Dr].
  assert (Hmain : as_main s = MWait) by (by apply M3). rewrite Hmain in M2. destruct M2 as (Hp & Hclo & Hdata & fs & lst & Hcs & Hfs & Hlst).
  assert (Hslot : forall k, slot s k = None).
  { intros k. unfold slot, out_ready. rewrite Hout, lookup_empty. by rewrite Hpc. }
  assert (Hend : j - 1 = as_idx s).
  { destruct (decide (j - 1 < as_idx s)) as [Hlt|Hge].
    - exfalso. destruct (bk_live _ _ _ _ R5 (j - 1)) as [(l & H & _)|[(c & l & z & Hc & _)|(m & H)]].
      + unfold past. rewrite Hpc. lia.
      + by rewrite Dr in H.
      + by specialize (Hh c _ Hc).
      + destruct H as [(c & l & z & Hc & _)|[(c & l & err & Hc & _)|[H _]]];
          [by specialize (Hh c _ Hc)|by specialize (Hh c _ Hc)|by rewrite Hslot in H].
    - pose proof (bk_past _ _ _ _ R5) as Hb. unfold past in Hb. rewrite Hpc in Hb. lia. }
  assert (Hall : map k_chunk ks = cs).
  { rewrite (wn_chunks _ _ _ _ Hw), take_ge; [done|]. pose proof (bk_len _ _ _ _ R5). unfold zlen in *. lia. }
  split; [by split|]. split; [done|]. destruct (wn_index _ _ _ _ Hw) as (i & Hi1 & Hi2). exists ks, i.
  split_and!; try done; [|apply Hw|apply Hw]. rewrite <- Hdata, Hcs. apply cut_of_chunks; [by rewrite Hall|exact Hfs|exact Hlst].
Qed.

Lemma last_running ch j cs zo s s' :
  running_ok cs zo s -> as_writer s = WLast j -> writer_step ch s = Some s' ->
  running_ok cs zo s' \/ bad s' \/ good s'.
Proof.
  intros R Hpc. pose proof R as [R1 R2 R3 R4 R5 R6 R7 R8 R9]. unfold writer_step. rewrite Hpc.
  destruct (enter _ _ _ _) as [[o p]|] eqn:E0; [|done]. cbn [mbind option_bind].
  destruct (enter_reader _ _ _ _ _ _ R3 E0) as [C Ho]. fold (ob s) in Ho.
  destruct o as [[[m|]|]|p'|]; [| | | |done].
  - rewrite bool_decide_eq_false_2, Assert_false by done. intros [= <-]. right; left.
    by apply (writer_panic_bad (PErr (Some dataError)) cs zo s).
  - rewrite bool_decide_eq_true_2, Assert_true by done. intros [= <-]. right; right.
    destruct Ho as (S & Hcl & Hn). cbn in Hn. destruct (last_complete j cs zo s R Hpc Hn) as (HI & Hm & Hc).
    split; [exact HI|]. left. split; [done|]. destruct R9 as (E1 & E2 & _). split; [exact E2|]. split; [exact Hc|].
    left. split; [done|exact E1].
  - intros [= <-]. destruct Ho as [S1 S2 S3 S4]. left. apply (emits_running cs zo s); [done| |].
    + split; try done; [|intros k m _; unfold ob; cbn; by rewrite S1]. intros k. apply out_slot; [exact S2|done].
    + unfold writer_ok in *. cbn [as_writer set_outPool]. rewrite Hpc in *. destruct R7 as [H1 H2].
      split; [by apply (progress_keep w0 cs cs s)|]. unfold ob. cbn. by rewrite S4.
  - intros [= <-]. right; left. apply (writer_panic_bad p' cs zo s); try done. apply Ho.
Qed.

Lemma writer_running ch cs zo s s' :
  running_ok cs zo s -> writer_step ch s = Some s' -> running_ok cs zo s' \/ bad s' \/ good s'.
Proof.
  intros R H. pose proof (ro_writer _ _ _ _ _ R) as V. unfold writer_ok in V.
  destruct (as_writer s) as [j|j m|j m e|j m e1 e2|j|e| | |] eqn:Hpc; try done.
  - destruct (get_running ch j cs zo s s' R Hpc H); auto.
  - left. by eapply write_running.
  - left. by eapply append_running.
  - destruct (restored_running ch j m e1 e2 cs zo s s' R Hpc H); auto.
  - by eapply last_running.
Qed.

End out.
