(* ===== verification/AsyncLive.v ===== *)
(** The asynchronous writer: who sleeps inside which call of a pool, and how many
    pipes and workers there are, while the writing goroutine runs. *)

From S2P Require Import Prelude Bufpipe Pool PoolInv PoolWait PoolView PoolThms PoolRoom WorkerPool Lines Errs Liblzma SmallLzma Lib XzConst.
From S2P Require Import Literal World LibIndex Stream StreamPump PipePump Ioutil PipeClose Writer WriterBlock.
From S2P Require Import WriterSync WriterNew WriterSession AsyncWriter AsyncInv AsyncFlow AsyncMain AsyncWorkers AsyncMonitor AsyncOut.

Section live.
Context {BP : Bufpipe} {BC : BufpipeClose BP} {L : Liblzma} {E : Errs} {IU : Ioutil} {W : Type} {IW : IoWriter W}.
Context {BS : BufpipeSpec BP} {LS : LiblzmaSpec L} {ES : ErrsSpec E} {LI : LiblzmaIdle L} {BCS : BufpipeCloseSpec BP BC}.
Context (w0 : Writer W) (data : list Z).
Context (Hsz : sized w0) (Hin : w_inSize w0 = w_chunkSize w0) (Hout : w_outSize w0 = w_maxSize w0).
Context (Him : w_inMode w0 = LineDual) (Hom : w_outMode w0 = LineMono).
Implicit Types (s : async W) (k : Z) (l m z : loc) (c : chan) (t : tid).

#[local] Abbreviation running_ok := (running_ok w0 data).

(** * The invariant *)

(** The call that the goroutine [t] is at, of the input pool and of the output pool. *)
Definition in_call s t (x : @call unit) : Prop :=
  (t = main_tid /\ (exists d cnt todo, as_main s = MGet d cnt todo) /\ x = CWriter (as_idx s) (w_chunkSize w0) LineDual None) \/
  (exists c, t = worker_tid c /\ as_worker s !! c = Some KGet /\ x = CReader (-1)).
Definition out_call s t (x : @call loc) : Prop :=
  (t = writer_tid /\ ((exists j, as_writer s = WGet j /\ x = CReader j) \/ (exists j, as_writer s = WLast j /\ x = CReader (-1)))) \/
  (exists c l z k, t = worker_tid c /\ as_worker s !! c = Some (KOut l z) /\ in_active s k = Some l /\
     x = CWriter k (w_maxSize w0) LineMono (Some z)).

(** The pipes of the input pool: none is lost, there are no more than the
    capacity allows, and no index is used twice. *)
Record stocked s : Prop := {
  sk_exact : exact (ib s);
  sk_cap : len (pp (ib s)) <= cap (pp (ib s));
  sk_free k l : Pool.entries (free (pp (ib s))) !! k = Some l -> k < as_idx s /\ in_ready s k = None /\ in_active s k = None;
  sk_wait : waitIdx (pp (ib s)) = -1;
}.

(** [c] pipes and [n] workers now; what the monitor will ask for. *)
Fixpoint staffing (c n : Z) (ops : list mon_op) : Prop :=
  match ops with
  | NIn m :: ops => c <= m /\ staffing m n ops
  | NOut _ :: ops => staffing c n ops
  | NWork m :: ops => staffing c m ops
  | NWait :: _ => c = n /\ 1 <= n
  | _ => False
  end.

Record orderly s : Prop := {
  od_in : pool_inv (as_inPool s) /\ no_lost_any 0 (as_inPool s);
  od_out : pool_inv (as_outPool s) /\ no_lost_one writer_tid (as_outPool s);
  od_incall t x : pending (as_inPool s) !! t = Some x -> in_call s t x;
  od_outcall t x : pending (as_outPool s) !! t = Some x -> out_call s t x;
  od_waitidx j : pending (as_outPool s) !! writer_tid = Some (CReader j) -> 0 <= j -> waitIdx (pp (ob s)) = j;
  od_stock : stocked s;
  od_held k l : in_active s k = Some l -> exists c pc, as_worker s !! c = Some pc /\ holds pc = Some l;
  od_staff : staffing (cap (pp (ib s))) (zlen (workers (as_workPool s))) (as_monitor s);
  od_started : started (as_workPool s);
  od_ended : WorkerPool.ended (as_workPool s) <> 0%nat -> closed (pp (ob s)) = true;
}.

(** ** Goroutines by name *)

Lemma worker_tid_ne c : worker_tid c <> main_tid /\ worker_tid c <> writer_tid.
Proof. unfold worker_tid, main_tid, writer_tid. pose proof (Pos2Nat.is_pos c). lia. Qed.

Lemma worker_tid_inj c c' : worker_tid c = worker_tid c' -> c = c'.
Proof. unfold worker_tid. intros H. apply Pos2Nat.inj. lia. Qed.

(** ** Steps that leave the books of the pools alone *)

Record same_books {D} (p p' : @psys BP D) : Prop := SameBooks {
  sb_pp : pp (base p') = pp (base p);
  sb_pending : pending p' = pending p;
}.

(** A goroutine moves from one point to another, neither of them a call. *)
Record moved s s' : Prop := {
  mo_in : same_books (as_inPool s) (as_inPool s');
  mo_out : same_books (as_outPool s) (as_outPool s');
  mo_idx : as_idx s' = as_idx s;
  mo_pool : as_workPool s' = as_workPool s;
  mo_monitor : as_monitor s' = as_monitor s;
  mo_main d cnt todo : as_main s = MGet d cnt todo -> as_main s' = as_main s;
  mo_writer j : as_writer s = WGet j \/ as_writer s = WLast j -> as_writer s' = as_writer s;
  mo_get c : as_worker s !! c = Some KGet -> as_worker s' !! c = Some KGet;
  mo_kout c l z : as_worker s !! c = Some (KOut l z) -> as_worker s' !! c = Some (KOut l z);
  mo_held c pc l : as_worker s !! c = Some pc -> holds pc = Some l -> exists pc', as_worker s' !! c = Some pc' /\ holds pc' = Some l;
}.

Lemma moved_orderly s s' :
  orderly s -> moved s s' -> core 0 (ib s') -> core 0 (ob s') -> orderly s'.
Proof.
  intros [O1 O2 O3 O4 O4' O5 O6 O7 O8 O9] [[M1 M1'] [M2 M2'] M3 M4 M5 M6 M7 M8 M9 M10] C1 C2.
  assert (Hib : pp (ib s') = pp (ib s)) by done. assert (Hob : pp (ob s') = pp (ob s)) by done.
  assert (Hact : forall k, in_active s' k = in_active s k) by (intros k; unfold in_active; by rewrite Hib).
  assert (Hrd : forall k, in_ready s' k = in_ready s k) by (intros k; unfold in_ready; by rewrite Hib).
  split; rewrite ?M4, ?M5, ?Hib, ?Hob; try done.
  - destruct O1 as [[_ [W1 W2 W3 W4 W5 W6]] [N1 N2]]. split; [split; [exact C1|]|].
    + split; unfold no_lost_writer; rewrite ?M1, ?M1'; done.
    + split; rewrite ?M1, ?M1'; done.
  - destruct O2 as [[_ [W1 W2 W3 W4 W5 W6]] [N1 N2]]. split; [split; [exact C2|]|].
    + split; unfold no_lost_writer; rewrite ?M2, ?M2'; done.
    + split; rewrite ?M2, ?M2'; done.
  - rewrite M1'. intros t x Hx. destruct (O3 t x Hx) as [(-> & (d & cnt & todo & Hm) & ->)|(c & -> & Hc & ->)].
    + left. split; [done|]. rewrite M3. split; [|done]. exists d, cnt, todo. by rewrite (M6 _ _ _ Hm).
    + right. exists c. split_and!; auto.
  - rewrite M2'. intros t x Hx. destruct (O4 t x Hx) as [(-> & Hw)|(c & l & z & k & -> & Hc & Ha & ->)].
    + left. split; [done|]. destruct Hw as [(j & Hj & ->)|(j & Hj & ->)]; [left|right]; exists j; rewrite (M7 j); auto.
    + right. exists c, l, z, k. rewrite Hact. split_and!; auto.
  - by rewrite M2'.
  - destruct O5 as [K1 K2 K3 K4]. split; unfold exact in *; rewrite ?Hib; try done.
    intros k l Hk. rewrite Hact, Hrd, M3. by apply (K3 k l).
  - intros k l. rewrite Hact. intros Hk. destruct (O6 k l Hk) as (c & pc & Hc & Hh).
    destruct (M10 c pc l Hc Hh) as (pc' & H1 & H2). by exists c, pc'.
Qed.

(** ** Steps inside the input pool *)

Lemma settle_other {D} t0 (x : @call D) o pend t : t <> t0 -> settle t0 x o pend !! t = pend !! t.
Proof. intros H. destruct o as [[r|]| |]; cbn; rewrite ?lookup_delete_ne, ?lookup_insert_ne; done. Qed.

Lemma settle_self {D} t0 (x : @call D) o pend y : settle t0 x o pend !! t0 = Some y -> o = Ret None /\ y = x.
Proof. destruct o as [[r|]| |]; cbn; rewrite ?lookup_delete_eq, ?lookup_insert_eq; try done. by intros [= <-]. Qed.

(** What a step of the goroutine [t0] inside the input pool leaves to show. *)
Lemma in_orderly t0 s s' :
  orderly s -> pool_inv (as_inPool s') /\ no_lost_any 0 (as_inPool s') ->
  (forall t x, t <> t0 -> pending (as_inPool s') !! t = Some x -> pending (as_inPool s) !! t = Some x) ->
  (forall x, pending (as_inPool s') !! t0 = Some x -> in_call s' t0 x) ->
  (forall t x, t <> t0 -> in_call s t x -> in_call s' t x) ->
  (forall t x, out_call s t x -> out_call s' t x) ->
  as_outPool s' = as_outPool s -> stocked s' ->
  (forall k l, in_active s' k = Some l -> exists c pc, as_worker s' !! c = Some pc /\ holds pc = Some l) ->
  staffing (cap (pp (ib s'))) (zlen (workers (as_workPool s'))) (as_monitor s') ->
  started (as_workPool s') -> WorkerPool.ended (as_workPool s') = WorkerPool.ended (as_workPool s) ->
  orderly s'.
Proof.
  intros [O1 O2 O3 O4 O4' O5 O6 O7 O8 O9] H1 H2 H3 H4 H5 H6 H7 H8 H9 H10 H11.
  assert (Hob : ob s' = ob s) by (unfold ob; by rewrite H6). split; rewrite ?H6, ?Hob, ?H11; try done; auto.
  intros t x Hx. destruct (decide (t = t0)) as [->|Hne]; auto.
Qed.

Lemma main_call s x : orderly s -> pending (as_inPool s) !! main_tid = Some x ->
  (exists d cnt todo, as_main s = MGet d cnt todo) /\ x = CWriter (as_idx s) (w_chunkSize w0) LineDual None.
Proof.
  intros O Hx. destruct (od_incall _ O _ _ Hx) as [(_ & Hm & ->)|(c & Hc & _)]; [done|].
  by destruct (worker_tid_ne c) as [[] _].
Qed.

Lemma getter_call s c x : orderly s -> pending (as_inPool s) !! worker_tid c = Some x ->
  as_worker s !! c = Some KGet /\ x = CReader (-1).
Proof.
  intros O Hx. destruct (od_incall _ O _ _ Hx) as [(Hc & _)|(c' & Hc & H1 & H2)]; [by destruct (worker_tid_ne c) as [[] _]|].
  apply worker_tid_inj in Hc as ->. done.
Qed.

(** No pipe of the input pool came, went or moved. *)
Lemma same_stocked s s' :
  stocked s -> same_store (ib s) (ib s') -> same_room (ib s) (ib s') -> waitIdx (pp (ib s')) = waitIdx (pp (ib s)) ->
  as_idx s' = as_idx s -> stocked s'.
Proof.
  intros [K1 K2 K3 K4] Hs [R1 R2 R3] Hw Hi. split; unfold in_ready, in_active.
  - by eapply same_exact.
  - by rewrite R1, R2.
  - rewrite R3, (ss_ready _ _ Hs), (ss_active _ _ Hs), Hi. exact K3.
  - by rewrite Hw.
Qed.

Lemma same_calls s s' :
  (forall k, in_active s' k = in_active s k) -> as_worker s' = as_worker s -> as_writer s' = as_writer s ->
  forall t x, out_call s t x -> out_call s' t x.
Proof.
  intros Ha Hk Hw t x [H|(c & l & z & k & H1 & H2 & H3 & H4)]; [left; by rewrite Hw|right]. exists c, l, z, k.
  by rewrite Ha, Hk.
Qed.

Lemma write_get_orderly ch d cnt todo cs zo s s' :
  running_ok cs zo s -> orderly s -> as_main s = MGet d cnt todo -> write_get ch d cnt todo s = Some s' -> orderly s'.
Proof.
  intros R O Hpc. pose proof (ro_main _ _ _ _ _ R) as (_ & _ & M3). rewrite Hpc in M3.
  pose proof (bk_past _ _ _ _ (ro_blocks _ _ _ _ _ R)) as Hp. pose proof (sized_chunk w0 Hsz) as Hck.
  assert (Hopen : closed (pp (ib s)) = false) by (destruct (closed (pp (ib s))); [by destruct M3 as [M3 _]; specialize (M3 eq_refl)|done]).
  destruct (kept_sizes w0 Hin Him _ (ro_kept _ _ _ _ _ R)) as [Hs1 Hs2]. unfold write_get. rewrite Hs1, Hs2.
  set (x := CWriter (as_idx s) (w_chunkSize w0) LineDual None). destruct (enter ch main_tid x _) as [[o p]|] eqn:E0; [|done].
  cbn [mbind option_bind]. pose proof (ro_in _ _ _ _ _ R) as C.
  destruct (enter_writer _ _ _ _ _ _ _ _ _ C E0) as [C' Ho]. pose proof (enter_writer_room _ _ _ _ _ _ _ _ _ C E0) as Hr.
  fold (ib s) in Ho, Hr. pose proof O as [[O1 O1'] O2 O3 O4 O4' O5 O6 O7 O8 O9]. pose proof O5 as [K1 K2 K3 K4].
  destruct (enter_step any_readers ch main_tid x (as_inPool s) o p) as [Hst Hpend]; [|by intros _; split; [cbn; lia|]|exact E0|].
  { intros c' Hc'. apply (main_call s c' O Hc'). }
  pose proof (any_step _ _ O1 O1' Hst) as Hsl.
  assert (Hother : forall t y, t <> main_tid -> pending p !! t = Some y -> pending (as_inPool s) !! t = Some y)
    by (intros t y Hne; by rewrite Hpend, settle_other by done).
  assert (Hnone : o <> Ret None -> pending p !! main_tid = None).
  { intros Hne. destruct (pending p !! main_tid) eqn:Hx; [|done]. rewrite Hpend in Hx. by apply settle_self in Hx as [-> _]. }
  assert (Hic : forall v, as_worker v = as_worker s -> forall t y, t <> main_tid -> in_call s t y -> in_call v t y).
  { intros v Hv t y Hne [[-> _]|(c & H)]; [done|]. right. exists c. by rewrite Hv. }
  destruct o as [[[l|]|]|p'|]; [| | | |done]; intros [= <-].
  - apply (in_orderly main_tid s); try done; [cbn; rewrite Hnone by done; done|by apply Hic| | | |].
    + apply same_calls; [|done|done]. intros k. unfold in_active, ib. cbn. by rewrite (np_active _ _ _ _ _ _ _ Ho).
    + split; unfold ib; cbn.
      * by eapply new_pipe_exact.
      * destruct Hr as [-> _ [(k & _ & _ & ->)|(_ & _ & -> & Hr)]]; [done|]. rewrite K4 in Hr. specialize (Hr ltac:(lia)). lia.
      * intros k l' Hk. assert (Hk' : Pool.entries (free (pp (ib s))) !! k = Some l').
        { destruct (mr_from _ _ _ _ Hr) as [(k0 & _ & F & _)|(_ & F & _)]; rewrite F in Hk; [|done].
          by apply lookup_delete_Some in Hk as [_ Hk]. }
        destruct (K3 k l' Hk') as (F1 & F2 & F3). unfold in_ready, in_active, ib in *. cbn.
        rewrite (np_ready _ _ _ _ _ _ _ Ho), (np_active _ _ _ _ _ _ _ Ho), lookup_insert_ne by lia. split; [lia|done].
      * by rewrite (mr_wait _ _ _ _ Hr).
    + intros k l'. unfold in_active, ib. cbn. rewrite (np_active _ _ _ _ _ _ _ Ho). apply O6.
    + unfold ib. cbn. by rewrite (mr_cap _ _ _ _ Hr).
  - destruct Ho as [_ Ho]. congruence.
  - destruct Hr as [Hr Hw]. apply (in_orderly main_tid s); try done.
    + intros y Hy. cbn in Hy. rewrite Hpend in Hy. apply settle_self in Hy as [_ ->]. left. split; [done|]. split; [|done]. by eexists _, _, _.
    + apply same_calls; [|done|done]. intros k. unfold in_active, ib. cbn. by rewrite (ss_active _ _ Ho).
    + by apply (same_stocked s).
    + intros k l'. unfold in_active, ib. cbn. rewrite (ss_active _ _ Ho). apply O6.
    + unfold ib. cbn. by rewrite (sr_cap _ _ Hr).
  - exfalso. assert (Hnr : Pool.entries (ready (pp (base (as_inPool s)))) !! as_idx s = None).
    { change (in_ready s (as_idx s) = None). destruct (in_ready s (as_idx s)) eqn:Hrd; [|done].
      destruct (bk_queue _ _ _ _ (ro_blocks _ _ _ _ _ R) _ _ Hrd). lia. }
    by destruct (enter_writer_total ch main_tid (as_idx s) (w_chunkSize w0) LineDual None _ _ _ C ltac:(lia) ltac:(lia) Hnr E0).
Qed.

(** A worker takes an input pipe. *)
Lemma get_orderly ch fuel c cs zo s s' :
  running_ok cs zo s -> orderly s -> as_worker s !! c = Some KGet -> worker_step ch fuel c s = Some s' ->
  as_crash s' = None -> orderly s'.
Proof.
  intros R O Hc. pose proof (ro_in _ _ _ _ _ R) as C. unfold worker_step. rewrite Hc. cbn [mbind option_bind].
  destruct (enter ch (worker_tid c) (CReader (-1)) _) as [[o p]|] eqn:E0; [|done]. cbn [mbind option_bind].
  destruct (enter_reader _ _ _ _ _ _ C E0) as [C' Ho]. destruct (enter_reader_room _ _ _ _ _ _ C E0) as [Hr Hw].
  fold (ib s) in Ho, Hr, Hw. pose proof O as [[O1 O1'] O2 O3 O4 O4' O5 O6 O7 O8 O9]. pose proof O5 as [K1 K2 K3 K4].
  destruct (enter_step any_readers ch (worker_tid c) (CReader (-1)) (as_inPool s) o p) as [Hst Hpend]; [|by intros _; split|exact E0|].
  { intros c' Hc'. apply (getter_call s c c' O Hc'). }
  pose proof (any_step _ _ O1 O1' Hst) as Hsl.
  assert (Hother : forall t y, t <> worker_tid c -> pending p !! t = Some y -> pending (as_inPool s) !! t = Some y)
    by (intros t y Hne; by rewrite Hpend, settle_other by done).
  assert (Hnone : o <> Ret None -> pending p !! worker_tid c = None).
  { intros Hne. destruct (pending p !! worker_tid c) eqn:Hx; [|done]. rewrite Hpend in Hx. by apply settle_self in Hx as [-> _]. }
  assert (Hwait : waitIdx (pp (base p)) = waitIdx (pp (ib s)) \/ exists q, o = Pan q).
  { destruct o as [[r|]|q|]; [by left| |right; by exists q|done]. left. by destruct (pending (as_inPool s) !! worker_tid c). }
  assert (Hic : forall v, as_main v = as_main s -> as_idx v = as_idx s ->
    (forall c1, c1 <> c -> as_worker s !! c1 = Some KGet -> as_worker v !! c1 = Some KGet) ->
    forall t y, t <> worker_tid c -> in_call s t y -> in_call v t y).
  { intros v Hm Hi Hv t y Hne [H|(c1 & -> & H1 & ->)]; [left; by rewrite Hm, Hi|]. right. exists c1. split; [done|].
    split; [|done]. apply Hv; [|done]. intros ->. done. }
  destruct o as [[[l|]|]|p'|]; [| | | |done]; intros [= <-] Hcrash; [| | |done];
    (destruct Hwait as [Hwait|[? ?]]; [|done]).
  - destruct Ho as (k & _ & T). destruct (bk_queue _ _ _ _ (ro_blocks _ _ _ _ _ R) k l (tk_was _ _ _ _ T)) as (Hk & _ & _ & Hna).
    apply (in_orderly (worker_tid c) s); try done.
    + cbn. by rewrite Hnone.
    + apply Hic; [done|done|]. intros c1 Hne H1. cbn. by rewrite lookup_insert_ne.
    + intros t y [H|(c1 & l' & z & k1 & H1 & H2 & H3 & H4)]; [by left|]. right. exists c1, l', z, k1. split_and!; try done.
      * cbn. rewrite lookup_insert_ne; [done|]. intros ->. congruence.
      * unfold in_active, ib in *. cbn. rewrite (tk_active _ _ _ _ T), lookup_insert_ne; [done|]. intros ->. congruence.
    + split; unfold in_ready, in_active, ib in *; cbn.
      * by eapply taken_exact.
      * by rewrite (sr_cap _ _ Hr), (sr_len _ _ Hr).
      * rewrite (sr_free _ _ Hr), (tk_ready _ _ _ _ T), (tk_active _ _ _ _ T). intros k1 l1 Hk1.
        destruct (K3 k1 l1 Hk1) as (F1 & F2 & F3). split; [done|]. pose proof (tk_was _ _ _ _ T) as Hwas.
        assert (k1 <> k) by (intros ->; congruence). by rewrite lookup_delete_ne, lookup_insert_ne.
      * by rewrite Hwait.
    + intros k1 l1. unfold in_active, ib. cbn. rewrite (tk_active _ _ _ _ T), lookup_insert. case_decide as Hd.
      * intros [= <-]. exists c, (KOut l (fresh (dom (as_sizes s)))). split; [apply lookup_insert_eq|done].
      * intros H1. destruct (O6 k1 l1 H1) as (c1 & pc1 & H2 & H3). exists c1, pc1. split; [|done].
        rewrite lookup_insert_ne; [done|]. intros ->. rewrite Hc in H2. by injection H2 as <-.
    + unfold ib. cbn. by rewrite (sr_cap _ _ Hr).
  - destruct Ho as (Ho & _). apply (in_orderly (worker_tid c) s); try done.
    + cbn. by rewrite Hnone.
    + apply Hic; [done|done|]. intros c1 Hne H1. cbn. by rewrite lookup_delete_ne.
    + intros t y [H|(c1 & l' & z & k1 & H1 & H2 & H3 & H4)]; [by left|]. right. exists c1, l', z, k1. split_and!; try done.
      * cbn. rewrite lookup_delete_ne; [done|]. intros ->. congruence.
      * unfold in_active, ib in *. cbn. by rewrite (ss_active _ _ Ho).
    + by apply (same_stocked s).
    + intros k1 l1. unfold in_active, ib. cbn. rewrite (ss_active _ _ Ho). intros H1.
      destruct (O6 k1 l1 H1) as (c1 & pc1 & H2 & H3). exists c1, pc1. split; [|done].
      rewrite lookup_delete_ne; [done|]. intros ->. rewrite Hc in H2. by injection H2 as <-.
    + unfold ib. cbn. by rewrite (sr_cap _ _ Hr).
  - apply (in_orderly (worker_tid c) s); try done.
    + intros y Hy. cbn in Hy. rewrite Hpend in Hy. apply settle_self in Hy as [_ ->]. right. by exists c.
    + apply same_calls; [|done|done]. intros k. unfold in_active, ib. cbn. by rewrite (ss_active _ _ Ho).
    + by apply (same_stocked s).
    + intros k l'. unfold in_active, ib. cbn. rewrite (ss_active _ _ Ho). apply O6.
    + unfold ib. cbn. by rewrite (sr_cap _ _ Hr).
Qed.

(** A worker restores an input pipe. *)
Lemma restore_orderly ch fuel c l cs zo s s' :
  running_ok cs zo s -> orderly s -> as_worker s !! c = Some (KRestore l) -> worker_step ch fuel c s = Some s' ->
  as_crash s' = None -> orderly s'.
Proof.
  intros R O Hc. pose proof (ro_in _ _ _ _ _ R) as C. unfold worker_step. rewrite Hc. cbn [mbind option_bind].
  destruct (bk_workers _ _ _ _ (ro_blocks _ _ _ _ _ R) c _ Hc) as (k & Hact).
  destruct (request ch (RRestore (Some l)) (as_inPool s)) as [o p] eqn:E0.
  pose proof (core_idx_of 0 _ SActive k l C Hact) as Hix.
  assert (Hown : forall l', Pool.entries (active (pp (base (as_inPool s)))) !! idx_of (heap (base (as_inPool s))) l = Some l' -> l' = l).
  { change (heap (base (as_inPool s))) with (heap (ib s)). rewrite Hix. intros l' Hl'. unfold in_active, ib in Hact. congruence. }
  destruct (request_step any_readers ch (RRestore (Some l)) (as_inPool s) o p Hown E0) as [Hst Hpend].
  pose proof O as [[O1 O1'] O2 O3 O4 O4' O5 O6 O7 O8 O9]. pose proof O5 as [K1 K2 K3 K4].
  pose proof (any_step _ _ O1 O1' Hst) as Hsl.
  destruct o as [u|p'|]; [| |done]; intros [= <-] Hcrash; [|done].
  destruct (request_restore ch l _ _ _ C Hown E0) as (_ & Ha & Hr & Hh & Hcl).
  destruct (request_restore_room ch l k _ _ _ C Hown Hix E0) as (_ & Hcap & Hwt & Hfree).
  change (heap (base (as_inPool s))) with (heap (ib s)) in Ha. rewrite Hix in Ha. fold (ib s) in Ha, Hr, Hh, Hcl, Hcap, Hwt, Hfree.
  assert (Hfk : Pool.entries (free (pp (ib s))) !! k = None).
  { destruct (Pool.entries (free (pp (ib s))) !! k) eqn:Hf; [|done]. destruct (K3 _ _ Hf) as (_ & _ & H). congruence. }
  assert (Hrk : in_ready s k = None).
  { destruct (in_ready s k) eqn:Hf; [|done]. destruct (bk_queue _ _ _ _ (ro_blocks _ _ _ _ _ R) _ _ Hf) as (_ & _ & _ & H). congruence. }
  pose proof (bk_active _ _ _ _ (ro_blocks _ _ _ _ _ R) k l Hact) as Hk.
  apply (in_orderly (worker_tid c) s); try done.
  - cbn. by rewrite Hpend.
  - cbn. rewrite Hpend. intros x Hx. destruct (getter_call s c x O Hx). congruence.
  - intros t y Hne [H|(c1 & -> & H1 & ->)]; [by left|]. right. exists c1. split; [done|]. split; [|done].
    cbn. rewrite lookup_insert_ne; [done|]. intros ->. congruence.
  - intros t y [H|(c1 & l' & z & k1 & H1 & H2 & H3 & H4)]; [by left|]. right. exists c1, l', z, k1. split_and!; try done.
    + cbn. rewrite lookup_insert_ne; [done|]. intros ->. congruence.
    + unfold in_active, ib in *. cbn. rewrite Ha, lookup_delete_ne; [done|]. intros ->. rewrite Hact in H3. injection H3 as ->.
      pose proof (bk_holds _ _ _ _ (ro_blocks _ _ _ _ _ R) c c1 _ _ l' Hc H2 eq_refl eq_refl) as ->. congruence.
  - split; unfold in_ready, in_active, ib in *; cbn.
    + by eapply (restored_exact k l).
    + rewrite Hcap. destruct Hfree as [[-> _]|[-> _]]; lia.
    + rewrite Hr, Ha. intros k1 l1 Hk1.
      assert (k1 = k \/ k1 <> k /\ Pool.entries (free (pp (base (as_inPool s)))) !! k1 = Some l1) as [->|[Hne Hf]].
      { destruct Hfree as [[_ F]|[_ F]]; rewrite F in Hk1.
        - rewrite lookup_insert in Hk1. case_decide; [by left|by right].
        - right. split; [|done]. intros ->. congruence. }
      * rewrite lookup_delete_eq. split; [lia|done].
      * destruct (K3 k1 l1 Hf) as (F1 & F2 & F3). by rewrite lookup_delete_ne.
    + by rewrite Hwt.
  - intros k1 l1. unfold in_active, ib. cbn. rewrite Ha. intros [Hne H1]%lookup_delete_Some.
    destruct (O6 k1 l1 H1) as (c1 & pc1 & H2 & H3). exists c1, pc1. split; [|done].
    rewrite lookup_insert_ne; [done|]. intros ->. rewrite Hc in H2. injection H2 as <-. injection H3 as ->.
    by apply Hne, (active_once s k k1 l1 C).
  - unfold ib. cbn. by rewrite Hcap.
Qed.

(** The caller closes the pool. *)
Lemma close_orderly ch cs zo s o p :
  running_ok cs zo s -> orderly s -> as_main s = MShut -> request ch RClose (as_inPool s) = (o, p) ->
  orderly (set_main MWait (set_inPool p s)).
Proof.
  intros R O Hm E0. destruct (request_step any_readers ch RClose (as_inPool s) o p I E0) as [Hst Hpend].
  pose proof O as [[O1 O1'] O2 O3 O4 O4' O5 O6 O7 O8 O9]. pose proof (any_step _ _ O1 O1' Hst) as Hsl.
  unfold request in E0. cbn [run_req] in E0. injection E0 as _ <-.
  apply (in_orderly main_tid s); try done.
  - intros x Hx. by destruct (main_call s x O Hx) as [(d & cnt & todo & H) _]; rewrite Hm in H.
  - intros t y Hne [[-> _]|H]; [done|by right].
  - by destruct O5.
Qed.

(** The monitor raises the capacity of the input pool. *)
Lemma capacity_orderly ch n rest s o p :
  orderly s -> as_monitor s = NIn n :: rest -> request ch (RSetCapacity n) (as_inPool s) = (o, p) ->
  orderly (set_inPool p (set_monitor rest s)).
Proof.
  intros O Hm E0. destruct (request_step any_readers ch (RSetCapacity n) (as_inPool s) o p I E0) as [Hst Hpend].
  pose proof O as [[O1 O1'] O2 O3 O4 O4' O5 O6 O7 O8 O9]. pose proof (any_step _ _ O1 O1' Hst) as Hsl.
  rewrite Hm in O7. destruct O7 as [Hn O7]. unfold request in E0. cbn [run_req] in E0. injection E0 as _ <-.
  apply (in_orderly main_tid s); try done.
  - intros x Hx. left. split; [done|]. exact (main_call s x O Hx).
  - destruct O5 as [K1 K2 K3 K4]. split; try done. unfold ib in *. cbn in *. lia.
Qed.

(** ** Steps inside the output pool *)

Lemma out_orderly t0 s s' :
  orderly s -> pool_inv (as_outPool s') /\ no_lost_one writer_tid (as_outPool s') ->
  (forall t x, t <> t0 -> pending (as_outPool s') !! t = Some x -> pending (as_outPool s) !! t = Some x) ->
  (forall x, pending (as_outPool s') !! t0 = Some x -> out_call s' t0 x) ->
  (forall t x, t <> t0 -> out_call s t x -> out_call s' t x) ->
  (forall t x, in_call s t x -> in_call s' t x) ->
  (forall j, pending (as_outPool s') !! writer_tid = Some (CReader j) -> 0 <= j -> waitIdx (pp (ob s')) = j) ->
  as_inPool s' = as_inPool s -> as_idx s' = as_idx s ->
  (forall c pc l, as_worker s !! c = Some pc -> holds pc = Some l -> exists c' pc', as_worker s' !! c' = Some pc' /\ holds pc' = Some l) ->
  staffing (cap (pp (ib s'))) (zlen (workers (as_workPool s'))) (as_monitor s') ->
  started (as_workPool s') -> (WorkerPool.ended (as_workPool s') <> 0%nat -> closed (pp (ob s')) = true) ->
  orderly s'.
Proof.
  intros [O1 O2 O3 O4 O4' O5 O6 O7 O8 O9] H1 H2 H3 H4 H5 H6 H7 H8 H9 H10 H11 H12.
  assert (Hib : ib s' = ib s) by (unfold ib; by rewrite H7).
  split; rewrite ?H7; try done; auto.
  - intros t x Hx. destruct (decide (t = t0)) as [->|Hne]; auto.
  - destruct O5 as [K1 K2 K3 K4]. split; unfold in_ready, in_active; rewrite ?Hib, ?H8; done.
  - intros k l. unfold in_active. rewrite Hib. intros Hk. destruct (O6 k l Hk) as (c & pc & Hc & Hh). by eapply H9.
Qed.

Lemma writer_call s x : orderly s -> pending (as_outPool s) !! writer_tid = Some x ->
  (exists j, as_writer s = WGet j /\ x = CReader j) \/ (exists j, as_writer s = WLast j /\ x = CReader (-1)).
Proof.
  intros O Hx. destruct (od_outcall _ O _ _ Hx) as [(_ & H)|(c & l & z & k & Hc & _)]; [done|].
  by destruct (worker_tid_ne c) as [_ []].
Qed.

Lemma putter_call s c x : orderly s -> pending (as_outPool s) !! worker_tid c = Some x ->
  exists l z k, as_worker s !! c = Some (KOut l z) /\ in_active s k = Some l /\ x = CWriter k (w_maxSize w0) LineMono (Some z).
Proof.
  intros O Hx. destruct (od_outcall _ O _ _ Hx) as [(Hc & _)|(c' & l & z & k & Hc & H)]; [by destruct (worker_tid_ne c) as [_ []]|].
  apply worker_tid_inj in Hc as ->. by exists l, z, k.
Qed.

(** A worker takes an output pipe. *)
Lemma out_get_orderly ch fuel c l z cs zo s s' :
  running_ok cs zo s -> orderly s -> as_worker s !! c = Some (KOut l z) -> worker_step ch fuel c s = Some s' ->
  as_crash s' = None -> orderly s'.
Proof.
  intros R O Hc. pose proof (ro_out _ _ _ _ _ R) as C. unfold worker_step. rewrite Hc. cbn [mbind option_bind].
  destruct (bk_workers _ _ _ _ (ro_blocks _ _ _ _ _ R) c _ Hc) as (k & Hk & Hact & _).
  change (heap (base (as_inPool s))) with (heap (ib s)). rewrite (core_idx_of 0 _ SActive k l (ro_in _ _ _ _ _ R) Hact).
  destruct (kept_pools w0 Hout Hom _ (ro_kept _ _ _ _ _ R)) as [-> ->]. set (x := CWriter k _ _ _).
  pose proof (sized_chunk w0 Hsz) as Hck. pose proof (sized_max w0 Hsz) as Hmx. pose proof (bk_past _ _ _ _ (ro_blocks _ _ _ _ _ R)) as Hpa.
  destruct (enter ch (worker_tid c) x (as_outPool s)) as [[o p]|] eqn:E0; [|done]. cbn [mbind option_bind].
  destruct (enter_writer _ _ _ _ _ _ _ _ _ C E0) as [C' Ho]. pose proof (enter_writer_room _ _ _ _ _ _ _ _ _ C E0) as Hr.
  fold (ob s) in Ho, Hr. pose proof O as [O1 [O2 O2'] O3 O4 O4' O5 O6 O7 O8 O9].
  destruct (enter_step (one_reader writer_tid) ch (worker_tid c) x (as_outPool s) o p) as [Hst Hpend]; [|by intros _; split; [cbn; lia|]|exact E0|].
  { intros c' Hc'. destruct (putter_call s c c' O Hc') as (l' & z' & k' & H1 & H2 & ->). rewrite Hc in H1. injection H1 as <- <-.
    unfold x. by rewrite (active_once s k k' l (ro_in _ _ _ _ _ R) Hact H2). }
  pose proof (one_step _ _ _ O2 O2' Hst) as Hsl.
  assert (Hother : forall t y, t <> worker_tid c -> pending p !! t = Some y -> pending (as_outPool s) !! t = Some y)
    by (intros t y Hne; by rewrite Hpend, settle_other by done).
  assert (Hnone : o <> Ret None -> pending p !! worker_tid c = None).
  { intros Hne. destruct (pending p !! worker_tid c) eqn:Hx; [|done]. rewrite Hpend in Hx. by apply settle_self in Hx as [-> _]. }
  assert (Hwr : forall j, pending p !! writer_tid = Some (CReader j) -> 0 <= j -> waitIdx (pp (ob s)) = j).
  { intros j Hj. apply O4', Hother; [|done]. intros Hx. by apply (proj2 (worker_tid_ne c)). }
  destruct o as [[[m|]|]|p'|]; [| | | |done]; intros [= <-] Hcrash; [| | |done].
  - apply (out_orderly (worker_tid c) s); try done.
    + cbn. by rewrite Hnone.
    + intros t y Hne [H2|(c1 & l' & z' & k1 & -> & H2 & H3 & H4)]; [by left|]. right. exists c1, l', z', k1. split_and!; try done.
      cbn. rewrite lookup_insert_ne; [done|]. intros ->. done.
    + intros t y [H2|(c1 & -> & H2 & H3)]; [by left|]. right. exists c1. split_and!; try done.
      cbn. rewrite lookup_insert_ne; [done|]. intros ->. congruence.
    + unfold ob. cbn. rewrite (mr_wait _ _ _ _ Hr). exact Hwr.
    + intros c1 pc l1 H1 H2. exists c1. cbn. destruct (decide (c1 = c)) as [->|Hne].
      * exists (KEncode l z m). rewrite lookup_insert_eq. split; [done|]. rewrite Hc in H1. by injection H1 as <-.
      * exists pc. by rewrite lookup_insert_ne.
    + intros He. specialize (O9 He). pose proof (np_open _ _ _ _ _ _ _ Ho). congruence.
  - destruct Ho as [_ Ho]. destruct (cr_closed _ (ro_crew _ _ _ _ _ R) Ho) as [_ D]. by specialize (D c _ Hc).
  - destruct Hr as [Hr Hw]. apply (out_orderly (worker_tid c) s); try done.
    + intros y Hy. cbn in Hy. rewrite Hpend in Hy. apply settle_self in Hy as [_ ->]. right. by exists c, l, z, k.
    + unfold ob. cbn. rewrite Hw. exact Hwr.
    + intros c1 pc l1 H1 H2. by exists c1, pc.
    + intros He. unfold ob. cbn. rewrite (ss_closed _ _ Ho). by apply O9.
Qed.

Lemma panic_not_running p cs zo s : running_ok cs zo (writer_panic p s) -> False.
Proof.
  intros R. unfold writer_panic in R. destruct (errs_Recover p None).
  - by pose proof (ro_writer _ _ _ _ _ R).
  - by pose proof (ro_crash _ _ _ _ _ R).
Qed.

(** The writer reads from the pool. *)
Lemma writer_enter_orderly ch j cs zo s o p (pc : writer_pc) s' :
  running_ok cs zo s -> orderly s -> (as_writer s = WGet j /\ 0 <= j \/ (exists i, as_writer s = WLast i) /\ j = -1) ->
  enter ch writer_tid (CReader j) (as_outPool s) = Some (o, p) ->
  s' = set_writer pc (set_outPool p s) -> (o = Ret None -> pc = as_writer s) -> (forall q, o <> Pan q) -> orderly s'.
Proof.
  intros R O Hj E0 -> Hpc Hq. pose proof (ro_out _ _ _ _ _ R) as C.
  destruct (enter_reader _ _ _ _ _ _ C E0) as [C' Ho]. destruct (enter_reader_room _ _ _ _ _ _ C E0) as [Hr Hw].
  fold (ob s) in Ho, Hr, Hw. pose proof O as [O1 [O2 O2'] O3 O4 O4' O5 O6 O7 O8 O9].
  destruct (enter_step (one_reader writer_tid) ch writer_tid (CReader j) (as_outPool s) o p) as [Hst Hpend]; [|by intros _; split|exact E0|].
  { intros c' Hc'. destruct (writer_call s c' O Hc') as [(i & H1 & ->)|(i & H1 & ->)];
      destruct Hj as [[H2 _]|[[i' H2] ->]]; try congruence. }
  pose proof (one_step _ _ _ O2 O2' Hst) as Hsl.
  apply (out_orderly writer_tid s); try done.
  - intros t y Hne. cbn. by rewrite Hpend, settle_other by done.
  - intros y. cbn. rewrite Hpend. intros [-> ->]%settle_self. left. split; [done|]. cbn. rewrite (Hpc eq_refl).
    destruct Hj as [[H2 _]|[[i' H2] ->]]; [left; by exists j|right; by exists i'].
  - intros t y Hne [[-> _]|H]; [done|by right].
  - intros i. unfold ob. cbn. rewrite Hpend. intros [-> [= ->]]%settle_self Hi. rewrite Hw.
    destruct (pending (as_outPool s) !! writer_tid) as [x|] eqn:Hx.
    + apply O4'; [|done]. destruct (writer_call s x O Hx) as [(i1 & H1 & ->)|(i1 & H1 & ->)];
        destruct Hj as [[H2 _]|[[i' H2] ->]]; congruence.
    + by rewrite (proj2 (Z.leb_le _ _)).
  - intros c pc1 l1 H1 H2. by exists c, pc1.
  - intros He. unfold ob. cbn. specialize (O9 He). destruct o as [[[m|]|]|q|]; [| | |by destruct (Hq q)|done].
    + destruct Ho as (k & _ & T). by rewrite (tk_closed _ _ _ _ T).
    + destruct Ho as (S & _). by rewrite (ss_closed _ _ S).
    + by rewrite (ss_closed _ _ Ho).
Qed.

Lemma writer_get_orderly ch cs zo s cs' zo' s' :
  running_ok cs zo s -> orderly s -> writer_step ch s = Some s' -> running_ok cs' zo' s' -> orderly s'.
Proof.
  intros R O H R'. pose proof (ro_out _ _ _ _ _ R) as C. revert H. unfold writer_step.
  pose proof (ro_writer _ _ _ _ _ R) as V. pose proof (bk_past _ _ _ _ (ro_blocks _ _ _ _ _ R)) as Hp. unfold past in Hp.
  unfold writer_ok in V. destruct (as_writer s) as [j|j m|j m wrErr|j m wrErr ixErr|j|e| | |] eqn:Hpc; try done.
  - destruct (enter ch writer_tid (CReader j) (as_outPool s)) as [[o p]|] eqn:E0; [|done]. cbn [mbind option_bind].
    destruct o as [[[m|]|]|q|]; [| | | |done]; intros [= <-].
    + apply (writer_enter_orderly ch j cs zo s (Ret (Some (Some m))) p (WWrite (j + 1) m)); try done. left. split; [done|lia].
    + apply (writer_enter_orderly ch j cs zo s (Ret (Some None)) p (WLast (j + 1))); try done. left. split; [done|lia].
    + apply (writer_enter_orderly ch j cs zo s (Ret None) p (WGet j)); try done; [left; split; [done|lia]|].
      destruct s; cbn in *; by subst.
    + by destruct (panic_not_running _ _ _ _ R').
  - destruct (pipe_of _ _) as [p|]; [|done]. cbn [mbind option_bind]. destruct (bp_Closed p); [|done].
    destruct (bp_WriteTo p _) as [[n err] [p' wr]]. intros [= <-]. apply (moved_orderly s); [done| |apply R'|apply R'].
    split; try done; [by intros i [?|?]; congruence|..]; intros c pc; try (intros l H1 H2; by exists pc).
  - intros [= <-]. unfold writer_append in *. destruct (stats_of m s) as [ss|].
    + destruct (negb _).
      * destruct (on_world _ _) as [[ixErr|q|] w]; [|by destruct (panic_not_running _ _ _ _ R')|done].
        apply (moved_orderly s); [done| |apply R'|apply R']. split; try done; [by intros i [?|?]; congruence|].
        intros c pc l H1 H2. by exists pc.
      * apply (moved_orderly s); [done| |apply R'|apply R']. split; try done; [by intros i [?|?]; congruence|].
        intros c pc l H1 H2. by exists pc.
    + apply (moved_orderly s); [done| |apply R'|apply R']. split; try done; [by intros i [?|?]; congruence|].
      intros c pc l H1 H2. by exists pc.
  - destruct V as (Ha & _). pose proof (core_idx_of 0 _ SActive _ m C Ha) as Hix.
    destruct (request ch (RRestore (Some m)) (as_outPool s)) as [o p] eqn:E0.
    assert (Hown : forall l', Pool.entries (active (pp (base (as_outPool s)))) !! idx_of (heap (base (as_outPool s))) m = Some l' -> l' = m).
    { change (heap (base (as_outPool s))) with (heap (ob s)). rewrite Hix. intros l' Hl'. unfold out_active, ob in Ha. congruence. }
    destruct (request_step (one_reader writer_tid) ch (RRestore (Some m)) (as_outPool s) o p Hown E0) as [Hst Hpend].
    pose proof O as [O1 [O2 O2'] O3 O4 O4' O5 O6 O7 O8 O9]. pose proof (one_step _ _ _ O2 O2' Hst) as Hsl.
    destruct o as [u|q|]; [|by intros [= <-]; destruct (panic_not_running _ _ _ _ R')|done].
    destruct (request_restore ch m _ _ _ C Hown E0) as (_ & _ & _ & _ & Hcl).
    destruct (request_restore_room ch m (j - 1) _ _ _ C Hown Hix E0) as (_ & _ & Hwt & _). fold (ob s) in Hcl, Hwt.
    destruct (errs_Panic _); [|by intros [= <-]; destruct (panic_not_running _ _ _ _ R')|done]. intros [= <-].
    assert (Hno : pending (as_outPool s) !! writer_tid = None).
    { destruct (pending (as_outPool s) !! writer_tid) eqn:Hx; [|done]. destruct (writer_call s _ O Hx) as [(i & H1 & _)|(i & H1 & _)]; congruence. }
    apply (out_orderly writer_tid s); try done.
    + cbn. by rewrite Hpend.
    + cbn. by rewrite Hpend, Hno.
    + intros t y Hne [[-> _]|H]; [done|by right].
    + cbn. by rewrite Hpend, Hno.
    + intros c pc1 l1 H1 H2. by exists c, pc1.
    + intros He. unfold ob. cbn. rewrite Hcl. by apply O9.
  - destruct (enter ch writer_tid (CReader (-1)) (as_outPool s)) as [[o p]|] eqn:E0; [|done]. cbn [mbind option_bind].
    destruct o as [[[m|]|]|q|]; [| | | |done].
    + destruct (errs_Assert _ _); intros [= <-]; [|by destruct (panic_not_running _ _ _ _ R')]. by pose proof (ro_writer _ _ _ _ _ R').
    + destruct (errs_Assert _ _); intros [= <-]; [|by destruct (panic_not_running _ _ _ _ R')]. by pose proof (ro_writer _ _ _ _ _ R').
    + intros [= <-]. apply (writer_enter_orderly ch (-1) cs zo s (Ret None) p (WLast j)); try done; [right; split; [by exists j|done]|].
      destruct s; cbn in *; by subst.
    + intros [= <-]. by destruct (panic_not_running _ _ _ _ R').
Qed.

(** ** The other steps *)

(** The worker [c], not at a call before or after, keeps its pipe. *)
Lemma worker_moved c pc pc' s s' :
  as_worker s !! c = Some pc -> as_worker s' = <[c := pc']> (as_worker s) ->
  pc <> KGet -> (forall l z, pc <> KOut l z) -> (forall l, holds pc = Some l -> holds pc' = Some l) ->
  same_books (as_inPool s) (as_inPool s') -> same_books (as_outPool s) (as_outPool s') ->
  as_idx s' = as_idx s -> as_workPool s' = as_workPool s -> as_monitor s' = as_monitor s ->
  as_main s' = as_main s -> as_writer s' = as_writer s -> moved s s'.
Proof.
  intros Hc Hw H1 H2 H3 S1 S2 E1 E2 E3 E4 E5. split; try done; rewrite ?Hw.
  - intros c1 Hc1. rewrite lookup_insert_ne; [done|]. intros ->. congruence.
  - intros c1 l z Hc1. rewrite lookup_insert_ne; [done|]. intros ->. rewrite Hc in Hc1. injection Hc1 as ->. by eapply H2.
  - intros c1 pc1 l Hc1 Hl. destruct (decide (c1 = c)) as [->|Hne].
    + exists pc'. rewrite lookup_insert_eq. split; [done|]. apply H3. rewrite Hc in Hc1. by injection Hc1 as ->.
    + exists pc1. by rewrite lookup_insert_ne.
Qed.

Lemma encode_moved fuel c l z m s s' :
  as_worker s !! c = Some (KEncode l z m) -> worker_encode fuel c l z m s = Some s' -> as_crash s' = None -> moved s s'.
Proof.
  intros Hc. unfold worker_encode. destruct (pipe_of (as_inPool s) l) as [src|]; [|done]. cbn [mbind option_bind].
  destruct (pipe_of (as_outPool s) m) as [dst|]; [|done]. cbn [mbind option_bind]. destruct (bp_Closed src); [|done].
  destruct (with_pipes _ _ _ _) as [[[r err]|p|] [[dst' src'] w]]; intros [= <-]; [|done]. intros _.
  destruct r as [[u v]|]; by apply (worker_moved c (KEncode l z m) (KClose l m err)).
Qed.

Lemma worker_orderly ch fuel c cs zo s cs' zo' s' :
  running_ok cs zo s -> orderly s -> worker_step ch fuel c s = Some s' -> running_ok cs' zo' s' -> orderly s'.
Proof.
  intros R O H R'. pose proof (ro_crash _ _ _ _ _ R') as Hcr. destruct (ro_chan _ _ _ _ _ R) as (_ & _ & Hdone).
  destruct (as_worker s !! c) as [pc|] eqn:Hc; [|by unfold worker_step in H; rewrite Hc in H].
  destruct pc as [|l z|l z m|l m err|l|].
  - by apply (get_orderly ch fuel c cs zo s).
  - by apply (out_get_orderly ch fuel c l z cs zo s).
  - unfold worker_step in H. rewrite Hc in H. cbn [mbind option_bind] in H.
    apply (moved_orderly s); [done|by eapply encode_moved|apply R'|apply R'].
  - unfold worker_step in H. rewrite Hc in H. cbn [mbind option_bind] in H. injection H as <-.
    apply (moved_orderly s); [done|by apply (worker_moved c (KClose l m err) (KRestore l))|apply R'|apply R'].
  - by apply (restore_orderly ch fuel c l cs zo s).
  - unfold worker_step in H. rewrite Hc in H. cbn [mbind option_bind] in H.
    rewrite Hdone, (cr_killed _ (ro_crew _ _ _ _ _ R)) in H. cbn [orb] in H. rewrite bool_decide_eq_false_2 in H by set_solver.
    injection H as <-. apply (moved_orderly s); [done|by apply (worker_moved c KSelect KGet)|apply R'|apply R'].
Qed.

Lemma fail_orderly c e s s' : orderly s -> worker_fail c e s = Some s' -> core 0 (ib s') -> core 0 (ob s') -> orderly s'.
Proof.
  intros O H C1 C2. apply (moved_orderly s); [done| |done|done]. revert H. unfold worker_fail.
  destruct (as_worker s !! c) as [[|l z|l z m|l m err|l|]|] eqn:Hc; try done.
  destruct (pipe_of _ _) as [src|]; [|done]. cbn [mbind option_bind]. destruct (bp_Closed src); [done|]. intros [= <-].
  by apply (worker_moved c (KEncode l z m) (KClose l m (Some e))).
Qed.

(** The caller, not at a call before or after. *)
Lemma main_moved s s' :
  (forall d cnt todo, as_main s <> MGet d cnt todo) ->
  same_books (as_inPool s) (as_inPool s') -> as_outPool s' = as_outPool s -> as_idx s' = as_idx s ->
  as_workPool s' = as_workPool s -> as_monitor s' = as_monitor s -> as_worker s' = as_worker s ->
  as_writer s' = as_writer s -> moved s s'.
Proof.
  intros H1 H2 H3 H4 H5 H6 H7 H8. split; try done; rewrite ?H7; try done; [by rewrite H3|by intros d cnt todo Hm; apply H1 in Hm|].
  intros c pc l Hc Hl. by exists pc.
Qed.

Lemma drop_books s : same_books (as_inPool s) (as_inPool (drop_pipe s)) /\ as_outPool (drop_pipe s) = as_outPool s /\
  as_idx (drop_pipe s) = as_idx s /\ as_workPool (drop_pipe s) = as_workPool s /\ as_monitor (drop_pipe s) = as_monitor s /\
  as_worker (drop_pipe s) = as_worker s /\ as_writer (drop_pipe s) = as_writer s.
Proof. unfold drop_pipe. by destruct (as_pipe s). Qed.

Lemma main_orderly ch fuel cs zo s cs' zo' s' :
  running_ok cs zo s -> orderly s -> main_step ch fuel s = Some s' -> running_ok cs' zo' s' -> orderly s'.
Proof.
  intros R O H R'. revert H. unfold main_step. rewrite (no_error w0 data _ _ _ R).
  destruct (as_main s) as [[|d todo]|d cnt todo|d cnt todo|d cnt todo|cnt todo| | |err] eqn:Hm; try done.
  - destruct (w_closed (as_w s)); intros [= <-]; (apply (moved_orderly s); [done| |apply R'|apply R']); [apply main_moved; try done; congruence|].
    destruct (drop_books (set_w (set_closed (as_w s)) s)) as (D1 & D2 & D3 & D4 & D5 & D6 & D7).
    apply main_moved; try done. congruence.
  - destruct (w_closed (as_w s)); intros [= <-]; (apply (moved_orderly s); [done| |apply R'|apply R']); apply main_moved; try done; congruence.
  - intros H. apply (moved_orderly s); [done| |apply R'|apply R']. revert H. unfold write_loop.
    assert (Hno : forall d' cnt' todo', as_main s <> MGet d' cnt' todo') by congruence.
    destruct (cnt <? zlen d); [|destruct (cnt =? zlen d); intros [= <-]; by apply main_moved].
    destruct (as_pipe s) as [l|]; [|intros [= <-]; by apply main_moved].
    destruct (pipe_of _ _) as [q|]; [|done]. cbn [mbind option_bind]. destruct (zdrop d cnt) as [rest|]; [|done]. cbn [mbind option_bind].
    destruct (bp_Write q rest) as [[n err] q']. repeat case_decide; intros [= <-]; by apply main_moved.
  - by apply (write_get_orderly ch d cnt todo cs zo s).
  - intros [= <-]. apply (moved_orderly s); [done| |apply R'|apply R'].
    destruct (drop_books s) as (D1 & D2 & D3 & D4 & D5 & D6 & D7). apply main_moved; try done. congruence.
  - destruct (request ch RClose (as_inPool s)) as [o p] eqn:E0. intros [= <-]. by eapply close_orderly.
Qed.

Lemma end_orderly ch s s' : orderly s -> crew s -> end_step ch s = Some s' -> orderly s'.
Proof.
  intros O Hcr. unfold end_step. rewrite (cr_end _ Hcr). destruct (_ && _); [|done].
  change (as_outPool (set_workPool _ s)) with (as_outPool s).
  destruct (request ch RClose (as_outPool s)) as [o p] eqn:E0. intros [= <-].
  destruct (request_step (one_reader writer_tid) ch RClose (as_outPool s) o p I E0) as [Hst Hpend].
  pose proof O as [O1 [O2 O2'] O3 O4 O4' O5 O6 O7 O8 O9]. pose proof (one_step _ _ _ O2 O2' Hst) as Hsl.
  unfold request in E0. cbn [run_req] in E0. injection E0 as _ <-.
  apply (out_orderly writer_tid s); try done.
  - cbn. intros x Hx. exact (O4 _ _ Hx).
  - intros c pc l H1 H2. by exists c, pc.
  - destruct O8 as [S1 S2]. split; [|exact S2]. intros _. right. cbn. by rewrite (cr_end _ Hcr).
Qed.

Lemma spawn_orderly n rest wp' s :
  orderly s -> (forall c, c ∈ WorkerPool.running (as_workPool s) <-> is_Some (as_worker s !! c)) ->
  as_monitor s = NWork n :: rest -> (WorkerPool.setCapacity (WorkerPool.turns n (as_workPool s)) n (as_workPool s)).2 = wp' ->
  zlen (workers wp') = n ->
  orderly (set_worker (spawned_at (as_workPool s) wp' (as_worker s)) (set_workPool wp' (set_monitor rest s))).
Proof.
  intros O Hr Hm Hwp Hn. pose proof O as [O1 O2 O3 O4 O4' O5 O6 O7 O8 O9]. rewrite Hm in O7.
  assert (Hold : forall c pc, as_worker s !! c = Some pc -> spawned_at (as_workPool s) wp' (as_worker s) !! c = Some pc).
  { intros c pc Hc. unfold spawned_at. rewrite lookup_union_r; [done|]. apply lookup_gset_to_gmap_None.
    intros [_ H]%elem_of_difference. apply H, Hr. by eexists. }
  split; try done.
  - intros t x Hx. destruct (O3 t x Hx) as [H|(c & H1 & H2 & H3)]; [by left|]. right. exists c. split_and!; try done. by apply Hold.
  - intros t x Hx. destruct (O4 t x Hx) as [H|(c & l & z & k & H1 & H2 & H3)]; [by left|]. right. exists c, l, z, k.
    split_and!; try done; [by apply Hold|apply H3..].
  - by destruct O5.
  - intros k l Hk. destruct (O6 k l Hk) as (c & pc & H1 & H2). exists c, pc. split; [by apply Hold|done].
  - cbn. by rewrite Hn.
  - cbn. rewrite <- Hwp. by apply setCapacity_started.
  - cbn. rewrite <- Hwp, setCapacity_ended. exact O9.
Qed.

Lemma monitor_orderly ch cs zo s s' :
  running_ok cs zo s -> orderly s -> monitor_step ch s = Some s' -> orderly s'.
Proof.
  intros R O. pose proof (ro_crew _ _ _ _ _ R) as [C1 C2 C3 C4 C5 C6 C7 C8 C9].
  unfold monitor_step. destruct (as_monitor s) as [|op rest] eqn:Hm; [done|].
  destruct op as [n|n|n| | | |]; cbn [monitor_op]; try (by destruct C7).
  - change (as_inPool (set_monitor rest s)) with (as_inPool s).
    destruct (request ch (RSetCapacity n) (as_inPool s)) as [o p] eqn:E0. intros [= <-]. by eapply capacity_orderly.
  - change (as_outPool (set_monitor rest s)) with (as_outPool s).
    destruct (request ch (RSetCapacity n) (as_outPool s)) as [o p] eqn:E0. intros [= <-].
    destruct (request_step (one_reader writer_tid) ch (RSetCapacity n) (as_outPool s) o p I E0) as [Hst Hpend].
    pose proof O as [O1 [O2 O2'] O3 O4 O4' O5 O6 O7 O8 O9]. pose proof (one_step _ _ _ O2 O2' Hst) as Hsl.
    rewrite Hm in O7. unfold request in E0. cbn [run_req] in E0. injection E0 as _ <-.
    apply (out_orderly writer_tid s); try done.
    + cbn. intros x Hx. exact (O4 _ _ Hx).
    + intros c pc l H1 H2. by exists c, pc.
  - change (as_workPool (set_monitor rest s)) with (as_workPool s). pose proof C7 as (G1 & G2 & _).
    destruct (turns_ok n (as_workPool s) ltac:(lia)) as [T1 T2].
    destruct (setCapacity_run _ _ n C1 C5 ltac:(lia) T1 T2) as (wp' & new & E0 & _ & _ & Hn & _).
    rewrite E0. intros [= <-]. apply (spawn_orderly n rest); try done. by rewrite E0.
  - destruct (ro_chan _ _ _ _ _ R) as (_ & _ & Hd). change (as_doneChan (set_monitor rest s)) with (as_doneChan s).
    by rewrite Hd.
Qed.

Lemma orderly_step cs zo s cs' zo' s' :
  running_ok cs zo s -> orderly s -> astep s s' -> running_ok cs' zo' s' -> orderly s'.
Proof.
  intros R O [lab H] R'. unfold exec in H. rewrite (ro_crash _ _ _ _ _ R) in H.
  destruct lab as [ch fuel|ch fuel c|c e|ch|ch|ch].
  - by apply (main_orderly ch fuel cs zo s cs' zo').
  - by apply (worker_orderly ch fuel c cs zo s cs' zo').
  - eapply fail_orderly; [done|done|apply R'|apply R'].
  - eapply end_orderly; [done|apply R|done].
  - by apply (writer_get_orderly ch cs zo s cs' zo').
  - by apply (monitor_orderly ch cs zo s).
Qed.

End live.
