(* ===== verification/AsyncAwake.v ===== *)
(** The asynchronous writer: while the writing goroutine runs, not everybody can
    sleep. If the caller, the monitor and the workers all wait, then the block
    that the writer waits for is on its way in somebody's hands. *)

From S2P Require Import Prelude Bufpipe Pool PoolInv PoolWait PoolView PoolThms PoolRoom WorkerPool Lines Errs Liblzma SmallLzma Lib XzConst.
From S2P Require Import Literal World LibIndex Stream StreamPump PipePump Ioutil PipeClose Writer WriterBlock.
From S2P Require Import WriterSync WriterNew WriterSession AsyncWriter AsyncInv AsyncFlow AsyncMain AsyncWorkers AsyncMonitor AsyncOut AsyncLive.

(** * Counting *)

(** No more of [xs] than entries of [m], when each has one of its own. *)
Lemma pigeon {A B} `{Countable K} (P : A -> K -> Prop) (m : gmap K B) xs :
  NoDup xs -> (forall x, x ∈ xs -> exists i, is_Some (m !! i) /\ P x i) ->
  (forall x y i, P x i -> P y i -> x = y) -> (length xs <= size m)%nat.
Proof.
  intros Hnd Hin Hinj. revert m Hin. induction Hnd as [|x xs Hx _ IH]; intros m Hin; [apply Nat.le_0_l|].
  destruct (Hin x) as (k & Hk & Pk); [left|]. cbn [length].
  assert (HS : size m = S (size (delete k m))) by (rewrite map_size_delete_Some by done; assert (size m <> 0%nat) by (intros E0; apply map_size_empty_inv in E0; rewrite E0 in Hk; by destruct Hk); lia).
  rewrite HS. apply le_n_S, IH. intros y Hy. destruct (Hin y) as (k' & Hk' & Pk'); [by right|]. exists k'.
  split; [|done]. rewrite lookup_delete_ne; [done|]. intros ->. by rewrite (Hinj x y k' Pk Pk') in Hx.
Qed.

Section awake.
Context {BP : Bufpipe} {BC : BufpipeClose BP} {L : Liblzma} {E : Errs} {IU : Ioutil} {W : Type} {IW : IoWriter W}.
Context {BS : BufpipeSpec BP} {LS : LiblzmaSpec L} {ES : ErrsSpec E} {LI : LiblzmaIdle L} {BCS : BufpipeCloseSpec BP BC}.
Context (w0 : Writer W) (data : list Z).
Context (Hsz : sized w0) (Hin : w_inSize w0 = w_chunkSize w0) (Hout : w_outSize w0 = w_maxSize w0).
Context (Him : w_inMode w0 = LineDual) (Hom : w_outMode w0 = LineMono).
Implicit Types (s : async W) (k : Z) (l m z : loc) (c : chan).

#[local] Abbreviation running_ok := (running_ok w0 data).
#[local] Abbreviation orderly := (orderly w0).

Lemma write_loop_goes d cnt todo s :
  (forall l, as_pipe s = Some l -> is_Some (heap (ib s) !! l)) -> 0 <= cnt <= zlen d -> write_loop d cnt todo s <> None.
Proof.
  intros Hp Hc. unfold write_loop. destruct (Z.ltb_spec cnt (zlen d)); [|by destruct (cnt =? zlen d)].
  destruct (as_pipe s) as [l|]; [|done]. destruct (Hp l eq_refl) as [q Hq]. unfold pipe_of.
  change (base (as_inPool s)) with (ib s). rewrite Hq. cbn [fmap option_fmap option_map mbind option_bind].
  unfold zdrop. rewrite (proj2 (Z.leb_le _ _)), (proj2 (Z.leb_le _ _)) by lia. cbn [andb mbind option_bind].
  destruct (bp_Write _ _) as [[n err] p']. by repeat case_decide.
Qed.

(** * Nobody can run

    With one choice of the run-time system, and the fuel for a block. *)
Definition ch0 : choice := Choice 0 0.

Record stuck s : Prop := {
  su_main : main_step ch0 0 s = None;
  su_monitor : monitor_step ch0 s = None;
  su_writer : writer_step ch0 s = None;
  su_end : end_step ch0 s = None;
  su_worker c : worker_step ch0 (block_fuel w0) c s = None;
}.

Section stuck.
Context cs zo s (R : running_ok cs zo s) (O : orderly s) (S : stuck s) (Hnd : forall err, as_main s <> MDone err).

(** ** The monitor waits for the end *)

Lemma monitor_waits : exists rest, as_monitor s = NWait :: rest.
Proof.
  pose proof (ro_crew _ _ _ _ _ R) as [C1 C2 C3 C4 C5 C6 C7 C8 C9]. pose proof (su_monitor _ S) as H. unfold monitor_step in H.
  destruct (as_monitor s) as [|op rest]; [done|]. destruct op as [n|n|n| | | |]; try (by destruct C7); cbn [monitor_op] in H.
  - by destruct (request _ _ _).
  - by destruct (request _ _ _).
  - change (as_workPool (set_monitor rest s)) with (as_workPool s) in H. pose proof C7 as (G1 & G2 & _).
    destruct (turns_ok n (as_workPool s) ltac:(lia)) as [T1 T2].
    destruct (setCapacity_run _ _ n C1 C5 ltac:(lia) T1 T2) as (wp' & new & E0 & _). by rewrite E0 in H.
  - by exists rest.
Qed.

Lemma fully_staffed : cap (pp (ib s)) = zlen (workers (as_workPool s)) /\ 1 <= cap (pp (ib s)).
Proof. destruct monitor_waits as [rest Hm]. pose proof (od_staff _ _ O) as H. rewrite Hm in H. destruct H. lia. Qed.

(** ** The caller waits *)

Lemma request_fuel {D} ch r (p : @psys BP D) l : core 0 (base p) -> r = RRestore (Some l) ->
  (forall l', Pool.entries (active (pp (base p))) !! idx_of (heap (base p)) l = Some l' -> l' = l) ->
  (request ch r p).1 <> NoFuel.
Proof.
  intros C -> Hown. destruct (request ch (RRestore (Some l)) p) as [o p'] eqn:E0.
  destruct (request_restore ch l _ _ _ C Hown E0) as [_ H]. by destruct o.
Qed.

Lemma write_loop_runs d cnt todo : as_main s = MLoop d cnt todo -> write_loop d cnt todo s <> None.
Proof.
  intros Hm. destruct (ro_main _ _ _ _ _ R) as (M1 & M2 & _). rewrite Hm in M1, M2. destruct (M1 _ eq_refl) as (_ & _ & Hcut).
  apply write_loop_goes; [|apply M2]. intros l Hl. unfold cut_ok in Hcut. rewrite Hl in Hcut.
  destruct Hcut as [(q & cl & r & bs & Hq & _) _]. by eexists.
Qed.

Lemma caller_waits :
  (pending (as_inPool s) !! main_tid = Some (CWriter (as_idx s) (w_chunkSize w0) LineDual None) /\
   main_tid ∉ woken (wrCond (pp (ib s))) /\ as_pipe s = None) \/
  (as_main s = MWait /\ as_pipe s = None) \/
  exists l, as_pipe s = Some l /\ pipe_ok w0 cs s true l.
Proof.
  pose proof (su_main _ S) as H. destruct (ro_main _ _ _ _ _ R) as (_ & M2 & _). unfold main_step in H.
  destruct (as_main s) as [[|d todo]|d cnt todo|d cnt todo|d cnt todo|cnt todo| | |err] eqn:Hm.
  - by destruct (w_closed _).
  - by destruct (w_closed _).
  - by destruct (write_loop_runs d cnt todo Hm).
  - left. unfold write_get in H. destruct (kept_sizes w0 Hin Him _ (ro_kept _ _ _ _ _ R)) as [Hs1 Hs2]. rewrite Hs1, Hs2 in H.
    destruct (enter _ _ _ _) as [[o p]|] eqn:E0.
    + destruct (enter_writer _ _ _ _ _ _ _ _ _ (ro_in _ _ _ _ _ R) E0) as [_ Ho]. cbn [mbind option_bind] in H.
      by destruct o as [[[l|]|]|q|].
    + apply enter_asleep in E0 as [H1 H2]; [by destruct M2|]. intros c' Hc'. by apply (main_call w0 s c' O Hc').
  - done.
  - right; right. exact M2.
  - by destruct (request _ _ _).
  - right; left. split; [done|]. apply M2.
  - by destruct (Hnd err).
Qed.

(** No chunk is open. *)
Lemma lines_closed k l : in_line w0 cs s k l ->
  exists q, heap (ib s) !! l = Some q /\ bp_Closed (p_buf q) = true.
Proof.
  intros (q & chunk & cl & Hq & _ & Hln & Hcl). exists q. split; [done|]. destruct cl; [apply Hln|].
  destruct Hcl as [Hp _]. destruct caller_waits as [(_ & _ & Hn)|[[_ Hn]|(l' & Hp' & Hok)]]; [congruence|congruence|].
  rewrite Hp in Hp'. injection Hp' as <-. destruct Hok as (q' & cl & r & bs & Hq' & _ & Hl' & _ & Hc).
  rewrite Hq in Hq'. injection Hq' as <-. rewrite (Hc eq_refl) in Hl'. apply Hl'.
Qed.

(** ** The workers wait *)

Lemma workers_wait c pc : as_worker s !! c = Some pc ->
  (pc = KGet /\ pending (as_inPool s) !! worker_tid c = Some (CReader (-1)) /\ worker_tid c ∉ woken (rdCond (pp (ib s)))) \/
  (exists l z k, pc = KOut l z /\ in_active s k = Some l /\ past s <= k < as_idx s /\ got w0 cs zo s k l z /\
     pending (as_outPool s) !! worker_tid c = Some (CWriter k (w_maxSize w0) LineMono (Some z)) /\
     worker_tid c ∉ woken (wrCond (pp (ob s)))).
Proof.
  intros Hc. pose proof (su_worker _ S c) as H. unfold worker_step in H. rewrite Hc in H. cbn [mbind option_bind] in H.
  pose proof (bk_workers _ _ _ _ (ro_blocks _ _ _ _ _ R) c pc Hc) as Hok.
  destruct pc as [|l z|l z m|l m err|l|].
  - left. split; [done|]. destruct (enter _ _ _ _) as [[o p]|] eqn:E0.
    + destruct (enter_reader _ _ _ _ _ _ (ro_in _ _ _ _ _ R) E0) as [_ Ho]. cbn [mbind option_bind] in H.
      by destruct o as [[[l|]|]|q|].
    + apply enter_asleep in E0 as [H1 H2]; [done|]. intros c' Hc'. by apply (getter_call w0 s c c' O Hc').
  - right. destruct Hok as (k & Hk & Hgot). pose proof Hgot as (Hact & _). exists l, z, k.
    change (heap (base (as_inPool s))) with (heap (ib s)) in H.
    rewrite (core_idx_of 0 _ SActive k l (ro_in _ _ _ _ _ R) Hact) in H.
    destruct (kept_pools w0 Hout Hom _ (ro_kept _ _ _ _ _ R)) as [Hp1 Hp2]. rewrite Hp1, Hp2 in H.
    destruct (enter _ _ _ _) as [[o p]|] eqn:E0.
    + destruct (enter_writer _ _ _ _ _ _ _ _ _ (ro_out _ _ _ _ _ R) E0) as [_ Ho]. cbn [mbind option_bind] in H.
      by destruct o as [[[m|]|]|q|].
    + apply enter_asleep in E0 as [H1 H2]; [done|]. intros c' Hc'.
      destruct (putter_call w0 s c c' O Hc') as (l' & z' & k' & H1 & H2 & ->). rewrite Hc in H1. injection H1 as <- <-.
      by rewrite (active_once s k k' l (ro_in _ _ _ _ _ R) Hact H2).
  - destruct Hok as (k & Hk & Hact & Hline & Hz & Hsl & q2 & Hq2 & Hd2 & Hln2).
    destruct Hline as (q & chunk & cl & Hq & Hch & Hln & Hcl).
    destruct (lines_closed k l) as (q' & Hq' & Hclosed); [by exists q, chunk, cl|]. rewrite Hq in Hq'. injection Hq' as <-.
    unfold worker_encode, pipe_of in H. change (base (as_inPool s)) with (ib s) in H. change (base (as_outPool s)) with (ob s) in H.
    rewrite Hq, Hq2 in H. cbn [fmap option_fmap option_map mbind option_bind] in H. rewrite Hclosed in H.
    assert (cl = true) as -> by (rewrite (ln_closed _ _ _ _ _ Hln) in Hclosed; done).
    pose proof (with_pipes_run w0 Hsz (block_fuel w0) (p_buf q2) (p_buf q) (as_w s) true chunk (ro_kept _ _ _ _ _ R) Hln2 eq_refl Hln) as Ho.
    destruct (with_pipes _ _ _ _) as [[[r err]|p|] [[dst src] w]]; [done|done|]. cbn in Ho. lia.
  - done.
  - destruct Hok as (k & Hact). pose proof (request_fuel ch0 (RRestore (Some l)) (as_inPool s) l (ro_in _ _ _ _ _ R) eq_refl) as Hf.
    destruct (request ch0 (RRestore (Some l)) (as_inPool s)) as [[u|q|] p]; [done|done|]. destruct Hf; [|done].
    change (heap (base (as_inPool s))) with (heap (ib s)). rewrite (core_idx_of 0 _ SActive k l (ro_in _ _ _ _ _ R) Hact).
    intros l' Hl'. unfold in_active, ib in Hact. congruence.
  - by destruct (_ || _).
Qed.

(** ** The writer waits for the next block *)

Lemma writer_waits : exists j, as_writer s = WGet j /\ 0 <= j /\
  closed (pp (ob s)) = false /\ out_ready s j = None /\ waitIdx (pp (ob s)) = j.
Proof.
  pose proof (su_writer _ S) as H. pose proof (ro_writer _ _ _ _ _ R) as V. unfold writer_step in H. unfold writer_ok in V.
  pose proof (ro_out _ _ _ _ _ R) as C. destruct (od_out _ _ O) as [P N].
  pose proof (bk_past _ _ _ _ (ro_blocks _ _ _ _ _ R)) as Hp. unfold past in Hp.
  destruct (as_writer s) as [j|j m|j m wrErr|j m wrErr ixErr|j|e| | |] eqn:Hpc; try done.
  - destruct (enter _ _ _ _) as [[o p]|] eqn:E0.
    { destruct (enter_reader _ _ _ _ _ _ C E0) as [_ Ho]. cbn [mbind option_bind] in H. by destruct o as [[[l|]|]|q|]. }
    apply enter_asleep in E0 as [H1 H2].
    2: { intros x Hx. destruct (writer_call w0 s x O Hx) as [(i & Hi & ->)|(i & Hi & ->)]; congruence. }
    destruct (one_asleep writer_tid j _ P N H1 H2) as [Hcl Hrd]. exists j. split; [done|]. split; [lia|]. split; [done|].
    split; [|apply (od_waitidx _ _ O j); [done|lia]]. unfold rd_wait in Hrd. rewrite (proj2 (Z.leb_le _ _)) in Hrd by lia.
    by apply bool_decide_eq_true in Hrd.
  - destruct V as (_ & Hr & Ha). pose proof (slot_of_write s j m Hpc Hr) as Hsl.
    destruct (bk_slot _ _ _ _ (ro_blocks _ _ _ _ _ R) _ _ Hsl) as [_ [(c & l & z & Hc & _)|[(c & l & err & Hc & _)|Hf]]].
    + by destruct (workers_wait c _ Hc) as [[? _]|(? & ? & ? & ? & _)].
    + by destruct (workers_wait c _ Hc) as [[? _]|(? & ? & ? & ? & _)].
    + assert (exists q, heap (ob s) !! m = Some q /\ bp_Closed (p_buf q) = true) as (q & Hq & Hcl).
      { destruct Hf as [_ [(q & Hq & Hcl & _)|(bytes & u & v & q & z & Hq & _ & _ & _ & Hln & _)]]; exists q; (split; [done|]); [done|apply Hln]. }
      unfold pipe_of in H. change (base (as_outPool s)) with (ob s) in H. rewrite Hq in H.
      cbn [fmap option_fmap option_map mbind option_bind] in H. rewrite Hcl in H. by destruct (bp_WriteTo _ _) as [[n err] [p' wr]].
  - destruct V as (Ha & _). pose proof (request_fuel ch0 (RRestore (Some m)) (as_outPool s) m C eq_refl) as Hf.
    destruct (request ch0 (RRestore (Some m)) (as_outPool s)) as [[u|q|] p]; [|done|].
    + rewrite Panic_spec in H. by destruct (errs_First _).
    + destruct Hf; [|done]. change (heap (base (as_outPool s))) with (heap (ob s)). rewrite (core_idx_of 0 _ SActive _ m C Ha).
      intros l' Hl'. unfold out_active, ob in Ha. congruence.
  - destruct (enter _ _ _ _) as [[o p]|] eqn:E0.
    { destruct (enter_reader _ _ _ _ _ _ C E0) as [_ Ho]. cbn [mbind option_bind] in H.
      assert (HA : forall b e, errs_Assert b e <> NoFuel) by (intros [] e; rewrite ?Assert_true, ?Assert_false; done).
      destruct o as [[r|]|q|]; [|done|done|done]. pose proof (HA (bool_decide (r = None)) (Some dataError)).
      by destruct (errs_Assert _ _). }
    apply enter_asleep in E0 as [H1 H2].
    2: { intros x Hx. destruct (writer_call w0 s x O Hx) as [(i & Hi & ->)|(i & Hi & ->)]; congruence. }
    destruct (one_asleep writer_tid (-1) _ P N H1 H2) as [Hcl _]. destruct V. unfold ob in *. congruence.
Qed.

(** ** Somebody can run *)

(** A worker that is at [KGet] sleeps there: the input pool is open and holds no
    chunk that nobody reads. *)
Lemma getter_asleep c : as_worker s !! c = Some KGet ->
  closed (pp (ib s)) = false /\ forall k, in_ready s k = None.
Proof.
  intros Hc. destruct (workers_wait c _ Hc) as [(_ & Hp & Hw)|(l & z & k & ? & _)]; [|done].
  destruct (od_in _ _ O) as [P N]. destruct (any_asleep _ _ _ P N Hp Hw) as [Hcl Hlen]. split; [done|]. intros k.
  destruct (in_ready s k) as [l|] eqn:Hk; [|done]. exfalso.
  assert (Hne : woken (rdCond (pp (ib s))) <> []).
  { intros E0. unfold ib in E0. rewrite E0, zlen_nil in Hlen. unfold set_size in Hlen.
    assert (E1 : size (Pool.entries (ready (pp (base (as_inPool s))))) = 0%nat) by lia.
    apply map_size_empty_inv in E1. unfold in_ready, ib in Hk. by rewrite E1 in Hk. }
  destruct (woken_caller false _ P Hne) as (t & x & Hx & Hr & Hwk).
  destruct (od_incall _ _ O _ _ Hx) as [(_ & _ & ->)|(c' & -> & Hc' & ->)]; [done|].
  destruct (workers_wait c' _ Hc') as [(_ & _ & Hw')|(l' & z' & k' & ? & _)]; done.
Qed.

(** With a chunk in the queue each worker has a pipe, and then there are more pipes
    than the pool may have. *)
Lemma queue_empty k : in_ready s k = None.
Proof.
  destruct (in_ready s k) as [l|] eqn:Hk; [|done]. exfalso.
  pose proof (ro_crew _ _ _ _ _ R) as [C1 C2 C3 C4 C5 C6 C7 C8 C9]. destruct fully_staffed as [F1 F2].
  destruct (od_stock _ _ O) as [K1 K2 K3 K4].
  assert (Hbusy : zlen (workers (as_workPool s)) <= set_size (active (pp (ib s)))).
  { unfold zlen, set_size. apply inj_le.
    apply (pigeon (fun c k => exists l z, as_worker s !! c = Some (KOut l z) /\ in_active s k = Some l)); [apply C1|..].
    - intros c Hc. destruct (as_worker s !! c) as [pc|] eqn:Hpc.
      + destruct (workers_wait c pc Hpc) as [(-> & _)|(l' & z & k' & -> & Ha & _)].
        * destruct (getter_asleep c Hpc) as [_ Hnone]. by rewrite Hnone in Hk.
        * exists k'. split; [by eexists|]. by exists l', z.
      + destruct (C8 c (wi_workers _ C1 c Hc) Hpc) as [_ Hnone]. by rewrite Hnone in Hk.
    - intros c c' k' (l1 & z1 & Hc1 & Ha1) (l2 & z2 & Hc2 & Ha2). rewrite Ha1 in Ha2. injection Ha2 as <-.
      by eapply (bk_holds _ _ _ _ (ro_blocks _ _ _ _ _ R)). }
  assert (Hone : 1 <= set_size (ready (pp (ib s)))).
  { unfold set_size. destruct (size _) eqn:E0; [|lia]. apply map_size_empty_inv in E0. unfold in_ready in Hk.
    by rewrite E0 in Hk. }
  unfold exact, total_size in K1. pose proof (Nat2Z.is_nonneg (size (Pool.entries (free (pp (ib s)))))). unfold set_size in *. lia.
Qed.

(** The writer is not behind. *)
Lemma all_written j : as_writer s = WGet j -> out_ready s j = None ->
  waitIdx (pp (ob s)) = j -> j = as_idx s.
Proof.
  intros Hw Hr Hj. pose proof (ro_blocks _ _ _ _ _ R) as B. pose proof (bk_past _ _ _ _ B) as Hp.
  assert (Hpast : past s = j) by (unfold past; by rewrite Hw). destruct (decide (j = as_idx s)) as [|Hne]; [done|]. exfalso.
  assert (Hk : past s <= j < as_idx s) by lia. destruct (od_out _ _ O) as [P _].
  destruct (bk_live _ _ _ _ B j Hk) as [(l & Hq & _)|[(c & l & z & Hc & Hgot)|(m & Hs)]].
  - by rewrite queue_empty in Hq.
  - destruct (workers_wait c _ Hc) as [(? & _)|(l' & z' & k' & [= <- <-] & Ha & _ & _ & Hx & Hn)]; [done|].
    destruct (writer_asleep _ _ _ _ _ _ P Hx Hn) as (_ & Hi & _). apply Hi.
    rewrite (active_once s k' j l (ro_in _ _ _ _ _ R) Ha); [done|apply Hgot].
  - destruct Hs as [(c & l & z & Hc & _)|[(c & l & err & Hc & _)|[Hs _]]].
    + by destruct (workers_wait c _ Hc) as [(? & _)|(? & ? & ? & ? & _)].
    + by destruct (workers_wait c _ Hc) as [(? & _)|(? & ? & ? & ? & _)].
    + unfold slot in Hs. rewrite Hr, Hw in Hs. done.
Qed.

(** Then no worker has a pipe. *)
Lemma all_idle : past s = as_idx s ->
  (forall c pc, as_worker s !! c = Some pc -> pc = KGet) /\ forall k, in_active s k = None.
Proof.
  intros Hp. assert (Hw : forall c pc, as_worker s !! c = Some pc -> pc = KGet).
  { intros c pc Hc. destruct (workers_wait c pc Hc) as [(-> & _)|(l & z & k & _ & _ & Hk & _)]; [done|lia]. }
  split; [done|]. intros k. destruct (in_active s k) as [l|] eqn:Ha; [|done].
  destruct (od_held _ _ O k l Ha) as (c & pc & Hc & Hh). by rewrite (Hw c pc Hc) in Hh.
Qed.


Lemma not_stuck : False.
Proof.
  destruct writer_waits as (j & Hw & Hj & Hopen & Hr & Hwi). pose proof (all_written j Hw Hr Hwi) as Hidx.
  assert (Hpast : past s = as_idx s) by (unfold past; by rewrite Hw, Hidx). destruct (all_idle Hpast) as [Hidle Hnone].
  pose proof (ro_crew _ _ _ _ _ R) as [C1 C2 C3 C4 C5 C6 C7 C8 C9]. destruct fully_staffed as [F1 F2].
  destruct (od_in _ _ O) as [P _]. destruct caller_waits as [(Hp & Hwk & _)|[[Hm _]|(l & Hp & _)]].
  - destruct (writer_asleep _ _ _ _ _ _ P Hp Hwk) as (_ & _ & Hb). change (base (as_inPool s)) with (ib s) in Hb.
    assert (Hwn : woken (wrCond (pp (ib s))) = []).
    { apply dec_stable. intros Hne. destruct (woken_caller true _ P Hne) as (t & x & Hx & Hxw & Hin').
      by destruct (od_incall _ _ O _ _ Hx) as [(-> & _ & ->)|(c' & _ & _ & ->)]. }
    rewrite Hwn, zlen_nil in Hb. destruct (od_stock _ _ O) as [K1 K2 K3 K4]. unfold exact, total_size in K1.
    assert (Hra : set_size (ready (pp (ib s))) = 0) by (apply set_size_zero, map_empty, queue_empty).
    assert (Haa : set_size (active (pp (ib s))) = 0) by (apply set_size_zero, map_empty, Hnone).
    unfold budget, set_size in *. lia.
  - assert (Hcl : closed (pp (ib s)) = true) by (by apply (ro_main _ _ _ _ _ R)).
    assert (Hno : forall c, as_worker s !! c = None).
    { intros c. destruct (as_worker s !! c) as [pc|] eqn:Hc; [|done]. pose proof (Hidle c pc Hc) as ->.
      destruct (getter_asleep c Hc) as [H _]. congruence. }
    assert (Hg : group (as_workPool s) = 0).
    { rewrite (wi_group _ C1). assert (E0 : WorkerPool.running (as_workPool s) = ∅); [|by rewrite E0].
      apply set_eq. intros c. rewrite C3, Hno. split; [by intros []|intros H; by apply elem_of_empty in H]. }
    destruct (od_started _ _ O) as [S1 S2]. pose proof (su_end _ S) as H. unfold end_step in H. rewrite C2, Hg in H.
    destruct S1 as [S1|S1].
    + apply S2. intros E0. rewrite E0, zlen_nil in F1. lia.
    + by rewrite S1 in H.
    + pose proof (od_ended _ _ O S1). congruence.
  - pose proof (ro_writer _ _ _ _ _ R) as V. unfold writer_ok in V. rewrite Hw in V. destruct V as (ks & Hks & V).
    destruct (wn_sealed _ _ _ _ V) as [H|H]; [congruence|lia].
Qed.

End stuck.
End awake.
