(* ===== verification/AsyncEnd.v ===== *)
(** The asynchronous writer: what a goroutine's step leaves alone whatever the
    state, and the two ways in which a session ends. *)

From S2P Require Import Prelude Bufpipe Pool PoolInv PoolView WorkerPool Lines Errs Liblzma SmallLzma Lib XzConst.
From S2P Require Import Literal World LibIndex Stream StreamPump PipePump Ioutil PipeClose Writer WriterBlock.
From S2P Require Import WriterSync WriterNew WriterSession AsyncWriter AsyncInv AsyncFlow AsyncMain AsyncWorkers AsyncMonitor AsyncOut.

(** * Computations that keep a part of the state *)

Definition stays {S A B} (f : S -> B) (m : M S A) : Prop := forall s, f (m s).2 = f s.

Section stays.
Context {S B : Type} (f : S -> B).

Lemma stays_mret {A} (a : A) : stays f (mret a).
Proof. done. Qed.

Lemma stays_call {A} (o : outcome A) : stays f (Prelude.call o).
Proof. done. Qed.

Lemma stays_panic {A} p : stays f (panic p : M S A).
Proof. done. Qed.

Lemma stays_get : stays f get.
Proof. done. Qed.

Lemma stays_bind {A C} (m : M S A) (k : A -> M S C) : stays f m -> (forall a, stays f (k a)) -> stays f (m ≫= k).
Proof.
  intros Hm Hk s. rewrite bind_run. pose proof (Hm s) as H. destruct (m s) as [[a|p|] s1]; cbn in *; [|done|done].
  by rewrite (Hk a s1).
Qed.

Lemma stays_defer {A} d (m : M S A) : stays f d -> stays f m -> stays f (with_defer d m).
Proof.
  intros Hd Hm s. unfold with_defer. pose proof (Hm s) as H. destruct (m s) as [[a|p|] s1]; cbn in *; [| |done];
    pose proof (Hd s1) as H'; destruct (d s1) as [[u|p'|] s2]; cbn in *; congruence.
Qed.

Lemma stays_recover {A} {E : Errs} named (m : M S (A * error)) : stays f m -> stays f (with_recover named m).
Proof.
  intros Hm s. unfold with_recover. pose proof (Hm s) as H. destruct (m s) as [[r|p|] s1]; cbn in *; [done| |done].
  by destruct (errs_Recover p None).
Qed.

Lemma stays_index_or {A} (o : option A) : stays f (index_or o).
Proof. by destruct o. Qed.

End stays.

#[export] Hint Resolve stays_mret stays_call stays_panic stays_get stays_bind stays_defer stays_recover stays_index_or : stays.

Section ending.
Context {BP : Bufpipe} {BC : BufpipeClose BP} {L : Liblzma} {E : Errs} {IU : Ioutil} {W : Type} {IW : IoWriter W}.

(** The fields of the object that the caller relies on. *)
Definition fields (w : Writer W) : bool * Z * Z := (w_closed w, w_inSize w, w_inMode w).

Lemma stays_on_world {A} (m : M world A) : stays fields (on_world m : M (Writer W) A).
Proof. intros w. unfold on_world, zoom. by destruct (m (w_world w)). Qed.

(** The same with a local stream. *)
Definition sw_fields (x : option Stream * Writer W) : bool * Z * Z := fields x.2.

Lemma stays_pipe fuel act d r : stays sw_fields (stream_ProcessPipe fuel act d r).
Proof. intros [[z|] w]; [|done]. cbn. by destruct (ProcessPipe fuel act d r (z, w_world w)) as [o [z' wd]]. Qed.

Lemma stays_stream_End : stays sw_fields (stream_End (W:=W)).
Proof. by intros [[z|] w]. Qed.

Lemma stays_on_writer {A} (m : M (Writer W) A) : stays fields m -> stays sw_fields (on_writer m).
Proof. intros H [z w]. unfold on_writer. pose proof (H w). by destruct (m w). Qed.

Lemma stays_with_stream {A} z (m : M (sw (W:=W)) A) : stays sw_fields m -> stays fields (with_stream z m).
Proof. intros H w. unfold with_stream. pose proof (H (z, w)) as Hw. destruct (m (z, w)) as [r [z' w']]. exact Hw. Qed.

Lemma stays_on_stream {A} (m : M (sw (W:=W)) A) : stays sw_fields m -> stays fields (on_stream m).
Proof. intros H w. unfold on_stream. pose proof (H (w_stream w, w)) as Hw. destruct (m (w_stream w, w)) as [r [z' w']]. exact Hw. Qed.

#[local] Hint Resolve stays_on_world stays_pipe stays_stream_End stays_on_writer stays_with_stream stays_on_stream : stays.

Ltac stay := repeat first
  [ progress intros
  | match goal with |- context [let '(_, _) := ?x in _] => destruct x end
  | match goal with |- context [if ?b then _ else _] => destruct b end
  | solve [eauto 2 with stays nocore]
  | apply stays_bind | apply stays_defer | apply stays_recover
  | apply stays_with_stream | apply stays_on_stream | apply stays_on_writer ].

Lemma encode_body_fields fuel d r : stays fields (encode_body fuel d r : M (Writer W) _).
Proof. unfold encode_body, blockEncode, blockInit, encode_stream, encode_literal, encode_header. stay. Qed.

(** * The other goroutines *)

(** A step of another goroutine, as the caller sees it. *)
Record bystander (s s' : async W) : Prop := {
  by_main : as_main s' = as_main s;
  by_fields : fields (as_w s') = fields (as_w s);
  by_error : errored s -> errored s';
}.

Lemma with_pipes_fields fuel dst src (w : Writer W) : fields (with_pipes dst src (encode_body fuel) w).2.2 = fields w.
Proof.
  unfold with_pipes. set (w1 := set_wr_world _ _ w).
  pose proof (encode_body_fields fuel (Some 1%positive) (Some 2%positive) w1) as H.
  destruct (encode_body fuel _ _ w1) as [o w']. exact H.
Qed.

Lemma encode_by fuel c l z m (s s' : async W) : worker_encode fuel c l z m s = Some s' -> bystander s s'.
Proof.
  unfold worker_encode. destruct (pipe_of (as_inPool s) l) as [src|]; [|done]. cbn [mbind option_bind].
  destruct (pipe_of (as_outPool s) m) as [dst|]; [|done]. cbn [mbind option_bind]. destruct (bp_Closed src); [|done].
  pose proof (with_pipes_fields fuel dst src (as_w s)) as Hw.
  destruct (with_pipes _ _ _ _) as [[[[[u v]|] err]|p|] [[dst' src'] w]]; intros [= <-]; by split.
Qed.

Lemma worker_by ch fuel c (s s' : async W) : worker_step ch fuel c s = Some s' -> bystander s s'.
Proof.
  unfold worker_step. destruct (as_worker s !! c) as [pc|]; [|done]. cbn [mbind option_bind].
  destruct pc as [|l z|l z m|l m err|l|].
  - destruct (enter _ _ _ _) as [[[[[l|]|]|p|] q]|]; cbn [mbind option_bind]; intros [= <-]; by split.
  - destruct (enter _ _ _ _) as [[[[[l'|]|]|p|] q]|]; cbn [mbind option_bind]; intros [= <-]; by split.
  - apply encode_by.
  - intros [= <-]; by split.
  - destruct (request _ _ _) as [[u|p|] q]; intros [= <-]; by split.
  - destruct (_ || _); intros [= <-]; by split.
Qed.

Lemma fail_by c e (s s' : async W) : worker_fail c e s = Some s' -> bystander s s'.
Proof.
  unfold worker_fail. destruct (as_worker s !! c) as [[]|]; try done.
  destruct (pipe_of _ _) as [src|]; [|done]. cbn [mbind option_bind]. destruct (bp_Closed src); intros [= <-]; by split.
Qed.

Lemma end_by ch (s s' : async W) : end_step ch s = Some s' -> bystander s s'.
Proof.
  unfold end_step. destruct (_ && _); [|done]. destruct (has_end _); [|intros [= <-]; by split].
  destruct (request _ _ _) as [o q]. intros [= <-]; by split.
Qed.

Lemma monitor_by ch (s s' : async W) : monitor_step ch s = Some s' -> bystander s s'.
Proof.
  unfold monitor_step. destruct (as_monitor s) as [|op rest]; [done|]. destruct op as [n|n|n| | | |]; cbn [monitor_op].
  - destruct (request _ _ _) as [o q]. intros [= <-]; by split.
  - destruct (request _ _ _) as [o q]. intros [= <-]; by split.
  - destruct (WorkerPool.setCapacity _ _ _) as [[u|p|] wp]; intros [= <-]; by split.
  - destruct (as_doneChan _); intros [= <-]; by split.
  - destruct (WorkerPool.terminate _) as [[u|p|] wp]; intros [= <-]; by split.
  - destruct (request _ _ _) as [o q]. intros [= <-]; by split.
  - destruct (request _ _ _) as [o q]. intros [= <-]; by split.
Qed.

(** The writer only adds to the channel. *)
Lemma writer_quiet (s s' : async W) :
  as_main s' = as_main s -> fields (as_w s') = fields (as_w s) -> as_lastErr s' = as_lastErr s ->
  as_errChan s' = as_errChan s -> (forall e, as_writer s <> WSend e) -> bystander s s'.
Proof.
  intros H1 H2 H3 H4 H5. split; [done|done|]. unfold errored. rewrite H3, H4.
  intros [H|[H|(e & H & _)]]; [by left|by right; left|]. by apply H5 in H.
Qed.

Lemma panic_quiet p (s s1 : async W) :
  as_main s1 = as_main s -> fields (as_w s1) = fields (as_w s) -> as_lastErr s1 = as_lastErr s ->
  as_errChan s1 = as_errChan s -> (forall e, as_writer s <> WSend e) -> bystander s (writer_panic p s1).
Proof. intros H1 H2 H3 H4 H5. unfold writer_panic. destruct (errs_Recover p None); by apply writer_quiet. Qed.

Lemma append_by index m wrErr (s : async W) : (forall e, as_writer s <> WSend e) -> bystander s (writer_append index m wrErr s).
Proof.
  intros H. unfold writer_append. destruct (stats_of m s) as [ss|]; [|by apply writer_quiet].
  destruct (negb _); [|by apply writer_quiet].
  pose proof (stays_on_world (Index_Append (w_index (as_w s)) (unpadSize ss) (uncompSize ss)) (as_w s)) as Hw.
  destruct (on_world _ _) as [[e|p|] w]; [by apply writer_quiet|by apply panic_quiet|by apply writer_quiet].
Qed.

Lemma writer_by ch (s s' : async W) : writer_step ch s = Some s' -> bystander s s'.
Proof.
  unfold writer_step. destruct (as_writer s) as [j|j m|j m e|j m e1 e2|j|err| | |] eqn:Hpc;
    try (assert (Hns : forall e, as_writer s <> WSend e) by (intros e0; by rewrite Hpc)).
  - destruct (enter _ _ _ _) as [[[[[l|]|]|p|] q]|]; cbn [mbind option_bind]; intros [= <-];
      first [by apply writer_quiet|by apply panic_quiet].
  - destruct (pipe_of _ _) as [p|]; [|done]. cbn [mbind option_bind]. destruct (bp_Closed p); [|done].
    destruct (bp_WriteTo _ _) as [[n err] [p' wr]]. intros [= <-]. by apply writer_quiet.
  - intros [= <-]. by apply append_by.
  - destruct (request _ _ _) as [[u|p|] q]; [|intros [= <-]; by apply panic_quiet|done].
    destruct (errs_Panic _); intros [= <-]; first [by apply writer_quiet|by apply panic_quiet].
  - destruct (enter _ _ _ _) as [[[[r|]|p|] q]|]; cbn [mbind option_bind]; [|by intros [= <-]; apply writer_quiet|
      by intros [= <-]; apply panic_quiet|done|done].
    destruct (errs_Assert _ _); intros [= <-]; first [by apply writer_quiet|by apply panic_quiet].
  - destruct (send err (as_errChan s)) as [c|] eqn:Es; [|done]. cbn [mbind option_bind]. intros [= <-].
    split; [done|done|]. unfold errored, send in *. cbn. destruct (ec_buf (as_errChan s)) as [|x r] eqn:Eb; [|done].
    injection Es as <-. cbn. rewrite Hpc. intros [H|[(e & r & H)|(e & [= ->] & H)]]; [by left|done|]. right; left. by exists e, [].
  - intros [= <-]. split; [done|done|]. unfold errored. cbn. rewrite Hpc.
    intros [H|[H|(e & H & _)]]; [by left|by right; left|done].
  - intros [= <-]. by apply writer_quiet.
  - done.
Qed.

End ending.
