(* ===== verification/AsyncFinish.v ===== *)
(** The asynchronous writer: an error reaches the caller, and a session without
    one ends with the index and the footer. *)

From S2P Require Import Prelude Bufpipe Pool PoolInv PoolWait PoolView WorkerPool Lines Errs Liblzma SmallLzma Lib XzConst.
From S2P Require Import Literal World LibIndex Stream StreamPump PipePump Ioutil PipeClose Writer WriterBlock.
From S2P Require Import WriterSync WriterNew WriterSession AsyncWriter AsyncInv AsyncFlow AsyncMain AsyncWorkers AsyncMonitor AsyncOut AsyncEnd.

Section finish.
Context {BP : Bufpipe} {BC : BufpipeClose BP} {L : Liblzma} {E : Errs} {IU : Ioutil} {W : Type} {IW : IoWriter W}.
Context {BS : BufpipeSpec BP} {LS : LiblzmaSpec L} {ES : ErrsSpec E} {LI : LiblzmaIdle L} {BCS : BufpipeCloseSpec BP BC}.
Context {IS : IoutilSpec IU} {WS : IoWriterSpec W}.
Context (w0 : Writer W) (data : list Z).
Implicit Types (s : async W) (k : Z) (l m z : loc) (c : chan).

(** * After an error *)

Lemma bad_by s s' : bad s -> as_crash s = None -> bystander s s' -> bad s'.
Proof.
  intros [Hm Hb] Hc [B1 B2 B3]. injection B2 as B2 _ _. split; [by rewrite B1|]. right. rewrite B1, B2.
  destruct Hb as [Hb|[Hb|[H1 H2]]]; [done|by left|right; auto].
Qed.

(** The caller's step leaves the channels alone. *)
Lemma bad_main s s' :
  errored s -> as_lastErr s' = as_lastErr s -> as_errChan s' = as_errChan s -> as_writer s' = as_writer s ->
  as_main s' <> MDone None -> (forall rest, left_over (as_main s') = Some rest -> w_closed (as_w s') = false) -> bad s'.
Proof.
  intros He H1 H2 H3 Hm Hw. split; [done|]. right; right. split; [|done]. unfold errored in *. by rewrite H1, H2, H3.
Qed.

Lemma errored_check s err s1 : errored s -> checkErr s = Some (err, s1) -> err <> None.
Proof.
  unfold errored, checkErr. destruct (as_lastErr s) as [e|]; [by intros _ [= <- _]|].
  intros [H|[(e & r & H)|(e & _ & H)]]; [done| |]; unfold receive; rewrite H; [|done]. cbn. by intros [= <- _].
Qed.

Lemma returned_bad todo o s s1 :
  errored s -> as_lastErr s1 = as_lastErr s -> as_errChan s1 = as_errChan s -> as_writer s1 = as_writer s ->
  as_main s1 = as_main s -> as_main s <> MDone None -> w_closed (as_w s1) = false -> bad (returned todo o s1).
Proof.
  intros He H1 H2 H3 H4 Hm Hw. destruct o as [[n [e|]]|p|]; cbn [returned].
  - split; [done|]. right; left. by exists e.
  - by apply (bad_main s).
  - split; [cbn; congruence|by left].
  - apply (bad_main s); try done. congruence.
Qed.

Lemma close_tail_err fuel e (w : Writer W) u w' : close_tail fuel (Some e) w <> (Ret (u, None), w').
Proof.
  intros H. unfold close_tail in H. rewrite bind_get in H. apply recovered_ret in H.
  - apply deferred_ret in H as (w1 & u1 & H & _). rewrite bind_run in H. unfold Prelude.call in H. by rewrite Panic_err in H.
  - intros p s1 [[s2 Hp]|(s2 & s3 & Hp)]%deferred_panic.
    + rewrite bind_run in Hp. unfold Prelude.call in Hp. rewrite Panic_err in Hp. injection Hp as <- _. left. by exists e.
    + apply on_world_end in Hp as [_ Hp]. by apply Hp.
Qed.

Lemma drop_pipe_same s :
  as_lastErr (drop_pipe s) = as_lastErr s /\ as_errChan (drop_pipe s) = as_errChan s /\
  as_writer (drop_pipe s) = as_writer s /\ as_w (drop_pipe s) = as_w s.
Proof. unfold drop_pipe. by destruct (as_pipe s). Qed.

Lemma write_loop_bad d cnt todo s s' :
  errored s -> w_closed (as_w s) = false -> write_loop d cnt todo s = Some s' -> bad s'.
Proof.
  intros He Hw. unfold write_loop. destruct (cnt <? zlen d).
  - destruct (as_pipe s) as [l|]; [|intros [= <-]; by apply (bad_main s)].
    destruct (pipe_of _ _) as [p|]; [|done]. cbn [mbind option_bind].
    destruct (zdrop d cnt) as [rest|]; [|done]. cbn [mbind option_bind].
    destruct (bp_Write p rest) as [[n err] p']. repeat case_decide; intros [= <-]; by apply (bad_main s).
  - destruct (cnt =? zlen d); intros [= <-]; by apply (bad_main s).
Qed.

Lemma main_bad ch fuel s s' : bad s -> as_crash s = None -> main_step ch fuel s = Some s' -> bad s'.
Proof.
  intros [Hm Hb] Hc. unfold main_step. destruct Hb as [Hb|[(e & Hb)|[He Hw]]]; [done|by rewrite Hb|].
  destruct (drop_pipe_same s) as (D1 & D2 & D3 & D4).
  destruct (as_main s) as [[|d todo]|d cnt todo|d cnt todo|d cnt todo|cnt todo| | |err] eqn:Hpc.
  - rewrite (Hw _ eq_refl). intros [= <-]. apply (bad_main s); try done; unfold drop_pipe; cbn; by destruct (as_pipe s).
  - rewrite (Hw _ eq_refl). intros [= <-]. by apply (bad_main s).
  - apply write_loop_bad; [done|exact (Hw _ eq_refl)].
  - unfold write_get. destruct (enter _ _ _ _) as [[o p]|]; [|done]. cbn [mbind option_bind].
    pose proof (Hw _ eq_refl) as Hw'. destruct o as [[[l|]|]|q|]; [| | | |done]; intros [= <-].
    + by apply (bad_main s).
    + by apply (bad_main s).
    + apply (bad_main s); try done. cbn. congruence.
    + apply (returned_bad _ _ s); try done. congruence.
  - intros [= <-]. apply (bad_main s); try done. intros _ _. cbn. rewrite D4. exact (Hw _ eq_refl).
  - destruct (checkErr s) as [[err s1]|] eqn:Ec; [|done]. cbn [mbind option_bind]. intros [= <-].
    pose proof (errored_check _ _ _ He Ec) as Hne. destruct err as [e|]; [|done].
    assert (Hst : (write_stop (Some e) cnt).1 = Ret (cnt, Some e)).
    { unfold write_stop. rewrite (recover_err _ _ _ e cnt); [done|]. rewrite bind_run. unfold Prelude.call. by rewrite Panic_err. }
    rewrite Hst. split; [done|]. right; left. by exists e.
  - destruct (request _ _ _) as [o p]. intros [= <-]. by apply (bad_main s).
  - destruct (checkErr s) as [[err s1]|] eqn:Ec; [|done]. cbn [mbind option_bind].
    pose proof (errored_check _ _ _ He Ec) as Hne. destruct err as [e|]; [|done].
    assert (Hm1 : as_main s1 = MWait).
    { revert Ec. unfold checkErr. destruct (as_lastErr s); [by intros [= _ <-]|].
      destruct (receive (as_errChan s)) as [[e1 ch1]|]; cbn [mbind option_bind]; by intros [= _ <-]. }
    destruct (close_tail fuel (Some e) (as_w s1)) as [[[u [e'|]]|p|] w] eqn:Et; [| | |done].
    + intros [= <-]. split; [done|]. right; left. by exists e'.
    + by destruct (close_tail_err _ _ _ _ _ Et).
    + intros [= <-]. split; [cbn; by rewrite Hm1|by left].
  - done.
Qed.

(** * Without an error *)

(** The caller, the writer, the channels and the object are what they were. *)
Definition spectator s s' : Prop :=
  as_main s' = as_main s /\ as_writer s' = as_writer s /\ as_lastErr s' = as_lastErr s /\
  as_errChan s' = as_errChan s /\ as_w s' = as_w s.

Lemma spectator_good s s' : good w0 data s -> spectator s s' -> idle_crew s' -> good w0 data s'.
Proof.
  intros [_ H] (S1 & S2 & S3 & S4 & S5) HI. split; [done|]. unfold complete, filed in *. by rewrite S1, S2, S3, S4, S5.
Qed.

Lemma idle_same s s' :
  same_store (ib s) (ib s') -> core 0 (ib s') ->
  (forall c pc, as_worker s' !! c = Some pc -> as_worker s !! c = Some pc \/ holds pc = None) -> idle_crew s -> idle_crew s'.
Proof.
  intros S C Hw (_ & D & Hn). split; [done|]. split; [eapply drained_ready; [apply S|apply S|done]|].
  intros c pc Hc. destruct (Hw c pc Hc); eauto.
Qed.

Lemma insert_idle c pc (m : gmap chan worker_pc) c1 pc1 : holds pc = None ->
  <[c := pc]> m !! c1 = Some pc1 -> m !! c1 = Some pc1 \/ holds pc1 = None.
Proof. intros Hp. rewrite lookup_insert. case_decide; [intros [= <-]; by right|by left]. Qed.

Lemma delete_idle c (m : gmap chan worker_pc) c1 pc1 : delete c m !! c1 = Some pc1 -> m !! c1 = Some pc1 \/ holds pc1 = None.
Proof. intros [_ H]%lookup_delete_Some. by left. Qed.

#[local] Hint Resolve insert_idle delete_idle : core.

Lemma worker_good ch fuel c s s' : good w0 data s -> worker_step ch fuel c s = Some s' -> good w0 data s'.
Proof.
  intros G. pose proof G as [HI _]. pose proof HI as (C & [Dc Dr] & Hn). unfold worker_step.
  destruct (as_worker s !! c) as [pc|] eqn:Hc; [|done]. cbn [mbind option_bind]. specialize (Hn c pc Hc).
  destruct pc as [|l z|l z m|l m err|l|]; try done.
  - destruct (enter _ _ _ _) as [[o p]|] eqn:E0; [|done]. cbn [mbind option_bind].
    destruct (enter_reader _ _ _ _ _ _ C E0) as [C' Ho]. fold (ib s) in Ho.
    destruct o as [[[l|]|]|p'|]; [| | | |done]; intros [= <-].
    + destruct Ho as (k & _ & T). pose proof (tk_was _ _ _ _ T) as Hk. change (in_ready s k = Some l) in Hk. by rewrite Dr in Hk.
    + apply (spectator_good s); [done|done|]. apply (idle_same s); [apply Ho|done|apply delete_idle|done].
    + apply (spectator_good s); [done|done|]. apply (idle_same s); [done|done|by left|done].
    + apply (spectator_good s); [done|done|]. apply (idle_same s); [apply Ho|done|by left|done].
  - destruct (_ || _); intros [= <-]; (apply (spectator_good s); [done|done|]);
      (apply (idle_same s); [done|done| |done]); [apply delete_idle|by intros c1 pc1; apply insert_idle].
Qed.

Lemma fail_good c e s s' : good w0 data s -> worker_fail c e s = Some s' -> good w0 data s'.
Proof.
  intros [(_ & _ & Hn) _]. unfold worker_fail. destruct (as_worker s !! c) as [pc|] eqn:Hc; [|done].
  specialize (Hn c pc Hc). by destruct pc.
Qed.

Lemma end_good ch s s' : good w0 data s -> end_step ch s = Some s' -> good w0 data s'.
Proof.
  intros G. unfold end_step. destruct (_ && _); [|done].
  destruct (has_end _); [destruct (request _ _ _) as [o q]|]; intros [= <-];
    (apply (spectator_good s); [done|done|exact (proj1 G)]).
Qed.

Lemma request_terminate {D} ch (p : @psys BP D) :
  core 0 (base p) -> (forall k, Pool.entries (ready (pp (base p))) !! k = None) ->
  exists p', request ch RTerminate p = (Ret tt, p') /\ core 0 (base p') /\ closed (pp (base p')) = true /\
    forall k, Pool.entries (ready (pp (base p'))) !! k = None.
Proof.
  intros C _. eexists. split; [reflexivity|]. cbn [run_req base]. unfold Pool.terminate, close_pipes, wake_all, upd. mrun.
  split; [|split; [done|done]]. pose proof (core_close_set 0 _ (active (pp (base p))) (core_close_set 0 _ (ready (pp (base p))) C)) as C2.
  apply core_drop_ready in C2. same_core C2.
Qed.

Lemma monitor_good ch s s' : good w0 data s -> monitor_step ch s = Some s' -> good w0 data s'.
Proof.
  intros G. pose proof G as [HI _]. pose proof HI as (C & [Dc Dr] & Hn). unfold monitor_step.
  destruct (as_monitor s) as [|op rest]; [done|]. destruct op as [n|n|n| | | |]; cbn [monitor_op].
  - change (as_inPool (set_monitor rest s)) with (as_inPool s).
    destruct (request_quiet ch (RSetCapacity n) (as_inPool s) C) as (p & -> & C' & S); [by exists n|]. intros [= <-].
    apply (spectator_good s); [done|done|]. apply (idle_same s); [done|done|by left|done].
  - destruct (request _ _ _) as [o q]. intros [= <-]. by apply (spectator_good s).
  - destruct (WorkerPool.setCapacity _ _ _) as [[u|p|] wp]; intros [= <-]; [|by apply (spectator_good s)].
    apply (spectator_good s); [done|done|]. apply (idle_same s); [done|done| |done]. intros c pc. cbn. unfold spawned_at.
    intros [H|[_ H]]%lookup_union_Some_raw; [|by left]. apply lookup_gset_to_gmap_Some in H as [_ <-]. by right.
  - destruct (as_doneChan _); intros [= <-]. by apply (spectator_good s).
  - destruct (WorkerPool.terminate _) as [[u|p|] wp]; intros [= <-]; by apply (spectator_good s).
  - destruct (request _ _ _) as [o q]. intros [= <-]. by apply (spectator_good s).
  - change (as_inPool (set_monitor rest s)) with (as_inPool s).
    destruct (request_terminate ch (as_inPool s) C Dr) as (p & -> & C' & Hcl & Hr). intros [= <-].
    apply (spectator_good s); [done|done|]. by split_and!.
Qed.

Lemma writer_good ch s s' : good w0 data s -> writer_step ch s = Some s' -> good w0 data s'.
Proof.
  intros [HI H]. unfold writer_step. destruct H as [(Hm & Hl & Hc & [[Hw He]|[Ha He]])|(Hm & Ha & Hf)].
  - rewrite Hw, He. cbn [send ec_buf ec_closed mbind option_bind]. intros [= <-]. split; [exact HI|]. left.
    split_and!; try done. right. split; [by left|done].
  - destruct Ha as [Ha|[Ha|Ha]]; rewrite Ha; [| |done]; intros [= <-]; (split; [exact HI|]); left; (split_and!; try done); right;
      (split; [|exact He]); [by right; left|by right; right].
  - destruct Ha as [Ha|[Ha|Ha]]; rewrite Ha; [| |done]; intros [= <-]; (split; [exact HI|]); right; (split_and!; try done);
      [by right; left|by right; right].
Qed.

Lemma close_tail_run fuel (w : Writer W) i :
  honest_writer -> w_chunkSize w <> ChunkStream -> index_at w i ->
  match close_tail fuel None w with
  | (Ret (_, None), w') => footed i (w_flags w) (w_wr w) (w_wr w')
  | _ => True
  end.
Proof.
  intros Hhon Hcs Hix. destruct (close_tail fuel None w) as [[[u [e|]]|p|] w'] eqn:H; try done.
  unfold close_tail in H. rewrite bind_get, (proj2 (Z.eqb_neq _ _) Hcs) in H. pose proof (write_footer_run fuel w i Hhon Hix) as Hf.
  apply recovered_ret in H.
  - apply deferred_ret in H as (w1 & u1 & H & Hend). rewrite bind_run in H. unfold Prelude.call in H. rewrite Panic_nil in H.
    rewrite bind_run in H. destruct (write_footer fuel w) as [[u2|p|] w2]; [|done|done]. injection H as _ <-.
    apply on_world_end in Hend as [-> _]. apply Hf.
  - intros p s1 [[s2 Hp]|(s2 & s3 & Hp)]%deferred_panic; [|apply on_world_end in Hp as [_ Hp]; by apply Hp].
    rewrite bind_run in Hp. unfold Prelude.call in Hp. rewrite Panic_nil in Hp. rewrite bind_run in Hp.
    destruct (write_footer fuel w) as [[u2|p'|] w2]; [done| |done]. injection Hp as <- _. by left.
Qed.

Lemma main_good ch fuel s s' : honest_writer -> sized w0 ->
  good w0 data s -> main_step ch fuel s = Some s' -> good w0 data s' \/ bad s'.
Proof.
  intros Hhon Hsz [HI H]. unfold main_step. destruct H as [(Hm & Hl & Hc & Hd)|(Hm & _)]; rewrite Hm; [|done].
  unfold checkErr. rewrite Hl. destruct Hd as [[Hw He]|[Ha He]]; [by rewrite He|].
  unfold receive. rewrite He. cbn [mbind option_bind as_w set_chans].
  destruct Hc as (ks & i & K1 & K2 & K3 & K4 & K5 & K6).
  assert (Hcfg : w_chunkSize (as_w s) = w_chunkSize w0 /\ w_flags (as_w s) = w_flags w0) by (destruct K6 as [[] ->]; done).
  pose proof (sized_chunk w0 Hsz) as Hck.
  pose proof (close_tail_run fuel (as_w s) i Hhon ltac:(unfold ChunkStream; lia) K5) as Hf.
  destruct (close_tail fuel None (as_w s)) as [[[u [e|]]|p|] w'] eqn:Et; [| | |done]; intros [= <-].
  - right. split; [done|]. right; left. by exists e.
  - left. split; [exact HI|]. right. split; [done|]. split; [exact Ha|]. exists ks, (w_wr (as_w s)), i.
    split_and!; try done. destruct Hcfg as [_ <-]. exact Hf.
  - right. split; [cbn; by rewrite Hm|by left].
Qed.

End finish.
