(* ===== verification/AsyncThms.v ===== *)
(** The asynchronous writer as a whole: what every interleaving of its goroutines
    leaves in the underlying writer. *)

From S2P Require Import Prelude Bufpipe Pool PoolInv PoolWait PoolView WorkerPool Lines Errs Liblzma SmallLzma Lib XzConst.
From S2P Require Import Literal World LibIndex Stream StreamPump PipePump Ioutil PipeClose Writer WriterBlock.
From S2P Require Import WriterSync WriterNew WriterSession AsyncWriter AsyncInv AsyncFlow AsyncMain AsyncWorkers AsyncMonitor.
From S2P Require Import AsyncOut AsyncEnd AsyncFinish.

Section async_thms.
Context {BP : Bufpipe} {BC : BufpipeClose BP} {L : Liblzma} {E : Errs} {IU : Ioutil} {W : Type} {IW : IoWriter W}.
Context {BS : BufpipeSpec BP} {LS : LiblzmaSpec L} {ES : ErrsSpec E} {LI : LiblzmaIdle L} {BCS : BufpipeCloseSpec BP BC}.
Context {IS : IoutilSpec IU} {WS : IoWriterSpec W}.
Implicit Types (s : async W).

(** * The invariant of a session *)

Section invariant.
Context (w0 : Writer W) (data : list Z).
Context (Hhon : honest_writer (W:=W)) (Hsz : sized w0).
Context (Hsizes : w_inSize w0 = w_chunkSize w0 /\ w_outSize w0 = w_maxSize w0).
Context (Hmodes : w_inMode w0 = LineDual /\ w_outMode w0 = LineMono).

Inductive session_ok s : Prop :=
| so_running cs zo : running_ok w0 data cs zo s -> session_ok s
| so_bad : bad s -> session_ok s
| so_good : good w0 data s -> session_ok s.

Lemma running_not_done cs zo s : running_ok w0 data cs zo s -> as_main s <> MDone None.
Proof. intros R H. destruct (ro_main _ _ _ _ _ R) as (_ & M2 & _). by rewrite H in M2. Qed.

Lemma crashed_bad cs zo s s' : running_ok w0 data cs zo s -> crashed s s' -> bad s'.
Proof.
  intros R [[p Hp] Hm]. split; [rewrite Hm; by eapply running_not_done|]. left. by rewrite Hp.
Qed.

Lemma running_step cs zo s s' : running_ok w0 data cs zo s -> astep s s' -> session_ok s'.
Proof.
  destruct Hsizes as [Hs1 Hs2]. destruct Hmodes as [Hm1 Hm2].
  intros R [lab H]. unfold exec in H. rewrite (ro_crash _ _ _ _ _ R) in H. destruct lab as [ch fuel|ch fuel c|c e|ch|ch|ch].
  - destruct (main_running w0 data Hsz Hs1 Hm1 _ _ _ _ _ _ R H) as (cs' & zo' & R'). by eapply so_running.
  - destruct (worker_running w0 data Hsz Hs2 Hm2 _ _ _ _ _ _ _ R H) as [Hc|(zo' & R')].
    + apply so_bad. by eapply crashed_bad.
    + by eapply so_running.
  - eapply so_running. by eapply fail_running.
  - eapply so_running. by eapply end_running.
  - destruct (writer_running w0 data _ _ _ _ _ R H) as [R'|[Hb|Hg]]; [by eapply so_running|by apply so_bad|by apply so_good].
  - eapply so_running. by eapply monitor_running.
Qed.

Lemma bad_step s s' : bad s -> astep s s' -> bad s'.
Proof.
  intros B [lab H]. unfold exec in H. destruct (as_crash s) eqn:Hc; [done|]. destruct lab as [ch fuel|ch fuel c|c e|ch|ch|ch].
  - by eapply main_bad.
  - eapply bad_by; [done|done|by eapply worker_by].
  - eapply bad_by; [done|done|by eapply fail_by].
  - eapply bad_by; [done|done|by eapply end_by].
  - eapply bad_by; [done|done|by eapply writer_by].
  - eapply bad_by; [done|done|by eapply monitor_by].
Qed.

Lemma good_step s s' : good w0 data s -> astep s s' -> good w0 data s' \/ bad s'.
Proof.
  intros G [lab H]. unfold exec in H. destruct (as_crash s) eqn:Hc; [done|]. destruct lab as [ch fuel|ch fuel c|c e|ch|ch|ch].
  - by eapply main_good.
  - left. by eapply worker_good.
  - left. by eapply fail_good.
  - left. by eapply end_good.
  - left. by eapply writer_good.
  - left. by eapply monitor_good.
Qed.

Lemma session_step s s' : session_ok s -> astep s s' -> session_ok s'.
Proof.
  intros [cs zo R|B|G] H; [by eapply running_step|apply so_bad; by eapply bad_step|].
  destruct (good_step _ _ G H); [by apply so_good|by apply so_bad].
Qed.

Lemma session_steps s s' : session_ok s -> rtc astep s s' -> session_ok s'.
Proof. intros H Hr. induction Hr; eauto using session_step. Qed.

Lemma session_done s : session_ok s -> as_main s = MDone None -> filed w0 data s.
Proof.
  intros [cs zo R|[B _]|[_ [G|G]]] H; [by destruct (running_not_done _ _ _ R)|done| |apply G].
  destruct G as [G _]. congruence.
Qed.

End invariant.

(** ** The start *)

Lemma growing_start NumCPU cs check mw (wr : W) (w : Writer W) :
  1 <= NumCPU -> mw <> WorkersSync -> opened_async cs check mw wr w -> growing 0 (monitor_code NumCPU w).
Proof.
  intros Hn Hmw O. pose proof (oa_made _ _ _ _ _ O) as C. pose proof (cf_workers _ _ _ _ _ C) as Hw.
  unfold monitor_code, set_capacity. cbn [app]. split; [lia|]. split; [lia|].
  destruct (negb _); [|done]. rewrite Hw. unfold clamp_workers, WorkersMax, WorkersSync in *.
  destruct (Z.eqb_spec (if mw <? 0 then -1 else mw) (-1)) as [He|He]; cbn [app growing]; (split; [|split; [|done]]);
    destruct (Z.ltb_spec mw 0); lia.
Qed.

Lemma start_running NumCPU cs check mw (wr : W) (w : Writer W) datas :
  1 <= NumCPU -> mw <> WorkersSync -> opened_async cs check mw wr w ->
  running_ok w (concat datas) [] ∅ (start NumCPU w datas).
Proof.
  intros Hn Hmw O. pose proof (oa_made _ _ _ _ _ O) as C. pose proof (growing_start _ _ _ _ _ _ Hn Hmw O) as Hg. split; try done.
  - by destruct (pool_inv0 (BP:=BP) (D:=unit)).
  - by destruct (pool_inv0 (BP:=BP) (D:=loc)).
  - exists false. by destruct w.
  - split; try done; cbn; try lia; intros; by rewrite lookup_empty in *.
  - split; [|split; [done|by apply not_waiting]]. intros rest [= <-].
    split; [done|]. split; [exact (cf_open _ _ _ _ _ C)|by constructor].
  - exists []. split; [done|]. split; [done|constructor| |constructor|by left].
    exists lzma_index_empty. split; [constructor|exact (cf_index _ _ _ _ _ C)].
  - split; try done.
    + split; cbn; try done; [apply NoDup_nil_2|intros c H; by apply elem_of_nil in H..|lia].
    + intros c. cbn. rewrite lookup_empty. split; [intros H; by apply elem_of_empty in H|by intros []].
Qed.

(** * The theorem *)

(** A session that succeeded, from the constructor on. *)
Lemma async_file lv check cs mw NumCPU (wr : W) wd w x datas s :
  honest_writer (W:=W) -> 0 <= cs -> mw <> WorkersSync -> 1 <= NumCPU ->
  NewWriterCustom lv check cs mw (wr, wd) = (Ret (Some w, None), x) ->
  areachable NumCPU w datas s -> as_main s = MDone None ->
  exists hdr wr1 ks wr2 i,
    lzma_stream_header_encode (file_flags check) = (OK, hdr) /\ wrote wr hdr wr1 /\
    cut (clamp_chunk cs) (concat datas) ks /\ Forall (block_ok w) ks /\
    writes wr1 (concat (map k_bytes ks)) wr2 /\ indexed lzma_index_empty ks i /\
    footed i (file_flags check) wr2 (w_wr (as_w s)).
Proof.
  intros Hhon Hcs Hmw Hcpu Hn Hr Hd.
  destruct (NewWriterCustom_async _ _ _ _ _ _ _ _ Hcs Hmw Hn) as [O _]. pose proof (oa_made _ _ _ _ _ O) as C.
  assert (H : session_ok w (concat datas) s).
  { eapply (session_steps w (concat datas) Hhon (cf_sized _ _ _ _ _ C) (oa_sizes _ _ _ _ _ O) (oa_modes _ _ _ _ _ O)); [|exact Hr].
    eapply so_running. by eapply start_running. }
  destruct (session_done w (concat datas) s H Hd) as (ks & wr2 & i & K1 & K2 & K3 & K4 & K5).
  destruct (cf_header _ _ _ _ _ C) as (hdr & He & Hw). exists hdr, (w_wr w), ks, wr2, i.
  rewrite (cf_chunk _ _ _ _ _ C) in K1. rewrite (cf_flags _ _ _ _ _ C) in K5. by split_and!.
Qed.


End async_thms.
