(* ===== verification/AsyncSettle.v ===== *)
(** The asynchronous writer after its writing goroutine has stopped, with or
    without an error: what holds in every state, however it was reached, and that
    the monitor closes the input pool, so that the caller comes back. *)

From S2P Require Import Prelude Bufpipe Pool PoolInv PoolWait PoolView PoolQuiet WorkerPool Lines Errs Liblzma SmallLzma Lib XzConst.
From S2P Require Import Literal World LibIndex Stream StreamPump PipePump Ioutil PipeClose Writer WriterBlock.
From S2P Require Import WriterSync WriterNew WriterSession AsyncWriter AsyncInv AsyncFlow AsyncMain AsyncWorkers AsyncMonitor AsyncOut AsyncEnd.

Section settle.
Context {BP : Bufpipe} {BC : BufpipeClose BP} {L : Liblzma} {E : Errs} {IU : Ioutil} {W : Type} {IW : IoWriter W}.
Context {BS : BufpipeSpec BP} {ES : ErrsSpec E}.
Implicit Types (s : async W) (l m : loc) (c : chan).

(** * The invariant *)

(** How far the caller is in the data of a [Write]. *)
Definition counting (pc : main_pc) : option (list Z * Z) :=
  match pc with
  | MLoop d cnt _ | MGet d cnt _ | MFull d cnt _ => Some (d, cnt)
  | _ => None
  end.

(** The monitor terminates the input pool in the end. *)
Fixpoint leads (ops : list mon_op) : Prop :=
  match ops with
  | [] => False
  | [NTermIn] => True
  | NWork n :: ops => 0 <= n /\ leads ops
  | _ :: ops => leads ops
  end.

(** The channels at the points of the writer. *)
Definition signals s : Prop :=
  match as_writer s with
  | WClose => True
  | WDone => ec_closed (as_errChan s) = true
  | WEnd => ec_closed (as_errChan s) = true /\ as_doneChan s = true
  | _ => as_errChan s = ErrChan [] false /\ as_lastErr s = None
  end.

Record lawful s : Prop := Lawful {
  lw_pipe l : as_pipe s = Some l -> is_Some (heap (ib s) !! l);
  lw_cnt d cnt : counting (as_main s) = Some (d, cnt) -> 0 <= cnt <= zlen d;
  lw_wait : awaits main_tid (as_inPool s);
  lw_monitor : as_monitor s = [] /\ closed (pp (ib s)) = true \/ leads (as_monitor s);
  lw_signals : signals s;
}.

Lemma leads_cons op ops : leads (op :: ops) -> ops = [] /\ op = NTermIn \/ leads ops.
Proof. destruct op, ops; cbn; tauto. Qed.

(** ** Steps of the others *)

(** A step that may do to the input pool what its other users do to it. *)
Record aside s s' : Prop := Aside {
  as_same : as_main s' = as_main s /\ as_pipe s' = as_pipe s /\ as_writer s' = as_writer s /\
    as_errChan s' = as_errChan s /\ as_lastErr s' = as_lastErr s /\ as_doneChan s' = as_doneChan s;
  as_in : awaits main_tid (as_inPool s) -> awaits main_tid (as_inPool s') /\ eases (ib s) (ib s');
}.

Lemma aside_lawful s s' :
  lawful s -> aside s s' -> as_monitor s' = as_monitor s -> lawful s'.
Proof.
  intros [L1 L2 L3 L4 L5] [(A1 & A2 & A3 & A4 & A5 & A6) AI] Hm. destruct (AI L3) as [AW AE].
  split; unfold signals in *; rewrite ?A1, ?A2, ?A3, ?A4, ?A5, ?A6, ?Hm; try done.
  - intros l Hl. by apply (ea_heap _ _ AE), L1.
  - destruct L4 as [[-> Hc]|Hl]; [left|by right]. split; [done|by apply (ea_closed _ _ AE)].
Qed.

Lemma on_buf_awaits (p : @psys BP unit) f l :
  awaits main_tid p -> awaits main_tid (on_buf f l p) /\ eases (base p) (base (on_buf f l p)).
Proof.
  intros [A1 A2]. split; [by split|]. split; try done; [by left|]. intros l'. cbn. rewrite lookup_alter.
  case_decide; [|done]. subst. intros [q ->]. by eexists.
Qed.

Lemma request_awaits ch r (p p' : @psys BP unit) o :
  request ch r p = (o, p') -> awaits main_tid p -> awaits main_tid p' /\ eases (base p) (base p').
Proof.
  intros H A. destruct (request_eases ch r p o p' H) as (Ea & Hp & _). split; [|done].
  eapply awaits_eases; [done..|by rewrite Hp].
Qed.

#[local] Hint Resolve on_buf_awaits : core.

Lemma worker_aside ch fuel c s s' : worker_step ch fuel c s = Some s' -> aside s s'.
Proof.
  assert (HR : forall v, as_inPool v = as_inPool s -> as_main v = as_main s /\ as_pipe v = as_pipe s /\ as_writer v = as_writer s /\
    as_errChan v = as_errChan s /\ as_lastErr v = as_lastErr s /\ as_doneChan v = as_doneChan s -> aside s v).
  { intros v Hv H. split; [done|]. unfold ib. by rewrite Hv. }
  unfold worker_step. destruct (as_worker s !! c) as [pc|]; [|done]. cbn [mbind option_bind].
  destruct pc as [|l z|l z m|l m err|l|].
  - destruct (enter ch (worker_tid c) (CReader (-1)) (as_inPool s)) as [[o q]|] eqn:E0; [|done]. cbn [mbind option_bind].
    assert (HA : awaits main_tid (as_inPool s) -> awaits main_tid q /\ eases (ib s) (base q)).
    { intros A. by destruct (awaits_reader ch main_tid (worker_tid c) (-1) _ _ _ A ltac:(done) ltac:(lia) E0) as (H1 & H2 & _). }
    destruct o as [[[l|]|]|p|]; intros [= <-]; by split.
  - destruct (enter _ _ _ _) as [[[[[l'|]|]|p|] q]|]; cbn [mbind option_bind]; intros [= <-]; by apply HR.
  - unfold worker_encode. destruct (pipe_of (as_inPool s) l) as [src|]; [|done]. cbn [mbind option_bind].
    destruct (pipe_of (as_outPool s) m) as [dst|]; [|done]. cbn [mbind option_bind]. destruct (bp_Closed src); [|done].
    destruct (with_pipes _ _ _ _) as [[[[[u v]|] err]|p|] [[dst' src'] w]]; intros [= <-]; [..|by apply HR];
      (split; [done|]); apply on_buf_awaits.
  - intros [= <-]. by apply HR.
  - destruct (request ch (RRestore (Some l)) (as_inPool s)) as [o q] eqn:E0. pose proof (request_awaits _ _ _ _ _ E0) as HA.
    destruct o as [u|p|]; intros [= <-]; by split.
  - destruct (_ || _); intros [= <-]; by apply HR.
Qed.

Lemma worker_monitor ch fuel c s s' : worker_step ch fuel c s = Some s' -> as_monitor s' = as_monitor s.
Proof.
  unfold worker_step, worker_encode. destruct (as_worker s !! c) as [pc|]; [|done]. cbn [mbind option_bind].
  destruct pc as [|l z|l z m|l m err|l|].
  - destruct (enter _ _ _ _) as [[[[[l'|]|]|p|] q]|]; cbn [mbind option_bind]; by intros [= <-].
  - destruct (enter _ _ _ _) as [[[[[l'|]|]|p|] q]|]; cbn [mbind option_bind]; by intros [= <-].
  - destruct (pipe_of (as_inPool s) l) as [src|]; [|done]. cbn [mbind option_bind].
    destruct (pipe_of (as_outPool s) m) as [dst|]; [|done]. cbn [mbind option_bind]. destruct (bp_Closed src); [|done].
    destruct (with_pipes _ _ _ _) as [[[[[u v]|] err]|p|] [[dst' src'] w]]; by intros [= <-].
  - by intros [= <-].
  - destruct (request _ _ _) as [[u|p|] q]; by intros [= <-].
  - destruct (_ || _); by intros [= <-].
Qed.

Lemma fail_lawful c e s s' : lawful s -> worker_fail c e s = Some s' -> lawful s'.
Proof.
  intros G. unfold worker_fail. destruct (as_worker s !! c) as [[]|]; try done.
  destruct (pipe_of _ _) as [src|]; [|done]. cbn [mbind option_bind]. destruct (bp_Closed src); intros [= <-].
  destruct G; by split.
Qed.

Lemma end_lawful ch s s' : lawful s -> end_step ch s = Some s' -> lawful s'.
Proof.
  intros G. unfold end_step. destruct (_ && _); [|done]. destruct (has_end _); [|intros [= <-]; destruct G; by split].
  destruct (request _ _ _) as [o q]. intros [= <-]. destruct G; by split.
Qed.

Lemma monitor_lawful ch s s' : lawful s -> monitor_step ch s = Some s' -> lawful s'.
Proof.
  intros [L1 L2 L3 L4 L5]. unfold monitor_step. destruct (as_monitor s) as [|op rest] eqn:Hm; [done|].
  destruct L4 as [[? _]|Hl]; [done|]. apply leads_cons in Hl.
  assert (HR : forall v, as_monitor v = rest -> (as_monitor v = [] -> op = NTermIn -> closed (pp (ib v)) = true) ->
    aside s v -> lawful v).
  { intros v Hv Hc [(A1 & A2 & A3 & A4 & A5 & A6) AI]. destruct (AI L3) as [AW AE].
    split; unfold signals in *; rewrite ?A1, ?A2, ?A3, ?A4, ?A5, ?A6; try done.
    - intros l Hl'. by apply (ea_heap _ _ AE), L1.
    - rewrite Hv in Hc |- *. destruct Hl as [[-> ->]|Hl]; [left; auto|by right]. }
  assert (HS : forall v, as_inPool v = as_inPool s -> as_monitor v = rest -> op <> NTermIn ->
    as_main v = as_main s /\ as_pipe v = as_pipe s /\ as_writer v = as_writer s /\
    as_errChan v = as_errChan s /\ as_lastErr v = as_lastErr s /\ as_doneChan v = as_doneChan s -> lawful v).
  { intros v H1 H2 H3 H4. apply HR; [done|done|]. split; [done|]. unfold ib. by rewrite H1. }
  destruct op as [n|n|n| | | |]; cbn [monitor_op].
  - destruct (request ch (RSetCapacity n) (as_inPool _)) as [o q] eqn:E0. intros [= <-]. apply HR; [done|done|]. split; [done|].
    exact (request_awaits _ _ _ _ _ E0).
  - destruct (request _ _ _) as [o q]. intros [= <-]. by apply HS.
  - destruct (WorkerPool.setCapacity _ _ _) as [[u|p|] wp]; intros [= <-]; by apply HS.
  - intros H. assert (s' = set_monitor rest s) as -> by (destruct (as_doneChan _); congruence). by apply HS.
  - destruct (WorkerPool.terminate _) as [[u|p|] wp]; intros [= <-]; by apply HS.
  - destruct (request _ _ _) as [o q]. intros [= <-]. by apply HS.
  - destruct (request ch RTerminate (as_inPool _)) as [o q] eqn:E0. intros [= <-]. apply HR; [done| |].
    + intros _ _. unfold request in E0. cbn [run_req] in E0. by injection E0 as _ <-.
    + split; [done|]. exact (request_awaits _ _ _ _ _ E0).
Qed.

(** ** Steps of the writer *)

(** The writer before it sends: only its point may change, and not past the send. *)
Lemma before_lawful s s' :
  lawful s -> as_main s' = as_main s -> as_pipe s' = as_pipe s -> as_inPool s' = as_inPool s -> as_monitor s' = as_monitor s ->
  as_errChan s' = as_errChan s -> as_lastErr s' = as_lastErr s ->
  as_errChan s = ErrChan [] false /\ as_lastErr s = None -> ~ after_send (as_writer s') -> lawful s'.
Proof.
  intros [L1 L2 L3 L4 L5] E1 E2 E3 E4 E5 E6 H Hn. split; unfold ib, signals in *; rewrite ?E1, ?E2, ?E3, ?E4, ?E5, ?E6; try done.
  destruct (as_writer s'); try done; destruct Hn; unfold after_send; auto.
Qed.

Lemma panic_lawful p s s1 :
  lawful s -> as_main s1 = as_main s -> as_pipe s1 = as_pipe s -> as_inPool s1 = as_inPool s -> as_monitor s1 = as_monitor s ->
  as_errChan s1 = as_errChan s -> as_lastErr s1 = as_lastErr s -> as_writer s1 = as_writer s ->
  as_errChan s = ErrChan [] false /\ as_lastErr s = None -> ~ after_send (as_writer s) -> lawful (writer_panic p s1).
Proof.
  intros G E1 E2 E3 E4 E5 E6 E7 H Hn. unfold writer_panic. destruct (errs_Recover p None); apply (before_lawful s); try done.
  - by intros [?|[?|?]].
  - by cbn; rewrite E7.
Qed.

Lemma append_lawful index m wrErr s :
  lawful s -> as_errChan s = ErrChan [] false /\ as_lastErr s = None -> ~ after_send (as_writer s) ->
  lawful (writer_append index m wrErr s).
Proof.
  intros G H Hn. assert (Ha : forall i o e1 e2, ~ after_send (WRestore i o e1 e2)) by (by intros ???? [?|[?|?]]).
  unfold writer_append. destruct (stats_of m s) as [ss|]; [|apply (before_lawful s); try done; apply Ha].
  destruct (negb _); [|apply (before_lawful s); try done; apply Ha].
  destruct (on_world _ _) as [[e|p|] w]; [apply (before_lawful s); try done; apply Ha|by apply (panic_lawful p s)|done].
Qed.

Lemma writer_lawful ch s s' : lawful s -> writer_step ch s = Some s' -> lawful s'.
Proof.
  intros G. unfold writer_step. pose proof (lw_signals _ G) as Hs. unfold signals in Hs.
  assert (Hn : after_send (as_writer s) \/ ~ after_send (as_writer s)) by (unfold after_send; destruct (as_writer s); naive_solver).
  assert (HB : forall v, as_main v = as_main s -> as_pipe v = as_pipe s -> as_inPool v = as_inPool s -> as_monitor v = as_monitor s ->
    as_errChan v = as_errChan s -> as_lastErr v = as_lastErr s -> as_errChan s = ErrChan [] false /\ as_lastErr s = None ->
    match as_writer v with WClose | WDone | WEnd => False | _ => True end -> lawful v).
  { intros v E1 E2 E3 E4 E5 E6 H Hv. apply (before_lawful s); try done. unfold after_send. destruct (as_writer v); naive_solver. }
  destruct (as_writer s) as [j|j m|j m e|j m e1 e2|j|err| | |] eqn:Hpc;
    try (destruct Hn as [[?|[?|?]]|Hn]; [done..|]); rewrite <- ?Hpc in Hn.
  - destruct (enter _ _ _ _) as [[[[[l|]|]|p|] q]|]; cbn [mbind option_bind]; intros [= <-];
      first [by apply HB|apply HB; try done; cbn; by rewrite Hpc|by apply (panic_lawful _ s)].
  - destruct (pipe_of _ _) as [p|]; [|done]. cbn [mbind option_bind]. destruct (bp_Closed p); [|done].
    destruct (bp_WriteTo _ _) as [[n err] [p' wr]]. intros [= <-]. by apply HB.
  - intros [= <-]. by apply append_lawful.
  - destruct (request _ _ _) as [[u|p|] q]; [|intros [= <-]; by apply (panic_lawful _ s)|done].
    destruct (errs_Panic _); intros [= <-]; first [by apply HB|by apply (panic_lawful _ s)].
  - destruct (enter _ _ _ _) as [[[[r|]|p|] q]|]; cbn [mbind option_bind]; [|by intros [= <-]; apply HB; try done; cbn; rewrite Hpc|
      by intros [= <-]; apply (panic_lawful _ s)|done|done].
    destruct (errs_Assert _ _); intros [= <-]; first [by apply HB|by apply (panic_lawful _ s)].
  - destruct (send err (as_errChan s)) as [c|]; [|done]. cbn [mbind option_bind]. intros [= <-]. destruct G. by split.
  - intros [= <-]. destruct G. by split.
  - intros [= <-]. destruct G. by split.
  - done.
Qed.

(** ** Steps of the caller *)

Lemma drop_lawful s : lawful s -> lawful (drop_pipe s).
Proof.
  intros G. unfold drop_pipe. destruct (as_pipe s) as [l|]; [|done]. destruct G as [L1 L2 L3 L4 L5].
  destruct (on_buf_awaits _ bp_Close l L3) as [A1 A2]. by split.
Qed.

(** The caller moves on. *)
Lemma goes_lawful pc s : lawful s -> (forall d cnt, counting pc = Some (d, cnt) -> 0 <= cnt <= zlen d) -> lawful (set_main pc s).
Proof. intros [L1 L2 L3 L4 L5] H. by split. Qed.

Lemma returned_lawful todo o s : lawful s -> lawful (returned todo o s).
Proof.
  intros G. destruct o as [[n [e|]]|p|]; cbn [returned]; [by apply goes_lawful..| |done]. destruct G. by split.
Qed.

Lemma check_lawful err s s1 : lawful s -> checkErr s = Some (err, s1) -> lawful s1.
Proof.
  intros G. unfold checkErr. destruct (as_lastErr s) eqn:Hl; [by intros [= _ <-]|].
  destruct (receive (as_errChan s)) as [[e c]|] eqn:Hr; [|done]. cbn [mbind option_bind]. intros [= _ <-].
  destruct G as [L1 L2 L3 L4 L5]. split; try done. unfold signals in *. cbn.
  assert (Hc : ec_closed c = ec_closed (as_errChan s)).
  { revert Hr. unfold receive. destruct (ec_buf _); [destruct (ec_closed _) eqn:He; intros [= _ <-]; done|by intros [= _ <-]]. }
  rewrite Hc. destruct (as_writer s); try done; destruct L5 as [L5 _]; by rewrite L5 in Hr.
Qed.

Lemma write_loop_lawful d cnt todo s s' :
  lawful s -> 0 <= cnt <= zlen d -> write_loop d cnt todo s = Some s' -> lawful s'.
Proof.
  intros G Hc. unfold write_loop.
  assert (HM : forall n, 0 <= n <= zlen d -> forall d1 n1, Some (d, n) = Some (d1, n1) -> 0 <= n1 <= zlen d1) by (by intros n Hn ?? [= <- <-]).
  destruct (Z.ltb_spec cnt (zlen d)).
  - destruct (as_pipe s) as [l|] eqn:Hp; [|intros [= <-]; apply goes_lawful; [done|by apply HM]].
    destruct (pipe_of _ _) as [p|]; [|done]. cbn [mbind option_bind].
    destruct (zdrop d cnt) as [rest|] eqn:Hd; [|done]. cbn [mbind option_bind].
    assert (Hr : zlen rest = zlen d - cnt).
    { revert Hd. unfold zdrop. destruct (_ && _); intros [= <-]. rewrite zlen_drop; lia. }
    pose proof (pipe_write_count p rest) as Hn. destruct (bp_Write p rest) as [[n err] p']. cbn in Hn.
    assert (G1 : lawful (set_inPool (on_buf (fun _ => p') l (as_inPool s)) s)).
    { destruct G as [L1 L2 L3 L4 L5]. destruct (on_buf_awaits _ (fun _ => p') l L3) as [A1 A2].
      split; try done. intros l' Hl'. by apply (ea_heap _ _ A2), L1. }
    repeat case_decide; intros [= <-]; apply goes_lawful; try done; apply HM; lia.
  - destruct (cnt =? zlen d); intros [= <-]; by apply goes_lawful.
Qed.

Lemma write_get_lawful ch d cnt todo s s' :
  lawful s -> 0 <= cnt <= zlen d -> write_get ch d cnt todo s = Some s' -> lawful s'.
Proof.
  intros G Hc. unfold write_get. destruct (enter _ _ _ _) as [[o p]|] eqn:E0; [|done]. cbn [mbind option_bind].
  pose proof G as [L1 L2 L3 L4 L5]. destruct (awaits_writer _ _ _ _ _ _ _ _ _ L3 E0) as (A & Hcl & Hh & _).
  assert (G1 : lawful (set_inPool p s)).
  { split; try done; [intros l Hl; by apply Hh, L1|]. unfold ib in *. cbn. by rewrite Hcl. }
  destruct o as [[[l|]|]|q|]; [| | | |done]; intros [= <-]; [|by apply goes_lawful|done|by apply returned_lawful].
  apply goes_lawful; [|by intros ?? [= <- <-]]. destruct G1 as [K1 K2 K3 K4 K5]. split; try done.
  intros l' [= <-]. by eapply writer_pipe.
Qed.

Lemma main_lawful ch fuel s s' : lawful s -> main_step ch fuel s = Some s' -> lawful s'.
Proof.
  intros G. pose proof (lw_cnt _ G) as Hc. unfold main_step.
  destruct (as_main s) as [[|d todo]|d cnt todo|d cnt todo|d cnt todo|cnt todo| | |err] eqn:Hm; [| | | | | | | |done].
  - destruct (w_closed _); intros [= <-]; (apply goes_lawful; [|done]); [done|]. apply drop_lawful. destruct G. by split.
  - destruct (w_closed _); intros [= <-]; (apply goes_lawful; [done|]); [done|]. intros ?? [= <- <-].
    pose proof (zlen_nonneg d). lia.
  - apply write_loop_lawful; auto.
  - apply write_get_lawful; auto.
  - intros [= <-]. apply goes_lawful; [by apply drop_lawful|]. intros ?? [= <- <-]. auto.
  - destruct (checkErr s) as [[e s1]|] eqn:Ec; [|done]. cbn [mbind option_bind]. intros [= <-].
    by eapply returned_lawful, check_lawful.
  - destruct (request ch RClose (as_inPool s)) as [o p] eqn:E0. intros [= <-]. apply goes_lawful; [|done].
    apply (aside_lawful s); [done| |done]. split; [done|]. exact (request_awaits _ _ _ _ _ E0).
  - destruct (checkErr s) as [[e s1]|] eqn:Ec; [|done]. cbn [mbind option_bind].
    pose proof (check_lawful _ _ _ G Ec) as G1.
    destruct (close_tail _ _ _) as [[[u e1]|p|] w]; intros [= <-]; [apply goes_lawful; [|done]|]; destruct G1; by split.
Qed.

Lemma lawful_step s s' : lawful s -> astep s s' -> lawful s'.
Proof.
  intros G [lab H]. unfold exec in H. destruct (as_crash s); [done|]. destruct lab as [ch fuel|ch fuel c|c e|ch|ch|ch].
  - by eapply main_lawful.
  - eapply aside_lawful; [done|by eapply worker_aside|by eapply worker_monitor].
  - by eapply fail_lawful.
  - by eapply end_lawful.
  - by eapply writer_lawful.
  - by eapply monitor_lawful.
Qed.

End settle.
