(* ===== verification/AsyncMoves.v ===== *)
(** The asynchronous writer never gets stuck: in every state that a session can
    reach, some goroutine can take a step, until the caller has returned. *)

From S2P Require Import Prelude Bufpipe Pool PoolInv PoolWait PoolView PoolThms PoolRoom PoolQuiet WorkerPool Lines Errs Liblzma SmallLzma Lib XzConst.
From S2P Require Import Literal World LibIndex Stream StreamPump StreamTerm PipePump Ioutil PipeClose Writer WriterBlock.
From S2P Require Import WriterSync WriterNew WriterSession WriterTotal AsyncWriter AsyncInv AsyncFlow AsyncMain AsyncWorkers AsyncMonitor.
From S2P Require Import AsyncOut AsyncLive AsyncAwake AsyncEnd AsyncFinish AsyncThms AsyncSettle.

Section moves.
Context {BP : Bufpipe} {BC : BufpipeClose BP} {L : Liblzma} {E : Errs} {IU : Ioutil} {W : Type} {IW : IoWriter W}.
Context {BS : BufpipeSpec BP} {LS : LiblzmaSpec L} {ES : ErrsSpec E} {LI : LiblzmaIdle L} {BCS : BufpipeCloseSpec BP BC}.
Context {IS : IoutilSpec IU} {WS : IoWriterSpec W}.
Implicit Types (s : async W).

Definition moves s : Prop := exists s', astep s s'.

Lemma moves_by lab s : exec lab s <> None -> moves s.
Proof. intros H. destruct (exec lab s) as [s'|] eqn:E0; [|done]. by exists s', lab. Qed.

(** * While the writer runs *)

Lemma running_moves w0 data cs zo s :
  sized w0 -> w_inSize w0 = w_chunkSize w0 /\ w_outSize w0 = w_maxSize w0 -> w_inMode w0 = LineDual /\ w_outMode w0 = LineMono ->
  running_ok w0 data cs zo s -> orderly w0 s -> (forall err, as_main s <> MDone err) -> moves s.
Proof.
  intros Hsz [Hs1 Hs2] [Hm1 Hm2] R O Hnd. pose proof (ro_crash _ _ _ _ _ R) as Hc.
  assert (HX : forall lab, exec lab s = match lab with
    | LMain ch fuel => main_step ch fuel s | LWorker ch fuel c => worker_step ch fuel c s | LFail c e => worker_fail c e s
    | LEnd ch => end_step ch s | LWriter ch => writer_step ch s | LMonitor ch => monitor_step ch s end)
    by (intros lab; unfold exec; by rewrite Hc).
  destruct (main_step ch0 0 s) eqn:E1; [apply (moves_by (LMain ch0 0)); by rewrite HX, E1|].
  destruct (monitor_step ch0 s) eqn:E2; [apply (moves_by (LMonitor ch0)); by rewrite HX, E2|].
  destruct (writer_step ch0 s) eqn:E3; [apply (moves_by (LWriter ch0)); by rewrite HX, E3|].
  destruct (end_step ch0 s) eqn:E4; [apply (moves_by (LEnd ch0)); by rewrite HX, E4|].
  destruct (decide (map_Forall (fun c _ => worker_step ch0 (block_fuel w0) c s = None) (as_worker s))) as [Hw|Hw].
  - exfalso. eapply (not_stuck w0 data Hsz Hs1 Hs2 Hm1 Hm2 cs zo s R O); [|done]. split; try done. intros c.
    destruct (as_worker s !! c) as [pc|] eqn:Hpc; [by apply (Hw c pc)|]. unfold worker_step. by rewrite Hpc.
  - apply map_not_Forall in Hw as (c & pc & _ & Hw); [|apply _].
    apply (moves_by (LWorker ch0 (block_fuel w0) c)). by rewrite HX.
Qed.

(** * After it *)

Lemma recover_fuel {S A} (named : S -> A) d (m : M S (A * error)) x :
  fuelless d -> (m x).1 <> NoFuel -> (with_recover named (with_defer d m) x).1 <> NoFuel.
Proof.
  intros Hd Hm. unfold with_recover, with_defer. destruct (m x) as [[r|p|] x1]; [| |done];
    pose proof (Hd x1) as He; destruct (d x1) as [[u|q|] x2]; try done; by repeat case_match.
Qed.

Lemma close_tail_error e (w : Writer W) : (close_tail 0 (Some e) w).1 <> NoFuel.
Proof.
  unfold close_tail. rewrite bind_get. apply recover_fuel; [apply fuelless_End|].
  rewrite bind_run. unfold Prelude.call. by rewrite Panic_err.
Qed.

(** An error was sent, and the channels are closed. *)
Lemma errored_ends s : errored s -> as_writer s = WEnd -> signals s -> exists e s1, checkErr s = Some (Some e, s1).
Proof.
  intros He Hw Hs. unfold signals in Hs. rewrite Hw in Hs. destruct Hs as [Hs _].
  destruct (checkErr s) as [[err s1]|] eqn:Ec.
  - pose proof (errored_check _ _ _ He Ec). destruct err as [e|]; [|done]. by exists e, s1.
  - exfalso. revert Ec. unfold checkErr. destruct (as_lastErr s); [done|]. unfold receive.
    destruct (ec_buf _); [by rewrite Hs|done].
Qed.

(** With the channels closed and the input pool too, the caller runs. *)
Lemma errored_main s :
  errored s -> lawful s -> as_writer s = WEnd -> closed (pp (ib s)) = true -> (forall err, as_main s <> MDone err) ->
  main_step ch0 0 s <> None.
Proof.
  intros He [L1 L2 L3 L4 L5] Hw Hcl Hnd. destruct (errored_ends s He Hw L5) as (e & s1 & Ec). unfold main_step. rewrite Ec.
  destruct (as_main s) as [[|d todo]|d cnt todo|d cnt todo|d cnt todo|cnt todo| | |err]; try done.
  - by destruct (w_closed _).
  - by destruct (w_closed _).
  - apply write_loop_goes; auto.
  - unfold write_get. pose proof (awaits_run ch0 main_tid (as_idx s) (w_inSize (as_w s)) (w_inMode (as_w s)) None _ L3 Hcl) as Hr.
    destruct (enter _ _ _ _) as [[o p]|] eqn:E0; [|done]. cbn [mbind option_bind].
    destruct (awaits_writer _ _ _ _ _ _ _ _ _ L3 E0) as (_ & _ & _ & Hf). by destruct o as [[[l|]|]|q|].
  - cbn [mbind option_bind]. pose proof (close_tail_error e (as_w s1)) as Hf. by destruct (close_tail _ _ _) as [[[]| |]].
  - by destruct (Hnd err).
Qed.

(** The monitor runs to its end once the writer is gone. *)
Lemma monitor_goes s : as_doneChan s = true -> leads (as_monitor s) -> monitor_step ch0 s <> None.
Proof.
  intros Hd Hl. unfold monitor_step. destruct (as_monitor s) as [|op rest]; [done|]. destruct op as [n|n|n| | | |]; cbn [monitor_op].
  - by destruct (request _ _ _).
  - by destruct (request _ _ _).
  - change (as_workPool (set_monitor rest s)) with (as_workPool s).
    assert (Hn : 0 <= n) by (destruct rest; apply Hl). pose proof (setCapacity_ends n (as_workPool s) Hn) as Hf.
    by destruct (WorkerPool.setCapacity _ _ _) as [[]].
  - change (as_doneChan (set_monitor rest s)) with (as_doneChan s). by rewrite Hd.
  - change (as_workPool (set_monitor rest s)) with (as_workPool s). pose proof (terminate_ends (as_workPool s)) as Hf.
    by destruct (WorkerPool.terminate _) as [[]].
  - by destruct (request _ _ _).
  - by destruct (request _ _ _).
Qed.

Lemma bad_moves s :
  bad s -> lawful s -> as_crash s = None -> (forall err, as_main s <> MDone err) -> moves s.
Proof.
  intros [_ Hb] G Hc Hnd. pose proof (lw_signals _ G) as Hs.
  destruct Hb as [Hb|[[e Hb]|[He _]]]; [done|by destruct (Hnd (Some e))|].
  assert (HX : forall ch, exec (LWriter ch) s = writer_step ch s) by (intros ch; unfold exec; by rewrite Hc).
  unfold signals in Hs. unfold errored in He.
  destruct (as_writer s) as [j|j m|j m e|j m e1 e2|j|err| | |] eqn:Hw;
    try (by destruct Hs as [Hs Hl]; rewrite Hs in He; destruct He as [He|[(x & r & He)|(x & He & _)]]).
  - apply (moves_by (LWriter ch0)). rewrite HX. unfold writer_step. rewrite Hw. destruct Hs as [-> _]. done.
  - apply (moves_by (LWriter ch0)). rewrite HX. unfold writer_step. by rewrite Hw.
  - apply (moves_by (LWriter ch0)). rewrite HX. unfold writer_step. by rewrite Hw.
  - destruct Hs as [_ Hd]. destruct (lw_monitor _ G) as [[Hm Hcl]|Hm].
    + apply (moves_by (LMain ch0 0)). unfold exec. rewrite Hc. apply errored_main; try done. unfold errored. by rewrite Hw.
    + apply (moves_by (LMonitor ch0)). unfold exec. rewrite Hc. by apply monitor_goes.
Qed.

(** * Without an error *)

Section good.
Context (write_contract : forall (wr : W) bs n err wr', wr_Write wr bs = ((n, err), wr') -> n < zlen bs -> err <> None).
Context (work : lzma_coder -> cmem_t -> nat).
Context (index_progress : forall c m inp n,
  let r := lzma_code c m (uint32 FINISH) inp n in index_coder c m -> 0 < n ->
  cr_ret r = OK \/ cr_ret r = BUF_ERROR -> (work (cr_coder r) (cr_mem r) < work c m)%nat).

Lemma close_tail_returns (w : Writer W) i :
  w_chunkSize w <> ChunkStream -> index_at w i -> exists fuel, (close_tail fuel None w).1 <> NoFuel.
Proof.
  intros Hcs Hi. destruct (write_footer_returns write_contract work index_progress w i Hi) as [fuel Hf]. exists fuel.
  unfold close_tail. rewrite bind_get, (proj2 (Z.eqb_neq _ _) Hcs). apply recover_fuel; [apply fuelless_End|].
  rewrite bind_run. unfold Prelude.call. rewrite Panic_nil, bind_run. by destruct (write_footer fuel w) as [[]].
Qed.

Lemma good_moves w0 data s :
  sized w0 -> good w0 data s -> as_crash s = None -> (forall err, as_main s <> MDone err) -> moves s.
Proof.
  intros Hsz [_ H] Hc Hnd. destruct H as [(Hm & Hl & Hcm & [[Hw He]|[_ He]])|(Hm & _)]; [| |by destruct (Hnd None)].
  - apply (moves_by (LWriter ch0)). unfold exec. rewrite Hc. unfold writer_step. rewrite Hw. by rewrite He.
  - destruct Hcm as (ks & i & _ & _ & _ & _ & Hi & Hk).
    assert (Hcs : w_chunkSize (as_w s) = w_chunkSize w0) by (destruct Hk as [[] ->]; done).
    pose proof (sized_chunk w0 Hsz) as Hck.
    destruct (close_tail_returns (as_w s) i ltac:(unfold ChunkStream; lia) Hi) as [fuel Hf].
    apply (moves_by (LMain ch0 fuel)). unfold exec. rewrite Hc. unfold main_step. rewrite Hm. unfold checkErr. rewrite Hl.
    unfold receive. rewrite He. cbn [mbind option_bind]. change (as_w (set_chans _ _ _ s)) with (as_w s).
    by destruct (close_tail fuel None (as_w s)) as [[[]| |]].
Qed.

(** * The theorem *)

(** A state of a session, with the bookkeeping that shows that it goes on. *)
Definition ongoing (w0 : Writer W) (data : list Z) s : Prop :=
  lawful s /\ ((exists cs zo, running_ok w0 data cs zo s /\ orderly w0 s) \/ bad s \/ good w0 data s).

Section session.
Context (w0 : Writer W) (data : list Z).
Context (Hhon : honest_writer (W:=W)) (Hsz : sized w0).
Context (Hsizes : w_inSize w0 = w_chunkSize w0 /\ w_outSize w0 = w_maxSize w0).
Context (Hmodes : w_inMode w0 = LineDual /\ w_outMode w0 = LineMono).

Lemma ongoing_step s s' : ongoing w0 data s -> astep s s' -> ongoing w0 data s'.
Proof.
  intros [G H] Hst. split; [by eapply lawful_step|]. destruct H as [(cs & zo & R & O)|[B|G']].
  - destruct (running_step w0 data Hsz Hsizes Hmodes _ _ _ _ R Hst) as [cs' zo' R'|B|G']; [|by right; left|by right; right].
    left. exists cs', zo'. split; [done|]. destruct Hsizes as [Hs1 Hs2], Hmodes as [Hm1 Hm2].
    exact (orderly_step w0 data Hsz Hs1 Hs2 Hm1 Hm2 _ _ _ _ _ _ R O Hst R').
  - right; left. by eapply bad_step.
  - right. destruct (good_step w0 data Hhon Hsz _ _ G' Hst); [by right|by left].
Qed.

Lemma ongoing_steps s s' : ongoing w0 data s -> rtc astep s s' -> ongoing w0 data s'.
Proof. intros H Hr. induction Hr; eauto using ongoing_step. Qed.

Lemma ongoing_moves s :
  ongoing w0 data s -> as_crash s = None -> (forall err, as_main s <> MDone err) -> moves s.
Proof.
  intros [G [(cs & zo & R & O)|[B|G']]] Hc Hnd; [by eapply running_moves|by apply bad_moves|by eapply good_moves].
Qed.

End session.

(** ** The start *)

Lemma staffing_start NumCPU cs check mw (wr : W) (w : Writer W) :
  1 <= NumCPU -> mw <> WorkersSync -> opened_async cs check mw wr w -> staffing 0 0 (monitor_code NumCPU w).
Proof.
  intros Hn Hmw O. pose proof (cf_workers _ _ _ _ _ (oa_made _ _ _ _ _ O)) as Hw.
  unfold monitor_code, set_capacity. cbn [app]. split; [lia|]. cbn [staffing].
  destruct (negb _); [|cbn; lia]. rewrite Hw. unfold clamp_workers, WorkersMax, WorkersSync in *.
  destruct (Z.eqb_spec (if mw <? 0 then -1 else mw) (-1)) as [He|He]; cbn [app staffing];
    destruct (Z.ltb_spec mw 0); lia.
Qed.

Lemma start_orderly NumCPU cs check mw (wr : W) (w : Writer W) datas :
  1 <= NumCPU -> mw <> WorkersSync -> opened_async cs check mw wr w -> orderly w (start NumCPU w datas).
Proof.
  intros Hn Hmw O. split; try done.
  - split; [exact pool_inv0|]. split; cbn; [by intros t i|done].
  - split; [exact pool_inv0|]. split; cbn; [by intros t i|by intros H%elem_of_nil].
  - by eapply staffing_start.
Qed.

Lemma start_lawful NumCPU cs check mw (wr : W) (w : Writer W) datas :
  1 <= NumCPU -> mw <> WorkersSync -> opened_async cs check mw wr w -> lawful (start NumCPU w datas).
Proof.
  intros Hn Hmw O. split; try done; [split; [by intros []|done]|]. right. unfold monitor_code, set_capacity. cbn [as_monitor start app].
  pose proof (cf_workers _ _ _ _ _ (oa_made _ _ _ _ _ O)) as Hw. unfold clamp_workers, WorkersMax, WorkersSync in *.
  cbn [leads]. split; [lia|]. destruct (negb _); [|done]. rewrite Hw.
  unfold WorkersMax. destruct (Z.eqb_spec (if mw <? 0 then -1 else mw) (-1)) as [He|He]; cbn; destruct (Z.ltb_spec mw 0); lia.
Qed.

Lemma start_ongoing NumCPU cs check mw (wr : W) (w : Writer W) datas :
  1 <= NumCPU -> mw <> WorkersSync -> opened_async cs check mw wr w -> ongoing w (concat datas) (start NumCPU w datas).
Proof.
  intros Hn Hmw O. split; [by eapply start_lawful|]. left. exists [], ∅. split; [by eapply start_running|by eapply start_orderly].
Qed.

End good.
End moves.
