(* ===== verification/AsyncCustody.v ===== *)
(** The asynchronous writer: in every state, also after an error, each pipe that a
    goroutine works on is an active pipe of its pool, and nobody else's. *)

From S2P Require Import Prelude Bufpipe Pool PoolInv PoolWait PoolView PoolQuiet WorkerPool Lines Errs Liblzma SmallLzma Lib XzConst.
From S2P Require Import Literal World LibIndex Stream StreamPump PipePump Ioutil PipeClose Writer WriterBlock.
From S2P Require Import WriterSync WriterNew WriterSession AsyncWriter AsyncInv AsyncFlow AsyncMain AsyncWorkers AsyncMonitor AsyncOut.

Section custody.
Context {BP : Bufpipe} {BC : BufpipeClose BP} {L : Liblzma} {E : Errs} {IU : Ioutil} {W : Type} {IW : IoWriter W}.
Context {BS : BufpipeSpec BP} {ES : ErrsSpec E}.
Implicit Types (s : async W) (k : Z) (l m z : loc) (c : chan).

(** The pipe that the writer took from the output pool. *)
Definition carries (pc : writer_pc) : option loc :=
  match pc with
  | WWrite _ m | WAppend _ m _ | WRestore _ m _ _ => Some m
  | _ => None
  end.

Record custody s : Prop := {
  cu_in : core 0 (ib s);
  cu_out : core 0 (ob s);
  cu_idx : 0 <= as_idx s;
  cu_ready k l : in_ready s k = Some l -> k < as_idx s /\ in_active s k = None;
  cu_active k l : in_active s k = Some l -> k < as_idx s;
  cu_holds c pc l : as_worker s !! c = Some pc -> holds pc = Some l -> exists k, in_active s k = Some l;
  cu_once c c' pc pc' l : as_worker s !! c = Some pc -> as_worker s !! c' = Some pc' ->
    holds pc = Some l -> holds pc' = Some l -> c = c';
  cu_writer m : carries (as_writer s) = Some m -> exists k, out_active s k = Some m;
}.

(** A step that leaves the pools in order, and gives no goroutine a pipe that it
    did not have. *)
Lemma custody_frame s s' :
  custody s -> core 0 (ib s') -> core 0 (ob s') -> as_idx s' = as_idx s ->
  (forall k l, in_ready s' k = Some l -> in_ready s k = Some l) -> (forall k, in_active s' k = in_active s k) ->
  (forall c pc l, as_worker s' !! c = Some pc -> holds pc = Some l -> exists pc0, as_worker s !! c = Some pc0 /\ holds pc0 = Some l) ->
  (forall m, carries (as_writer s') = Some m -> carries (as_writer s) = Some m) ->
  (forall k, out_active s' k = out_active s k) -> custody s'.
Proof.
  intros [U1 U2 U3 U4 U5 U6 U7 U8] H1 H2 H3 H4 H5 H6 H7 H8. split; try done; rewrite ?H3; try done.
  - intros k l Hk. rewrite H5. by apply (U4 k l), H4.
  - intros k l. rewrite H5. apply U5.
  - intros c pc l Hc Hl. destruct (H6 c pc l Hc Hl) as (pc0 & Hc0 & Hl0). destruct (U6 c pc0 l Hc0 Hl0) as [k Hk].
    exists k. by rewrite H5.
  - intros c c' pc pc' l Hc Hc' Hl Hl'. destruct (H6 c pc l Hc Hl) as (p0 & ? & ?). destruct (H6 c' pc' l Hc' Hl') as (p1 & ? & ?).
    by apply (U7 c c' p0 p1 l).
  - intros m Hm. destruct (U8 m (H7 m Hm)) as [k Hk]. exists k. by rewrite H8.
Qed.

Lemma same_workers s s' c pc l :
  as_worker s' = as_worker s -> as_worker s' !! c = Some pc -> holds pc = Some l ->
  exists pc0, as_worker s !! c = Some pc0 /\ holds pc0 = Some l.
Proof. intros -> Hc Hl. by exists pc. Qed.

(** The worker [c] moves on, with the pipe that it has or without. *)
Lemma moved_worker c pc0 pc1 (ws : gmap chan worker_pc) c' pc l :
  ws !! c = Some pc0 -> (forall l', holds pc1 = Some l' -> holds pc0 = Some l') ->
  <[c := pc1]> ws !! c' = Some pc -> holds pc = Some l -> exists pc', ws !! c' = Some pc' /\ holds pc' = Some l.
Proof.
  intros Hc Hh. rewrite lookup_insert. case_decide as Hd; [|intros H Hl; by exists pc]. subst c'. intros [= <-] Hl.
  exists pc0. auto.
Qed.

Lemma left_worker c (ws : gmap chan worker_pc) c' pc l :
  delete c ws !! c' = Some pc -> holds pc = Some l -> exists pc', ws !! c' = Some pc' /\ holds pc' = Some l.
Proof. intros [_ H]%lookup_delete_Some Hl. by exists pc. Qed.

#[local] Hint Resolve core_on_buf : core.
#[local] Hint Resolve left_worker : core.

(** ** The workers *)

(** A worker takes a pipe. *)
Lemma take_custody c pc l k s s' :
  custody s -> as_worker s !! c = Some pc -> holds pc = None -> taken k l (ib s) (ib s') -> core 0 (ib s') ->
  as_idx s' = as_idx s -> as_outPool s' = as_outPool s -> as_writer s' = as_writer s ->
  (exists pc', holds pc' = Some l /\ as_worker s' = <[c := pc']> (as_worker s)) -> custody s'.
Proof.
  intros [U1 U2 U3 U4 U5 U6 U7 U8] Hc Hh T C Hi Ho Hw (pc' & Hh' & Hs'). pose proof (tk_was _ _ _ _ T) as Hk.
  change (in_ready s k = Some l) in Hk. destruct (U4 k l Hk) as [Hlt Hnone].
  assert (Hnl : forall k', in_active s k' <> Some l).
  { intros k' Hk'. by pose proof (core_disj _ _ U1 SReady SActive k k' l Hk Hk'). }
  assert (Hact : forall k', in_active s' k' = if decide (k = k') then Some l else in_active s k')
    by (intros k'; unfold in_active; by rewrite (tk_active _ _ _ _ T), lookup_insert).
  assert (Hother : forall c' pc1 l1, as_worker s' !! c' = Some pc1 -> holds pc1 = Some l1 ->
    c' = c /\ l1 = l \/ c' <> c /\ as_worker s !! c' = Some pc1).
  { intros c' pc1 l1. rewrite Hs', lookup_insert. case_decide; [intros [= <-]; left; naive_solver|by right]. }
  split; rewrite ?Hi; [done|unfold ob; by rewrite Ho|done| | | | |].
  - intros k' l'. unfold in_ready. rewrite (tk_ready _ _ _ _ T). intros [Hne Hk']%lookup_delete_Some.
    destruct (U4 k' l' Hk') as [H1 H2]. by rewrite Hact, decide_False.
  - intros k' l'. rewrite Hact. case_decide; [intros _; by subst|apply U5].
  - intros c' pc1 l1 Hc' Hl1. destruct (Hother c' pc1 l1 Hc' Hl1) as [[-> ->]|[Hne Hold]].
    + exists k. by rewrite Hact, decide_True.
    + destruct (U6 c' pc1 l1 Hold Hl1) as [k' Hk']. exists k'. rewrite Hact. case_decide; [by subst; congruence|done].
  - intros c1 c2 p1 p2 l1 H1 H2 Hl1 Hl2.
    destruct (Hother c1 p1 l1 H1 Hl1) as [[-> ->]|[Hn1 Ho1]], (Hother c2 p2 _ H2 Hl2) as [[-> Heq]|[Hn2 Ho2]]; try done.
    + destruct (U6 c2 p2 l Ho2 Hl2) as [k' Hk']. by apply Hnl in Hk'.
    + subst. destruct (U6 c1 p1 l Ho1 Hl1) as [k' Hk']. by apply Hnl in Hk'.
    + by apply (U7 c1 c2 p1 p2 l1).
  - intros m. rewrite Hw. unfold out_active, ob. rewrite Ho. apply U8.
Qed.

Lemma active_idx s l k : core 0 (ib s) -> in_active s k = Some l -> idx_of (heap (ib s)) l = k.
Proof. apply (core_idx_of 0 _ SActive). Qed.

(** The holder of a pipe may restore it. *)
Lemma own_pipe {D} (p : @psys BP D) l k : core 0 (base p) -> Pool.entries (active (pp (base p))) !! k = Some l ->
  forall l', Pool.entries (active (pp (base p))) !! idx_of (heap (base p)) l = Some l' -> l' = l.
Proof. intros C Hk l'. rewrite (core_idx_of 0 _ SActive k l C Hk). congruence. Qed.

(** A worker restores its pipe. *)
Lemma restore_custody c l s s' :
  custody s -> as_worker s !! c = Some (KRestore l) -> core 0 (ib s') -> as_idx s' = as_idx s ->
  as_outPool s' = as_outPool s -> as_writer s' = as_writer s -> as_worker s' = <[c := KSelect]> (as_worker s) ->
  Pool.entries (active (pp (ib s'))) = delete (idx_of (heap (ib s)) l) (Pool.entries (active (pp (ib s)))) ->
  Pool.entries (ready (pp (ib s'))) = Pool.entries (ready (pp (ib s))) -> custody s'.
Proof.
  intros [U1 U2 U3 U4 U5 U6 U7 U8] Hc C Hi Ho Hw Hs' Ha Hr. destruct (U6 c _ l Hc eq_refl) as [k Hk].
  rewrite (active_idx s l k U1 Hk) in Ha.
  assert (Hact : forall k' l', in_active s' k' = Some l' <-> k <> k' /\ in_active s k' = Some l')
    by (intros k' l'; unfold in_active; by rewrite Ha, lookup_delete_Some).
  assert (Hother : forall c' pc1 l1, as_worker s' !! c' = Some pc1 -> holds pc1 = Some l1 -> c' <> c /\ as_worker s !! c' = Some pc1).
  { intros c' pc1 l1. rewrite Hs', lookup_insert. case_decide; [by intros [= <-]|by split]. }
  split; rewrite ?Hi; [done|unfold ob; by rewrite Ho|done| | | | |].
  - intros k' l'. unfold in_ready. rewrite Hr. intros Hk'. destruct (U4 k' l' Hk') as [H1 H2]. split; [done|].
    destruct (in_active s' k') as [l2|] eqn:Hx; [|done]. apply Hact in Hx as [_ Hx]. congruence.
  - intros k' l' [_ Hx]%Hact. by apply (U5 k' l').
  - intros c' pc1 l1 Hc' Hl1. destruct (Hother c' pc1 l1 Hc' Hl1) as [Hne Hold]. destruct (U6 c' pc1 l1 Hold Hl1) as [k' Hk'].
    exists k'. apply Hact. split; [|done]. intros <-. rewrite Hk in Hk'. injection Hk' as <-.
    by apply Hne, (U7 c' c pc1 (KRestore l) l).
  - intros c1 c2 p1 p2 l1 H1 H2 Hl1 Hl2. destruct (Hother c1 p1 l1 H1 Hl1) as [_ Ho1]. destruct (Hother c2 p2 l1 H2 Hl2) as [_ Ho2].
    by apply (U7 c1 c2 p1 p2 l1).
  - intros m. rewrite Hw. unfold out_active, ob. rewrite Ho. apply U8.
Qed.

Lemma worker_custody ch fuel c s s' :
  custody s -> worker_step ch fuel c s = Some s' -> as_crash s' = None -> custody s'.
Proof.
  intros U. pose proof (cu_in _ U) as C1. pose proof (cu_out _ U) as C2. unfold worker_step.
  destruct (as_worker s !! c) as [pc|] eqn:Hc; [|done]. cbn [mbind option_bind].
  destruct pc as [|l z|l z m|l m err|l|].
  - destruct (enter ch (worker_tid c) (CReader (-1)) (as_inPool s)) as [[o q]|] eqn:E0; [|done]. cbn [mbind option_bind].
    destruct (enter_reader _ _ _ _ _ _ C1 E0) as [C' Ho]. fold (ib s) in Ho.
    destruct o as [[[l|]|]|p|]; intros [= <-] Hcr; [| | |done].
    + destruct Ho as (k & _ & T). eapply (take_custody c KGet l k s); try done. by exists (KOut l (fresh (dom (as_sizes s)))).
    + destruct Ho as (S & _). apply (custody_frame s); try done; unfold in_ready, in_active, ib; cbn; eauto;
        [by rewrite (ss_ready _ _ S)|by rewrite (ss_active _ _ S)].
    + apply (custody_frame s); try done; unfold in_ready, in_active, ib; cbn; eauto using same_workers;
        [by rewrite (ss_ready _ _ Ho)|by rewrite (ss_active _ _ Ho)].
  - destruct (enter _ _ _ _) as [[o q]|] eqn:E0; [|done]. cbn [mbind option_bind].
    destruct (enter_writer _ _ _ _ _ _ _ _ _ C2 E0) as [C' Ho]. fold (ob s) in Ho.
    destruct o as [[[m|]|]|p|]; intros [= <-] Hcr; [| | |done].
    + apply (custody_frame s); try done; [|unfold out_active, ob; cbn; by rewrite (np_active _ _ _ _ _ _ _ Ho)].
      intros c' pc l'. cbn. eapply moved_worker; [done|naive_solver].
    + destruct Ho as [S _]. apply (custody_frame s); try done; [|unfold out_active, ob; cbn; by rewrite (ss_active _ _ S)].
      intros c' pc l'. cbn. eapply moved_worker; [done|naive_solver].
    + apply (custody_frame s); try done; [eauto using same_workers|unfold out_active, ob; cbn; by rewrite (ss_active _ _ Ho)].
  - unfold worker_encode. destruct (pipe_of (as_inPool s) l) as [src|]; [|done]. cbn [mbind option_bind].
    destruct (pipe_of (as_outPool s) m) as [dst|]; [|done]. cbn [mbind option_bind]. destruct (bp_Closed src); [|done].
    destruct (with_pipes _ _ _ _) as [[[r err]|p|] [[dst' src'] w]]; [|by intros [= <-]|done]. intros [= <-] _.
    destruct r as [[u v]|]; (apply (custody_frame s); try done; try (by apply core_on_buf)); intros c' pc l'; cbn;
      (eapply moved_worker; [done|naive_solver]).
  - intros [= <-] _. apply (custody_frame s); try done; [by apply core_on_buf|]. intros c' pc l'. cbn.
    eapply moved_worker; [done|naive_solver].
  - destruct (cu_holds _ U c _ l Hc eq_refl) as [k Hk].
    destruct (request ch (RRestore (Some l)) (as_inPool s)) as [o q] eqn:E0.
    destruct (request_restore ch l _ _ _ C1 (own_pipe _ l k C1 Hk) E0) as [C' Ho].
    destruct o as [u|p|]; intros [= <-] Hcr; [|done]. destruct Ho as (Ha & Hr & _). by eapply (restore_custody c l s).
  - destruct (_ || _); intros [= <-] _; (apply (custody_frame s); try done); intros c' pc l'; cbn; [by apply left_worker|].
    by eapply moved_worker.
Qed.

Lemma fail_custody c e s s' : custody s -> worker_fail c e s = Some s' -> custody s'.
Proof.
  intros U. unfold worker_fail. destruct (as_worker s !! c) as [[]|] eqn:Hc; try done.
  destruct (pipe_of _ _) as [src|]; [|done]. cbn [mbind option_bind]. destruct (bp_Closed src); intros [= <-].
  apply (custody_frame s); try done; try apply U. intros c' pc l'. cbn. eapply moved_worker; [done|naive_solver].
Qed.

(** ** The others *)

(** A step that keeps the pipes of the pools where they are. *)
Lemma still_custody s s' :
  custody s -> core 0 (ib s') -> core 0 (ob s') -> as_idx s' = as_idx s -> as_worker s' = as_worker s ->
  (forall k l, in_ready s' k = Some l -> in_ready s k = Some l) -> (forall k, in_active s' k = in_active s k) ->
  (forall k, out_active s' k = out_active s k) -> (forall m, carries (as_writer s') = Some m -> carries (as_writer s) = Some m) ->
  custody s'.
Proof. intros U H1 H2 H3 H4 H5 H6 H7 H8. apply (custody_frame s); try done. eauto using same_workers. Qed.

Lemma end_custody ch s s' : custody s -> end_step ch s = Some s' -> custody s'.
Proof.
  intros U. pose proof U as [C1 C2 _ _ _ _ _ _]. unfold end_step. destruct (_ && _); [|done].
  destruct (has_end _); [|intros [= <-]; by apply (still_custody s)].
  change (as_outPool (set_workPool _ s)) with (as_outPool s).
  destruct (request_close ch (as_outPool s) C2) as (p & -> & C' & _ & _ & _ & Ha). intros [= <-].
  apply (still_custody s); try done. intros k. unfold out_active, ob. cbn. by rewrite Ha.
Qed.

Lemma terminate_custody {D} ch (p : @psys BP D) o p' :
  core 0 (base p) -> request ch RTerminate p = (o, p') ->
  core 0 (base p') /\ active (pp (base p')) = active (pp (base p)) /\ ready (pp (base p')) = None.
Proof.
  intros C. unfold request. cbn [run_req]. unfold Pool.terminate, close_pipes, wake_all, upd. mrun. intros [= _ <-].
  split; [|done]. pose proof (core_close_set 0 _ (active (pp (base p))) (core_close_set 0 _ (ready (pp (base p))) C)) as C2.
  apply core_drop_ready in C2. same_core C2.
Qed.

Lemma spawned_get wp wp' (ws : gmap chan worker_pc) c pc :
  spawned_at wp wp' ws !! c = Some pc -> ws !! c = Some pc \/ pc = KGet.
Proof.
  unfold spawned_at. intros [H|[_ H]]%lookup_union_Some_raw; [|by left]. apply lookup_gset_to_gmap_Some in H as [_ <-]. by right.
Qed.

Lemma monitor_custody ch s s' : custody s -> monitor_step ch s = Some s' -> as_crash s' = None -> custody s'.
Proof.
  intros U. pose proof U as [C1 C2 _ _ _ _ _ _]. unfold monitor_step. destruct (as_monitor s) as [|op rest]; [done|].
  destruct op as [n|n|n| | | |]; cbn [monitor_op].
  - change (as_inPool (set_monitor rest s)) with (as_inPool s).
    destruct (request_quiet ch (RSetCapacity n) (as_inPool s) C1) as (p & -> & C' & S); [by exists n|]. intros [= <-] _.
    apply (still_custody s); try done; unfold in_ready, in_active, ib; cbn; [by rewrite (ss_ready _ _ S)|by rewrite (ss_active _ _ S)].
  - change (as_outPool (set_monitor rest s)) with (as_outPool s).
    destruct (request_quiet ch (RSetCapacity n) (as_outPool s) C2) as (p & -> & C' & S); [by exists n|]. intros [= <-] _.
    apply (still_custody s); try done. unfold out_active, ob. cbn. by rewrite (ss_active _ _ S).
  - change (as_workPool (set_monitor rest s)) with (as_workPool s).
    destruct (WorkerPool.setCapacity _ _ _) as [[[]|p|] wp]; intros [= <-]; [|done]. intros _.
    apply (custody_frame s); try done. intros c pc l Hc Hl. destruct (spawned_get _ _ _ _ _ Hc) as [H| ->]; [by exists pc|done].
  - intros H _. assert (s' = set_monitor rest s) as -> by (destruct (as_doneChan _); congruence). by apply (still_custody s).
  - destruct (WorkerPool.terminate _) as [[u|p|] wp]; intros [= <-]; [|done]. intros _. by apply (still_custody s).
  - change (as_outPool (set_monitor rest s)) with (as_outPool s).
    destruct (request ch RTerminate (as_outPool s)) as [o p] eqn:E0. intros [= <-] _.
    destruct (terminate_custody ch _ _ _ C2 E0) as (C' & Ha & _). apply (still_custody s); try done.
    intros k. unfold out_active, ob. cbn. by rewrite Ha.
  - change (as_inPool (set_monitor rest s)) with (as_inPool s).
    destruct (request ch RTerminate (as_inPool s)) as [o p] eqn:E0. intros [= <-] _.
    destruct (terminate_custody ch _ _ _ C1 E0) as (C' & Ha & Hr). apply (still_custody s); try done;
      unfold in_ready, in_active, ib; cbn; [by rewrite Hr|by rewrite Ha].
Qed.

Lemma panic_custody p s s1 :
  custody s -> core 0 (ob s1) -> as_inPool s1 = as_inPool s -> as_idx s1 = as_idx s -> as_worker s1 = as_worker s ->
  as_crash (writer_panic p s1) = None -> custody (writer_panic p s1).
Proof.
  intros [U1 U2 U3 U4 U5 U6 U7 U8] C E1 E2 E3. unfold writer_panic. destruct (errs_Recover p None); [|done]. intros _.
  split; cbn; unfold in_ready, in_active, ib in *; cbn; rewrite ?E1, ?E2, ?E3; done.
Qed.

Lemma append_custody index m wrErr s :
  custody s -> carries (as_writer s) = Some m -> as_crash (writer_append index m wrErr s) = None ->
  custody (writer_append index m wrErr s).
Proof.
  intros U Hm. assert (HS : forall v, as_inPool v = as_inPool s -> as_outPool v = as_outPool s -> as_idx v = as_idx s ->
    as_worker v = as_worker s -> carries (as_writer v) = Some m -> custody v).
  { intros v E1 E2 E3 E4 E5. apply (still_custody s); try done; unfold ib, ob, in_ready, in_active, out_active, ib, ob; rewrite ?E1, ?E2;
      try done; [apply U|apply U|]. intros m'. by rewrite E5, Hm. }
  unfold writer_append. destruct (stats_of m s) as [ss|]; [|intros _; by apply HS].
  destruct (negb _); [|intros _; by apply HS].
  destruct (on_world _ _) as [[e|p|] w]; [intros _; by apply HS| |done].
  intros Hcr. apply (panic_custody p s); try done. apply U.
Qed.

Lemma writer_custody ch s s' : custody s -> writer_step ch s = Some s' -> as_crash s' = None -> custody s'.
Proof.
  intros U. pose proof U as [C1 C2 U3 U4 U5 U6 U7 U8]. unfold writer_step.
  destruct (as_writer s) as [j|j m|j m e|j m e1 e2|j|err| | |] eqn:Hpc.
  - destruct (enter ch writer_tid (CReader j) (as_outPool s)) as [[o p]|] eqn:E0; [|done]. cbn [mbind option_bind].
    destruct (enter_reader _ _ _ _ _ _ C2 E0) as [C' Ho]. fold (ob s) in Ho.
    destruct o as [[[m|]|]|q|]; intros [= <-] Hcr; [| | |by apply (panic_custody q s)].
    + destruct Ho as (k & _ & T). split; try done. intros m' [= <-]. exists k. unfold out_active, ob. cbn.
      by rewrite (tk_active _ _ _ _ T), lookup_insert_eq.
    + destruct Ho as (S & _). apply (still_custody s); try done. unfold out_active, ob. cbn. by rewrite (ss_active _ _ S).
    + apply (still_custody s); try done; unfold out_active, ob; cbn; by rewrite (ss_active _ _ Ho).
  - destruct (pipe_of _ _) as [p|]; [|done]. cbn [mbind option_bind]. destruct (bp_Closed p); [|done].
    destruct (bp_WriteTo _ _) as [[n err] [p' wr]]. intros [= <-] _. apply (still_custody s); try done; [by apply core_on_buf|].
    cbn. by rewrite Hpc.
  - intros [= <-]. apply append_custody; [done|by rewrite Hpc].
  - destruct (U8 m eq_refl) as [k Hk]. destruct (request ch (RRestore (Some m)) (as_outPool s)) as [o p] eqn:E0.
    destruct (request_restore ch m _ _ _ C2 (own_pipe _ m k C2 Hk) E0) as [C' _].
    destruct o as [u|q|]; [|intros [= <-] Hcr; by apply (panic_custody q s)|done].
    destruct (errs_Panic _); intros [= <-] Hcr; [|by apply (panic_custody p0 s)]. split; try done.
  - destruct (enter ch writer_tid (CReader (-1)) (as_outPool s)) as [[o p]|] eqn:E0; [|done]. cbn [mbind option_bind].
    destruct (enter_reader _ _ _ _ _ _ C2 E0) as [C' Ho]. fold (ob s) in Ho.
    destruct o as [[r|]|q|]; [|intros [= <-] Hcr|intros [= <-] Hcr; by apply (panic_custody q s)|done].
    + destruct (errs_Assert _ _); intros [= <-] Hcr; [by split|by apply (panic_custody p0 s)].
    + split; try done. intros m. cbn. by rewrite Hpc.
  - destruct (send err (as_errChan s)) as [c|]; [|done]. cbn [mbind option_bind]. intros [= <-] _. by apply (still_custody s).
  - intros [= <-] _. by apply (still_custody s).
  - intros [= <-] _. by apply (still_custody s).
  - done.
Qed.

(** ** The caller *)

Lemma drop_custody s : custody s -> custody (drop_pipe s).
Proof.
  intros U. unfold drop_pipe. destruct (as_pipe s) as [l|]; [|done]. apply (still_custody s); try done; [apply core_on_buf|]; apply U.
Qed.

Lemma goes_custody pc s : custody s -> custody (set_main pc s).
Proof. intros U. apply (still_custody s); try done; apply U. Qed.

(** The caller never panics inside the pool. *)
Lemma get_total ch mode s o p :
  custody s -> 0 <= w_inSize (as_w s) ->
  enter ch main_tid (CWriter (as_idx s) (w_inSize (as_w s)) mode None) (as_inPool s) = Some (o, p) -> exists r, o = Ret r.
Proof.
  intros U Hsz E0. apply (enter_writer_total ch main_tid _ _ _ _ _ _ _ (cu_in _ U) (cu_idx _ U) Hsz) in E0; [done|].
  change (in_ready s (as_idx s) = None). destruct (in_ready s (as_idx s)) eqn:Hr; [|done]. apply (cu_ready _ U) in Hr as [? _]. lia.
Qed.

Lemma write_get_custody ch d cnt todo s s' :
  custody s -> 0 <= w_inSize (as_w s) -> write_get ch d cnt todo s = Some s' -> custody s'.
Proof.
  intros U Hsz. unfold write_get. destruct (enter _ _ _ _) as [[o p]|] eqn:E0; [|done]. cbn [mbind option_bind].
  destruct (get_total _ _ _ _ _ U Hsz E0) as [r ->]. destruct (enter_writer _ _ _ _ _ _ _ _ _ (cu_in _ U) E0) as [C' Ho].
  fold (ib s) in Ho. assert (HS : same_store (ib s) (base p) -> custody (set_inPool p s)).
  { intros S. apply (still_custody s); try done; try apply U; unfold in_ready, in_active, ib; cbn;
      [by rewrite (ss_ready _ _ S)|by rewrite (ss_active _ _ S)]. }
  destruct r as [[l|]|]; intros [= <-]; [|destruct Ho; by apply goes_custody, HS|by apply HS].
  destruct U as [U1 U2 U3 U4 U5 U6 U7 U8].
  assert (Ha : forall k, in_active (set_pipe (as_idx s + 1) (Some l) (set_inPool p s)) k = in_active s k)
    by (intros k; unfold in_active, ib; cbn; by rewrite (np_active _ _ _ _ _ _ _ Ho)).
  apply goes_custody. split; try done.
  - cbn. lia.
  - intros k l'. rewrite Ha. unfold in_ready, ib. cbn. rewrite (np_ready _ _ _ _ _ _ _ Ho), lookup_insert. case_decide as Hd.
    + subst k. intros _. split; [lia|]. destruct (in_active s (as_idx s)) eqn:Hx; [|done]. apply U5 in Hx. lia.
    + intros Hk. destruct (U4 k l' Hk). split; [lia|done].
  - intros k l'. rewrite Ha. intros Hk. cbn. pose proof (U5 k l' Hk). lia.
  - intros c pc l' Hc Hl. destruct (U6 c pc l' Hc Hl) as [k Hk]. exists k. by rewrite Ha.
Qed.

Lemma returned_custody todo o s : custody s -> custody (returned todo o s).
Proof. intros U. destruct o as [[n [e|]]|p|]; cbn [returned]; [by apply goes_custody..| |done]. by destruct U. Qed.

Lemma main_custody ch fuel s s' :
  custody s -> 0 <= w_inSize (as_w s) -> main_step ch fuel s = Some s' -> custody s'.
Proof.
  intros U Hsz. pose proof (cu_in _ U) as C1. unfold main_step.
  assert (HC : forall err s1, checkErr s = Some (err, s1) -> custody s1).
  { intros err s1. unfold checkErr. destruct (as_lastErr s); [by intros [= _ <-]|].
    destruct (receive _) as [[e c]|]; [|done]. cbn [mbind option_bind]. intros [= _ <-]. by destruct U. }
  destruct (as_main s) as [[|d todo]|d cnt todo|d cnt todo|d cnt todo|cnt todo| | |err] eqn:Hm; [| | | | | | | |done].
  - destruct (w_closed _); intros [= <-]; apply goes_custody; [done|]. apply drop_custody. by destruct U.
  - destruct (w_closed _); intros [= <-]; by apply goes_custody.
  - unfold write_loop. destruct (cnt <? zlen d); [|destruct (cnt =? zlen d); intros [= <-]; by apply goes_custody].
    destruct (as_pipe s) as [l|]; [|intros [= <-]; by apply goes_custody].
    destruct (pipe_of _ _) as [p|]; [|done]. cbn [mbind option_bind]. destruct (zdrop d cnt) as [rest|]; [|done]. cbn [mbind option_bind].
    destruct (bp_Write p rest) as [[n err] p'].
    assert (U1 : custody (set_inPool (on_buf (fun _ => p') l (as_inPool s)) s))
      by (apply (still_custody s); try done; [by apply core_on_buf|apply U]).
    repeat case_decide; intros [= <-]; by apply goes_custody.
  - by apply write_get_custody.
  - intros [= <-]. by apply goes_custody, drop_custody.
  - destruct (checkErr s) as [[e s1]|] eqn:Ec; [|done]. cbn [mbind option_bind]. intros [= <-].
    eapply returned_custody, HC. reflexivity.
  - destruct (request_close ch (as_inPool s) C1) as (p & -> & C' & _ & _ & Hr & Ha). intros [= <-]. apply goes_custody.
    apply (still_custody s); try done; try apply U; unfold in_ready, in_active, ib; cbn; [by rewrite Hr|by rewrite Ha].
  - destruct (checkErr s) as [[e s1]|] eqn:Ec; [|done]. cbn [mbind option_bind]. pose proof (HC e s1 eq_refl) as U1.
    destruct (close_tail _ _ _) as [[[u e1]|p|] w]; intros [= <-]; [apply goes_custody|]; by destruct U1.
Qed.

Lemma custody_step s s' :
  custody s -> ((forall e, as_main s <> MDone e) -> 0 <= w_inSize (as_w s)) -> astep s s' -> as_crash s' = None -> custody s'.
Proof.
  intros U Hsz [lab H] Hc. unfold exec in H. destruct (as_crash s); [done|]. destruct lab as [ch fuel|ch fuel c|c e|ch|ch|ch].
  - eapply main_custody; [exact U| |exact H]. apply Hsz. intros e He. unfold main_step in H. by rewrite He in H.
  - by eapply worker_custody.
  - by eapply fail_custody.
  - by eapply end_custody.
  - by eapply writer_custody.
  - by eapply monitor_custody.
Qed.

End custody.
