(* ===== verification/AsyncCaller.v ===== *)
(** The asynchronous writer: what the other goroutines may do to the pipe that the
    caller fills. They close it, and they leave a closed one closed; they never
    fill it. So a pipe with room has room when the caller comes to write. *)

From S2P Require Import Prelude Bufpipe Pool PoolInv PoolWait PoolView PoolQuiet WorkerPool Lines Errs Liblzma SmallLzma Lib XzConst.
From S2P Require Import Literal World LibIndex Stream StreamPump PipePump Ioutil PipeClose Writer WriterBlock.
From S2P Require Import WriterSync WriterNew WriterSession AsyncWriter AsyncInv AsyncFlow AsyncMain AsyncWorkers AsyncMonitor AsyncOut.
From S2P Require Import AsyncEnd AsyncSettle AsyncCustody.

(** * The source of an encoding

    Of the pipe it reads from, an encoding moves the read pointer and nothing else. *)
Section source.
Context {BP : Bufpipe} {BC : BufpipeClose BP} {L : Liblzma} {E : Errs} {IU : Ioutil} {W : Type} {IW : IoWriter W}.
Context {BS : BufpipeSpec BP}.
Context (d r : loc) (Hdr : d <> r).

Definition shape (w : world) : option (Z * bool) := (fun p => (bp_Mode p, bp_Closed p)) <$> pipes w !! r.
Definition w_shape (w : Writer W) : option (Z * bool) := shape (w_world w).
Definition sw_shape (x : option Stream * Writer W) : option (Z * bool) := w_shape x.2.

Lemma shape_upd o f w : (forall p, bp_Mode (f p) = bp_Mode p /\ bp_Closed (f p) = bp_Closed p) \/ o <> Some r ->
  shape (pipe_upd o f w) = shape w.
Proof.
  intros H. unfold shape, pipe_upd. destruct o as [l|]; [|done]. cbn. rewrite lookup_alter. case_decide as Hl; [|done]. subst l.
  destruct H as [H|H]; [|done]. destruct (pipes w !! r) as [p|]; [|done]. cbn. by destruct (H p) as [-> ->].
Qed.

Lemma shape_world {A} (m : M world A) : stays shape m -> stays w_shape (on_world m).
Proof. intros H w. unfold on_world, zoom, w_shape. pose proof (H (w_world w)) as Hw. by destruct (m (w_world w)). Qed.

Lemma shape_pipe_other {A} (f : BufferPipe -> A * BufferPipe) : stays shape (on_pipe (Some d) f).
Proof.
  intros w. unfold on_pipe. destruct (pipes w !! d) as [p|]; [|done]. destruct (f p) as [a p']. unfold shape. cbn.
  by rewrite lookup_insert_ne.
Qed.

Lemma shape_of_pipe {A} l (f : BufferPipe -> A) : stays shape (of_pipe (Some l) f).
Proof. intros w. unfold of_pipe, on_pipe. destruct (pipes w !! l) as [p|] eqn:Hp; [|done]. unfold shape. cbn. by rewrite insert_id. Qed.

Lemma shape_block {A} b (m : M Block A) : stays shape (on_block b m).
Proof. intros w. unfold on_block. destruct (get_block w b) as [x|]; [|done]. by destruct (m x). Qed.

Lemma shape_of_block {A} b (f : Block -> A) : stays shape (of_block b f).
Proof. intros w. unfold of_block. by destruct (get_block w b). Qed.

Lemma shape_code act n bs x : exists y x1, CodeSlice act n bs x = (Ret y, x1) /\ shape x1.2 = shape x.2.
Proof. destruct x as [z w]. unfold CodeSlice, Code. mrun. by do 2 eexists. Qed.

Lemma shape_loop act (src : option loc) : src = Some r \/ src = None -> forall fuel inB outB o i x,
  shape (processpipe_loop fuel act (Some d) src inB outB o i x).2.2 = shape x.2.
Proof.
  intros Hsrc. induction fuel as [|fuel IH]; intros inB outB o i x; [done|]. cbn [processpipe_loop]. rewrite bind_get.
  destruct (match src with Some _ => pipe_ReadSlices _ src | None => _ end) as [[b1 b2] [err|]]; [done|].
  destruct (pipe_WriteSlices (snd x) (Some d)) as [[n1 n2] [err|]]; [done|].
  match goal with |- context [CodeSlice act ?n ?bs] => destruct (shape_code act n bs x) as ([[wrCnt rdCnt] err] & x1 & E0 & Hc) end.
  rewrite (bind_ret _ _ _ _ _ E0). destruct x1 as [z1 w1]. cbn [snd] in Hc.
  assert (Hsh : forall a b n, shape (pipe_WriteMark (Some d) n (pipe_ReadMark src b (pipe_Poke (Some d) a w1))) = shape w1).
  { intros a b n. unfold pipe_WriteMark, pipe_ReadMark, pipe_Poke. rewrite !shape_upd; [done|right; congruence| |right; congruence].
    left. intros p. by rewrite readmark_mode, readmark_closed. }
  cbv [mbind M_bind mret M_ret modify]. cbv beta iota zeta. destruct err as [e|]; [rewrite <- Hc; apply Hsh|].
  rewrite IH, <- Hc. apply Hsh.
Qed.

Lemma shape_pipe fuel act (src : option loc) : src = Some r \/ src = None -> stays sw_shape (stream_ProcessPipe fuel act (Some d) src : M (sw (W:=W)) _).
Proof.
  intros Hsrc [[z|] w]; [|done]. unfold stream_ProcessPipe, ProcessPipe.
  pose proof (shape_loop act src Hsrc fuel [] 0 0 0 (z, w_world w)) as H.
  destruct src as [l|]; destruct (processpipe_loop _ _ _ _ _ _ _ _ _) as [o [z' wd]]; exact H.
Qed.

Lemma shape_stream_End : stays sw_shape (stream_End (W:=W)).
Proof. by intros [[z|] w]. Qed.

Lemma shape_on_writer {A} (m : M (Writer W) A) : stays w_shape m -> stays sw_shape (on_writer m).
Proof. intros H [z w]. unfold on_writer. pose proof (H w). by destruct (m w). Qed.

Lemma shape_with_stream {A} z (m : M (sw (W:=W)) A) : stays sw_shape m -> stays w_shape (with_stream z m).
Proof. intros H w. unfold with_stream. pose proof (H (z, w)) as Hw. destruct (m (z, w)) as [x [z' w']]. exact Hw. Qed.

Lemma shape_on_stream {A} (m : M (sw (W:=W)) A) : stays sw_shape m -> stays w_shape (on_stream m).
Proof. intros H w. unfold on_stream. pose proof (H (w_stream w, w)) as Hw. destruct (m (w_stream w, w)) as [x [z' w']]. exact Hw. Qed.

Lemma shape_alloc b : stays shape (alloc_block b).
Proof. done. Qed.

Lemma shape_buffer {A} (m : M (list Z) A) : stays shape (on_buffer (Some d) m).
Proof.
  unfold on_buffer. apply stays_bind; [apply shape_of_pipe|]. intros buf. destruct (m (slice_bytes buf)) as [o bytes].
  apply stays_bind; [apply shape_pipe_other|intros ?; apply stays_call].
Qed.

Ltac shaped := repeat first
  [ progress intros
  | match goal with |- context [let '(_, _) := ?x in _] => destruct x end
  | match goal with |- context [if ?b then _ else _] => destruct b end
  | done
  | solve [eauto 2 with stays nocore]
  | apply shape_pipe; auto; fail | apply shape_stream_End | apply shape_of_pipe | apply shape_pipe_other | apply shape_buffer
  | apply shape_alloc | apply shape_block | apply shape_of_block
  | apply stays_bind | apply stays_defer | apply stays_recover
  | apply shape_with_stream | apply shape_on_stream | apply shape_on_writer | apply shape_world ].

Lemma encode_body_shape fuel : stays w_shape (encode_body fuel (Some d) (Some r) : M (Writer W) _).
Proof.
  unfold encode_body, blockEncode, blockInit, encode_stream, encode_literal, encode_header, upd_pipe. shaped.
Qed.
End source.

Section caller.
Context {BP : Bufpipe} {BC : BufpipeClose BP} {L : Liblzma} {E : Errs} {IU : Ioutil} {W : Type} {IW : IoWriter W}.
Context {BS : BufpipeSpec BP} {ES : ErrsSpec E}.
Context (w0 : Writer W).
Implicit Types (s : async W) (l m z : loc) (c : chan).

(** * What the others do *)

(** A pipe is as it was, or it was closed. *)
Definition calm_pipe (q q' : @pipe BP unit) : Prop :=
  bp_Mode (p_buf q') = bp_Mode (p_buf q) /\ (p_buf q' = p_buf q \/ bp_Closed (p_buf q') = true).
Definition calm (h h' : gmap loc (@pipe BP unit)) : Prop := forall l, option_Forall2 calm_pipe (h !! l) (h' !! l).
Definition lines (h : gmap loc (@pipe BP unit)) : Prop := forall l q, h !! l = Some q -> is_line (bp_Mode (p_buf q)).

Lemma calm_refl h : calm h h.
Proof. intros l. destruct (h !! l); constructor. split; [done|by left]. Qed.

Lemma calm_lines h h' : calm h h' -> lines h -> lines h'.
Proof.
  intros C Hl l q' Hq'. specialize (C l). rewrite Hq' in C. inversion C as [q q1 [Hm _] Hq Hq1|]; subst. rewrite Hm.
  by apply (Hl l q).
Qed.

Lemma calm_alter (f : BufferPipe -> BufferPipe) l (h : gmap loc (@pipe BP unit)) g :
  (forall q, p_buf (g q) = f (p_buf q)) ->
  (forall q, h !! l = Some q -> bp_Mode (f (p_buf q)) = bp_Mode (p_buf q) /\ bp_Closed (f (p_buf q)) = true) -> calm h (alter g l h).
Proof.
  intros Hg H l'. rewrite lookup_alter. case_decide as Hl; [subst l'|apply calm_refl].
  destruct (h !! l) as [q|] eqn:Hq; constructor. destruct (H q eq_refl) as [H1 H2]. split; rewrite Hg; [done|by right].
Qed.

Lemma calm_close l h : lines h -> calm h (alter close_pipe l h).
Proof.
  intros Hl. apply (calm_alter bp_Close); [done|]. intros q Hq. split; [apply close_mode|]. apply line_close, (Hl l q Hq).
Qed.

Lemma calm_trans h1 h2 h3 : calm h1 h2 -> calm h2 h3 -> calm h1 h3.
Proof.
  intros A B l. specialize (A l). specialize (B l).
  destruct (h1 !! l) as [q1|], (h2 !! l) as [q2|], (h3 !! l) as [q3|]; try (by inversion A); try (by inversion B); constructor.
  inversion A as [? ? [M1 P1]|]. inversion B as [? ? [M2 P2]|]. subst. split; [congruence|].
  destruct P2 as [P2|P2]; [|by right]. destruct P1 as [P1|P1]; [left; congruence|right; congruence].
Qed.

Lemma calm_close_set x h : lines h -> calm h (close_set x h).
Proof.
  intros Hl. unfold close_set. induction (map_to_list _).*2 as [|l ls IH]; [apply calm_refl|]. cbn [foldr].
  eapply calm_trans; [exact IH|]. by apply calm_close, (calm_lines h).
Qed.

(** * The caller's side *)

(** What the caller needs of the object, and that all pipes are lines. *)
Record caller_ok s : Prop := {
  ca_fields : (forall e, as_main s <> MDone e) -> w_inSize (as_w s) = w_inSize w0 /\ w_inMode (as_w s) = w_inMode w0;
  ca_lines : lines (heap (ib s));
}.

(** The others, as the caller sees them. *)
Record nearby s s' : Prop := Nearby {
  nb_main : as_main s' = as_main s /\ as_pipe s' = as_pipe s;
  nb_fields : fields (as_w s') = fields (as_w s);
  nb_pending : pending (as_inPool s') !! main_tid = pending (as_inPool s) !! main_tid;
  nb_heap : lines (heap (ib s)) -> calm (heap (ib s)) (heap (ib s'));
}.

Lemma nearby_caller s s' : caller_ok s -> nearby s s' -> caller_ok s'.
Proof.
  intros [H1 H2] [[N1 _] N2 N3 N4]. split; [|eapply calm_lines; eauto]. intros He. rewrite N1 in He. injection N2 as _ -> ->. auto.
Qed.

(** A step that leaves the input pool alone. *)
Lemma apart_nearby s s' : bystander s s' -> as_pipe s' = as_pipe s -> as_inPool s' = as_inPool s -> nearby s s'.
Proof. intros [B1 B2 _] Hp Hi. split; [done|done|by rewrite Hi|]. intros _. unfold ib. rewrite Hi. apply calm_refl. Qed.

Lemma pending_reader c ch (p p' : @psys BP unit) o :
  enter ch (worker_tid c) (CReader (-1)) p = Some (o, p') -> pending p' !! main_tid = pending p !! main_tid.
Proof.
  unfold enter. destruct (pending p !! worker_tid c); [case_decide; [|done]|]; intros [= _ <-]; cbn [pending];
    match goal with |- settle _ _ ?o _ !! _ = _ => destruct o as [[?|]| |] end; cbn; by rewrite ?lookup_delete_ne, ?lookup_insert_ne by done.
Qed.

Lemma with_pipes_src fuel dst src (w : Writer W) :
  let x := with_pipes dst src (encode_body fuel) w in
  bp_Mode x.2.1.2 = bp_Mode src /\ bp_Closed x.2.1.2 = bp_Closed src.
Proof.
  unfold with_pipes. set (w1 := set_wr_world _ _ w).
  pose proof (encode_body_shape 1%positive 2%positive ltac:(done) fuel w1) as H.
  destruct (encode_body fuel _ _ w1) as [o w']. cbn [snd fst] in H |- *. unfold w_shape, shape in H.
  assert (H2 : pipes (w_world w1) !! 2%positive = Some src) by done. rewrite H2 in H. cbn in H.
  destruct (pipes (w_world w') !! 2%positive) as [p|]; [|done]. cbn in *. by injection H as -> ->.
Qed.

Lemma encode_nearby fuel c l z m s s' :
  worker_encode fuel c l z m s = Some s' -> as_crash s' = None -> nearby s s'.
Proof.
  intros H. pose proof (encode_by _ _ _ _ _ _ _ H) as [B1 B2 _]. revert H. unfold worker_encode.
  destruct (pipe_of (as_inPool s) l) as [src|] eqn:Hsrc; [|done]. cbn [mbind option_bind].
  destruct (pipe_of (as_outPool s) m) as [dst|]; [|done]. cbn [mbind option_bind]. destruct (bp_Closed src) eqn:Hcl; [|done].
  pose proof (with_pipes_src fuel dst src (as_w s)) as Hs.
  destruct (with_pipes _ _ _ _) as [[[r err]|p|] [[dst' src'] w]]; [|by intros [= <-]|done]. cbn in Hs.
  assert (HC : calm (heap (ib s)) (heap (base (on_buf (fun _ => src') l (as_inPool s))))).
  { apply (calm_alter (fun _ => src')); [done|]. intros q Hq. unfold pipe_of in Hsrc. unfold ib in Hq. rewrite Hq in Hsrc.
    cbn in Hsrc. injection Hsrc as ->. destruct Hs as [-> ->]. by split. }
  intros [= <-] _. destruct r as [[u v]|]; (split; [done|exact B2|done|done]).
Qed.

Lemma worker_nearby ch fuel c s s' :
  custody s -> worker_step ch fuel c s = Some s' -> as_crash s' = None -> nearby s s'.
Proof.
  intros U H Hcr. pose proof (worker_by _ _ _ _ _ H) as B. pose proof B as [B1 B2 _]. pose proof (cu_in _ U) as C1. revert H.
  unfold worker_step. destruct (as_worker s !! c) as [pc|] eqn:Hc; [|done]. cbn [mbind option_bind].
  destruct pc as [|l z|l z m|l m err|l|].
  - destruct (enter ch (worker_tid c) (CReader (-1)) (as_inPool s)) as [[o q]|] eqn:E0; [|done]. cbn [mbind option_bind].
    pose proof (pending_reader c ch _ _ _ E0) as Hp. destruct (enter_reader _ _ _ _ _ _ C1 E0) as [C' Ho]. fold (ib s) in Ho.
    assert (Hh : match o with Ret _ => heap (base q) = heap (ib s) | _ => True end).
    { destruct o as [[[l|]|]|p|]; [|by destruct Ho as [[] _]|by destruct Ho|done|done]. by destruct Ho as (k & _ & []). }
    assert (HC : match o with Ret _ => calm (heap (ib s)) (heap (base q)) | _ => True end)
      by (destruct o as [r|p|]; [rewrite Hh; apply calm_refl|done|done]).
    destruct o as [[[l|]|]|p|]; intros [= <-]; [..|done]; (split; [done|exact B2|exact Hp|intros _; exact HC]).
  - intros H. apply apart_nearby; [exact B|..]; revert H;
      destruct (enter _ _ _ _) as [[[[[l'|]|]|p|] q]|]; cbn [mbind option_bind]; by intros [= <-].
  - intros H. by eapply encode_nearby.
  - intros [= <-]. by apply apart_nearby.
  - destruct (cu_holds _ U c _ l Hc eq_refl) as [k Hk].
    destruct (request ch (RRestore (Some l)) (as_inPool s)) as [o q] eqn:E0.
    destruct (request_eases _ _ _ _ _ E0) as (_ & Hp & _).
    destruct (request_restore ch l _ _ _ C1 (own_pipe _ l k C1 Hk) E0) as [C' Ho].
    destruct o as [u|p|]; intros [= <-]; [|done]. destruct Ho as (_ & _ & Hh & _). split; [done|done|cbn; by rewrite Hp|].
    intros Hl. unfold ib at 2. cbn. rewrite Hh. by apply calm_close.
  - intros H. apply apart_nearby; [exact B|..]; revert H; destruct (_ || _); by intros [= <-].
Qed.

Lemma monitor_nearby ch s s' : monitor_step ch s = Some s' -> as_crash s' = None -> nearby s s'.
Proof.
  intros H Hcr. pose proof (monitor_by _ _ _ H) as [B1 B2 _]. revert H. unfold monitor_step.
  destruct (as_monitor s) as [|op rest]; [done|].
  assert (HS : forall v, as_main v = as_main s -> fields (as_w v) = fields (as_w s) -> as_pipe v = as_pipe s -> as_inPool v = as_inPool s -> nearby s v).
  { intros v E0 E1 E2 E3. split; [done|done|by rewrite E3|]. intros _. unfold ib. rewrite E3. apply calm_refl. }
  destruct op as [n|n|n| | | |]; cbn [monitor_op].
  - unfold request. cbn [run_req]. intros [= <-]. split; try done. intros _. apply calm_refl.
  - destruct (request _ _ _) as [o q]. intros [= <-]. by apply HS.
  - destruct (WorkerPool.setCapacity _ _ _) as [[u|p|] wp]; intros [= <-]; [|done]. by apply HS.
  - intros H. assert (s' = set_monitor rest s) as -> by (destruct (as_doneChan _); congruence). by apply HS.
  - destruct (WorkerPool.terminate _) as [[u|p|] wp]; intros [= <-]; [|done]. by apply HS.
  - destruct (request _ _ _) as [o q]. intros [= <-]. by apply HS.
  - unfold request. cbn [run_req]. unfold Pool.terminate, close_pipes, wake_all, Pool.upd. mrun. intros [= <-]. split; try done.
    intros Hl. eapply calm_trans; [by apply calm_close_set|]. by apply calm_close_set, (calm_lines _ _ (calm_close_set _ _ Hl)).
Qed.

Lemma quiet_nearby lab s s' :
  match lab with LFail _ _ | LEnd _ | LWriter _ => True | _ => False end ->
  exec lab s = Some s' -> nearby s s'.
Proof.
  intros Hlab H. unfold exec in H. destruct (as_crash s); [done|]. destruct lab as [ch fuel|ch fuel c|c e|ch|ch|ch]; try done.
  - apply apart_nearby; [by eapply fail_by|..]; revert H; unfold worker_fail; destruct (as_worker s !! c) as [[]|]; try done;
      destruct (pipe_of _ _) as [src|]; try done; cbn [mbind option_bind]; destruct (bp_Closed src); by intros [= <-].
  - apply apart_nearby; [by eapply end_by|..]; revert H; unfold end_step; destruct (_ && _); try done;
      destruct (has_end _); [|by intros [= <-]| |by intros [= <-]]; destruct (request _ _ _); by intros [= <-].
  - pose proof (writer_by _ _ _ H) as B. assert (HP : as_pipe s' = as_pipe s /\ as_inPool s' = as_inPool s).
    { revert H. unfold writer_step. assert (HQ : forall p (v : async W), as_pipe v = as_pipe s -> as_inPool v = as_inPool s ->
        as_pipe (writer_panic p v) = as_pipe s /\ as_inPool (writer_panic p v) = as_inPool s)
        by (intros p v; unfold writer_panic; by destruct (errs_Recover p None)).
      destruct (as_writer s) as [j|j m|j m e|j m e1 e2|j|err| | |].
      - destruct (enter _ _ _ _) as [[[[[l|]|]|p|] q]|]; cbn [mbind option_bind]; intros [= <-]; first [done|by apply HQ].
      - destruct (pipe_of _ _) as [p|]; [|done]. cbn [mbind option_bind]. destruct (bp_Closed p); [|done].
        destruct (bp_WriteTo _ _) as [[n err] [p' wr]]. by intros [= <-].
      - intros [= <-]. unfold writer_append. destruct (stats_of m s) as [ss|]; [|done]. destruct (negb _); [|done].
        destruct (on_world _ _) as [[x|p|] w]; [done|by apply HQ|done].
      - destruct (request _ _ _) as [[u|p|] q]; [|intros [= <-]; by apply HQ|done].
        destruct (errs_Panic _); intros [= <-]; [done|by apply HQ].
      - destruct (enter _ _ _ _) as [[[[x|]|p|] q]|]; cbn [mbind option_bind]; [|by intros [= <-]|intros [= <-]; by apply HQ|done|done].
        destruct (errs_Assert _ _); intros [= <-]; [done|by apply HQ].
      - destruct (send err (as_errChan s)) as [c|]; [|done]. cbn [mbind option_bind]. by intros [= <-].
      - by intros [= <-].
      - by intros [= <-].
      - done. }
    apply apart_nearby; [exact B|apply HP|apply HP].
Qed.

(** * A pipe with room *)

(** The next [Write] to the pipe makes progress, or fails. *)
Definition room (h : gmap loc (@pipe BP unit)) (l : loc) : bool :=
  match h !! l with
  | Some q => bp_Closed (p_buf q) || (bp_wrPtr (p_buf q) <? bp_Capacity (p_buf q))
  | None => true
  end.

Lemma calm_room h h' l : calm h h' -> room h l = true -> room h' l = true.
Proof.
  intros C. specialize (C l). unfold room. destruct C as [q q' [_ [->|Hc]]|]; [done| |done]. by rewrite Hc.
Qed.

(** ** The caller's own steps *)

Lemma lines_alter (f : @pipe BP unit -> @pipe BP unit) l (h : gmap loc (@pipe BP unit)) :
  lines h -> (forall q, h !! l = Some q -> is_line (bp_Mode (p_buf (f q)))) -> lines (alter f l h).
Proof.
  intros Hl Hf l' q'. rewrite lookup_alter. case_decide as Hd; [subst l'|by apply Hl].
  destruct (h !! l) as [q|] eqn:Hq; [|done]. intros [= <-]. by apply Hf.
Qed.

Lemma goes_caller pc s : caller_ok s -> (forall e, as_main s <> MDone e) -> caller_ok (set_main pc s).
Proof. intros [H1 H2] Hn. split; [|done]. intros _. by apply H1. Qed.

Lemma drop_caller s : caller_ok s -> caller_ok (drop_pipe s).
Proof.
  intros [H1 H2]. unfold drop_pipe. destruct (as_pipe s) as [l|]; [|done]. split; [done|]. apply lines_alter; [done|].
  intros q Hq. cbn. rewrite close_mode. by apply (H2 l q).
Qed.

Lemma write_mode (p : BufferPipe) bs : is_line (bp_Mode p) -> bp_Mode (bp_Write p bs).2 = bp_Mode p.
Proof.
  intros Hl. destruct (bp_Closed p) eqn:Hc; [by rewrite line_write_closed|]. pose proof (line_write p bs Hl Hc) as Hw.
  destruct (bp_Write p bs) as [[n err] p']. by destruct Hw as (_ & _ & _ & _ & ? & _).
Qed.

Lemma loop_caller d cnt todo s s' :
  caller_ok s -> (forall e, as_main s <> MDone e) -> write_loop d cnt todo s = Some s' -> caller_ok s'.
Proof.
  intros G Hn. unfold write_loop. destruct (cnt <? zlen d); [|destruct (cnt =? zlen d); intros [= <-]; by apply goes_caller].
  destruct (as_pipe s) as [l|]; [|intros [= <-]; by apply goes_caller].
  destruct (pipe_of _ _) as [p|] eqn:Hp; [|done]. cbn [mbind option_bind]. destruct (zdrop d cnt) as [rest|]; [|done].
  cbn [mbind option_bind]. pose proof (write_mode p rest) as Hm. destruct (bp_Write p rest) as [[n err] p']. cbn in Hm.
  assert (G1 : caller_ok (set_inPool (on_buf (fun _ => p') l (as_inPool s)) s)).
  { destruct G as [H1 H2]. split; [done|]. apply lines_alter; [done|]. intros q Hq. unfold pipe_of in Hp. unfold ib in Hq.
    rewrite Hq in Hp. injection Hp as <-. pose proof (H2 l q Hq) as Hl. cbn. by rewrite Hm. }
  repeat case_decide; intros [= <-]; by apply goes_caller.
Qed.

Lemma get_caller ch d cnt todo s s' :
  w_inMode w0 = LineDual -> 0 <= w_inSize w0 -> custody s -> caller_ok s -> (forall e, as_main s <> MDone e) ->
  write_get ch d cnt todo s = Some s' -> caller_ok s'.
Proof.
  intros Hmode Hsize U G Hn. pose proof G as [H1 H2]. destruct (H1 Hn) as [Hs Hm]. unfold write_get.
  destruct (enter _ _ _ _) as [[o p]|] eqn:E0; [|done]. cbn [mbind option_bind].
  destruct (get_total ch (w_inMode (as_w s)) s o p U ltac:(lia) E0) as [r ->]. destruct (enter_writer _ _ _ _ _ _ _ _ _ (cu_in _ U) E0) as [_ Ho].
  fold (ib s) in Ho. assert (HS : same_store (ib s) (base p) -> caller_ok (set_inPool p s)).
  { intros S. split; [done|]. unfold ib. cbn. by rewrite (ss_heap _ _ S). }
  destruct r as [[l|]|]; intros [= <-]; [|destruct Ho; by apply goes_caller; [apply HS|]|by apply HS].
  apply goes_caller; [|done]. split; [done|]. intros l' q'. unfold ib. cbn. destruct (decide (l' = l)) as [->|Hne].
  - destruct (np_pipe _ _ _ _ _ _ _ Ho) as (q & Hq & _ & _ & Hf). rewrite Hq. intros [= <-].
    destruct Hf as (_ & -> & _); [lia|]. rewrite Hm, Hmode. by right.
  - rewrite (np_heap _ _ _ _ _ _ _ Ho) by done. apply H2.
Qed.

Lemma main_caller ch fuel s s' :
  w_inMode w0 = LineDual -> 0 <= w_inSize w0 -> custody s -> caller_ok s -> main_step ch fuel s = Some s' -> as_crash s' = None -> caller_ok s'.
Proof.
  intros Hmode Hsize U G. assert (Hn : main_step ch fuel s = Some s' -> forall e, as_main s <> MDone e).
  { intros H e He. unfold main_step in H. by rewrite He in H. }
  intros H. specialize (Hn H). revert H. unfold main_step.
  assert (HC : forall err s1, checkErr s = Some (err, s1) -> caller_ok s1 /\ as_main s1 = as_main s).
  { intros err s1. unfold checkErr. destruct (as_lastErr s); [by intros [= _ <-]|].
    destruct (receive _) as [[e c]|]; [|done]. cbn [mbind option_bind]. intros [= _ <-]. by destruct G. }
  destruct (as_main s) as [[|d todo]|d cnt todo|d cnt todo|d cnt todo|cnt todo| | |err] eqn:Hm; [| | | | | | | |done];
    rewrite <- Hm in Hn.
  - destruct (w_closed _); intros [= <-] _; [by apply goes_caller|]. apply goes_caller.
    + apply drop_caller. destruct G as [H1 H2]. by split.
    + unfold drop_pipe. cbn. by destruct (as_pipe s).
  - destruct (w_closed _); intros [= <-] _; by apply goes_caller.
  - intros H _. by eapply loop_caller.
  - intros H _. by eapply get_caller.
  - intros [= <-] _. apply goes_caller; [by apply drop_caller|]. unfold drop_pipe. by destruct (as_pipe s).
  - destruct (checkErr s) as [[e s1]|] eqn:Ec; [|done]. cbn [mbind option_bind]. destruct (HC _ _ eq_refl) as [G1 Hm1]. rewrite Hm, <- Hm1 in Hn.
    intros [= <-] _. destruct (write_stop e cnt).1 as [[n [e'|]]|p|]; cbn [returned]; [by apply goes_caller..| |done]. by destruct G1.
  - destruct (request_close ch (as_inPool s) (cu_in _ U)) as (p & -> & _ & _ & Hh & _). intros [= <-] _. apply goes_caller; [|done].
    destruct G as [H1 H2]. split; [done|]. unfold ib. cbn. by rewrite Hh.
  - destruct (checkErr s) as [[e s1]|] eqn:Ec; [|done]. cbn [mbind option_bind]. destruct (HC _ _ eq_refl) as [[K1 K2] Hm1].
    destruct (close_tail _ _ _) as [[[u e1]|p|] w]; intros [= <-] Hcr; [|done]. split; [|done]. intros Hd. by destruct (Hd e1).
Qed.

End caller.
