(* ===== verification/AsyncCost.v ===== *)
(** The asynchronous writer: a bound on the work that a state still allows. Every
    step of a worker, of the writer and of the monitor lowers it, or puts a
    goroutine that was released in vain back to sleep. *)

From S2P Require Import Prelude Bufpipe Pool PoolInv PoolWait PoolView PoolQuiet PoolWork WorkerPool Lines Errs Liblzma SmallLzma Lib XzConst.
From S2P Require Import Literal World LibIndex Stream StreamPump PipePump Ioutil PipeClose Writer WriterBlock.
From S2P Require Import WriterSync WriterNew WriterSession WriterTotal AsyncWriter AsyncInv AsyncFlow AsyncMain AsyncWorkers AsyncMonitor AsyncOut.
From S2P Require Import AsyncLive AsyncEnd AsyncSettle AsyncCustody AsyncCaller.

Section cost.
Context {BP : Bufpipe} {BC : BufpipeClose BP} {L : Liblzma} {E : Errs} {IU : Ioutil} {W : Type} {IW : IoWriter W}.
Context {BS : BufpipeSpec BP} {ES : ErrsSpec E}.
Implicit Types (s : async W) (k : Z) (l m z : loc) (c : chan).

(** * The bound

    A ready pipe stands for the work of the goroutine that takes it. A byte that
    the caller has yet to write may fill a pipe, or find it full, and each costs a
    pipe of the input pool, which is what a worker and the writer do for it. *)

(** ** The caller *)

Definition calls (todo : list (list Z)) : Z := 19 * zlen (concat todo) + 20 * zlen todo + 3.
Definition inside (d : list Z) (cnt : Z) (todo : list (list Z)) : Z := 19 * (zlen d - cnt) + calls todo.
Definition at_loop s : Z :=
  match as_pipe s with
  | Some l => if room (heap (ib s)) l then 1 else 19
  | None => 17
  end.

Definition caller_cost s : Z :=
  match as_main s with
  | MNext todo => calls todo
  | MLoop d cnt todo => inside d cnt todo + at_loop s
  | MGet d cnt todo => inside d cnt todo + 15 + may_sleep main_tid (as_inPool s)
  | MFull d cnt todo => inside d cnt todo + 18
  | MStop _ todo => calls todo + 1
  | MShut => 2
  | MWait => 1
  | MDone _ => 0
  end.

(** ** The others *)

Definition worker_cost s c (pc : worker_pc) : Z :=
  match pc with
  | KGet => 1 + may_sleep (worker_tid c) (as_inPool s)
  | KOut _ _ => 12 + may_sleep (worker_tid c) (as_outPool s)
  | KEncode _ _ _ => 6
  | KClose _ _ _ => 5
  | KRestore _ => 4
  | KSelect => 3
  end.
Definition crew s : Z := msum (worker_cost s) (as_worker s).

Definition writer_cost s : Z :=
  match as_writer s with
  | WGet _ => 6 + may_sleep writer_tid (as_outPool s)
  | WWrite _ _ => 10
  | WAppend _ _ _ => 9
  | WRestore _ _ _ _ => 8
  | WLast _ => 4 + may_sleep writer_tid (as_outPool s)
  | WSend _ => 3
  | WClose => 2
  | WDone => 1
  | WEnd => 0
  end.

Fixpoint monitor_cost (ops : list mon_op) : Z :=
  match ops with
  | [] => 0
  | NWork n :: ops => 1 + 2 * n + monitor_cost ops
  | _ :: ops => 1 + monitor_cost ops
  end.

Definition cost s : Z :=
  caller_cost s + crew s + writer_cost s + monitor_cost (as_monitor s) + naps (as_workPool s) +
  13 * stock (ib s) + 5 * stock (ob s).

(** The released goroutines of both pools. *)
Definition awake s : nat := (wakes (ib s) + wakes (ob s))%nat.

Definition tires s s' : Prop := cost s' < cost s \/ cost s' <= cost s /\ (awake s' < awake s)%nat.

(** ** The bound is not negative *)

Lemma worker_cost_range s c pc : 0 <= worker_cost s c pc /\ worker_cost s c KGet <= 2.
Proof.
  pose proof (may_sleep_range (worker_tid c) (as_inPool s)). pose proof (may_sleep_range (worker_tid c) (as_outPool s)).
  destruct pc; cbn; lia.
Qed.

Lemma monitor_cost_nonneg ops : ops = [] \/ leads ops -> 0 <= monitor_cost ops.
Proof.
  induction ops as [|op ops IH]; [done|]. intros [?|Hl]; [done|]. pose proof (leads_cons _ _ Hl) as Hr.
  assert (0 <= monitor_cost ops) by (apply IH; destruct Hr as [[-> _]|Hr]; auto).
  destruct op; cbn; try lia. assert (0 <= n) by (destruct ops; apply Hl). lia.
Qed.

Lemma calls_nonneg todo : 3 <= calls todo.
Proof. unfold calls. pose proof (zlen_nonneg (concat todo)). pose proof (zlen_nonneg todo). lia. Qed.

Lemma cost_nonneg s : lawful s -> 0 <= cost s.
Proof.
  intros G. unfold cost. pose proof (stock_nonneg (ib s)). pose proof (stock_nonneg (ob s)). pose proof (naps_nonneg (as_workPool s)).
  assert (0 <= crew s) by (apply msum_nonneg; intros c pc; apply worker_cost_range).
  assert (0 <= monitor_cost (as_monitor s)) by (apply monitor_cost_nonneg; destruct (lw_monitor _ G) as [[? _]|?]; auto).
  assert (0 <= writer_cost s).
  { unfold writer_cost. pose proof (may_sleep_range writer_tid (as_outPool s)). destruct (as_writer s); lia. }
  assert (0 <= caller_cost s); [|lia]. unfold caller_cost, inside. pose proof (lw_cnt _ G) as Hc.
  assert (0 <= at_loop s) by (unfold at_loop; destruct (as_pipe s) as [l|]; [destruct (room _ l)|]; lia).
  pose proof (may_sleep_range main_tid (as_inPool s)).
  destruct (as_main s) as [todo|d cnt todo|d cnt todo|d cnt todo|cnt todo| | |err]; try lia;
    pose proof (calls_nonneg todo); try lia; pose proof (Hc d cnt eq_refl); lia.
Qed.

(** ** The parts that a step leaves alone *)

(** Only the goroutine [t] began or ended a sleep. *)
Definition stirs (t : tid) s s' : Prop :=
  forall u, u <> t ->
    may_sleep u (as_inPool s') = may_sleep u (as_inPool s) /\ may_sleep u (as_outPool s') = may_sleep u (as_outPool s).

Lemma caller_cost_nearby s s' : lines (heap (ib s)) -> nearby s s' -> caller_cost s' <= caller_cost s.
Proof.
  intros Hl [[N1 N2] _ N3 N4]. specialize (N4 Hl). unfold caller_cost, at_loop. rewrite N1, N2.
  assert (may_sleep main_tid (as_inPool s') = may_sleep main_tid (as_inPool s)) as -> by (unfold may_sleep; by rewrite N3).
  destruct (as_main s); try lia. destruct (as_pipe s) as [l|]; [|lia]. pose proof (calm_room _ _ l N4) as Hr.
  destruct (room (heap (ib s)) l); [by rewrite Hr|destruct (room _ l); lia].
Qed.

Lemma worker_cost_stirs t s s' c pc : stirs t s s' -> worker_tid c <> t -> worker_cost s' c pc = worker_cost s c pc.
Proof. intros H Hne. destruct (H _ Hne) as [H1 H2]. destruct pc; cbn; lia. Qed.

Lemma crew_stirs t s s' : stirs t s s' -> (forall c, worker_tid c <> t) -> msum (worker_cost s') (as_worker s) = crew s.
Proof. intros H Hne. apply msum_ext. intros c pc _. by eapply worker_cost_stirs. Qed.

Lemma writer_cost_stirs t s s' : stirs t s s' -> writer_tid <> t -> as_writer s' = as_writer s -> writer_cost s' = writer_cost s.
Proof. intros H Hne Hw. destruct (H _ Hne) as [_ H2]. unfold writer_cost. by rewrite Hw, H2. Qed.

Lemma stirs_none t s s' :
  pending (as_inPool s') = pending (as_inPool s) -> pending (as_outPool s') = pending (as_outPool s) -> stirs t s s'.
Proof. intros H1 H2 u _. unfold may_sleep. by rewrite H1, H2. Qed.

(** * A worker *)

(** The worker [c] went from the point [pc] to another one, or returned. *)
Record works c pc (new : option worker_pc) s s' : Prop := Works {
  wk_at : as_worker s !! c = Some pc;
  wk_workers : as_worker s' = match new with Some pc' => <[c := pc']> (as_worker s) | None => delete c (as_worker s) end;
  wk_stirs : stirs (worker_tid c) s s';
  wk_rest : as_writer s' = as_writer s /\ as_monitor s' = as_monitor s /\ naps (as_workPool s') = naps (as_workPool s);
}.

Lemma works_cost c pc new s s' :
  lines (heap (ib s)) -> nearby s s' -> works c pc new s s' ->
  cost s' - cost s <= match new with Some pc' => worker_cost s' c pc' | None => 0 end - worker_cost s c pc +
    13 * (stock (ib s') - stock (ib s)) + 5 * (stock (ob s') - stock (ob s)).
Proof.
  intros Hl N [H1 H2 H3 (H4 & H5 & H6)]. pose proof (caller_cost_nearby _ _ Hl N) as Hc.
  destruct (worker_tid_ne c) as [_ Hne]. pose proof (writer_cost_stirs _ _ _ H3 ltac:(congruence) H4) as Hw.
  unfold cost. rewrite Hw, H5, H6.
  assert (Hr : msum (worker_cost s') (delete c (as_worker s)) = msum (worker_cost s) (delete c (as_worker s))).
  { apply msum_ext. intros c' pc' [Hcc _]%lookup_delete_Some. eapply worker_cost_stirs; [done|]. intros ?%worker_tid_inj. congruence. }
  assert (Hs : crew s = worker_cost s c pc + msum (worker_cost s) (delete c (as_worker s))) by (by apply msum_delete).
  unfold crew at 1. rewrite H2. destruct new as [pc'|]; [|lia].
  rewrite <- insert_delete_eq, msum_insert by apply lookup_delete_eq. lia.
Qed.

Lemma stirs_in ch t x s s' o :
  enter ch t x (as_inPool s) = Some (o, as_inPool s') -> as_outPool s' = as_outPool s -> stirs t s s'.
Proof. intros H1 H2 u Hne. rewrite H2. split; [by eapply enter_others|done]. Qed.

Lemma stirs_out ch t x s s' o :
  enter ch t x (as_outPool s) = Some (o, as_outPool s') -> as_inPool s' = as_inPool s -> stirs t s s'.
Proof. intros H1 H2 u Hne. rewrite H2. split; [done|by eapply enter_others]. Qed.

(** A goroutine goes to sleep, or back to sleep. *)
Lemma sleeps_in ch t x s s' :
  enter ch t x (as_inPool s) = Some (Ret None, as_inPool s') -> as_outPool s' = as_outPool s ->
  cost s' - cost s <= may_sleep t (as_inPool s') - may_sleep t (as_inPool s) -> tires s s'.
Proof.
  intros H1 H2 Hc. destruct (enter_sleeps _ _ _ _ _ H1) as [E1 [E2|[E2 Hw]]]; [left; lia|right]. split; [lia|].
  unfold awake, ib, ob. rewrite H2. lia.
Qed.

Lemma sleeps_out ch t x s s' :
  enter ch t x (as_outPool s) = Some (Ret None, as_outPool s') -> as_inPool s' = as_inPool s ->
  cost s' - cost s <= may_sleep t (as_outPool s') - may_sleep t (as_outPool s) -> tires s s'.
Proof.
  intros H1 H2 Hc. destruct (enter_sleeps _ _ _ _ _ H1) as [E1 [E2|[E2 Hw]]]; [left; lia|right]. split; [lia|].
  unfold awake, ib, ob. rewrite H2. lia.
Qed.

Lemma stock_on_buf {D} (f : BufferPipe -> BufferPipe) l (p : @psys BP D) : stock (base (on_buf f l p)) = stock (base p).
Proof. done. Qed.

(** The cost of a point, but for the sleep. *)
Definition point_cost (pc : worker_pc) : Z :=
  match pc with KGet => 1 | KOut _ _ => 12 | KEncode _ _ _ => 6 | KClose _ _ _ => 5 | KRestore _ => 4 | KSelect => 3 end.
Definition sleep_cost (pc : worker_pc) : Z := match pc with KGet | KOut _ _ => 1 | _ => 0 end.

Lemma point_cost_range s c pc : point_cost pc <= worker_cost s c pc <= point_cost pc + sleep_cost pc.
Proof.
  pose proof (may_sleep_range (worker_tid c) (as_inPool s)). pose proof (may_sleep_range (worker_tid c) (as_outPool s)).
  destruct pc; cbn; lia.
Qed.

Lemma works_tires c pc new s s' :
  lines (heap (ib s)) -> nearby s s' -> works c pc new s s' ->
  match new with Some pc' => point_cost pc' + sleep_cost pc' | None => 0 end + 13 * stock (ib s') + 5 * stock (ob s') <
    point_cost pc + 13 * stock (ib s) + 5 * stock (ob s) -> tires s s'.
Proof.
  intros Hl N K H. left. pose proof (works_cost _ _ _ _ _ Hl N K) as HC. pose proof (point_cost_range s c pc).
  destruct new as [pc'|]; [|lia]. pose proof (point_cost_range s' c pc'). lia.
Qed.

#[local] Hint Resolve stirs_in stirs_out stirs_none : core.

(** The worker [c] goes on to the point [pc']. *)
Lemma onward_tires c pc pc' s s' :
  lines (heap (ib s)) -> nearby s s' -> as_worker s !! c = Some pc -> as_worker s' = <[c := pc']> (as_worker s) ->
  stirs (worker_tid c) s s' -> as_writer s' = as_writer s /\ as_monitor s' = as_monitor s /\ as_workPool s' = as_workPool s ->
  point_cost pc' + sleep_cost pc' + 13 * stock (base (as_inPool s')) + 5 * stock (base (as_outPool s')) <
    point_cost pc + 13 * stock (base (as_inPool s)) + 5 * stock (base (as_outPool s)) -> tires s s'.
Proof.
  intros Hl N Hc Hw Hs (H1 & H2 & H3) H. apply (works_tires c pc (Some pc')); [done|done| |exact H].
  split; try done. by rewrite H3.
Qed.

(** The same, when no pipe became ready and none was taken. *)
Lemma onward_same c pc pc' s s' :
  lines (heap (ib s)) -> nearby s s' -> as_worker s !! c = Some pc -> as_worker s' = <[c := pc']> (as_worker s) ->
  stirs (worker_tid c) s s' -> as_writer s' = as_writer s /\ as_monitor s' = as_monitor s /\ as_workPool s' = as_workPool s ->
  stock (base (as_inPool s')) = stock (base (as_inPool s)) -> stock (base (as_outPool s')) = stock (base (as_outPool s)) ->
  point_cost pc' + sleep_cost pc' < point_cost pc -> tires s s'.
Proof. intros Hl N Hc Hw Hs Hr E1 E2 H. apply (onward_tires c pc pc'); try done. lia. Qed.

Lemma return_tires c pc s s1 :
  lines (heap (ib s)) -> nearby s (worker_return c s1) -> as_worker s !! c = Some pc -> as_worker s1 = as_worker s ->
  stirs (worker_tid c) s s1 -> as_writer s1 = as_writer s /\ as_monitor s1 = as_monitor s /\ as_workPool s1 = as_workPool s ->
  stock (base (as_inPool s1)) = stock (base (as_inPool s)) -> as_outPool s1 = as_outPool s -> tires s (worker_return c s1).
Proof.
  intros Hl N Hc Hw Hs (H1 & H2 & H3) H4 H5. apply (works_tires c pc None); [done|done| |].
  - split; try done; cbn; [by rewrite Hw|by rewrite H3].
  - unfold ib, ob. cbn. rewrite H4, H5. destruct pc; cbn; lia.
Qed.

Lemma worker_tires ch fuel c s s' :
  custody s -> lines (heap (ib s)) -> worker_step ch fuel c s = Some s' -> as_crash s' = None -> tires s s'.
Proof.
  intros U Hl H Hcr. pose proof (worker_nearby _ _ _ _ _ U H Hcr) as N. revert H Hcr.
  unfold worker_step. destruct (as_worker s !! c) as [pc|] eqn:Hc; [|done]. cbn [mbind option_bind].
  destruct pc as [|l z|l z m|l m err|l|].
  - destruct (enter ch (worker_tid c) (CReader (-1)) (as_inPool s)) as [[o q]|] eqn:E0; [|done]. cbn [mbind option_bind].
    pose proof (enter_reader_stock _ _ _ _ _ _ (cu_in _ U) E0) as Hst.
    destruct o as [[[l|]|]|p|]; intros [= <-] Hcr; [| | |done].
    + eapply (onward_tires c); try done; [by eauto|]. cbn in *. lia.
    + eapply (return_tires c); try done; [by eauto|]. cbn in *. lia.
    + eapply (sleeps_in ch); [exact E0|done|].
      pose proof (works_cost c KGet (Some KGet) s _ Hl N) as HC. unfold ib, ob in *. cbn in *.
      enough (works c KGet (Some KGet) s (set_inPool q s)) by (specialize (HC H); lia).
      split; try done; [cbn; by rewrite insert_id|by eauto].
  - destruct (enter ch (worker_tid c) _ (as_outPool s)) as [[o q]|] eqn:E0; [|done]. cbn [mbind option_bind].
    destruct o as [r|p|]; [|by intros [= <-]|done].
    pose proof (enter_writer_stock _ _ _ _ _ _ _ _ _ (cu_out _ U) E0) as Hst.
    destruct r as [[m|]|]; intros [= <-] Hcr.
    + eapply (onward_tires c); try done; [by eauto|]. cbn in *. lia.
    + eapply (onward_tires c); try done; [by eauto|]. cbn in *. lia.
    + eapply (sleeps_out ch); [exact E0|done|].
      pose proof (works_cost c (KOut l z) (Some (KOut l z)) s _ Hl N) as HC. unfold ib, ob in *. cbn in *.
      enough (works c (KOut l z) (Some (KOut l z)) s (set_outPool q s)) by (specialize (HC H); lia).
      split; try done; [cbn; by rewrite insert_id|by eauto].
  - unfold worker_encode. destruct (pipe_of (as_inPool s) l) as [src|]; [|done]. cbn [mbind option_bind].
    destruct (pipe_of (as_outPool s) m) as [dst|]; [|done]. cbn [mbind option_bind]. destruct (bp_Closed src); [|done].
    destruct (with_pipes _ _ _ _) as [[[r err]|p|] [[dst' src'] w]]; [|by intros [= <-]|done].
    destruct r as [[u v]|]; intros [= <-] _; by eapply (onward_same c).
  - intros [= <-] _. by eapply (onward_same c).
  - destruct (cu_holds _ U c _ l Hc eq_refl) as [k Hk].
    destruct (request ch (RRestore (Some l)) (as_inPool s)) as [o q] eqn:E0.
    destruct (restore_stock ch l _ _ _ (cu_in _ U) (own_pipe _ l k (cu_in _ U) Hk) E0) as [Hst Hp].
    destruct o as [u|p|]; intros [= <-] Hcr; [|done]. eapply (onward_same c); try done. by apply stirs_none.
  - destruct (_ || _); intros [= <-] _; [by eapply (return_tires c)|]. by eapply (onward_same c).
Qed.

Lemma fail_tires c e s s' : lines (heap (ib s)) -> nearby s s' -> worker_fail c e s = Some s' -> tires s s'.
Proof.
  intros Hl N. unfold worker_fail. destruct (as_worker s !! c) as [pc|] eqn:Hc; [|done]. destruct pc as [| |l z m| | |]; try done.
  destruct (pipe_of _ _) as [src|]; [|done]. cbn [mbind option_bind]. destruct (bp_Closed src); intros [= <-].
  by eapply (onward_same c).
Qed.

(** * The other goroutines *)

Lemma aside_cost s s' :
  lines (heap (ib s)) -> nearby s s' -> stirs writer_tid s s' -> as_worker s' = as_worker s ->
  cost s' - cost s <= (writer_cost s' - writer_cost s) + (monitor_cost (as_monitor s') - monitor_cost (as_monitor s)) +
    (naps (as_workPool s') - naps (as_workPool s)) +
    13 * (stock (base (as_inPool s')) - stock (base (as_inPool s))) + 5 * (stock (base (as_outPool s')) - stock (base (as_outPool s))).
Proof.
  intros Hl N Hs Hw. pose proof (caller_cost_nearby _ _ Hl N).
  assert (Hc : crew s' = crew s) by (unfold crew at 1; rewrite Hw; eapply crew_stirs; [done|]; intros c; apply worker_tid_ne).
  unfold cost, ib, ob. lia.
Qed.

Lemma end_tires ch s s' : lines (heap (ib s)) -> nearby s s' -> end_step ch s = Some s' -> tires s s'.
Proof.
  intros Hl N. unfold end_step. destruct (_ && _) eqn:Hg; [|done]. apply andb_true_iff in Hg as [Hg _].
  assert (Hn : naps (monitor_end (as_workPool s)) = naps (as_workPool s) - 1)
    by (unfold naps; rewrite Hg; cbn; lia).
  destruct (has_end _); intros [= <-]; left; pose proof (aside_cost s _ Hl N ltac:(by apply stirs_none) eq_refl) as HC;
    unfold writer_cost in HC; cbn in HC; rewrite Hn in HC; unfold may_sleep, stock in *; cbn in *; lia.
Qed.

(** ** The writer *)

(** The writer goes on. *)
Lemma passes_tires s s' :
  lines (heap (ib s)) -> nearby s s' -> stirs writer_tid s s' -> as_worker s' = as_worker s ->
  as_monitor s' = as_monitor s /\ as_workPool s' = as_workPool s /\ as_inPool s' = as_inPool s ->
  writer_cost s' + 5 * stock (base (as_outPool s')) < writer_cost s + 5 * stock (base (as_outPool s)) -> tires s s'.
Proof.
  intros Hl N Hs Hw (H1 & H2 & H3) H. left. pose proof (aside_cost _ _ Hl N Hs Hw) as HC. rewrite H1, H2, H3 in HC. lia.
Qed.

Definition writer_point (pc : writer_pc) : Z :=
  match pc with
  | WGet _ => 6 | WWrite _ _ => 10 | WAppend _ _ _ => 9 | WRestore _ _ _ _ => 8 | WLast _ => 4
  | WSend _ => 3 | WClose => 2 | WDone => 1 | WEnd => 0
  end.
Definition writer_slack (pc : writer_pc) : Z := match pc with WGet _ | WLast _ => 1 | _ => 0 end.

Lemma writer_cost_range s :
  writer_point (as_writer s) <= writer_cost s <= writer_point (as_writer s) + writer_slack (as_writer s).
Proof. unfold writer_cost. pose proof (may_sleep_range writer_tid (as_outPool s)). destruct (as_writer s); cbn; lia. Qed.

Lemma passes_point s s' :
  lines (heap (ib s)) -> nearby s s' -> stirs writer_tid s s' -> as_worker s' = as_worker s ->
  as_monitor s' = as_monitor s /\ as_workPool s' = as_workPool s /\ as_inPool s' = as_inPool s ->
  stock (base (as_outPool s')) <= stock (base (as_outPool s)) ->
  writer_point (as_writer s') + writer_slack (as_writer s') < writer_point (as_writer s) -> tires s s'.
Proof.
  intros Hl N Hs Hw Hr Hst H. apply passes_tires; try done. pose proof (writer_cost_range s). pose proof (writer_cost_range s'). lia.
Qed.

(** A panic of the writer that is recovered. *)
Lemma panics_tires p s s1 :
  lines (heap (ib s)) -> nearby s (writer_panic p s1) -> as_crash (writer_panic p s1) = None ->
  stirs writer_tid s s1 -> as_worker s1 = as_worker s ->
  as_monitor s1 = as_monitor s /\ as_workPool s1 = as_workPool s /\ as_inPool s1 = as_inPool s ->
  stock (base (as_outPool s1)) <= stock (base (as_outPool s)) -> 3 < writer_point (as_writer s) -> tires s (writer_panic p s1).
Proof.
  unfold writer_panic. intros Hl N Hcr Hs Hw Hr Hst H. destruct (errs_Recover p None); [|done]. by apply passes_point.
Qed.

Lemma append_tires index m wrErr s :
  lines (heap (ib s)) -> nearby s (writer_append index m wrErr s) -> as_writer s = WAppend index m wrErr ->
  as_crash (writer_append index m wrErr s) = None -> tires s (writer_append index m wrErr s).
Proof.
  intros Hl N Hw. assert (HP : forall v, nearby s v -> as_worker v = as_worker s -> as_monitor v = as_monitor s -> as_workPool v = as_workPool s ->
    as_inPool v = as_inPool s -> as_outPool v = as_outPool s -> as_writer v = WRestore index m wrErr None \/ (exists e, as_writer v = WRestore index m wrErr e) ->
    tires s v).
  { intros v Nv E1 E2 E3 E4 E5 H. apply passes_point; try done; [apply stirs_none; congruence|by rewrite E5|]. rewrite Hw.
    by destruct H as [->|[e ->]]. }
  revert N. unfold writer_append. destruct (stats_of m s) as [ss|]; [|intros N _; apply HP; auto].
  destruct (negb _); [|intros N _; apply HP; auto].
  assert (Hf : fuelless (on_world (Index_Append (w_index (as_w s)) (unpadSize ss) (uncompSize ss)) : M (Writer W) _))
    by apply fuelless_zoom, fuelless_Append.
  specialize (Hf (as_w s)). destruct (on_world _ _) as [[e|p|] w]; [intros N _; apply HP; eauto| |done].
  intros N Hcr. apply panics_tires; try done. by rewrite Hw.
Qed.

Lemma writer_tires ch s s' :
  custody s -> lines (heap (ib s)) -> nearby s s' -> writer_step ch s = Some s' -> as_crash s' = None -> tires s s'.
Proof.
  intros U Hl N. unfold writer_step. revert N.
  assert (HE : forall i o q, enter ch writer_tid (CReader i) (as_outPool s) = Some (o, q) ->
    stock (base q) = stock (base (as_outPool s)) - match o with Ret (Some (Some _)) => 1 | _ => 0 end)
    by (intros i o q E0; exact (enter_reader_stock _ _ _ _ _ _ (cu_out _ U) E0)).
  assert (HS : forall i v, nearby s v -> enter ch writer_tid (CReader i) (as_outPool s) = Some (Ret None, as_outPool v) ->
    (exists q, v = set_outPool q s) -> writer_slack (as_writer s) = 1 -> tires s v).
  { intros i v N E0 [q ->] H1. eapply (sleeps_out ch); [exact E0|done|]. specialize (HE _ _ _ E0).
    pose proof (aside_cost s _ Hl N ltac:(by eauto) eq_refl) as HC. unfold writer_cost in HC. cbn in HC, HE |- *.
    destruct (as_writer s); cbn in H1; lia. }
  destruct (as_writer s) as [j|j m|j m e|j m e1 e2|j|err| | |] eqn:Hpc.
  - destruct (enter ch writer_tid (CReader j) (as_outPool s)) as [[o q]|] eqn:E0; [|done]. cbn [mbind option_bind].
    specialize (HE _ _ _ E0).
    destruct o as [[[m|]|]|p|]; intros N [= <-] Hcr.
    + apply passes_tires; try done; [by eauto|]. unfold writer_cost. rewrite Hpc. cbn in *.
      pose proof (may_sleep_range writer_tid (as_outPool s)). lia.
    + apply passes_point; try done; [by eauto|cbn in *; lia|by rewrite Hpc].
    + eapply HS; [done|exact E0|by eexists|done].
    + apply panics_tires; try done; [by eauto|cbn in *; lia|by rewrite Hpc].
  - destruct (pipe_of _ _) as [p|]; [|done]. cbn [mbind option_bind]. destruct (bp_Closed p); [|done].
    destruct (bp_WriteTo _ _) as [[n err] [p' wr]]. intros N [= <-] _. apply passes_point; try done. by rewrite Hpc.
  - intros N [= <-]. by apply append_tires.
  - destruct (cu_writer _ U m) as [k Hk]; [by rewrite Hpc|]. destruct (request ch (RRestore (Some m)) (as_outPool s)) as [o q] eqn:E0.
    destruct (restore_stock ch m _ _ _ (cu_out _ U) (own_pipe _ m k (cu_out _ U) Hk) E0) as [Hst Hp].
    assert (HX : forall v, as_inPool v = as_inPool s -> as_outPool v = q -> stirs writer_tid s v)
      by (intros v E1 E2; apply stirs_none; congruence).
    destruct o as [u|p|]; [|intros N [= <-] Hcr; apply panics_tires; try done; [by apply HX|cbn; lia|by rewrite Hpc]|done].
    destruct (errs_Panic _); intros N [= <-] Hcr.
    + apply passes_point; try done; [by apply HX|cbn; lia|by rewrite Hpc].
    + apply panics_tires; try done; [by apply HX|cbn; lia|by rewrite Hpc].
  - destruct (enter ch writer_tid (CReader (-1)) (as_outPool s)) as [[o q]|] eqn:E0; [|done]. cbn [mbind option_bind].
    specialize (HE _ _ _ E0). assert (Hle : stock (base q) <= stock (base (as_outPool s))) by (destruct o as [[[]|]| |]; lia).
    destruct o as [[r|]|p|]; [|intros N [= <-] Hcr; eapply HS; [done|exact E0|by eexists|done]|
      intros N [= <-] Hcr; apply panics_tires; try done; [by eauto|by rewrite Hpc]|done].
    destruct (errs_Assert _ _); intros N [= <-] Hcr.
    + apply passes_point; try done; [by eauto|by rewrite Hpc].
    + apply panics_tires; try done; [by eauto|by rewrite Hpc].
  - destruct (send err (as_errChan s)) as [c|]; [|done]. cbn [mbind option_bind]. intros N [= <-] _.
    apply passes_point; try done. by rewrite Hpc.
  - intros N [= <-] _. apply passes_point; try done. by rewrite Hpc.
  - intros N [= <-] _. apply passes_point; try done. by rewrite Hpc.
  - done.
Qed.

(** ** The monitor *)

Lemma spawn_tires n rest wp s :
  lines (heap (ib s)) -> lawful s -> as_monitor s = NWork n :: rest -> WorkerPool.setCapacity (WorkerPool.turns n (as_workPool s)) n (as_workPool s) = (Ret tt, wp) ->
  let s' := set_worker (spawned_at (as_workPool s) wp (as_worker s)) (set_workPool wp (set_monitor rest s)) in
  nearby s s' -> tires s s'.
Proof.
  intros Hl G Hm E0 s' N. left. pose proof (caller_cost_nearby _ _ Hl N) as Hc.
  assert (Hn : 0 <= n) by (destruct (lw_monitor _ G) as [[H _]|H]; [congruence|]; rewrite Hm in H; destruct rest; apply H).
  destruct (setCapacity_effect (WorkerPool.turns n (as_workPool s)) n (as_workPool s) Hn) as [Hr Hp]. rewrite E0 in Hr, Hp. cbn in Hr, Hp.
  assert (Hs : stirs main_tid s s') by (by apply stirs_none).
  assert (Hw : msum (worker_cost s') (as_worker s) = crew s) by (eapply crew_stirs; [exact Hs|]; intros c; apply worker_tid_ne).
  assert (Hcrew : crew s' <= crew s + 2 * n).
  { change (crew s') with (msum (worker_cost s') (spawned_at (as_workPool s) wp (as_worker s))). unfold spawned_at.
    pose proof (msum_spread (worker_cost s') KGet 2 (WorkerPool.running wp ∖ WorkerPool.running (as_workPool s)) (as_worker s)
      (fun c pc => proj1 (worker_cost_range s' c pc)) (fun c => proj2 (worker_cost_range s' c KGet))). lia. }
  pose proof (writer_cost_stirs _ _ _ Hs ltac:(done) eq_refl) as Hwr. unfold cost. rewrite Hwr, Hm.
  change (as_monitor s') with rest. change (as_workPool s') with wp. change (ib s') with (ib s). change (ob s') with (ob s).
  cbn [monitor_cost]. lia.
Qed.

(** The other operations. *)
Lemma op_tires op rest s s' :
  lines (heap (ib s)) -> nearby s s' -> as_monitor s = op :: rest -> (forall n, op <> NWork n) ->
  as_monitor s' = rest -> as_worker s' = as_worker s -> as_writer s' = as_writer s -> naps (as_workPool s') = naps (as_workPool s) ->
  (stock (base (as_inPool s')) <= stock (base (as_inPool s)) /\ pending (as_inPool s') = pending (as_inPool s)) ->
  (stock (base (as_outPool s')) <= stock (base (as_outPool s)) /\ pending (as_outPool s') = pending (as_outPool s)) -> tires s s'.
Proof.
  intros Hl N Hm Hop E1 E2 E3 E4 [H1 H2] [H3 H4]. left.
  pose proof (aside_cost s s' Hl N ltac:(by apply stirs_none) E2) as HC.
  assert (Hw : writer_cost s' = writer_cost s) by (unfold writer_cost, may_sleep; by rewrite E3, H4).
  assert (Hc : monitor_cost (as_monitor s) = 1 + monitor_cost rest) by (rewrite Hm; destruct op; try done; by destruct (Hop n)).
  rewrite E1, E4, Hw, Hc in HC. lia.
Qed.

Lemma monitor_tires ch s s' :
  lines (heap (ib s)) -> lawful s -> nearby s s' -> monitor_step ch s = Some s' -> as_crash s' = None -> tires s s'.
Proof.
  intros Hl G N. unfold monitor_step. destruct (as_monitor s) as [|op rest] eqn:Hm; [done|]. revert N.
  pose proof (fun r => request_stock ch r (as_inPool s)) as RI. pose proof (fun r => request_stock ch r (as_outPool s)) as RO.
  destruct op as [n|n|n| | | |]; cbn [monitor_op].
  - change (as_inPool (set_monitor rest s)) with (as_inPool s). specialize (RI (RSetCapacity n) I).
    destruct (request _ _ _) as [o q]. intros N [= <-] _. by apply (op_tires (NIn n) rest).
  - change (as_outPool (set_monitor rest s)) with (as_outPool s). specialize (RO (RSetCapacity n) I).
    destruct (request _ _ _) as [o q]. intros N [= <-] _. by apply (op_tires (NOut n) rest).
  - change (as_workPool (set_monitor rest s)) with (as_workPool s).
    destruct (WorkerPool.setCapacity _ _ _) as [[[]|p|] wp] eqn:E0; intros N [= <-]; [|done]. intros _.
    by apply (spawn_tires n rest wp s).
  - intros N H _. assert (s' = set_monitor rest s) as -> by (destruct (as_doneChan _); congruence). by apply (op_tires NWait rest).
  - change (as_workPool (set_monitor rest s)) with (as_workPool s). pose proof (terminate_effect (as_workPool s)) as Ht.
    destruct (WorkerPool.terminate _) as [[u|p|] wp]; intros N [= <-]; [|done]. intros _. by apply (op_tires NTermWork rest).
  - change (as_outPool (set_monitor rest s)) with (as_outPool s). specialize (RO RTerminate I).
    destruct (request _ _ _) as [o q]. intros N [= <-] _. by apply (op_tires NTermOut rest).
  - change (as_inPool (set_monitor rest s)) with (as_inPool s). specialize (RI RTerminate I).
    destruct (request _ _ _) as [o q]. intros N [= <-] _. by apply (op_tires NTermIn rest).
Qed.

End cost.
