(* ===== verification/AsyncFinite.v ===== *)
(** The asynchronous writer: every run is finite. Each step of the caller lowers
    the bound too, so no interleaving of the goroutines goes on for ever. *)

From S2P Require Import Prelude Bufpipe Pool PoolInv PoolWait PoolView PoolQuiet PoolWork WorkerPool Lines Errs Liblzma SmallLzma Lib XzConst.
From S2P Require Import Literal World LibIndex Stream StreamPump PipePump Ioutil PipeClose Writer WriterBlock.
From S2P Require Import WriterSync WriterNew WriterSession WriterTotal AsyncWriter AsyncInv AsyncFlow AsyncMain AsyncWorkers AsyncMonitor AsyncOut.
From S2P Require Import AsyncLive AsyncEnd AsyncSettle AsyncMoves AsyncCustody AsyncCaller AsyncCost.

Section finite.
Context {BP : Bufpipe} {BC : BufpipeClose BP} {L : Liblzma} {E : Errs} {IU : Ioutil} {W : Type} {IW : IoWriter W}.
Context {BS : BufpipeSpec BP} {ES : ErrsSpec E}.
Implicit Types (s : async W) (k : Z) (l m z : loc) (c : chan).

(** * The caller *)

(** The caller moved, and left the others alone. *)
Record alone s s' : Prop := Alone {
  al_others : as_worker s' = as_worker s /\ as_writer s' = as_writer s /\ as_monitor s' = as_monitor s /\
    as_workPool s' = as_workPool s /\ as_outPool s' = as_outPool s;
  al_stirs : stirs main_tid s s';
}.

Lemma alone_cost s s' : alone s s' ->
  cost s' - cost s = caller_cost s' - caller_cost s + 13 * (stock (base (as_inPool s')) - stock (base (as_inPool s))).
Proof.
  intros [(H1 & H2 & H3 & H4 & H5) Hs].
  assert (Hc : crew s' = crew s) by (unfold crew at 1; rewrite H1; eapply crew_stirs; [done|]; intros c; apply worker_tid_ne).
  pose proof (writer_cost_stirs _ _ _ Hs ltac:(done) H2) as Hw. unfold cost, ib, ob. rewrite Hc, Hw, H3, H4, H5. lia.
Qed.

Lemma alone_tires s s' : alone s s' ->
  caller_cost s' + 13 * stock (base (as_inPool s')) < caller_cost s + 13 * stock (base (as_inPool s)) -> tires s s'.
Proof. intros A H. left. pose proof (alone_cost _ _ A). lia. Qed.

(** The caller went on without the pool. *)
Lemma goes_tires pc s s1 :
  as_worker s1 = as_worker s /\ as_writer s1 = as_writer s /\ as_monitor s1 = as_monitor s /\
    as_workPool s1 = as_workPool s /\ as_outPool s1 = as_outPool s ->
  pending (as_inPool s1) = pending (as_inPool s) -> stock (base (as_inPool s1)) = stock (base (as_inPool s)) ->
  caller_cost (set_main pc s1) < caller_cost s -> tires s (set_main pc s1).
Proof.
  intros Ho Hp Hst H. apply alone_tires; [split; [exact Ho|]|cbn; lia]. apply stirs_none; [done|]. cbn. by destruct Ho as (_ & _ & _ & _ & ->).
Qed.

Lemma at_loop_range s : 1 <= at_loop s <= 19.
Proof. unfold at_loop. destruct (as_pipe s) as [l|]; [destruct (room _ l)|]; lia. Qed.

Lemma calls_cons d todo : calls (d :: todo) = 19 * zlen d + 20 + calls todo.
Proof. unfold calls. rewrite concat_cons, zlen_app, zlen_cons. lia. Qed.

(** A turn of the loop of [Write]: to fill a pipe takes a byte. *)
Lemma loop_tires w0 d cnt todo s s' :
  caller_ok w0 s -> as_main s = MLoop d cnt todo -> 0 <= cnt <= zlen d -> write_loop d cnt todo s = Some s' -> tires s s'.
Proof.
  intros [_ Hl] Hm Hc. pose proof (at_loop_range s) as Hal. unfold write_loop.
  assert (Hs : caller_cost s = inside d cnt todo + at_loop s) by (unfold caller_cost; by rewrite Hm).
  destruct (Z.ltb_spec cnt (zlen d)) as [Hlt|Hge].
  - destruct (as_pipe s) as [l|] eqn:Hp.
    2:{ intros [= <-]. apply goes_tires; try done. rewrite Hs. unfold caller_cost, at_loop. cbn. rewrite Hp.
        pose proof (may_sleep_range main_tid (as_inPool s)). lia. }
    destruct (pipe_of _ _) as [p|] eqn:Hq; [|done]. cbn [mbind option_bind].
    destruct (zdrop d cnt) as [rest|] eqn:Hd; [|done]. cbn [mbind option_bind].
    assert (Hr : zlen rest = zlen d - cnt) by (revert Hd; unfold zdrop; destruct (_ && _); intros [= <-]; rewrite zlen_drop; lia).
    unfold pipe_of in Hq. destruct (heap (base (as_inPool s)) !! l) as [q|] eqn:Hh; [|done]. injection Hq as <-.
    pose proof (Hl l q Hh) as Hline. pose proof (line_ptrs (p_buf q) Hline) as Hptr.
    assert (Ha : at_loop s = if bp_Closed (p_buf q) || (bp_wrPtr (p_buf q) <? bp_Capacity (p_buf q)) then 1 else 19).
    { unfold at_loop, room, ib. by rewrite Hp, Hh. }
    pose proof (calls_nonneg todo).
    destruct (bp_Closed (p_buf q)) eqn:Hcl.
    + rewrite line_write_closed by done. intros [= <-]. apply goes_tires; try done. rewrite Hs. unfold caller_cost, inside. cbn. lia.
    + pose proof (line_write (p_buf q) rest Hline Hcl) as Hw. destruct (bp_Write (p_buf q) rest) as [[n err] p'].
      destruct Hw as (Hn & -> & _). cbn [orb] in Ha. destruct (Z.ltb_spec n (zlen rest)).
      * cbn. intros [= <-]. apply goes_tires; try done. rewrite Hs. unfold caller_cost, inside. cbn.
        destruct (Z.ltb_spec (bp_wrPtr (p_buf q)) (bp_Capacity (p_buf q))); lia.
      * cbn. intros [= <-]. apply goes_tires; try done. rewrite Hs.
        match goal with |- caller_cost (set_main ?pc ?s1) < _ => pose proof (at_loop_range (set_main pc s1)) as Hb; cbn end.
        unfold caller_cost, inside. cbn in *. lia.
  - rewrite (proj2 (Z.eqb_eq _ _)) by lia. intros [= <-]. apply goes_tires; try done. rewrite Hs. unfold caller_cost, inside. cbn. lia.
Qed.

(** A pipe for the caller: it is empty and open, so it has room. *)
Lemma get_tires w0 ch d cnt todo s s' :
  0 < w_inSize w0 -> w_inMode w0 = LineDual -> custody s -> caller_ok w0 s -> as_main s = MGet d cnt todo -> 0 <= cnt <= zlen d ->
  write_get ch d cnt todo s = Some s' -> tires s s'.
Proof.
  intros Hsize Hmode U [Hf _] Hm Hc. destruct (Hf ltac:(by rewrite Hm)) as [Hz Hmd].
  assert (Hs : caller_cost s = inside d cnt todo + 15 + may_sleep main_tid (as_inPool s)) by (unfold caller_cost; by rewrite Hm).
  pose proof (may_sleep_range main_tid (as_inPool s)) as Hms. unfold write_get.
  destruct (enter _ _ _ _) as [[o p]|] eqn:E0; [|done]. cbn [mbind option_bind].
  destruct (get_total ch (w_inMode (as_w s)) s o p U ltac:(lia) E0) as [r ->].
  pose proof (enter_writer_stock _ _ _ _ _ _ _ _ _ (cu_in _ U) E0) as Hst. destruct (enter_writer _ _ _ _ _ _ _ _ _ (cu_in _ U) E0) as [_ Ho].
  assert (HA : forall v, as_inPool v = p -> as_worker v = as_worker s /\ as_writer v = as_writer s /\ as_monitor v = as_monitor s /\
    as_workPool v = as_workPool s /\ as_outPool v = as_outPool s -> alone s v).
  { intros v E1 H. split; [done|]. eapply stirs_in; [by rewrite E1|apply H]. }
  destruct r as [[l|]|]; intros [= <-].
  - apply alone_tires; [by apply HA|]. rewrite Hs. cbn [as_inPool set_main set_pipe set_inPool]. rewrite Hst.
    assert (Hr : room (heap (base p)) l = true).
    { destruct (np_pipe _ _ _ _ _ _ _ Ho) as (q & Hq & _ & _ & (Hcap & Hqm & Hline)); [lia|]. unfold room. rewrite Hq.
      destruct Hline as [Hptr ->]; [rewrite Hmd, Hmode; by right|]. unfold bp_wrPtr. rewrite Hptr, Hcap, Hz. cbn. by apply Z.ltb_lt. }
    unfold caller_cost, at_loop, ib. cbn. rewrite Hr. lia.
  - apply alone_tires; [by apply HA|]. rewrite Hs. cbn [as_inPool set_main set_inPool]. rewrite Hst.
    unfold caller_cost, inside. cbn. lia.
  - eapply (sleeps_in ch); [exact E0|done|]. pose proof (alone_cost s (set_inPool p s) ltac:(by apply HA)) as HC.
    rewrite Hs in HC. cbn in HC, Hst |- *. unfold caller_cost in HC. cbn in HC. rewrite Hm in HC. lia.
Qed.

Lemma fuelless_recover {S A} (named : S -> A) (m : M S (A * error)) : fuelless m -> fuelless (with_recover named m).
Proof.
  intros Hm x. unfold with_recover. specialize (Hm x). destruct (m x) as [[r|p|] x1]; [done| |done].
  by destruct (errs_Recover p None).
Qed.

Lemma write_stop_fuelless err : fuelless (write_stop err).
Proof.
  apply fuelless_recover. repeat (apply fuelless_bind; [first [apply fuelless_Panic|done]|intros ?]). done.
Qed.

Lemma check_same err s s1 : checkErr s = Some (err, s1) ->
  as_main s1 = as_main s /\ as_inPool s1 = as_inPool s /\
  as_worker s1 = as_worker s /\ as_writer s1 = as_writer s /\ as_monitor s1 = as_monitor s /\
  as_workPool s1 = as_workPool s /\ as_outPool s1 = as_outPool s.
Proof.
  unfold checkErr. destruct (as_lastErr s); [by intros [= _ <-]|].
  destruct (receive _) as [[e c]|]; [|done]. cbn [mbind option_bind]. by intros [= _ <-].
Qed.

Lemma drop_same s :
  as_worker (drop_pipe s) = as_worker s /\ as_writer (drop_pipe s) = as_writer s /\ as_monitor (drop_pipe s) = as_monitor s /\
    as_workPool (drop_pipe s) = as_workPool s /\ as_outPool (drop_pipe s) = as_outPool s.
Proof. unfold drop_pipe. by destruct (as_pipe s). Qed.

Lemma drop_pool s :
  as_pipe (drop_pipe s) = None /\ pending (as_inPool (drop_pipe s)) = pending (as_inPool s) /\
  stock (base (as_inPool (drop_pipe s))) = stock (base (as_inPool s)).
Proof. unfold drop_pipe. by destruct (as_pipe s) eqn:Hp. Qed.

Lemma main_tires w0 ch fuel s s' :
  0 < w_inSize w0 -> w_inMode w0 = LineDual -> custody s -> caller_ok w0 s -> lawful s ->
  main_step ch fuel s = Some s' -> as_crash s' = None -> tires s s'.
Proof.
  intros Hsize Hmode U G W0. pose proof (lw_cnt _ W0) as Hcnt. unfold main_step.
  destruct (as_main s) as [[|d todo]|d cnt todo|d cnt todo|d cnt todo|cnt todo| | |err] eqn:Hm; [| | | | | | | |done].
  all: assert (Hs : caller_cost s = caller_cost s) by done; unfold caller_cost in Hs at 2; rewrite Hm in Hs.
  - destruct (w_closed _); intros [= <-] _; [apply goes_tires; try done; rewrite Hs; by cbn|].
    destruct (drop_pool (set_w (set_closed (as_w s)) s)) as (_ & E1 & E2).
    apply goes_tires; [apply (drop_same (set_w (set_closed (as_w s)) s))|done|done|]. rewrite Hs. by cbn.
  - pose proof (calls_nonneg todo). destruct (w_closed _); intros [= <-] _; apply goes_tires; try done; rewrite Hs, calls_cons; pose proof (zlen_nonneg d).
    + cbn. lia.
    + change (inside d 0 todo + at_loop s < 19 * zlen d + 20 + calls todo). pose proof (at_loop_range s). unfold inside. lia.
  - intros H _. eapply loop_tires; eauto.
  - intros H _. eapply get_tires; eauto.
  - intros [= <-] _. destruct (drop_pool s) as (E0 & E1 & E2). apply goes_tires; [apply drop_same|done|done|]. rewrite Hs.
    unfold caller_cost, at_loop. cbn. rewrite E0. lia.
  - destruct (checkErr s) as [[e s1]|] eqn:Ec; [|done]. cbn [mbind option_bind]. destruct (check_same _ _ _ Ec) as (_ & E1 & E2).
    pose proof (write_stop_fuelless e cnt) as Hf. intros [= <-]. pose proof (calls_nonneg todo).
    destruct (write_stop e cnt).1 as [[n [e'|]]|p|]; cbn [returned]; [..|done|done]; intros _;
      (apply goes_tires; [exact E2|by rewrite E1|by rewrite E1|]); rewrite Hs; cbn; lia.
  - intros H _. revert H. pose proof (request_stock ch RClose (as_inPool s) I) as [H1 H2]. destruct (request _ _ _) as [o p].
    intros [= <-]. apply alone_tires; [split; [done|by apply stirs_none]|]. rewrite Hs. cbn in *. lia.
  - destruct (checkErr s) as [[e s1]|] eqn:Ec; [|done]. cbn [mbind option_bind]. destruct (check_same _ _ _ Ec) as (_ & E1 & E2).
    destruct (close_tail _ _ _) as [[[u e1]|p|] w]; intros [= <-] Hcr; [|done].
    apply goes_tires; [exact E2|cbn; by rewrite E1|cbn; by rewrite E1|]. rewrite Hs. by cbn.
Qed.

(** * All runs *)

(** What holds in every state that has not crashed. *)
Record steady (w0 : Writer W) s : Prop := {
  st_custody : custody s;
  st_caller : caller_ok w0 s;
  st_lawful : lawful s;
}.

(** A step, for the caller and for the bound. *)
Lemma steady_step w0 s s' :
  0 < w_inSize w0 -> w_inMode w0 = LineDual -> steady w0 s -> astep s s' -> as_crash s' = None -> steady w0 s' /\ tires s s'.
Proof.
  intros Hsize Hmode [U G W0] Hst Hcr.
  assert (Hsz : (forall e, as_main s <> MDone e) -> 0 <= w_inSize (as_w s)) by (intros H; destruct (ca_fields _ _ G H) as [-> _]; lia).
  pose proof (custody_step _ _ U Hsz Hst Hcr) as U'. pose proof (lawful_step _ _ W0 Hst) as W0'.
  pose proof (ca_lines _ _ G) as Hl. destruct Hst as [lab H].
  enough (caller_ok w0 s' /\ tires s s') as [G' T] by (by split).
  assert (HN : nearby s s' -> tires s s' -> caller_ok w0 s' /\ tires s s') by (intros N T; split; [by eapply nearby_caller|done]).
  pose proof H as H0. unfold exec in H0. destruct (as_crash s); [done|]. destruct lab as [ch fuel|ch fuel c|c e|ch|ch|ch].
  - split; [|by eapply main_tires]. apply (main_caller w0 ch fuel s s'); try done. lia.
  - pose proof (worker_nearby _ _ _ _ _ U H0 Hcr) as N. apply HN; [done|]. by eapply worker_tires.
  - pose proof (quiet_nearby (LFail c e) s s' I H) as N. apply HN; [done|]. by eapply fail_tires.
  - pose proof (quiet_nearby (LEnd ch) s s' I H) as N. apply HN; [done|]. by eapply end_tires.
  - pose proof (quiet_nearby (LWriter ch) s s' I H) as N. apply HN; [done|]. by eapply writer_tires.
  - pose proof (monitor_nearby _ _ _ H0 Hcr) as N. apply HN; [done|]. by eapply monitor_tires.
Qed.

Lemma steady_finite w0 : 0 < w_inSize w0 -> w_inMode w0 = LineDual -> forall s, steady w0 s -> sn astep s.
Proof.
  intros Hsize Hmode. enough (H : forall n j s, Z.to_nat (cost s) = n -> awake s = j -> steady w0 s -> sn astep s) by eauto.
  induction n as [n IHn] using lt_wf_ind. induction j as [j IHj] using lt_wf_ind. intros s Hn Hj G. constructor. intros s' Hst.
  destruct (as_crash s') as [p|] eqn:Hcr.
  { constructor. intros s'' [lab H]. unfold exec in H. by rewrite Hcr in H. }
  destruct (steady_step w0 s s' Hsize Hmode G Hst Hcr) as [G' T].
  pose proof (cost_nonneg s (st_lawful _ _ G)). pose proof (cost_nonneg s' (st_lawful _ _ G')).
  destruct (decide (cost s' < cost s)) as [Hlt|Hge]; [apply (IHn (Z.to_nat (cost s')) ltac:(lia) (awake s')); done|].
  destruct T as [T|[T1 T2]]; [lia|]. apply (IHj (awake s') ltac:(lia)); [f_equal; lia|done|done].
Qed.

Lemma start_steady NumCPU cs check mw (wr : W) (w : Writer W) datas :
  opened_async cs check mw wr w -> lawful (start NumCPU w datas) -> steady w (start NumCPU w datas).
Proof.
  intros O G. split; [|split; [done|]|done].
  - split; try done; [by destruct (pool_inv0 (BP:=BP) (D:=unit))|by destruct (pool_inv0 (BP:=BP) (D:=loc))|..];
      intros *; cbn; unfold in_ready, in_active, ib; cbn; by rewrite lookup_empty.
  - intros l q. cbn. by rewrite lookup_empty.
Qed.

(** * The theorem *)

Context {LS : LiblzmaSpec L}.

Lemma session_finite lv check cs mw NumCPU (wr : W) wd w x datas :
  0 <= cs -> mw <> WorkersSync -> 1 <= NumCPU ->
  NewWriterCustom lv check cs mw (wr, wd) = (Ret (Some w, None), x) -> sn astep (start NumCPU w datas).
Proof.
  intros Hcs Hmw Hcpu Hn. destruct (NewWriterCustom_async _ _ _ _ _ _ _ _ Hcs Hmw Hn) as [O _].
  pose proof (sized_chunk w (cf_sized _ _ _ _ _ (oa_made _ _ _ _ _ O))) as Hck. destruct (oa_sizes _ _ _ _ _ O) as [Hin _].
  apply (steady_finite w); [lia|by apply (oa_modes _ _ _ _ _ O)|].
  eapply start_steady; [exact O|]. by eapply start_lawful.
Qed.


End finite.
