(* ===== verification/AsyncRuns.v ===== *)
(** A run of the asynchronous xz writer on the small library, and the instance of
    the theorem about it. *)

From S2P Require Import Prelude Bufpipe Lines Pool PoolView WorkerPool Errs Liblzma SmallLzma Lib XzConst Literal World LibIndex.
From S2P Require Import Stream StreamPump StreamTerm StreamRuns PipePump Ioutil PipeClose Writer WriterBlock WriterSync WriterNew.
From S2P Require Import WriterSession WriterTotal WriterRuns AsyncWriter AsyncInv AsyncThms AsyncMoves AsyncFinite.

Module AsyncRun.
Import Mem WriterRun.
#[local] Existing Instance Small.liblzma.
#[local] Existing Instance Small.liblzma_spec.
#[local] Existing Instance Small.liblzma_idle.
#[local] Existing Instance Plain.bufpipe.
#[local] Existing Instance Plain.bufpipe_spec.
#[local] Existing Instance PlainClose.bufpipe_close.
#[local] Existing Instance PlainClose.bufpipe_close_spec.
#[local] Existing Instance PlainErrs.errs.
#[local] Existing Instance PlainErrs.errs_spec.
#[local] Existing Instance PlainIo.ioutil.
#[local] Existing Instance PlainIo.ioutil_spec.

(** Two workers, and everybody in turn. *)
Definition first : choice := Choice 0 0.
Definition everybody : list label :=
  [LMain first 60; LMonitor first; LWorker first 60 1; LWorker first 60 2; LWriter first; LEnd first].
Definition session_end (w : Writer writer) (datas : list (list Z)) : async writer := rounds 30 everybody (start 4 w datas).

(** The session ends well, and the bytes are those of a synchronous one. *)
Definition done_like (w : Writer writer) (datas : list (list Z)) : bool :=
  let s := session_end w datas in
  match as_main s with MDone None => true | _ => false end &&
  match NewWriterCustom 6 CheckCRC32 0 WorkersSync (sink, empty_world) with
  | (Ret (Some v, None), _) =>
      match session 60 datas v with
      | (Ret None, v') => bool_decide (Mem.out (w_wr v') = Mem.out (w_wr (as_w s)))
      | _ => false
      end
  | _ => false
  end.

Lemma demo_async :
  made (NewWriterCustom 6 CheckCRC32 0 2 (sink, empty_world)) (fun w => done_like w [[1; 2; 3]; [4]]) = true.
Proof. vm_compute. reflexivity. Qed.

Lemma done_run (w : Writer writer) datas : done_like w datas = true -> as_main (session_end w datas) = MDone None.
Proof. unfold done_like. by destruct (as_main _) as [| | | | | | |[]]. Qed.


(** Two rounds in, the session has not ended. *)
Definition midway (w : Writer writer) (datas : list (list Z)) : async writer := rounds 2 everybody (start 4 w datas).
Definition goes_on (s : async writer) : bool :=
  match as_crash s, as_main s with None, MDone _ => false | None, _ => true | _, _ => false end.

Lemma demo_midway :
  made (NewWriterCustom 6 CheckCRC32 0 2 (sink, empty_world)) (fun w => goes_on (midway w [[1; 2; 3]; [4]])) = true.
Proof. vm_compute. reflexivity. Qed.

Lemma goes_on_run s : goes_on s = true -> as_crash s = None /\ forall err, as_main s <> MDone err.
Proof. unfold goes_on. destruct (as_crash s); [done|]. intros H. split; [done|]. intros err Hm. by rewrite Hm in H. Qed.



End AsyncRun.
