(* ===== verification/SeekIndex.v ===== *)
(** [xz/index.go] and [xz/seek_reader.go]: the index of a file, read backwards
    from its end, and the [SeekReader] on top of it. *)

From S2P Require Import Prelude Bufpipe Errs Liblzma SmallLzma Lib XzConst World LibIndex Stream StreamPump.

(** * io.ReaderAt and io.SectionReader

    [ra_ReadAt r n off] is [ReadAt] of a slice of [n] bytes: the bytes at the
    beginning of the slice (their number is the result), and the error. It does
    not change the reader. *)
Class IoReaderAt (R : Type) : Type := ra_ReadAt : R -> Z -> Z -> list Z * error.

(** [io.SectionReader] of the Go standard library. *)
Record SectionReader (R : Type) : Type := SectionV { sec_r : R; sec_base : Z; sec_off : Z; sec_limit : Z }.
Arguments SectionV {R} _ _ _ _.
Arguments sec_r {R} _.
Arguments sec_base {R} _.
Arguments sec_off {R} _.
Arguments sec_limit {R} _.

Definition NewSectionReader {R} (r : R) (off n : Z) : SectionReader R := SectionV r off off (int64 (off + n)).

#[export] Instance section_reader {R} {IA : IoReaderAt R} : IoReader (SectionReader R) := fun s n =>
  if sec_limit s <=? sec_off s then (([], Some EOF), s) else
  let max := int64 (sec_limit s - sec_off s) in
  let n := if max <? n then max else n in
  let '(bs, err) := ra_ReadAt (sec_r s) n (sec_off s) in
  ((bs, err), SectionV (sec_r s) (sec_base s) (int64 (sec_off s + zlen bs)) (sec_limit s)).

(** The nil [io.Writer]. *)
#[export] Instance nil_writer : IoWriter Empty_set := fun w => match w with end.
#[export] Instance nil_writer_spec : IoWriterSpec Empty_set.
Proof. intros []. Qed.

Section seek.
Context {BP : Bufpipe} {L : Liblzma} {E : Errs} {R : Type} {IA : IoReaderAt R}.

(** * index.go *)

(** [rd.ReadAt(buf, off)], with the error that the callers panic with. *)
Definition read_at {S} (rd : R) (buf : list Z) (off : Z) : M S (list Z) :=
  let '(bs, err) := ra_ReadAt rd (zlen buf) off in
  call (errs_Panic (errs_Convert err (Some ErrUnexpectedEOF) [Some EOF]));;
  mret (overwrite buf 0 bs).

Fixpoint unrollPadding_loop {S} (fuel : nat) (rd : R) (pos : Z) (buf : list Z) (padding : Z) : M S Z :=
  match fuel with
  | O => no_fuel
  | Datatypes.S fuel =>
      let padAlias := zlen padZeros in
      buf ← read_at rd buf (int64 (int64 (pos - padding) - padAlias));
      if decide (buf = padZeros) then unrollPadding_loop fuel rd pos buf (int64 (padding + padAlias))
      else mret padding
  end.

Definition unrollPadding {S} (fuel : nat) (rd : R) (pos : Z) : M S (Z * Z) :=
  let padAlias := zlen padZeros in
  padding ← unrollPadding_loop fuel rd pos (replicate (Z.to_nat padAlias) 0) 0;
  mret (padding, int64 (pos - padding)).

Definition unrollFooter {S} (rd : R) (pos : Z) : M S (StreamFlags * Z) :=
  buf ← read_at rd (replicate (Z.to_nat STREAM_FOOTER_SIZE) 0) (int64 (pos - STREAM_FOOTER_SIZE));
  r ← on_local NewStreamFlags (FooterDecode buf);
  let '(err, flags) := r in
  call (errs_Panic err);;
  mret (flags, int64 (pos - STREAM_FOOTER_SIZE)).

Definition unrollHeader {S} (rd : R) (pos : Z) : M S (StreamFlags * Z) :=
  buf ← read_at rd (replicate (Z.to_nat STREAM_HEADER_SIZE) 0) (int64 (pos - STREAM_HEADER_SIZE));
  r ← on_local NewStreamFlags (HeaderDecode buf);
  let '(err, flags) := r in
  call (errs_Panic err);;
  mret (flags, int64 (pos - STREAM_HEADER_SIZE)).

(** [stream.Process(code, nil, rds)] on a local stream. *)
Definition local_Process (fuel : nat) (code : Z) (stream : Stream) (rds : SectionReader R) :
    M world (Z * Z * error * Stream) := fun w =>
  match Process fuel code (ProcSt stream w (Some rds) (@None Empty_set)) with
  | (Ret r, s) => (Ret (r, ps_strm s), ps_world s)
  | (Pan p, s) => (Pan p, ps_world s)
  | (NoFuel, s) => (NoFuel, ps_world s)
  end.

Definition unrollIndex (fuel : nat) (rd : R) (pos size : Z) : M world (loc * Z) :=
  index ← new_Index None;
  r ← Index_NewStreamDecoder index maxMemory;
  let '(stream, err) := r in
  call (errs_Panic err);;
  let rds := NewSectionReader rd (int64 (pos - size)) size in
  match stream with
  | None => panic (PRun NilDereference)
  | Some stream =>
      r ← local_Process fuel FINISH stream rds;
      let '(_, _, err, stream) := r in
      call (errs_Panic err);;
      call (errs_Assert (GetTotalIn stream =? size) (Some formatError));;
      mret (index, int64 (pos - size))
  end.

Definition prevStreamIndex (fuel : nat) (rd : R) (pos : Z) : M world (loc * Z) :=
  r ← unrollPadding fuel rd pos;
  let '(padding, pos) := r in
  r ← unrollFooter rd pos;
  let '(ftrFlags, pos) := r in
  r ← unrollIndex fuel rd pos (GetBackwardSize ftrFlags);
  let '(index, pos) := r in
  total ← Index_TotalSize index;
  let pos := int64 (pos - total) in
  r ← unrollHeader rd pos;
  let '(hdrFlags, pos) := r in
  call (errs_Panic (Compare hdrFlags ftrFlags));;
  err ← Index_StreamFlags index ftrFlags;
  call (errs_Panic err);;
  err ← StreamPadding index padding;
  call (errs_Panic err);;
  mret (index, pos).

(** The state of [decodeIndex]: the world and the named result [index]. *)
Definition di : Type := world * option loc.
Definition on_di {A} (m : M world A) : M di A := zoom fst (fun w s => (w, snd s)) m.

Fixpoint decode_loop (fuel : nat) (rd : R) (pos : Z) : M di unit :=
  match fuel with
  | O => no_fuel
  | S fuel' =>
      if 0 <? pos then
        r ← on_di (prevStreamIndex fuel rd pos);
        let '(preIndex, pos) := r in
        s ← get;
        (match snd s with
         | Some index => err ← on_di (Cat preIndex index); call (errs_Panic err)
         | None => mret tt
         end);;
        modify (fun s => (fst s, Some preIndex));;
        decode_loop fuel' rd pos
      else mret tt
  end.

Definition decodeIndex (fuel : nat) (rd : R) (pos : Z) : M world (option loc * error) := fun w =>
  let '(r, (w', _)) :=
    with_recover snd (decode_loop fuel rd pos;; s ← get; mret (snd s, None)) (w, None) in
  (r, w').

(** * seek_reader.go *)

(** What [golib/ioutil] gives for the size of a reader, and the dynamic type
    test for [io.ReadSeeker]. *)
Class SeekUtil (R : Type) : Type := {
  ReadSeeker : Type;
  as_ReadSeeker : R -> option ReadSeeker;
  SeekerSize : ReadSeeker -> (Z * error) * ReadSeeker;
  ReaderAtSize : R -> Z * error;
  util_SectionReader : R -> Z -> Z -> ReadSeeker;
}.
Context {SU : SeekUtil R}.

Record SeekReader : Type := SeekReaderV {
  sk_rda : R;
  sk_rds : ReadSeeker;
  sk_Index : option loc;
  sk_closed : bool;
}.

Definition NewSeekReaderCustom (fuel : nat) (rd : R) (maxBuffer maxWorkers : Z) :
    M world (option SeekReader * error) :=
  with_recover (fun _ => None) (
    let '(rds, size, err) :=
      match as_ReadSeeker rd with
      | Some rds => let '((size, err), rds) := SeekerSize rds in (rds, size, err)
      | None => let '(size, err) := ReaderAtSize rd in (util_SectionReader rd 0 size, size, err)
      end in
    call (errs_Panic err);;
    r ← decodeIndex fuel rd size;
    let '(index, err) := r in
    call (errs_Panic err);;
    mret (Some (SeekReaderV rd rds index false), None)).

Definition NewSeekReader (fuel : nat) (rd : R) : M world (option SeekReader * error) :=
  NewSeekReaderCustom fuel rd BufferDefault WorkersDefault.

Definition seek_Read (r : SeekReader) (data : list Z) : Z * error :=
  if sk_closed r then (0, Some ErrClosedPipe) else (0, None).
Definition seek_ReadAt (r : SeekReader) (data : list Z) (off : Z) : Z * error :=
  if sk_closed r then (0, Some ErrClosedPipe) else (0, None).
Definition seek_Seek (r : SeekReader) (offset whence : Z) : Z * error :=
  if sk_closed r then (0, Some ErrClosedPipe) else (0, None).
Definition SeekPoints (r : SeekReader) : list Z := if sk_closed r then [] else [].

Definition seek_Close : M (SeekReader * world) error :=
  s ← get;
  let '(r, w) := s in
  if sk_closed r then mret None else
  let r := SeekReaderV (sk_rda r) (sk_rds r) (sk_Index r) true in
  put (r, w);;
  with_defer (zoom snd (fun w s => (fst s, w)) (End (sk_Index r))) (mret None).

End seek.
Arguments SeekReader R {SU}.

(** Documented contract: a count within the slice. *)
Class IoReaderAtSpec (R : Type) {IA : IoReaderAt R} : Prop :=
  read_at_count r n off : zlen (ra_ReadAt r n off).1 <= Z.max 0 n.

#[export] Instance section_reader_spec {R} {IA : IoReaderAt R} {AS : IoReaderAtSpec R} : IoReaderSpec (SectionReader R).
Proof.
  intros s n Hn. unfold rd_Read, section_reader. destruct (Z.leb_spec (sec_limit s) (sec_off s)); [done|].
  set (max := int64 _). pose proof (read_at_count (sec_r s) (if max <? n then max else n) (sec_off s)) as H1.
  destruct (ra_ReadAt _ _ _) as [bs err]. cbn in H1 |- *. destruct (Z.ltb_spec max n); lia.
Qed.

Section theorems.
Context {BP : Bufpipe} {L : Liblzma} {E : Errs} {R : Type} {IA : IoReaderAt R}.
Context {BS : BufpipeSpec BP} {LS : LiblzmaSpec L} {ES : ErrsSpec E} {AS : IoReaderAtSpec R}.

(** * The padding *)

(** [rd] reads the file [file]: in full within it, and with an error before its
    start. *)
Definition reads_file (rd : R) (file : list Z) : Prop :=
  (forall n off, 0 <= n -> 0 <= off -> off + n <= zlen file ->
     ra_ReadAt rd n off = (take (Z.to_nat n) (drop (Z.to_nat off) file), None)) /\
  (forall n off, off < 0 -> exists bs e, ra_ReadAt rd n off = (bs, Some e)).

(** The [n] bytes of the file from [off] on. *)
Definition part (file : list Z) (off n : Z) : list Z := take (Z.to_nat n) (drop (Z.to_nat off) file).

Lemma part_split file off n m : 0 <= off -> 0 <= n -> 0 <= m ->
  part file off (n + m) = part file off n ++ part file (off + n) m.
Proof.
  intros Ho Hn Hm. unfold part. rewrite !Z2Nat.inj_add, <- drop_drop by lia. by rewrite take_take_drop.
Qed.

Lemma zlen_part file off n : 0 <= n -> 0 <= off -> off + n <= zlen file -> zlen (part file off n) = n.
Proof. intros Hn Ho H. unfold part. rewrite zlen_take; [done|]. rewrite zlen_drop; lia. Qed.

Lemma read_at_in {S} rd file buf off (s : S) :
  reads_file rd file -> 0 <= off -> off + zlen buf <= zlen file ->
  read_at rd buf off s = (Ret (part file off (zlen buf)), s).
Proof.
  intros [Hf _] Ho Hl. unfold read_at. rewrite Hf by (done || apply zlen_nonneg).
  rewrite Convert_spec, decide_False by set_solver. rewrite Panic_nil, bind_call. fold (part file off (zlen buf)).
  unfold mret, M_ret. do 2 f_equal. unfold overwrite. cbn [take]. rewrite drop_ge; [apply app_nil_r|].
  pose proof (zlen_part file off (zlen buf) (zlen_nonneg _) Ho Hl) as H. unfold zlen in *. lia.
Qed.

Lemma read_at_out {S} rd file buf off (s : S) :
  reads_file rd file -> off < 0 -> exists e, read_at rd buf off s = (Pan (PErr (Some e)), s).
Proof.
  intros [_ Hf] Ho. unfold read_at. destruct (Hf (zlen buf) off Ho) as (bs & e & ->). rewrite Convert_spec.
  case_decide; rewrite Panic_err; by eexists.
Qed.

Lemma unrollPadding_loop_run {S} rd file pos fuel : forall buf padding (s : S),
  reads_file rd file -> 0 <= pos <= zlen file -> zlen file < 2 ^ 62 ->
  zlen buf = 4 -> 0 <= padding <= pos -> padding mod 4 = 0 ->
  part file (pos - padding) padding = replicate (Z.to_nat padding) 0 ->
  pos - padding < 4 * (Z.of_nat fuel - 1) ->
  match unrollPadding_loop fuel rd pos buf padding s with
  | (Ret n, s') => s' = s /\ 0 <= n <= pos - 4 /\ n mod 4 = 0 /\
      part file (pos - n) n = replicate (Z.to_nat n) 0 /\ part file (pos - n - 4) 4 <> padZeros
  | (Pan p, s') => s' = s /\ (exists e, p = PErr (Some e)) /\ exists n, pos - 4 < n <= pos /\ n mod 4 = 0 /\
      part file (pos - n) n = replicate (Z.to_nat n) 0
  | (NoFuel, _) => False
  end.
Proof.
  induction fuel as [|fuel IH]; intros buf padding s Hf Hp Hl Hb Hpad Hm Hz Hfuel; [lia|].
  cbn [unrollPadding_loop]. cbv zeta. change (zlen padZeros) with 4. rewrite (int64_id (pos - padding)), (int64_id (pos - padding - 4)) by lia.
  destruct (Z.ltb_spec (pos - padding) 4) as [Hlt|Hge].
  { destruct (read_at_out rd file buf (pos - padding - 4) s Hf ltac:(lia)) as [e He].
    rewrite (bind_panic _ _ _ _ _ He). split; [done|]. split; [by eexists|]. exists padding. split; [lia|done]. }
  pose proof (read_at_in rd file buf (pos - padding - 4) s Hf ltac:(lia) ltac:(lia)) as Hr. rewrite Hb in Hr.
  rewrite (bind_ret _ _ _ _ _ Hr). case_decide as Heq.
  - rewrite (int64_id (padding + 4)) by lia. apply IH; try done; try lia.
    + by apply zlen_part; lia.
    + rewrite Z.add_mod, Hm by lia. done.
    + replace (padding + 4) with (4 + padding) by lia. rewrite part_split by lia.
      replace (pos - (4 + padding)) with (pos - padding - 4) by lia. rewrite Heq.
      replace (pos - padding - 4 + 4) with (pos - padding) by lia. rewrite Hz, Z2Nat.inj_add, replicate_add by lia. done.
  - split_and!; try done; lia.
Qed.


(** * The index *)

Lemma stream_of_buffers r rf z e : stream_of r rf = (Some z, e) -> inBuf z = None /\ outBuf z = None.
Proof.
  unfold stream_of. destruct (NewError r.1); [done|]. intros [= <- _].
  assert (H : forall l z0, inBuf z0 = None /\ outBuf z0 = None ->
    inBuf (foldl (fun z x => appendRef x z) z0 l) = None /\ outBuf (foldl (fun z x => appendRef x z) z0 l) = None).
  { induction l as [|x l IH]; [done|]. intros z0 H0. cbn. by apply IH. }
  by apply H.
Qed.

(** A call of [Process] with a source never gives a nil error. *)
Lemma local_Process_err fuel act z rds w o i err z' w' :
  inBuf z = None -> outBuf z = None ->
  local_Process fuel act z rds w = (Ret (o, i, err, z'), w') -> exists e, err = Some e.
Proof.
  intros Hi Ho. unfold local_Process. set (s0 := ProcSt _ _ _ _).
  destruct (Process fuel act s0) as [[[[o1 i1] e1]|p|] s1] eqn:Ep; [|done|done]. intros [= <- <- <- <- <-].
  assert (Hok : stream_ok s0) by (split; unfold s0; cbn; intros l; congruence).
  destruct (Process_run act fuel s0 s1 _ _ _ Hok Ep) as [_ He]. cbn in He. destruct He as [Hne _].
  destruct e1; [by eexists|done].
Qed.

Lemma local_Process_pan fuel act z rds w p :
  inBuf z = None -> outBuf z = None -> (local_Process fuel act z rds w).1 <> Pan p.
Proof.
  intros Hi Ho. unfold local_Process. set (s0 := ProcSt _ _ _ _).
  assert (Hok : stream_ok s0) by (split; unfold s0; cbn; intros l; congruence).
  pose proof (Process_pan fuel act s0 p Hok) as Hp. destruct (Process fuel act s0) as [[r|q|] ?]; [done| |done].
  cbn. intros [= ->]. by apply Hp.
Qed.

(** A computation that panics with an error at the latest, and one that never
    returns. *)
Definition sound {S A} (m : M S A) : Prop :=
  forall s, match m s with (Pan p, _) => error_panic p | _ => True end.
Definition fails {S A} (m : M S A) : Prop :=
  forall s, match m s with (Ret _, _) => False | (Pan p, _) => error_panic p | (NoFuel, _) => True end.

Lemma sound_bind {S A B} (m : M S A) (k : A -> M S B) : sound m -> (forall a, sound (k a)) -> sound (m ≫= k).
Proof.
  intros Hm Hk s. rewrite bind_run. specialize (Hm s). destruct (m s) as [[a|p|] s']; [apply Hk|done|done].
Qed.

Lemma sound_Panic {S} e : sound (call (errs_Panic e) : M S unit).
Proof. intros s. unfold call. rewrite Panic_spec. destruct e; [left; by eexists|done]. Qed.

Lemma sound_run {S A} r : sound (panic (PRun r) : M S A).
Proof. intros s. right. by eexists. Qed.

Lemma sound_no_fuel {S A} : sound (no_fuel : M S A).
Proof. done. Qed.

Lemma sound_local {S B A} (b : B) (m : M B A) : sound m -> sound (on_local b m : M S _).
Proof. intros Hm s. unfold on_local. specialize (Hm b). by destruct (m b) as [[] ?]. Qed.

Lemma fails_first {S A B} (m : M S A) (k : A -> M S B) : fails m -> fails (m ≫= k).
Proof. intros Hm s. rewrite bind_run. specialize (Hm s). by destruct (m s) as [[] ?]. Qed.

Lemma fails_after {S A B} (m : M S A) (k : A -> M S B) : sound m -> (forall a, fails (k a)) -> fails (m ≫= k).
Proof.
  intros Hm Hk s. rewrite bind_run. specialize (Hm s). destruct (m s) as [[a|p|] s']; [apply Hk|done|done].
Qed.

Ltac sound :=
  repeat lazymatch goal with
         | |- sound (_ ≫= _) => apply sound_bind; [|intros ?]
         | |- sound (call (errs_Panic _)) => apply sound_Panic
         | |- sound (panic (PRun _)) => apply sound_run
         | |- sound no_fuel => apply sound_no_fuel
         | |- sound (on_local _ _) => apply sound_local
         | |- sound (let '(_, _) := ?x in _) => destruct x
         | |- sound (match ?x with _ => _ end) => destruct x
         | |- sound _ => solve [intros ?; done]
         end.

Lemma sound_read_at {S} rd buf off : sound (read_at rd buf off : M S _).
Proof. unfold read_at. sound. Qed.

Lemma sound_unrollPadding {S} fuel rd pos : sound (unrollPadding fuel rd pos : M S _).
Proof.
  assert (H : forall buf padding, sound (unrollPadding_loop fuel rd pos buf padding : M S _)).
  { induction fuel as [|fuel IH]; intros buf padding; cbn [unrollPadding_loop]; sound; [apply sound_read_at|apply IH]. }
  unfold unrollPadding. sound. apply H.
Qed.

Lemma sound_unrollFooter {S} rd pos : sound (unrollFooter rd pos : M S _).
Proof. unfold unrollFooter, FooterDecode. sound. apply sound_read_at. Qed.

Lemma sound_new_decoder ix lim : sound (Index_NewStreamDecoder ix lim).
Proof. unfold Index_NewStreamDecoder, End, ptr, c_index, set_ptr, set_index. sound. Qed.

Lemma unrollIndex_fails fuel rd pos size : fails (unrollIndex fuel rd pos size).
Proof.
  apply fails_after; [intros w; done|]. intros index w. rewrite bind_run.
  pose proof (sound_new_decoder index maxMemory w) as Hs.
  destruct (Index_NewStreamDecoder index maxMemory w) as [[[stream err]| |] w1] eqn:Es; [|done|done].
  assert (Hb : forall z, stream = Some z -> inBuf z = None /\ outBuf z = None).
  { intros z ->. unfold Index_NewStreamDecoder in Es. rewrite bind_run in Es.
    destruct (End (Some index) w) as [[u| |] w2]; [|done|done]. rewrite bind_get in Es.
    injection Es as Es _. by eapply stream_of_buffers. }
  clear Es Hs. revert w1. apply fails_after; [apply sound_Panic|]. intros _. destruct stream as [z|].
  2: { intros w1. right. by eexists. }
  destruct (Hb z eq_refl) as [Hi Ho]. intros w1. rewrite bind_run.
  pose proof (local_Process_err fuel FINISH z (NewSectionReader rd (int64 (pos - size)) size) w1) as He.
  pose proof (local_Process_pan fuel FINISH z (NewSectionReader rd (int64 (pos - size)) size) w1) as Hp.
  destruct (local_Process fuel FINISH z _ w1) as [[[[[o i] e] z']|p|] w2]; [|by destruct (Hp p Hi Ho)|done].
  destruct (He o i e z' w2 Hi Ho eq_refl) as [e' ->]. rewrite bind_run. unfold call. rewrite Panic_err.
  left. by eexists.
Qed.

Lemma prevStreamIndex_fails fuel rd pos : fails (prevStreamIndex fuel rd pos).
Proof.
  apply fails_after; [apply sound_unrollPadding|]. intros [padding p].
  apply fails_after; [apply sound_unrollFooter|]. intros [flags p']. apply fails_first, unrollIndex_fails.
Qed.

Lemma decodeIndex_run fuel rd pos w ix err w' :
  0 < pos -> decodeIndex fuel rd pos w = (Ret (ix, err), w') -> ix = None /\ exists e, err = Some e.
Proof.
  intros Hp. unfold decodeIndex, with_recover. rewrite bind_run. destruct fuel as [|fuel]; [done|]. cbn [decode_loop].
  rewrite (proj2 (Z.ltb_lt _ _) Hp), bind_run. unfold on_di at 1, zoom. cbn [fst snd].
  pose proof (prevStreamIndex_fails (S fuel) rd pos w) as H.
  destruct (prevStreamIndex (S fuel) rd pos w) as [[r|p|] w1]; [done| |done]. cbn [snd].
  destruct H as [[e ->]|[r ->]].
  - rewrite Recover_err. intros [= <- <- <-]. split; [done|by eexists].
  - pose proof (Recover_run r None) as Hr. destruct (errs_Recover (PRun r) None) as [[e|]|]; [|done|done].
    intros [= <- <- <-]. split; [done|by eexists].
Qed.

(** C22: [decodeIndex] fails on every file that is not empty: [unrollIndex]
    panics with whatever error [Process] returned, and [Process] with a source
    always returns one, the end-of-stream status of a good index included. The
    result is a nil index and an error. *)
Theorem decodeIndex_fails fuel rd pos w ix err w' :
  0 < pos -> decodeIndex fuel rd pos w = (Ret (ix, err), w') -> ix = None /\ exists e, err = Some e.
Proof. apply decodeIndex_run. Qed.

(** * The SeekReader *)
Context {SU : SeekUtil R}.

(** The size that [NewSeekReaderCustom] finds. *)
Definition found_size (rd : R) : Z :=
  match as_ReadSeeker rd with Some rds => (SeekerSize rds).1.1 | None => (ReaderAtSize rd).1 end.

(** C23: A [SeekReader] exists only for a file without bytes, where [decodeIndex]
    does nothing: its [Index] is nil, so that [Close], which ends it, panics with
    a nil dereference. *)
Theorem seek_reader_unusable fuel rd mb mw w r err w' :
  NewSeekReaderCustom fuel rd mb mw w = (Ret (Some r, err), w') ->
  found_size rd <= 0 /\ sk_Index r = None /\ sk_closed r = false /\
  (seek_Close (r, w')).1 = Pan (PRun NilDereference).
Proof.
  unfold NewSeekReaderCustom, with_recover, found_size.
  set (x := match as_ReadSeeker rd with Some _ => _ | None => _ end). intros H.
  assert (Hx : x.1.2 = match as_ReadSeeker rd with Some rds => (SeekerSize rds).1.1 | None => (ReaderAtSize rd).1 end).
  { unfold x. destruct (as_ReadSeeker rd) as [rds|]; [by destruct (SeekerSize rds) as [[] ?]|by destruct (ReaderAtSize rd)]. }
  rewrite <- Hx. destruct x as [[rds size] e0]. cbn [fst snd] in *. rewrite bind_run in H. unfold call at 1 in H.
  rewrite Panic_spec in H. destruct e0 as [e|].
  { rewrite Recover_err in H. done. }
  rewrite bind_run in H. destruct (decodeIndex fuel rd size w) as [[[ix err1]|p|] w1] eqn:Ed.
  2: by destruct (errs_Recover p None).
  2: done.
  destruct (Z.lt_ge_cases 0 size) as [Hs|Hs].
  { destruct (decodeIndex_run _ _ _ _ _ _ _ Hs Ed) as [_ [e ->]]. rewrite bind_run in H. unfold call in H.
    rewrite Panic_err, Recover_err in H. done. }
  split; [lia|]. unfold decodeIndex, with_recover in Ed. destruct fuel as [|fuel]; [done|]. cbn [decode_loop] in Ed.
  rewrite (proj2 (Z.ltb_ge _ _)) in Ed by lia. rewrite bind_mret, bind_get in Ed. injection Ed as <- <- <-.
  rewrite Panic_nil, bind_call in H. injection H as <- <- <-. done.
Qed.

End theorems.
