(* ===== verification/SeekRuns.v ===== *)
(** Runs of the index decoder and of the [SeekReader] on the small library. *)

From S2P Require Import Prelude Bufpipe Errs Liblzma SmallLzma Lib XzConst Literal World LibIndex Stream StreamPump StreamRuns.
From S2P Require Import Ioutil Writer WriterSession WriterRuns SeekIndex.

(** A file in memory, without the methods of [io.ReadSeeker]. *)
Module MemAt.

Record file : Type := File { bytes : list Z }.
#[export] Instance mem_reader_at : IoReaderAt file := fun f n off =>
  if off <? 0 then ([], Some (OtherErr 1))
  else let bs := take (Z.to_nat n) (drop (Z.to_nat off) (bytes f)) in
       (bs, if zlen bs <? n then Some EOF else None).
#[export] Instance mem_reader_at_spec : IoReaderAtSpec file.
Proof.
  intros f n off. unfold ra_ReadAt, mem_reader_at. destruct (off <? 0); cbn [fst]; [change (zlen (@nil Z)) with 0; lia|].
  unfold zlen. rewrite length_take. lia.
Qed.
#[export] Instance mem_seek : SeekUtil file := {
  ReadSeeker := file * Z * Z;
  as_ReadSeeker _ := None;
  SeekerSize s := ((0, None), s);
  ReaderAtSize f := (zlen (bytes f), None);
  util_SectionReader f off n := (f, off, n);
}.

Lemma mem_reads f : reads_file f (bytes f).
Proof.
  split.
  - intros n off Hn Ho Hl. unfold ra_ReadAt, mem_reader_at. rewrite (proj2 (Z.ltb_ge _ _)) by lia.
    rewrite zlen_take by (rewrite zlen_drop; lia). by rewrite (proj2 (Z.ltb_ge _ _)) by lia.
  - intros n off Ho. unfold ra_ReadAt, mem_reader_at. rewrite (proj2 (Z.ltb_lt _ _)) by lia. by do 2 eexists.
Defined.

End MemAt.

Module SeekRun.
Import Mem MemAt WriterRun.
#[local] Existing Instance Small.liblzma.
#[local] Existing Instance Small.liblzma_spec.
#[local] Existing Instance Plain.bufpipe.
#[local] Existing Instance Plain.bufpipe_spec.
#[local] Existing Instance PlainErrs.errs.
#[local] Existing Instance PlainErrs.errs_spec.
#[local] Existing Instance PlainIo.ioutil.

(** The file that the writer makes of four bytes, and four bytes of padding. *)
Definition written_file : file := File (
  match NewWriterCustom 6 CheckCRC32 0 WorkersSync (WriterRun.sink, empty_world) with
  | (Ret (Some w, None), _) => out (w_wr (session 60 [[1; 2; 3; 4]] w).2) ++ [0; 0; 0; 0]
  | _ => []
  end).

Lemma decode_result : (decodeIndex 60 written_file 55 empty_world).1 = Ret (None, Some streamEnd).
Proof. vm_compute. reflexivity. Qed.

(** The index of a good file is decoded to its end, which is the error. *)
Lemma decodeIndex_fails_witness : @None loc = None /\ exists e, Some streamEnd = Some e.
Proof.
  exact (decodeIndex_fails 60 written_file 55 empty_world None (Some streamEnd) _ (eq_refl : 0 < 55) (run_eta _ _ _ decode_result)).
Defined.


(** A file without bytes. *)
Lemma empty_made : made (NewSeekReader 1 (File []) empty_world) (fun _ => true) = true.
Proof. vm_compute. reflexivity. Qed.

Lemma seek_reader_unusable_witness :
  exists (r : SeekReader file) w', NewSeekReader 1 (File []) empty_world = (Ret (Some r, None), w') /\
    found_size (File []) <= 0 /\ sk_Index r = None /\ sk_closed r = false /\
    (seek_Close (r, w')).1 = Pan (PRun NilDereference).
Proof.
  destruct (WriterRun.made_run _ _ empty_made) as (r & w' & En & _). exists r, w'. split; [exact En|].
  exact (seek_reader_unusable 1 (File []) BufferDefault WorkersDefault empty_world r None w' En).
Defined.

End SeekRun.
