(* ===== verification/XzReader.v ===== *)
(** [xz/reader.go]: the reader of xz files. Its synchronous mode is a state
    machine that walks through headers, blocks, index, footer and padding; the
    asynchronous mode is not written in the source, where [Read] does nothing. *)

From S2P Require Import Prelude Bufpipe Errs Liblzma SmallLzma Lib XzConst World LibIndex Stream StreamPump.

(** * A pipe as an io.Writer and an io.ReaderFrom

    [bp_ReadFrom p r] is [ReadFrom]: the count, the error, the pipe and the
    reader after it. *)
Class BufpipeIo (BP : Bufpipe) : Type := {
  bp_ReadFrom {R} {IR : IoReader R} : BufferPipe -> R -> (Z * error) * (BufferPipe * R);
}.

(** Documented behaviour: [ReadFrom] reads until io.EOF, which it does not
    report, or an error; io.ErrShortWrite is the error of a pipe that is full.
    What was read is appended to the data. The errors of [Write] are those of a
    full and of a closed pipe. *)
Class BufpipeIoSpec (BP : Bufpipe) (BI : BufpipeIo BP) : Prop := {
  ring_read_from {R} {IR : IoReader R} {RS : IoReaderSpec R} p (r : R) n err p' r' :
    bp_Mode p = RingPoll -> bp_ReadFrom p r = ((n, err), (p', r')) ->
    exists bs, reads r bs r' /\ n = zlen bs /\ bp_Data p' = bp_Data p ++ bs /\ bp_Mode p' = RingPoll /\
      bp_Capacity p' = bp_Capacity p /\ err <> Some EOF;
  pipe_write_err p bs : (bp_Write p bs).1.2 ∈ [None; Some ErrShortWrite; Some ErrClosedPipe];
}.

#[export] Instance pipe_writer {BP : Bufpipe} : IoWriter BufferPipe := bp_Write.
#[export] Instance pipe_writer_spec {BP : Bufpipe} {BS : BufpipeSpec BP} : IoWriterSpec BufferPipe.
Proof. intros p bs. apply pipe_write_count. Qed.

Inductive rstate : Type := readInit | readHeader | readBlock | readIndex | readFooter | readPadding.
#[export] Instance rstate_eq_dec : EqDecision rstate.
Proof. solve_decision. Defined.

Section reader.
Context {BP : Bufpipe} {BI : BufpipeIo BP} {L : Liblzma} {E : Errs} {R : Type} {IR : IoReader R}.

(** [Reader]: the fields of the synchronous mode. *)
Record Reader : Type := ReaderV {
  r_rd : R;
  r_index : option loc;
  r_closed : bool;
  r_maxWorkers : Z;
  r_maxBuffer : Z;
  r_state : rstate;
  r_flags : option StreamFlags;
  r_block : option loc;
  r_stream : option Stream;
  r_rdBuf : option loc;
  r_wrBuf : option loc;
  r_world : world;
}.

Definition set_rd_world (rd : R) (w : world) (r : Reader) : Reader :=
  ReaderV rd (r_index r) (r_closed r) (r_maxWorkers r) (r_maxBuffer r) (r_state r) (r_flags r)
    (r_block r) (r_stream r) (r_rdBuf r) (r_wrBuf r) w.
Definition set_state (q : rstate) (r : Reader) : Reader :=
  ReaderV (r_rd r) (r_index r) (r_closed r) (r_maxWorkers r) (r_maxBuffer r) q (r_flags r)
    (r_block r) (r_stream r) (r_rdBuf r) (r_wrBuf r) (r_world r).
Definition set_rflags (f : option StreamFlags) (r : Reader) : Reader :=
  ReaderV (r_rd r) (r_index r) (r_closed r) (r_maxWorkers r) (r_maxBuffer r) (r_state r) f
    (r_block r) (r_stream r) (r_rdBuf r) (r_wrBuf r) (r_world r).
Definition set_rblock (b : option loc) (r : Reader) : Reader :=
  ReaderV (r_rd r) (r_index r) (r_closed r) (r_maxWorkers r) (r_maxBuffer r) (r_state r) (r_flags r)
    b (r_stream r) (r_rdBuf r) (r_wrBuf r) (r_world r).
Definition set_rstream (z : option Stream) (r : Reader) : Reader :=
  ReaderV (r_rd r) (r_index r) (r_closed r) (r_maxWorkers r) (r_maxBuffer r) (r_state r) (r_flags r)
    (r_block r) z (r_rdBuf r) (r_wrBuf r) (r_world r).
Definition set_rclosed (r : Reader) : Reader :=
  ReaderV (r_rd r) (r_index r) true (r_maxWorkers r) (r_maxBuffer r) (r_state r) (r_flags r)
    (r_block r) (r_stream r) (r_rdBuf r) (r_wrBuf r) (r_world r).
Definition set_rbufs (a b : option loc) (r : Reader) : Reader :=
  ReaderV (r_rd r) (r_index r) (r_closed r) (r_maxWorkers r) (r_maxBuffer r) (r_state r) (r_flags r)
    (r_block r) (r_stream r) a b (r_world r).

(** * The constructors *)

Definition clamp_buffer (maxBuffer : Z) : Z :=
  if maxBuffer <? BufferMin then BufferMin
  else if BufferMax <? maxBuffer then BufferMax else maxBuffer.

Definition on_rworld {A} (m : M world A) : M Reader A :=
  zoom r_world (fun w r => set_rd_world (r_rd r) w r) m.

Definition NewReaderCustom (rd : R) (maxBuffer maxWorkers : Z) : M world (option Reader * error) := fun w =>
  let maxBuffer := clamp_buffer maxBuffer in
  let maxWorkers := if maxWorkers <? 0 then WorkersMax else maxWorkers in
  let r := ReaderV rd None false maxWorkers maxBuffer readInit None None None None None w in
  if negb (maxWorkers =? WorkersSync) then (Ret (Some r, None), w)
  else
    let '(o, r) :=
      (a ← on_rworld (alloc_pipe (NewBufferPipe (make_slice (Z.shiftl 1 16)) RingPoll));
       b ← on_rworld (alloc_pipe (NewBufferPipe (make_slice (Z.shiftl 1 16)) RingPoll));
       modify (set_rbufs (Some a) (Some b))) r in
    match o with
    | Ret _ => (Ret (Some r, None), r_world r)
    | Pan p => (Pan p, r_world r)
    | NoFuel => (NoFuel, r_world r)
    end.

Definition NewReader (rd : R) : M world (option Reader * error) :=
  NewReaderCustom rd BufferDefault WorkersDefault.

(** * readFull *)

(** [r.rdBuf.ReadFrom(r.rd)] *)
Definition read_from : M Reader (Z * error) := fun r =>
  match pipe_at (r_world r) (r_rdBuf r) with
  | None => (Pan (PRun NilDereference), r)
  | Some p =>
      let '((n, err), (p', rd')) := bp_ReadFrom p (r_rd r) in
      (Ret (n, err), set_rd_world rd' (pipe_upd (r_rdBuf r) (fun _ => p') (r_world r)) r)
  end.

(** [r.rdBuf.ReadMark(n)] *)
Definition read_mark (n : Z) : M Reader unit :=
  modify (fun r => set_rd_world (r_rd r) (pipe_ReadMark (r_rdBuf r) n (r_world r)) r).

Definition readFull (size : Z) (doMark canEOF : bool) : M Reader (list Z) :=
  r ← get;
  (if pipe_Length (r_world r) (r_rdBuf r) <? size then
     x ← read_from;
     let '(_, err) := x in
     call (errs_Panic (errs_Ignore err [Some ErrShortWrite]))
   else mret tt);;
  r ← get;
  let '(bufLo, bufHi, _) := pipe_ReadSlices (r_world r) (r_rdBuf r) in
  let rdyCnt := zlen bufLo + zlen bufHi in
  call (errs_Assert (negb (rdyCnt =? 0) || negb canEOF) (Some EOF));;
  call (errs_Assert (size <=? rdyCnt) (Some formatError));;
  (if doMark then read_mark size else mret tt);;
  if size <=? zlen bufLo then index_or (ztake bufLo size)
  else mret (bufLo ++ bufHi).

(** * Read

    The state of [Read]: the reader, the named result [cnt] and the pipe over
    the caller's slice. *)
Record rs : Type := Rs { rs_r : Reader; rs_cnt : Z; rs_wr : BufferPipe }.

Definition on_r {A} (m : M Reader A) : M rs A :=
  zoom rs_r (fun r s => Rs r (rs_cnt s) (rs_wr s)) m.

(** The flags, which must not be nil. *)
Definition the_flags : M Reader StreamFlags :=
  r ← get;
  match r_flags r with Some f => mret f | None => panic (PRun NilDereference) end.

Definition step_header : M Reader unit :=
  r ← get;
  let canEOF := negb (bool_decide (r_state r = readInit)) in
  header ← readFull STREAM_HEADER_SIZE true canEOF;
  x ← on_local NewStreamFlags (HeaderDecode header);
  let '(err, flags) := x in
  modify (set_rflags (Some flags));;
  call (errs_Panic err);;
  modify (set_state readBlock).

(** The first half of [readBlock]: the header of a block, or the index. *)
Definition step_block_header : M Reader unit :=
  bs ← readFull 1 false false;
  val ← index_or (zget bs 0);
  if val =? 0 then modify (set_state readIndex)
  else
    flags ← the_flags;
    b ← on_rworld (alloc_block (NewBlock (GetCheck flags)));
    modify (set_rblock (Some b));;
    x ← on_rworld (on_block b (HeaderSizeDecode val));
    let '(headerSize, err) := x in
    call (errs_Panic err);;
    header ← readFull headerSize true false;
    err ← on_rworld (on_block b (Block_HeaderDecode header));
    call (errs_Panic err);;
    x ← on_rworld (Block_NewStreamDecoder b);
    let '(stream, err) := x in
    modify (set_rstream stream);;
    call (errs_Panic err).

(** [z.SetBuffers(r.wrBuf, r.rdBuf)] *)
Definition reader_SetBuffers (z : Stream) : M Reader Stream := fun r =>
  let '(o, (z, w)) := SetBuffers (r_wrBuf r) (r_rdBuf r) (z, r_world r) in
  match o with
  | Ret _ => (Ret z, set_rd_world (r_rd r) w r)
  | Pan p => (Pan p, set_rd_world (r_rd r) w r)
  | NoFuel => (NoFuel, set_rd_world (r_rd r) w r)
  end.

(** The second half of [readBlock]: the data of a block. *)
Definition block_Process (fuel : nat) (z : Stream) : M rs (Z * Z * error) := fun s =>
  let r := rs_r s in
  match Process fuel RUN (ProcSt z (r_world r) (Some (r_rd r)) (Some (rs_wr s))) with
  | (o, ProcSt z' w rd wr) =>
      (o, Rs (set_rstream (Some z') (set_rd_world (default (r_rd r) rd) w r)) (rs_cnt s) (default (rs_wr s) wr))
  end.

Definition step_block_data (fuel : nat) : M rs unit :=
  s ← get;
  match r_stream (rs_r s) with
  | None => mret tt
  | Some z =>
      z ← on_r (reader_SetBuffers z);
      x ← block_Process fuel z;
      let '(rdCnt, _, err) := x in
      modify (fun s => Rs (rs_r s) (rs_cnt s + rdCnt) (rs_wr s));;
      call (errs_Assert (negb (bool_decide (err = Some ErrShortWrite))) None);;
      call (errs_Panic (errs_Ignore err [Some ErrShortWrite; Some streamEnd]));;
      if decide (err = Some streamEnd) then on_r (modify (set_rstream None)) else mret tt
  end.

Definition step_block (fuel : nat) : M rs unit :=
  s ← get;
  match r_stream (rs_r s) with
  | None => on_r step_block_header
  | Some _ => mret tt
  end;;
  step_block_data fuel.

(** [stream.Process(lib.FINISH, nil, r.rd)] on a local stream. *)
Definition index_Process (fuel : nat) (z : Stream) : M Reader (Z * Z * error) := fun r =>
  match Process fuel FINISH (ProcSt z (r_world r) (Some (r_rd r)) (@None BufferPipe)) with
  | (o, ProcSt _ w rd _) => (o, set_rd_world (default (r_rd r) rd) w r)
  end.

Definition step_index (fuel : nat) : M Reader unit :=
  index ← on_rworld (new_Index None);
  x ← on_rworld (Index_NewStreamDecoder index maxMemory);
  let '(stream, err) := x in
  call (errs_Panic err);;
  match stream with
  | None => panic (PRun NilDereference)
  | Some z =>
      z ← reader_SetBuffers z;
      x ← index_Process fuel z;
      let '(_, _, err) := x in
      call (errs_Panic (errs_Ignore err [Some streamEnd]));;
      size ← on_rworld (Size index);
      flags ← the_flags;
      modify (set_rflags (Some (SetBackwardSize size flags).2));;
      on_rworld (End (Some index));;
      modify (set_state readFooter)
  end.

Definition step_footer : M Reader unit :=
  footer ← readFull STREAM_FOOTER_SIZE true false;
  x ← on_local NewStreamFlags (FooterDecode footer);
  let '(err, flags) := x in
  call (errs_Panic err);;
  f ← the_flags;
  call (errs_Panic (Compare flags f));;
  modify (set_state readPadding).

Fixpoint padding_loop (fuel : nat) : M Reader unit :=
  match fuel with
  | O => no_fuel
  | S fuel =>
      padding ← readFull 4 false true;
      if decide (padding = padZeros) then read_mark 4;; padding_loop fuel else mret tt
  end.

Definition step_padding (fuel : nat) : M Reader unit :=
  padding_loop fuel;;
  modify (set_state readHeader).

(** One turn of the loop of [Read]. *)
Definition read_turn (fuel : nat) : M rs unit :=
  s ← get;
  match r_state (rs_r s) with
  | readInit | readHeader => on_r step_header
  | readBlock => step_block fuel
  | readIndex => on_r (step_index fuel)
  | readFooter => on_r step_footer
  | readPadding => on_r (step_padding fuel)
  end.

(** The loop has no exit but a panic. *)
Fixpoint read_loop (fuel : nat) : M rs (unit * error) :=
  match fuel with
  | O => no_fuel
  | S fuel' => read_turn fuel;; read_loop fuel'
  end.

(** [Read] of a slice of [n] bytes: the count, the error, and the bytes that
    were put at the beginning of the slice. *)
Definition Read (fuel : nat) (n : Z) : M Reader (Z * error * list Z) := fun r =>
  if r_closed r then (Ret (0, Some ErrClosedPipe, []), r)
  else if negb (r_maxWorkers r =? WorkersSync) then (Ret (0, None, []), r)
  else
    let wr := NewBufferPipe (make_slice n) LineMono in
    match with_recover (fun _ => tt) (read_loop fuel) (Rs r 0 wr) with
    | (Ret (_, err), s) => (Ret (rs_cnt s, err, bp_Written (rs_wr s)), rs_r s)
    | (Pan p, s) => (Pan p, rs_r s)
    | (NoFuel, s) => (NoFuel, rs_r s)
    end.

Definition reader_Close : M Reader error :=
  r ← get;
  if r_closed r then mret None else modify set_rclosed;; mret None.

End reader.
Arguments Reader {BP L} R.
