(* ===== verification/Xzpipe.v ===== *)
(** [cmd/xzpipe.go], the command around the package [xz]. *)

From Stdlib Require Import Ascii.
From S2P Require Import Prelude Bufpipe Pool Lines Errs Liblzma SmallLzma Lib XzConst Literal World LibIndex Stream StreamPump PipePump.
From S2P Require Import Ioutil PipeClose Writer WriterBlock WriterSync WriterNew WriterSession AsyncWriter AsyncInv AsyncThms AsyncFinite XzReader.

(** * io.Copy of the Go standard library

    The loop over a buffer of 32 KiB, for a source and a destination in the state
    [S]. ([os.File] and [xz.Reader] have no faster way between them: what
    [File.ReadFrom] does for such a source is this loop.) *)
Section copy.
Context {S : Type} (src_Read : Z -> M S (list Z * error)) (dst_Write : list Z -> M S (Z * error)).

Fixpoint copy_loop (fuel : nat) (written : Z) : M S (Z * error) :=
  match fuel with
  | O => no_fuel
  | Datatypes.S fuel =>
      x ← src_Read (32 * kiloByte);
      let '(buf, er) := x in
      y ← (if 0 <? zlen buf then
             z ← dst_Write buf;
             let '(nw, ew) := z in
             mret (if 0 <? nw then written + nw else written,
                   match ew with
                   | Some _ => ew
                   | None => if zlen buf =? nw then None else Some ErrShortWrite
                   end)
           else mret (written, None));
      let '(written, ew) := y in
      if decide (ew <> None) then mret (written, ew)
      else if decide (er = Some EOF) then mret (written, None)
      else if decide (er <> None) then mret (written, er)
      else copy_loop fuel written
  end.

Definition Copy (fuel : nat) : M S (Z * error) := copy_loop fuel 0.

End copy.

(** * flag.FlagSet of the Go standard library

    [Parse] for the one flag that is defined, the boolean [-d]; [None] where the
    program exits (a flag it does not know, a bad value, or a request for help). *)

Definition ParseBool (v : string) : option bool :=
  if bool_decide (v ∈ ["1"; "t"; "T"; "TRUE"; "true"; "True"]%string) then Some true
  else if bool_decide (v ∈ ["0"; "f"; "F"; "FALSE"; "false"; "False"]%string) then Some false
  else None.

(** The name and the value of an argument without its minuses. *)
Definition split_flag (name : string) : string * option string :=
  match String.index 0 "=" name with
  | Some i => (String.substring 0 i name, Some (String.substring (i + 1) (String.length name - (i + 1)) name))
  | None => (name, None)
  end.

Fixpoint Parse (args : list string) (dec : bool) : option bool :=
  match args with
  | String "-"%char s :: args =>
      if bool_decide (s = ""%string) || bool_decide (s = "-"%string) then Some dec
      else
        let name := match s with String "-"%char s => s | _ => s end in
        match name with
        | String "-"%char _ | String "="%char _ => None
        | _ =>
            let '(name, value) := split_flag name in
            if bool_decide (name = "d"%string) then
              d ← match value with Some v => ParseBool v | None => Some true end;
              Parse args d
            else None
        end
  | _ => Some dec
  end.

Section xzpipe.
Context {BP : Bufpipe} {BI : BufpipeIo BP} {L : Liblzma} {E : Errs} {R W : Type} {IR : IoReader R} {IW : IoWriter W}.
Context {BC : BufpipeClose BP} {IU : Ioutil}.

Definition errPanic {S} (err : error) : M S unit :=
  if decide (err <> None) then panic (PErr err) else mret tt.

(** The standard output, and the reader of the standard input. *)
Abbreviation streams := (Reader R * W)%type.

Definition xz_Read (fuel : nat) (n : Z) : M streams (list Z * error) :=
  x ← zoom fst (fun r s => (r, s.2)) (Read fuel n);
  let '(cnt, err, bs) := x in
  mret (take (Z.to_nat cnt) bs, err).

Definition stdout_Write (bs : list Z) : M streams (Z * error) := fun s =>
  let '(r, out) := wr_Write s.2 bs in (Ret r, (s.1, out)).

(** The branch of [main] for [-d]. *)
Definition decompress (fuel : nat) (stdin : R) : M (W * world) unit := fun s =>
  let '(out, w) := s in
  match NewReader stdin w with
  | (Ret (xz, err), w) =>
      match errPanic err w with
      | (Ret _, w) =>
          match xz with
          | Some xz =>
              let '(o, (xz, out)) :=
                with_defer (x ← zoom fst (fun r s => (r, s.2)) reader_Close; mret tt)
                  (x ← Copy (xz_Read fuel) stdout_Write fuel;
                   let '(_, err) := x in
                   errPanic err) (xz, out) in
              (o, (out, r_world xz))
          | None => (Pan (PRun NilDereference), (out, w))
          end
      | (Pan p, w) => (Pan p, (out, w))
      | (NoFuel, w) => (NoFuel, (out, w))
      end
  | (Pan p, w) => (Pan p, (out, w))
  | (NoFuel, w) => (NoFuel, (out, w))
  end.

(** ** Compression *)

(** Only the caller reads the standard input, so the [Write]s of [io.Copy] do not
    depend on the other goroutines: they are those it makes for a destination that
    takes every block. *)
Definition stdin_Read (n : Z) : M (R * list (list Z)) (list Z * error) := fun s =>
  let '(r, rd) := rd_Read s.1 n in (Ret r, (rd, s.2)).
Definition take_block (bs : list Z) : M (R * list (list Z)) (Z * error) := fun s =>
  (Ret (zlen bs, None), (s.1, s.2 ++ [bs])).
Definition stdin_blocks (fuel : nat) (stdin : R) : outcome (Z * error) * (R * list (list Z)) :=
  Copy stdin_Read take_block fuel (stdin, []).

(** The other branch of [main]: the session that it starts, whose caller makes the
    [Write]s of [io.Copy] and the deferred [Close], and the error of the standard
    input, with which [main] panics in the end. *)
Definition compress (NumCPU : Z) (fuel : nat) (stdin : R) (s : W * world) : outcome (async W * error) * (W * world) :=
  match NewWriter s with
  | (Ret (xz, err), s) =>
      match errPanic err s with
      | (Ret _, s) =>
          match xz with
          | Some xz =>
              match stdin_blocks fuel stdin with
              | (Ret (_, err), (_, blocks)) => (Ret (start NumCPU xz blocks, err), s)
              | (Pan p, _) => (Pan p, s)
              | (NoFuel, _) => (NoFuel, s)
              end
          | None => (Pan (PRun NilDereference), s)
          end
      | (Pan p, s) => (Pan p, s)
      | (NoFuel, s) => (NoFuel, s)
      end
  | (Pan p, s) => (Pan p, s)
  | (NoFuel, s) => (NoFuel, s)
  end.

(** ** [main], from its arguments *)
Inductive command : Type :=
| Exited
| Compressing (r : outcome (async W * error)) (s : W * world)
| Decompressed (r : outcome unit) (s : W * world).

Definition main (NumCPU : Z) (fuel : nat) (args : list string) (stdin : R) (s : W * world) : command :=
  match Parse args false with
  | None => Exited
  | Some dec =>
      if negb dec then let '(o, s) := compress NumCPU fuel stdin s in Compressing o s
      else let '(o, s) := decompress fuel stdin s in Decompressed o s
  end.

(** Reading [r] to its end in blocks of [n] gives [bs]. *)
Inductive drained (n : Z) : R -> list Z -> Prop :=
| drained_end r bs r1 : rd_Read r n = ((bs, Some EOF), r1) -> drained n r bs
| drained_more r bs r1 bs' : rd_Read r n = ((bs, None), r1) -> drained n r1 bs' -> drained n r (bs ++ bs').

(** * Decompression never ends *)

(** A source that gives no bytes and no error. *)
Lemma copy_starves {S} (rd : Z -> M S (list Z * error)) wr s :
  (forall n, rd n s = (Ret ([], None), s)) -> forall fuel n, copy_loop rd wr fuel n s = (NoFuel, s).
Proof.
  intros Hrd. induction fuel as [|fuel IH]; intros n; [done|]. cbn [copy_loop].
  rewrite bind_run, Hrd. change (0 <? zlen (@nil Z)) with false. apply IH.
Qed.

(** C7: [xzpipe -d] never ends and never writes a byte, whatever is on the
    standard input: [NewReader] makes an asynchronous reader, whose [Read] returns
    no bytes and no error, and [io.Copy] calls it for ever. *)
Theorem decompress_hangs fuel (stdin : R) (out : W) (w : world) :
  decompress fuel stdin (out, w) = (NoFuel, (out, w)).
Proof.
  unfold decompress, NewReader, NewReaderCustom. cbn [Z.eqb Z.ltb negb WorkersDefault WorkersSync Z.compare].
  unfold errPanic, with_defer. cbn [decide option_eq_dec]. unfold Copy. rewrite bind_run, copy_starves; done.
Qed.

(** * Compression *)

Lemma blocks_drain fuel : forall (rd rd' : R) blocks0 blocks k k',
  copy_loop stdin_Read take_block fuel k (rd, blocks0) = (Ret (k', None), (rd', blocks)) ->
  exists bss, blocks = blocks0 ++ bss /\ drained (32 * kiloByte) rd (concat bss).
Proof.
  induction fuel as [|fuel IH]; intros rd rd' blocks0 blocks k k'; [done|]. cbn [copy_loop]. rewrite bind_run. unfold stdin_Read at 1. cbn [fst snd].
  destruct (rd_Read rd (32 * kiloByte)) as [[bs er] r1] eqn:Hr. cbv beta iota. rewrite bind_run.
  assert (HB : exists k1 bss, (if 0 <? zlen bs then z ← take_block bs;
      let '(nw, ew) := z in mret (if 0 <? nw then k + nw else k, match ew with Some _ => ew | None => if zlen bs =? nw then None else Some ErrShortWrite end)
      else mret (k, None) : M (R * list (list Z)) (Z * error)) (r1, blocks0) = (Ret (k1, None), (r1, blocks0 ++ bss)) /\ concat bss = bs).
  { destruct (Z.ltb_spec 0 (zlen bs)).
    - rewrite bind_run. cbn. rewrite Z.eqb_refl. do 2 eexists. split; [reflexivity|]. cbn. by rewrite app_nil_r.
    - exists k, []. rewrite app_nil_r. split; [done|]. destruct bs; [done|]. rewrite zlen_cons in *. pose proof (zlen_nonneg bs). lia. }
  destruct HB as (k1 & bss & -> & Hb). cbn [decide]. rewrite decide_False by (intros H; by apply H).
  case_decide as He; [|case_decide as Hn].
  - intros [= _ _ <-]. exists bss. split; [done|]. rewrite Hb. eapply drained_end. by rewrite Hr, He.
  - intros [= _ H _ _]. by destruct Hn.
  - intros H. destruct (IH _ _ _ _ _ _ H) as (bss' & -> & Hd). exists (bss ++ bss'). rewrite app_assoc. split; [done|].
    rewrite concat_app, Hb. eapply drained_more; [|exact Hd]. destruct er as [e|]; [|exact Hr]. by destruct Hn.
Qed.

Context {BS : BufpipeSpec BP} {LS : LiblzmaSpec L} {ES : ErrsSpec E} {LI : LiblzmaIdle L} {BCS : BufpipeCloseSpec BP BC}.
Context {IS : IoutilSpec IU} {WS : IoWriterSpec W}.


End xzpipe.
