(* ===== verification/ReaderParse.v ===== *)
(** What the synchronous xz reader accepts and delivers: the grammar of a file
    as a relation on the bytes consumed and the bytes produced, and the proof
    that [Read] walks along it. *)

From S2P Require Import Prelude Bufpipe Lines Errs Liblzma SmallLzma Lib XzConst World LibIndex Stream StreamPump XzReader.

(** Documented behaviour of the decoder of an index: it produces no output, and
    when it reports the end of the index, the variable it was given points to
    the index it decoded. *)
Class IndexDecoderSpec (L : Liblzma) : Prop := {
  index_decoder_silent m0 l lim c0 act i o c m :
    lzma_index_decoder m0 l lim = (OK, c0) -> codes act c0 m0 i o c m -> o = [];
  index_decoder_done m0 l lim c0 act c m :
    lzma_index_decoder m0 l lim = (OK, c0) -> last_call act c0 m0 (Some streamEnd) c m ->
    exists a ix, cm_ixptr m !! l = Some (Some a) /\ cm_index m !! a = Some ix;
}.

Section parse.
Context {BP : Bufpipe} {BI : BufpipeIo BP} {L : Liblzma} {E : Errs} {R : Type} {IR : IoReader R}.
Context {BS : BufpipeSpec BP} {BIS : BufpipeIoSpec BP BI} {LS : LiblzmaSpec L} {ES : ErrsSpec E} {RS : IoReaderSpec R}.

(** * The grammar *)

(** Where a parse stands: before a file, before a header, between the blocks of
    a stream with these flags, inside a block (with the decoder and the memory),
    before the index, before the footer, and in the padding. *)
Inductive phase : Type :=
| PInit
| PHeader
| PBlock (fl : StreamFlags)
| PData (fl : StreamFlags) (c : lzma_coder) (m : cmem_t)
| PIndex (fl : StreamFlags)
| PFooter (fl : StreamFlags)
| PPadding.

(** [parsed i o ph]: the bytes [i] are the beginning of an xz file up to the
    phase [ph], and [o] are the bytes of its blocks so far. A decoded part may be
    seen with bytes that follow it ([buf]); only its own size is consumed. *)
Inductive parsed : list Z -> list Z -> phase -> Prop :=
| parsed_init : parsed [] [] PInit
| parsed_header i o ph buf fl :
    parsed i o ph -> ph = PInit \/ ph = PHeader ->
    STREAM_HEADER_SIZE <= zlen buf -> lzma_stream_header_decode NewStreamFlags buf = (OK, fl) ->
    parsed (i ++ take (Z.to_nat STREAM_HEADER_SIZE) buf) o (PBlock fl)
| parsed_block i o fl val buf size b m l c :
    parsed i o (PBlock fl) -> val <> 0 -> head buf = Some val ->
    HeaderSizeDecode val (NewBlock (GetCheck fl)) = (Ret (size, None), b) ->
    size <= zlen buf -> cm_block m !! l = Some (block (Block_HeaderDecode buf b).2) ->
    (Block_HeaderDecode buf b).1 = Ret None -> lzma_block_decoder m l = (OK, c) ->
    parsed (i ++ take (Z.to_nat size) buf) o (PData fl c m)
| parsed_data i o fl c m cin cout c' m' :
    parsed i o (PData fl c m) -> codes RUN c m cin cout c' m' ->
    parsed (i ++ cin) (o ++ cout) (PData fl c' m')
| parsed_block_end i o fl c m cin cout c' m' :
    parsed i o (PData fl c m) -> codes RUN c m cin cout c' m' -> last_call RUN c m (Some streamEnd) c' m' ->
    parsed (i ++ cin) (o ++ cout) (PBlock fl)
| parsed_blocks_end i o fl : parsed i o (PBlock fl) -> parsed i o (PIndex fl)
| parsed_index i o fl m0 l c0 cin c m a ix :
    parsed i o (PIndex fl) -> lzma_index_decoder m0 l (uint64 maxMemory) = (OK, c0) ->
    codes FINISH c0 m0 cin [] c m -> last_call FINISH c0 m0 (Some streamEnd) c m ->
    cm_ixptr m !! l = Some (Some a) -> cm_index m !! a = Some ix ->
    parsed (i ++ cin) o (PFooter (SetBackwardSize (int64 (lzma_index_size ix)) fl).2)
| parsed_footer i o fl buf fl' :
    parsed i o (PFooter fl) -> STREAM_FOOTER_SIZE <= zlen buf ->
    lzma_stream_footer_decode NewStreamFlags buf = (OK, fl') -> Compare fl' fl = None ->
    parsed (i ++ take (Z.to_nat STREAM_FOOTER_SIZE) buf) o PPadding
| parsed_padding i o : parsed i o PPadding -> parsed (i ++ padZeros) o PPadding
| parsed_next i o : parsed i o PPadding -> parsed i o PHeader.

(** * The buffers of the reader *)

Record rings (r : Reader R) (a b : loc) : Prop := {
  rg_rd : r_rdBuf r = Some a;
  rg_wr : r_wrBuf r = Some b;
  rg_ne : a <> b;
  rg_a : ring_at (r_world r) (Some a);
  rg_b : ring_at (r_world r) (Some b);
  rg_open : r_closed r = false;
  rg_sync : (r_maxWorkers r =? WorkersSync) = true;
}.

Definition adata (r : Reader R) (a : loc) : list Z := pipe_data (r_world r) (Some a).

(** What a step leaves alone: the memory, the Go side of the blocks and the
    output buffer; the input buffer got the bytes [bs] from the reader. *)
Record read_on (r r' : Reader R) (a b : loc) (bs : list Z) : Prop := {
  ro_self : r' = set_rd_world (r_rd r') (r_world r') r;
  ro_reads : reads (r_rd r) bs (r_rd r');
  ro_mem : mem (r_world r') = mem (r_world r);
  ro_go : blk_go (r_world r') = blk_go (r_world r);
  ro_rings : rings r' a b;
  ro_out : adata r' b = adata r b;
}.

Lemma slices_data w o p lo hi e :
  pipe_at w o = Some p -> pipe_ReadSlices w o = (lo, hi, e) -> pipe_data w o = lo ++ hi.
Proof. unfold pipe_ReadSlices, pipe_data, bp_Data. intros -> ->. done. Qed.

Lemma set_rd_world_id (r : Reader R) : set_rd_world (r_rd r) (r_world r) r = r.
Proof. by destruct r. Qed.

Lemma read_from_run (r : Reader R) a b :
  rings r a b -> exists n err r' bs, read_from r = (Ret (n, err), r') /\ read_on r r' a b bs /\
    adata r' a = adata r a ++ bs /\ err <> Some EOF.
Proof.
  intros [H1 H2 H3 H4 H5 H6 H7]. destruct (H4 a eq_refl) as (p & Hp & Hm). unfold read_from. rewrite H1. cbn [pipe_at]. rewrite Hp.
  destruct (bp_ReadFrom p (r_rd r)) as [[n err] [p' rd']] eqn:Er.
  destruct (ring_read_from p (r_rd r) n err p' rd' Hm Er) as (bs & Hr & _ & Hd & Hm' & _ & He).
  do 4 eexists. split; [reflexivity|]. split; [|split; [|exact He]].
  - split; cbn; try done.
    + split; cbn; try done.
      * intros l [= <-]. exists p'. cbn. by rewrite lookup_alter_eq, Hp.
      * intros l [= <-]. destruct (H5 b eq_refl) as (q & Hq & Hmq). exists q. cbn. by rewrite lookup_alter_ne.
    + apply (pipe_data_other (r_world r) (Some a) (Some b) (fun _ => p')). intros l [= <-]. congruence.
  - unfold adata. cbn. unfold pipe_data. cbn. rewrite lookup_alter_eq, Hp. cbn. exact Hd.
Qed.

Lemma read_on_refl (r : Reader R) a b : rings r a b -> read_on r r a b [].
Proof. intros H. split; try done; [by rewrite set_rd_world_id|constructor]. Qed.

Lemma read_on_trans (r1 r2 r3 : Reader R) a b x y : read_on r1 r2 a b x -> read_on r2 r3 a b y -> read_on r1 r3 a b (x ++ y).
Proof.
  intros [A1 A2 A3 A4 A5 A6] [B1 B2 B3 B4 B5 B6]. split; try congruence.
  - rewrite B1, A1. done.
  - by eapply reads_trans.
Qed.

Lemma read_mark_run (r : Reader R) a b n :
  rings r a b -> 0 <= n <= zlen (adata r a) ->
  exists r', read_mark n r = (Ret tt, r') /\ read_on r r' a b [] /\ adata r' a = drop (Z.to_nat n) (adata r a).
Proof.
  intros [H1 H2 H3 H4 H5 H6 H7] Hn. eexists. split; [reflexivity|]. split.
  - assert (Hk : forall k, ring_at (r_world r) k -> ring_at (pipe_ReadMark (r_rdBuf r) n (r_world r)) k).
    { intros k Hk. apply pipe_upd_ring; [intros; apply readmark_mode|done]. }
    split; [done|constructor|by apply pipe_upd_mem|by destruct (r_rdBuf r)| |].
    + split; cbn; try done; by apply Hk.
    + unfold adata. cbn. rewrite H1. apply pipe_data_other. intros l [= <-]. congruence.
  - unfold adata. cbn. rewrite H1. by apply pipe_read_data.
Qed.

Lemma readFull_run (r : Reader R) a b size (mk ce : bool) :
  rings r a b -> 0 <= size ->
  exists o r' bs, readFull size mk ce r = (o, r') /\ read_on r r' a b bs /\
    match o with
    | Ret x => size <= zlen x /\ x `prefix_of` (adata r a ++ bs) /\
        adata r' a = if mk then drop (Z.to_nat size) (adata r a ++ bs) else adata r a ++ bs
    | Pan p => adata r' a = adata r a ++ bs /\
        exists e, p = PErr (Some e) /\ (e = EOF -> ce = true /\ adata r a ++ bs = [])
    | NoFuel => False
    end.
Proof.
  intros Hr Hsize. unfold readFull. rewrite bind_get.
  (* the input buffer is filled *)
  set (fill := if _ <? size then _ else _).
  assert (Hfill : exists r1 bs, read_on r r1 a b bs /\ adata r1 a = adata r a ++ bs /\
    (fill r = (Ret tt, r1) \/ exists e, e <> EOF /\ fill r = (Pan (PErr (Some e)), r1))).
  { unfold fill. destruct (_ <? size).
    - destruct (read_from_run r a b Hr) as (n & err & r1 & bs & Hf & Hon & Hd & He).
      exists r1, bs. split; [done|]. split; [done|]. rewrite (bind_ret _ _ _ _ _ Hf). unfold call.
      rewrite Ignore_spec, Panic_spec. case_decide; [by left|]. destruct err as [e|]; [|by left].
      right. exists e. split; [congruence|done].
    - exists r, []. rewrite app_nil_r. split; [by apply read_on_refl|]. split; [done|by left]. }
  clearbody fill. destruct Hfill as (r1 & bs & Hon & Hd & [Hf|(e & He & Hf)]).
  2: { exists (Pan (PErr (Some e))), r1, bs. rewrite (bind_panic _ _ _ _ _ Hf). split; [done|]. split; [done|].
       split; [done|]. exists e. split; [done|]. intros ->. done. }
  rewrite (bind_ret _ _ _ _ _ Hf), bind_get. pose proof (ro_rings _ _ _ _ _ Hon) as [G1 G2 G3 G4 G5 _ _]. rewrite G1.
  destruct (pipe_ReadSlices (r_world r1) (Some a)) as [[lo hi] e0] eqn:Es.
  destruct (G4 a eq_refl) as (p & Hp & Hm). pose proof (slices_data (r_world r1) (Some a) p _ _ _ Hp Es) as Hlh. fold (adata r1 a) in Hlh.
  rewrite Hd in Hlh. rewrite <- zlen_app, <- Hlh, !Assert_spec. set (D := adata r a ++ bs) in *.
  destruct (negb (zlen D =? 0) || negb ce) eqn:Ec.
  2: { apply orb_false_iff in Ec as [Ec1%negb_false_iff%Z.eqb_eq Ec2%negb_false_iff].
       exists (Pan (PErr (Some EOF))), r1, bs. split; [done|]. split; [done|]. split; [done|]. exists EOF.
       split; [done|]. intros _. split; [done|by apply zlen_zero_inv]. }
  rewrite bind_call. destruct (Z.leb_spec size (zlen D)) as [Hle|Hlt].
  2: { exists (Pan (PErr (Some formatError))), r1, bs. split; [done|]. split; [done|]. split; [done|].
       exists formatError. by split. }
  rewrite bind_call.
  assert (Hmark : exists r2, (if mk then read_mark size else mret tt) r1 = (Ret tt, r2) /\ read_on r r2 a b bs /\
    adata r2 a = if mk then drop (Z.to_nat size) D else D).
  { destruct mk; [|by exists r1]. destruct (read_mark_run r1 a b size (ro_rings _ _ _ _ _ Hon)) as (r2 & E2 & O2 & D2);
      [rewrite Hd; lia|]. exists r2. split; [done|]. rewrite D2, Hd. split; [|done].
    rewrite <- (app_nil_r bs). by eapply read_on_trans. }
  destruct Hmark as (r2 & E2 & O2 & D2). rewrite (bind_ret _ _ _ _ _ E2).
  destruct (Z.leb_spec size (zlen lo)) as [Hlo|Hlo].
  - unfold ztake. rewrite (proj2 (Z.leb_le 0 _) Hsize), (proj2 (Z.leb_le _ _) Hlo). cbn [andb index_or].
    exists (Ret (take (Z.to_nat size) lo)), r2, bs. split; [done|]. split; [done|]. split; [rewrite zlen_take; lia|].
    fold D. split; [|done]. rewrite Hlh. exists (drop (Z.to_nat size) lo ++ hi). by rewrite app_assoc, take_drop.
  - exists (Ret D), r2, bs. split; [done|]. split; [done|]. fold D. split; [done|]. by split; [exists []; rewrite app_nil_r|].
Qed.

(** * The invariant *)

(** The fields of the reader at a phase. *)
Definition matches (r : Reader R) (ph : phase) : Prop :=
  match ph with
  | PInit => r_state r = readInit /\ r_stream r = None
  | PHeader => r_state r = readHeader /\ r_stream r = None
  | PBlock fl => r_state r = readBlock /\ r_flags r = Some fl /\ r_stream r = None
  | PData fl c m => r_state r = readBlock /\ r_flags r = Some fl /\
      exists z, r_stream r = Some z /\ coder z = c /\ mem (r_world r) = m
  | PIndex fl => r_state r = readIndex /\ r_flags r = Some fl /\ r_stream r = None
  | PFooter fl => r_state r = readFooter /\ r_flags r = Some fl /\ r_stream r = None
  | PPadding => r_state r = readPadding /\ r_stream r = None
  end.

Definition in_block (ph : phase) : Prop := match ph with PData _ _ _ => True | _ => False end.

(** From the reader [rd0] the bytes of a file up to [ph] were consumed, what
    follows them waits in the input buffer; of the bytes of the blocks, [dl] were
    delivered, and what follows waits in the output buffer. *)
Record following (rd0 : R) (dl : list Z) (r : Reader R) (ph : phase) (a b : loc) : Prop := {
  fw_rings : rings r a b;
  fw_matches : matches r ph;
  fw_out : in_block ph \/ adata r b = [];
  fw_parsed : exists i, reads rd0 (i ++ adata r a) (r_rd r) /\ parsed i (dl ++ adata r b) ph;
}.

(** The reader stopped with an error: what was delivered is a prefix of what the
    file up to some phase holds. io.EOF comes at the end of a file, or inside a
    block or an index. *)
Definition complete (ph : phase) (o rest dl : list Z) : Prop :=
  (ph = PHeader \/ ph = PPadding) /\ rest = [] /\ o = dl.
Definition truncated (ph : phase) : Prop := in_block ph \/ exists fl, ph = PIndex fl.

Definition stopped (rd0 : R) (dl : list Z) (r : Reader R) (e : goerr) : Prop :=
  exists i o ph rest, reads rd0 (i ++ rest) (r_rd r) /\ parsed i o ph /\ dl `prefix_of` o /\
    (e = EOF -> complete ph o rest dl \/ truncated ph).

Lemma prefix_take {A} (x D : list A) n : x `prefix_of` D -> 0 <= n <= zlen x ->
  take (Z.to_nat n) x = take (Z.to_nat n) D.
Proof. intros [k ->] H. unfold zlen in H. by rewrite take_app_le by lia. Qed.

(** What a step on the reader does. *)
Definition stepped (rd0 : R) (dl : list Z) (a b : loc) (x : outcome unit * Reader R) : Prop :=
  match x with
  | (Ret _, r') => exists ph', following rd0 dl r' ph' a b
  | (Pan p, r') => exists e, p = PErr (Some e) /\ stopped rd0 dl r' e
  | (NoFuel, _) => True
  end.

(** What [rings], and with them the bytes in the buffers, depend on. *)
Record kept (r r' : Reader R) : Prop := {
  kp_rd : r_rd r' = r_rd r;
  kp_rdBuf : r_rdBuf r' = r_rdBuf r;
  kp_wrBuf : r_wrBuf r' = r_wrBuf r;
  kp_closed : r_closed r' = r_closed r;
  kp_workers : r_maxWorkers r' = r_maxWorkers r;
  kp_pipes : pipes (r_world r') = pipes (r_world r);
}.

Lemma kept_data r r' l : kept r r' -> adata r' l = adata r l.
Proof. intros H. unfold adata, pipe_data, pipe_at. by rewrite (kp_pipes _ _ H). Qed.

Lemma kept_rings r r' a b : kept r r' -> rings r a b -> rings r' a b.
Proof.
  intros [K1 K2 K3 K4 K5 K6] [H1 H2 H3 H4 H5 H6 H7]. split; try congruence.
  - intros l Hl. rewrite K6. by apply H4.
  - intros l Hl. rewrite K6. by apply H5.
Qed.

Lemma read_on_kept r r' a b bs : read_on r r' a b bs ->
  r_state r' = r_state r /\ r_flags r' = r_flags r /\ r_stream r' = r_stream r.
Proof. intros H. by rewrite (ro_self _ _ _ _ _ H). Qed.

(** Between two parts of the file nothing waits in the output buffer. *)
Lemma following_out rd0 dl (r : Reader R) ph a b : following rd0 dl r ph a b -> ~ in_block ph -> adata r b = [].
Proof. intros H Hn. by destruct (fw_out _ _ _ _ _ _ H). Qed.

(** A step that read [bs], consumed the first [n] bytes of what waits, and went
    on to the phase [ph']. *)
Lemma following_take rd0 dl (r r1 r2 : Reader R) ph ph' a b bs x n :
  following rd0 dl r ph a b -> ~ in_block ph -> read_on r r1 a b bs -> 0 <= n <= zlen x ->
  x `prefix_of` (adata r a ++ bs) -> adata r1 a = drop (Z.to_nat n) (adata r a ++ bs) -> kept r1 r2 ->
  matches r2 ph' -> (forall i o, parsed i o ph -> parsed (i ++ take (Z.to_nat n) x) o ph') ->
  following rd0 dl r2 ph' a b.
Proof.
  intros H Hnb Hon Hn Hx Hd Hk Hm Hp. destruct (fw_parsed _ _ _ _ _ _ H) as (i & Hr & Hpi).
  assert (Hb : adata r2 b = []) by (rewrite (kept_data _ _ _ Hk), (ro_out _ _ _ _ _ Hon); by eapply following_out).
  split; [eapply kept_rings; [done|apply Hon]|done|by right|].
  exists (i ++ take (Z.to_nat n) x). rewrite Hb, app_nil_r, (kept_data _ _ _ Hk), (kp_rd _ _ Hk), Hd, (prefix_take _ _ _ Hx Hn).
  rewrite <- app_assoc, take_drop. split; [rewrite app_assoc; eapply reads_trans; [exact Hr|apply Hon]|].
  rewrite <- (prefix_take _ _ _ Hx Hn). apply Hp. by rewrite (following_out _ _ _ _ _ _ H Hnb), app_nil_r in Hpi.
Qed.

(** A step that read [bs] and consumed nothing. *)
Lemma following_read rd0 dl (r r1 r2 : Reader R) ph ph' a b bs :
  following rd0 dl r ph a b -> ~ in_block ph -> read_on r r1 a b bs -> adata r1 a = adata r a ++ bs -> kept r1 r2 ->
  matches r2 ph' -> (forall i o, parsed i o ph -> parsed i o ph') -> following rd0 dl r2 ph' a b.
Proof.
  intros H Hnb Hon Hd Hk Hm Hp. eapply (following_take _ _ r r1 r2 ph ph' a b bs [] 0); try done.
  - by apply prefix_nil.
  - intros i o. rewrite app_nil_r. apply Hp.
Qed.

Lemma following_same rd0 dl (r r2 : Reader R) ph ph' a b :
  following rd0 dl r ph a b -> ~ in_block ph -> kept r r2 ->
  matches r2 ph' -> (forall i o, parsed i o ph -> parsed i o ph') -> following rd0 dl r2 ph' a b.
Proof.
  intros H Hnb Hk Hm Hp. eapply following_read; try done; [apply read_on_refl, H|by rewrite app_nil_r].
Qed.

(** A step that fails. *)
Lemma stepped_fail rd0 dl (r r1 r2 : Reader R) ph a b bs e :
  following rd0 dl r ph a b -> read_on r r1 a b bs -> r_rd r2 = r_rd r1 -> e <> EOF ->
  stepped rd0 dl a b (Pan (PErr (Some e)), r2).
Proof.
  intros H Hon Hr He. exists e. split; [done|]. destruct (fw_parsed _ _ _ _ _ _ H) as (i & Hri & Hp).
  exists i, (dl ++ adata r b), ph, (adata r a ++ bs). rewrite Hr.
  split; [rewrite app_assoc; eapply reads_trans; [exact Hri|apply Hon]|]. split_and!; [done|by exists (adata r b)|done].
Qed.

Lemma stepped_readFull rd0 dl (r : Reader R) ph a b n (mk ce : bool) (k : list Z -> M (Reader R) unit) :
  following rd0 dl r ph a b -> ~ in_block ph -> 0 <= n -> (ce = true -> ph = PHeader \/ ph = PPadding) ->
  (forall x r1 bs, read_on r r1 a b bs -> n <= zlen x -> x `prefix_of` (adata r a ++ bs) ->
     adata r1 a = (if mk then drop (Z.to_nat n) (adata r a ++ bs) else adata r a ++ bs) -> stepped rd0 dl a b (k x r1)) ->
  stepped rd0 dl a b (((readFull n mk ce : M (Reader R) (list Z)) ≫= k) r).
Proof.
  intros H Hnb Hn Hce Hk. destruct (readFull_run r a b n mk ce (fw_rings _ _ _ _ _ _ H) Hn) as (o & r1 & bs & Hrun & Hon & Hout).
  destruct o as [x|p|]; [| |done].
  - rewrite (bind_ret _ _ _ _ _ Hrun). destruct Hout as (H1 & H2 & H3). by eapply Hk.
  - rewrite (bind_panic _ _ _ _ _ Hrun). destruct Hout as (Hd & e & -> & He). exists e. split; [done|].
    destruct (fw_parsed _ _ _ _ _ _ H) as (i & Hri & Hp). rewrite (following_out _ _ _ _ _ _ H Hnb), app_nil_r in Hp.
    exists i, dl, ph, (adata r a ++ bs). split; [rewrite app_assoc; eapply reads_trans; [exact Hri|apply Hon]|].
    split; [done|]. split; [done|]. intros Hx. left. destruct (He Hx) as [Hc Hz]. split; [by apply Hce|]. by split.
Qed.

(** The decoders of a header of fixed size. *)
Lemma HeaderDecode_run buf fl : exists err fl', HeaderDecode buf fl = (Ret err, fl') /\
  (err = None -> STREAM_HEADER_SIZE <= zlen buf /\ lzma_stream_header_decode fl buf = (OK, fl')) /\ err <> Some EOF.
Proof.
  unfold HeaderDecode. destruct (Z.ltb_spec (zlen buf) STREAM_HEADER_SIZE) as [Hl|Hl].
  - do 2 eexists. split; [reflexivity|]. unfold NewError. destruct (Z.eqb_spec BUF_ERROR OK) as [Hb|]; [|by split].
    exfalso. revert Hb. apply error_code_not_ok; [done|]. unfold lzma_rets. set_solver.
  - rewrite bind_get. destruct (lzma_stream_header_decode fl buf) as [ret fl']. do 2 eexists. split; [reflexivity|].
    unfold NewError. destruct (Z.eqb_spec ret OK) as [->|]; [|by split]. by split.
Qed.

Lemma FooterDecode_run buf fl : exists err fl', FooterDecode buf fl = (Ret err, fl') /\
  (err = None -> STREAM_FOOTER_SIZE <= zlen buf /\ lzma_stream_footer_decode fl buf = (OK, fl')) /\ err <> Some EOF.
Proof.
  unfold FooterDecode. destruct (Z.ltb_spec (zlen buf) STREAM_FOOTER_SIZE) as [Hl|Hl].
  - do 2 eexists. split; [reflexivity|]. unfold NewError. destruct (Z.eqb_spec BUF_ERROR OK) as [Hb|]; [|by split].
    exfalso. revert Hb. apply error_code_not_ok; [done|]. unfold lzma_rets. set_solver.
  - rewrite bind_get. destruct (lzma_stream_footer_decode fl buf) as [ret fl']. do 2 eexists. split; [reflexivity|].
    unfold NewError. destruct (Z.eqb_spec ret OK) as [->|]; [|by split]. by split.
Qed.

(** * The header *)

Lemma stepped_header rd0 dl (r : Reader R) ph a b :
  following rd0 dl r ph a b -> ph = PInit \/ ph = PHeader -> stepped rd0 dl a b (step_header r).
Proof.
  intros Hf Hph. assert (Hnb : ~ in_block ph) by (destruct Hph as [-> | ->]; intros []; done). pose proof (fw_matches _ _ _ _ _ _ Hf) as Hm.
  assert (Hns : r_stream r = None) by (destruct Hph as [-> | ->]; apply Hm).
  unfold step_header. rewrite bind_get. eapply stepped_readFull; [exact Hf|done|apply stream_header_size_nonneg| |].
  { destruct Hph as [-> | ->]; [|by left]. destruct Hm as [-> _]. by rewrite bool_decide_eq_true_2. }
  intros x r1 bs Hon Hx Hpre Hd. destruct (read_on_kept _ _ _ _ _ Hon) as (_ & _ & Hs1).
  destruct (HeaderDecode_run x NewStreamFlags) as (err & fl & Hdec & Hok & Hne).
  rewrite (bind_local _ _ _ _ _ _ Hdec), bind_run. unfold modify at 1. cbv beta iota. rewrite bind_run. unfold call.
  rewrite Panic_spec. pose proof stream_header_size_nonneg as Hnn. destruct err as [e|]; [eapply stepped_fail; try done; congruence|].
  destruct (Hok eq_refl) as [Hl Hde]. exists (PBlock fl).
  eapply (following_take _ _ r r1 _ ph); [exact Hf|done|exact Hon|exact (conj Hnn Hx)|exact Hpre|exact Hd|by destruct r1|..].
  - cbn. by rewrite Hs1, Hns.
  - intros i o Hp. by eapply parsed_header.
Qed.

(** * The header of a block *)

Lemma on_rworld_run {A} (m : M world A) (r : Reader R) o w' :
  m (r_world r) = (o, w') -> on_rworld m r = (o, set_rd_world (r_rd r) w' r).
Proof. intros H. unfold on_rworld, zoom. by rewrite H. Qed.

Lemma the_flags_run (r : Reader R) fl : r_flags r = Some fl -> the_flags r = (Ret fl, r).
Proof. intros H. unfold the_flags. by rewrite bind_get, H. Qed.

(** [HeaderSizeDecode] on a new block. *)
Lemma HeaderSizeDecode_run val b : exists size err, (HeaderSizeDecode val b).1 = Ret (size, err) /\ err <> Some EOF /\
  (err = None -> 0 < size /\ GetHeaderSize (HeaderSizeDecode val b).2 = size).
Proof.
  unfold HeaderSizeDecode. destruct (_ || _) eqn:Eo; [by do 2 eexists|]. do 2 eexists. split; [reflexivity|].
  split; [done|]. intros _. apply orb_false_iff in Eo as [E1%Z.ltb_ge E2%Z.ltb_ge]. pose proof block_header_bounds.
  unfold BLOCK_HEADER_SIZE_MIN, BLOCK_HEADER_SIZE_MAX in *. split; [lia|]. cbn. apply uint32_id. lia.
Qed.

Lemma Block_HeaderDecode_run data b : GetHeaderSize b <= zlen data ->
  exists err, (Block_HeaderDecode data b).1 = Ret err /\ err <> Some EOF.
Proof.
  intros Hl. unfold Block_HeaderDecode. rewrite bind_get. unfold GetHeaderSize in Hl. rewrite (proj2 (Z.ltb_ge _ _)) by done.
  destruct (lzma_block_header_decode _ _) as [ret b']. eexists. split; [reflexivity|]. unfold NewError. by case_match.
Qed.

Lemma stream_of_run x rf : (exists c z, x = (OK, c) /\ stream_of x rf = (Some z, None) /\ coder z = c) \/
  exists code, stream_of x rf = (None, Some (LibError code)).
Proof.
  destruct x as [ret c]. unfold stream_of, NewError. cbn [fst snd]. destruct (Z.eqb_spec ret OK) as [->|].
  - left. exists c. eexists. split_and!; try done.
    assert (Hc : forall z, coder (foldl (fun z x => appendRef x z) z rf) = coder z) by (clear; induction rf as [|y rf IH]; [done|intros z; cbn [foldl]; by rewrite IH]).
    by rewrite Hc.
  - right. by eexists.
Qed.

(** After the size byte. *)
Lemma stepped_block_tail rd0 dl (r : Reader R) fl a b l val b1 size :
  following rd0 dl r (PBlock fl) a b -> get_block (r_world r) l = Some b1 -> 0 < size -> GetHeaderSize b1 = size ->
  HeaderSizeDecode val (NewBlock (GetCheck fl)) = (Ret (size, None), b1) -> val <> 0 -> head (adata r a) = Some val ->
  stepped rd0 dl a b ((header ← readFull size true false;
    err ← on_rworld (on_block l (Block_HeaderDecode header));
    call (errs_Panic err);;
    x ← on_rworld (Block_NewStreamDecoder l);
    let '(stream, err) := x in
    modify (set_rstream stream);;
    call (errs_Panic err)) r).
Proof.
  intros Hf Hb Hsz Hgs Hdec Hval Hhd. pose proof (fw_matches _ _ _ _ _ _ Hf) as (M1 & M2 & M3).
  eapply stepped_readFull; [exact Hf|by intros []|lia|done|].
  intros x r1 bs Hon Hx Hpre Hd. destruct (read_on_kept _ _ _ _ _ Hon) as (K1 & K2 & K3).
  assert (Hb1 : get_block (r_world r1) l = Some b1).
  { unfold get_block. by rewrite (ro_mem _ _ _ _ _ Hon), (ro_go _ _ _ _ _ Hon). }
  destruct (Block_HeaderDecode_run x b1) as (err & Herr & Hne); [lia|].
  destruct (on_block_run (r_world r1) l b1 (Block_HeaderDecode x) Hb1) as (w2 & R2 & G2 & P2 & _). rewrite Herr in R2.
  rewrite (bind_ret _ _ _ _ _ (on_rworld_run _ _ _ _ R2)), bind_run. unfold call at 1. rewrite Panic_spec.
  destruct err as [e|]; [eapply stepped_fail; try done; congruence|].
  set (r2 := set_rd_world _ w2 r1). rewrite bind_run. unfold on_rworld at 1, zoom, Block_NewStreamDecoder at 1. cbn [r2 r_world set_rd_world].
  rewrite bind_get. destruct (stream_of_run (lzma_block_decoder (mem w2) l) [RefBlock l]) as [(c & z & Ec & Es & Hz)|(code & Es)].
  2: { unfold mret at 1, M_ret. rewrite Es. cbn. unfold call. rewrite Panic_spec. by eapply stepped_fail. }
  unfold mret at 1, M_ret. rewrite Es. cbv iota. rewrite bind_run. unfold modify, call. rewrite Panic_spec. cbv iota.
  exists (PData fl c (mem w2)). eapply (following_take _ _ r r1 _ (PBlock fl)); [exact Hf|by intros []|exact Hon|exact (conj (Z.lt_le_incl _ _ Hsz) Hx)|exact Hpre|exact Hd|..].
  - by split.
  - cbn. rewrite K1, K2. eauto 10.
  - intros i o Hp. eapply parsed_block; [exact Hp|exact Hval| |exact Hdec|exact Hx|by eapply get_block_mem|exact Herr|exact Ec].
    destruct Hpre as [k Hk]. assert (Hh : head (adata r a ++ bs) = Some val) by (by destruct (adata r a)).
    rewrite Hk in Hh. destruct x; [|done]. change (zlen (@nil Z)) with 0 in Hx. lia.
Qed.

Lemma stepped_block_header rd0 dl (r : Reader R) fl a b :
  following rd0 dl r (PBlock fl) a b -> stepped rd0 dl a b (step_block_header r).
Proof.
  intros Hf. pose proof (fw_matches _ _ _ _ _ _ Hf) as (M1 & M2 & M3). unfold step_block_header.
  eapply stepped_readFull; [exact Hf|by intros []|lia|done|].
  intros x r1 bs Hon Hx Hpre Hd. destruct (read_on_kept _ _ _ _ _ Hon) as (K1 & K2 & K3).
  destruct x as [|val x]; [by change (zlen (@nil Z)) with 0 in Hx|]. rewrite (bind_ret _ _ r1 val r1 eq_refl).
  destruct (Z.eqb_spec val 0) as [Hz|Hval].
  { exists (PIndex fl). eapply (following_read _ _ r r1 _ (PBlock fl)); [exact Hf|by intros []|exact Hon|exact Hd|by split| |].
    - cbn. by rewrite K2, K3.
    - intros i o. apply parsed_blocks_end. }
  rewrite M2 in K2. rewrite (bind_ret _ _ _ _ _ (the_flags_run r1 fl K2)).
  destruct (alloc_block_run (r_world r1) (NewBlock (GetCheck fl))) as (l & w2 & R2 & G2 & P2 & _).
  rewrite (bind_ret _ _ _ _ _ (on_rworld_run _ _ _ _ R2)), bind_run. unfold modify at 1. cbv iota.
  set (r2 := set_rblock _ _). destruct (HeaderSizeDecode_run val (NewBlock (GetCheck fl))) as (size & err & Hdec & Hne & Hok).
  destruct (on_block_run w2 l _ (HeaderSizeDecode val) G2) as (w3 & R3 & G3 & P3 & _). rewrite Hdec in R3.
  rewrite (bind_ret _ _ _ _ _ (on_rworld_run _ r2 _ _ R3)), bind_run. unfold call at 1. rewrite Panic_spec.
  destruct err as [e|]; [eapply stepped_fail; try done; congruence|]. destruct (Hok eq_refl) as [Hs1 Hs2].
  set (r3 := set_rd_world _ w3 r2). assert (Hk : kept r1 r3) by (split; try done; cbn; congruence).
  eapply stepped_block_tail; [|exact G3|exact Hs1|exact Hs2|by apply run_eta|exact Hval|].
  - eapply (following_read _ _ r r1 _ (PBlock fl)); [exact Hf|by intros []|exact Hon|exact Hd|exact Hk| |done].
    cbn. by rewrite K1, K2, K3.
  - rewrite (kept_data _ _ _ Hk), Hd. destruct Hpre as [k ->]. done.
Qed.

(** * The data of a block *)

(** The source does not make up liblzma's end-of-stream status. *)
Definition honest_reader : Prop := forall (rd : R) n, (rd_Read rd n).1.2 <> Some streamEnd.

Lemma line_of_writes (p p' : BufferPipe) cap r bs xs :
  line p cap false r bs -> writes p xs p' -> line p' cap false r (bs ++ xs).
Proof.
  intros Hl Hw. revert bs Hl. induction Hw as [p|p buf n e p1 xs p2 Hw _ IH]; intros bs Hl; [by rewrite app_nil_r|].
  destruct (line_of_write p cap r bs buf Hl) as (q & Hq & Hlq). unfold wr_Write, pipe_writer in Hw. rewrite Hq in Hw.
  injection Hw as <- _ <-. rewrite app_assoc. by apply IH.
Qed.

(** Where [Read] stands: its slice holds [W]. *)
Definition reading (rd0 : R) (dl : list Z) (cap : Z) (s : rs) (ph : phase) (a b : loc) : Prop :=
  exists W, line (rs_wr s) cap false 0 W /\ rs_cnt s = zlen W /\ following rd0 (dl ++ W) (rs_r s) ph a b.

(** What a step of [Read] does: the panic with no error is how it returns when
    the slice is full. *)
Definition turned (rd0 : R) (dl : list Z) (cap : Z) (a b : loc) (x : outcome unit * rs) : Prop :=
  match x with
  | (Ret _, s') => exists ph', reading rd0 dl cap s' ph' a b
  | (Pan (PErr None), s') => exists ph', reading rd0 dl cap s' ph' a b
  | (Pan (PErr (Some e)), s') =>
      exists W, line (rs_wr s') cap false 0 W /\ rs_cnt s' = zlen W /\ stopped rd0 (dl ++ W) (rs_r s') e
  | (Pan _, _) => False
  | (NoFuel, _) => True
  end.

(** A step on the reader inside [Read]. *)
Lemma turned_on_r rd0 dl cap (s : rs) ph a b (m : M (Reader R) unit) :
  reading rd0 dl cap s ph a b -> (forall dl', following rd0 dl' (rs_r s) ph a b -> stepped rd0 dl' a b (m (rs_r s))) ->
  turned rd0 dl cap a b (on_r m s).
Proof.
  intros (W & Hl & Hc & Hf) Hm. specialize (Hm _ Hf). unfold on_r, zoom. destruct (m (rs_r s)) as [[[]|p|] r']; [| |done].
  - destruct Hm as [ph' Hm]. by exists ph', W.
  - destruct Hm as (e & -> & Hs). by exists W.
Qed.

(** The buffers of the reader around a stream. *)
Definition with_bufs (z : Stream) (a b : loc) : Stream :=
  StreamV (coder z) (next_in z) (written z) (avail_out z) (total_in z) (total_out z) (refs z) (Some a) (Some b).

Lemma reader_SetBuffers_run (r : Reader R) z a b : rings r a b -> reader_SetBuffers z r = (Ret (with_bufs z a b), r).
Proof.
  intros [H1 H2 H3 H4 H5 _ _]. unfold reader_SetBuffers, SetBuffers. rewrite H1, H2, bind_get. cbn [snd pipe_at].
  destruct (H4 a eq_refl) as (p & -> & Hp). destruct (H5 b eq_refl) as (q & -> & Hq). rewrite Hp, Hq, Z.eqb_refl. cbn.
  by rewrite set_rd_world_id.
Qed.

(** One [Process] of the data. *)
Lemma block_Process_run fuel rd0 dl cap (s : rs) fl c m a b z :
  reading rd0 dl cap s (PData fl c m) a b -> r_stream (rs_r s) = Some z ->
  match block_Process fuel (with_bufs z a b) s with
  | (Ret (o, _, err), s1) =>
      let s2 := Rs (rs_r s1) (rs_cnt s1 + o) (rs_wr s1) in err <> None /\
      exists z1 cin cout i o0 W, reading rd0 dl cap s2 (PData fl (coder z1) (mem (r_world (rs_r s2)))) a b /\
        r_stream (rs_r s2) = Some z1 /\ line (rs_wr s2) cap false 0 W /\ rs_cnt s2 = zlen W /\
        r_state (rs_r s2) = readBlock /\ r_flags (rs_r s2) = Some fl /\
        reads rd0 ((i ++ cin) ++ adata (rs_r s2) a) (r_rd (rs_r s2)) /\
        parsed i o0 (PData fl c m) /\ codes RUN c m cin cout (coder z1) (mem (r_world (rs_r s2))) /\
        o0 ++ cout = (dl ++ W) ++ adata (rs_r s2) b /\
        ((exists w bs, (bp_Write w bs).1.2 = err) \/
         (last_call RUN c m err (coder z1) (mem (r_world (rs_r s2))) /\ adata (rs_r s2) b = []) \/
         exists rd n, (rd_Read rd n).1.2 = err)
  | (Pan _, _) => False
  | (NoFuel, _) => True
  end.
Proof.
  intros (W & Hl & Hc & [Hg Hm Ho (i & Hr & Hp)]) Hz. unfold block_Process. set (r := rs_r s) in *.
  set (s0 := ProcSt (with_bufs z a b) (r_world r) (Some (r_rd r)) (Some (rs_wr s))).
  assert (Hok : stream_ok s0).
  { destruct Hg. split; cbn; [done|done|]. intros l [= <-]. congruence. }
  destruct (Process fuel RUN s0) as [[[[o i'] err]|p|] s1] eqn:Ep; destruct s1 as [z1 w1 rd1 wr1]; [| |done].
  2: { apply (Process_pan fuel RUN s0 p Hok). by rewrite Ep. }
  pose proof (Process_bufs RUN fuel s0 ltac:(done) ltac:(done)) as Hb. rewrite Ep in Hb. injection Hb as Hi1 Ho1.
  destruct (Process_run RUN fuel s0 _ _ _ _ Hok Ep) as [([K1 K2 _] & rd & cin & cout & wr & [P1 P2 P3 P4 P5] & -> & ->) He].
  cbn in P1, P2, P3, K1, K2, He. destruct rd1 as [rd1|]; [|done]. destruct wr1 as [wr1|]; [|done]. cbn [default rs_r rs_cnt rs_wr].
  rewrite Hi1 in K1. rewrite Ho1 in K2. unfold in_data, out_data in P4, P5. cbn in P4, P5. rewrite Hi1 in P4. rewrite Ho1 in P5.
  destruct Hm as (M1 & M2 & z0 & M3 & M4 & M5). fold r in M1, M2, M3, M5. rewrite Hz in M3. injection M3 as <-.
  rewrite M4, M5 in *. set (r1 := set_rstream (Some z1) (set_rd_world rd1 w1 r)).
  change (pipe_data (r_world r) (Some a)) with (adata r a) in P4. change (pipe_data w1 (Some a)) with (adata r1 a) in P4.
  change (pipe_data (r_world r) (Some b)) with (adata r b) in P5. change (pipe_data w1 (Some b)) with (adata r1 b) in P5.
  assert (Hline : line wr1 cap false 0 (W ++ wr)) by (by eapply line_of_writes).
  assert (Hcnt : rs_cnt s + zlen wr = zlen (W ++ wr)) by (rewrite zlen_app; lia).
  assert (Hread : reads rd0 ((i ++ cin) ++ adata r1 a) rd1).
  { rewrite <- app_assoc, <- P4, app_assoc. by eapply reads_trans. }
  assert (Hout : ((dl ++ W) ++ adata r b) ++ cout = (dl ++ W ++ wr) ++ adata r1 b).
  { rewrite <- (app_assoc (dl ++ W)), P5. by rewrite !app_assoc. }
  split; [apply He|]. exists z1, cin, cout, i, ((dl ++ W) ++ adata r b), (W ++ wr). split_and!; try done.
  - exists (W ++ wr). split; [done|]. split; [done|]. split.
    + destruct Hg. by split.
    + cbn. eauto 10.
    + by left.
    + exists (i ++ cin). split; [done|].
      change (parsed (i ++ cin) ((dl ++ W ++ wr) ++ adata r1 b) (PData fl (coder z1) (mem w1))).
      rewrite <- Hout. by eapply parsed_data.
  - destruct He as [_ [(x & bs & n & x' & Hx & _)|[[Hx Hd]|[(x & n & bs & x' & Hx & _) _]]]].
    + left. exists x, bs. change (bp_Write x bs = ((n, err), x')) in Hx. by rewrite Hx.
    + right. left. unfold from_coder in Hx. cbn in Hx. rewrite M4, M5 in Hx. split; [done|]. unfold out_data in Hd. cbn in Hd. by rewrite Ho1 in Hd.
    + right. right. exists x, n. by rewrite Hx.
Qed.

Lemma turned_block_data fuel rd0 dl cap (s : rs) fl c m a b :
  honest_reader -> reading rd0 dl cap s (PData fl c m) a b -> turned rd0 dl cap a b (step_block_data fuel s).
Proof.
  intros Hhon Hs. pose proof Hs as (W0 & _ & _ & Hf). destruct (fw_matches _ _ _ _ _ _ Hf) as (_ & _ & z & Hz & _).
  unfold step_block_data. rewrite bind_get, Hz, bind_run. unfold on_r at 1, zoom.
  rewrite (reader_SetBuffers_run _ z a b (fw_rings _ _ _ _ _ _ Hf)). cbv iota.
  replace (Rs (rs_r s) (rs_cnt s) (rs_wr s)) with s by (by destruct s). rewrite bind_run.
  pose proof (block_Process_run fuel rd0 dl cap s fl c m a b z Hs Hz) as Hrun.
  destruct (block_Process _ _ s) as [[[[o i'] err]|p|] s1]; [|done|done]. cbv zeta in Hrun.
  rewrite bind_run. unfold modify at 1. cbv iota. set (s2 := Rs _ _ _) in *.
  destruct Hrun as (Hne & z1 & cin & cout & i & o0 & W & Hr2 & Hz2 & Hl & Hc & M1 & M2 & Hr & Hp & Hcodes & Hout & He).
  rewrite bind_run. unfold call at 1. rewrite Assert_spec. case_bool_decide as Hsw; [by eexists|]. cbn [negb].
  rewrite bind_run. unfold call at 1. rewrite Ignore_spec, Panic_spec. case_decide as Hin.
  - assert (err = Some streamEnd) as ->.
    { apply elem_of_cons in Hin as [|Hin%list_elem_of_singleton]; [by destruct (Hsw H)|done]. }
    rewrite decide_True by done. unfold on_r, zoom, modify. exists (PBlock fl), W. split; [done|]. split; [done|].
    destruct He as [(w & bs & Hw)|[[Hlast Hnil]|(rd & n & Hx)]]; [| |by destruct (Hhon rd n)].
    { exfalso. pose proof (pipe_write_err w bs) as Hpe. rewrite Hw in Hpe. set_solver. }
    assert (Hk : kept (rs_r s2) (set_rstream None (rs_r s2))) by done.
    destruct Hr2 as (W' & _ & _ & Hf2). split.
    + eapply kept_rings; [exact Hk|apply Hf2].
    + by cbn.
    + right. by rewrite (kept_data _ _ _ Hk).
    + exists (i ++ cin). rewrite !(kept_data _ _ _ Hk). split; [done|]. rewrite <- Hout. by eapply parsed_block_end.
  - destruct err as [e|]; [|done]. exists W. split; [done|]. split; [done|].
    exists (i ++ cin), (o0 ++ cout), (PData fl (coder z1) (mem (r_world (rs_r s2)))), (adata (rs_r s2) a).
    split; [done|]. split; [by eapply parsed_data|]. split; [rewrite Hout; by eexists|]. intros _. right. by left.
Qed.

Lemma turned_block fuel rd0 dl cap (s : rs) ph a b :
  honest_reader -> reading rd0 dl cap s ph a b -> r_state (rs_r s) = readBlock -> turned rd0 dl cap a b (step_block fuel s).
Proof.
  intros Hhon Hs Hst. pose proof Hs as (W & Hl & Hc & Hf). pose proof (fw_matches _ _ _ _ _ _ Hf) as Hm.
  unfold step_block. rewrite bind_get. destruct ph as [| |fl|fl c m|fl|fl|];
    try (destruct Hm as (M1 & _); rewrite M1 in Hst; done).
  - destruct Hm as (M1 & M2 & M3). rewrite M3, bind_run.
    pose proof (turned_on_r rd0 dl cap s (PBlock fl) a b step_block_header Hs (fun dl' => stepped_block_header rd0 dl' _ fl a b)) as Ht.
    destruct (on_r step_block_header s) as [[[]|p|] s1]; [|by destruct p as [[]| |]|done].
    destruct Ht as (ph1 & Ht). pose proof Ht as (W1 & _ & _ & Hf1). pose proof (fw_matches _ _ _ _ _ _ Hf1) as Hm1.
    destruct (r_stream (rs_r s1)) as [z|] eqn:Ez.
    + destruct ph1 as [| |fl1|fl1 c1 m1|fl1|fl1|]; cbn in Hm1; destruct_and?; try congruence. by eapply turned_block_data.
    + unfold step_block_data. rewrite bind_get, Ez. by exists ph1.
  - destruct Hm as (M1 & M2 & z & M3 & _). rewrite M3, bind_run. by eapply turned_block_data.
Qed.

(** * The index *)

(** The index object and its decoder. *)
Lemma new_decoder_run (w : world) : exists l w1, new_Index None w = (Ret l, w1) /\
  exists w2, Index_NewStreamDecoder l maxMemory w1 =
    (Ret (stream_of (lzma_index_decoder (mem w2) l (uint64 maxMemory)) [RefIndex l]), w2) /\ pipes w2 = pipes w.
Proof.
  unfold new_Index. rewrite bind_get. set (l := fresh _). exists l. eexists. split; [reflexivity|]. set (w1 := set_mem _ w).
  destruct (End_run w1 l None) as (w2 & E2 & P2 & _); [apply lookup_insert_eq|done|].
  exists w2. unfold Index_NewStreamDecoder. by rewrite (bind_ret _ _ _ _ _ E2).
Qed.

(** Decoding the index. *)
Lemma index_Process_run fuel (r : Reader R) a b z :
  rings r a b -> honest_reader ->
  match index_Process fuel (with_bufs z a b) r with
  | (Ret (_, _, err), r1) => err <> None /\ exists rd cin cout c1,
      r1 = set_rd_world (r_rd r1) (r_world r1) r /\ reads (r_rd r) rd (r_rd r1) /\ rings r1 a b /\
      adata r a ++ rd = cin ++ adata r1 a /\ adata r b ++ cout = adata r1 b /\
      codes FINISH (coder z) (mem (r_world r)) cin cout c1 (mem (r_world r1)) /\
      (err = Some streamEnd -> last_call FINISH (coder z) (mem (r_world r)) (Some streamEnd) c1 (mem (r_world r1)))
  | (Pan _, _) => False
  | (NoFuel, _) => True
  end.
Proof.
  intros Hg Hhon. unfold index_Process. set (s0 := ProcSt (with_bufs z a b) (r_world r) (Some (r_rd r)) (@None BufferPipe)).
  assert (Hok : stream_ok s0) by (destruct Hg; split; cbn; [done|done|]; intros l [= <-]; congruence).
  destruct (Process fuel FINISH s0) as [[[[o i'] err]|p|] s1] eqn:Ep; destruct s1 as [z1 w1 rd1 wr1]; [| |done].
  2: { apply (Process_pan fuel FINISH s0 p Hok). by rewrite Ep. }
  pose proof (Process_bufs FINISH fuel s0 ltac:(done) ltac:(done)) as Hb. rewrite Ep in Hb. injection Hb as Hi1 Ho1.
  destruct (Process_run FINISH fuel s0 _ _ _ _ Hok Ep) as [([K1 K2 _] & rd & cin & cout & wr & [P1 P2 P3 P4 P5] & _ & _) He].
  cbn in P1, P2, P3, K1, K2, He. destruct rd1 as [rd1|]; [|done]. destruct wr1 as [wr1|]; [done|]. subst wr. cbn [default].
  rewrite Hi1 in K1. rewrite Ho1 in K2. unfold in_data, out_data in P4, P5. cbn in P4, P5. rewrite Hi1 in P4. rewrite Ho1 in P5.
  split; [apply He|]. exists rd, cin, cout, (coder z1). split; [done|]. split; [done|]. split; [destruct Hg; by split|].
  split_and!; [done|done|done|]. intros ->. destruct He as [_ [(x & n & bs & x' & _ & Hx)|[[Hx _]|[(x & n & bs & x' & Hx & _) _]]]]; [done|done|].
  exfalso. apply (Hhon x n). by rewrite Hx.
Qed.

Lemma stepped_index fuel rd0 dl (r : Reader R) fl a b :
  IndexDecoderSpec L -> honest_reader -> following rd0 dl r (PIndex fl) a b -> stepped rd0 dl a b (step_index fuel r).
Proof.
  intros IDS Hhon Hf. pose proof (fw_matches _ _ _ _ _ _ Hf) as (M1 & M2 & M3).
  destruct (new_decoder_run (r_world r)) as (l & w1 & R1 & w2 & R2 & P2). unfold step_index.
  rewrite (bind_ret _ _ _ _ _ (on_rworld_run _ _ _ _ R1)).
  set (r1 := set_rd_world _ w1 r). rewrite (bind_ret _ _ _ _ _ (on_rworld_run _ r1 _ _ R2)).
  set (r2 := set_rd_world _ w2 r1). assert (Hk : kept r r2) by done.
  pose proof (fw_rings _ _ _ _ _ _ Hf) as Hg. pose proof (kept_rings _ _ _ _ Hk Hg) as Hg2.
  destruct (stream_of_run (lzma_index_decoder (mem w2) l (uint64 maxMemory)) [RefIndex l]) as [(c & z & Ec & -> & Hz)|(code & ->)];
    rewrite bind_run; unfold call at 1; rewrite Panic_spec; [|by eapply stepped_fail; [exact Hf|by apply read_on_refl|..]].
  rewrite (bind_ret _ _ _ _ _ (reader_SetBuffers_run r2 z a b Hg2)), bind_run.
  pose proof (index_Process_run fuel r2 a b z Hg2 Hhon) as Hrun.
  destruct (index_Process fuel _ r2) as [[[[o i'] err]|p|] r3]; [|done|done].
  destruct Hrun as (Hne & rd & cin & cout & c1 & Hself & Hrd & Hg3 & Hin & Hout & Hcodes & Hlast).
  subst c. rewrite (index_decoder_silent _ _ _ _ _ _ _ _ _ Ec Hcodes), app_nil_r, (kept_data _ _ _ Hk),
    (following_out _ _ _ _ _ _ Hf) in Hout by (by intros []).
  rewrite (kept_data _ _ _ Hk) in Hin. destruct (fw_parsed _ _ _ _ _ _ Hf) as (i & Hri & Hp).
  rewrite (following_out _ _ _ _ _ _ Hf), app_nil_r in Hp by (by intros []).
  rewrite bind_run. unfold call at 1. rewrite Ignore_spec, Panic_spec. case_decide as Hin'.
  2: { destruct err as [e|]; [|done]. exists e. split; [done|]. exists i, dl, (PIndex fl), (adata r a ++ rd).
       split; [rewrite app_assoc; by eapply reads_trans|]. split_and!; [done|done|]. intros _. right. right. by eexists. }
  apply list_elem_of_singleton in Hin' as ->. specialize (Hlast eq_refl).
  destruct (index_decoder_done _ _ _ _ _ _ _ Ec Hlast) as (pa & ix & Hpa & Hix).
  rewrite (bind_ret _ _ _ _ _ (on_rworld_run (Size l) r3 _ _ (c_read_run _ _ _ _ _ Hpa Hix))).
  set (r4 := set_rd_world _ _ r3). assert (Hfl4 : r_flags r4 = Some fl) by (subst r4; rewrite Hself; done).
  rewrite (bind_ret _ _ _ _ _ (the_flags_run r4 fl Hfl4)), bind_run. unfold modify at 1. cbv iota. set (r5 := set_rflags _ r4).
  destruct (End_run (r_world r5) l (Some pa) Hpa) as (w6 & E6 & P6 & _); [by intros ? [= <-]|].
  rewrite (bind_ret _ _ _ _ _ (on_rworld_run _ r5 _ _ E6)). unfold modify. set (r6 := set_state _ _).
  assert (Hk6 : kept r3 r6) by done. exists (PFooter (SetBackwardSize (int64 (lzma_index_size ix)) fl).2). split.
  - by eapply kept_rings.
  - cbn. split_and!; [done|done|]. rewrite Hself. done.
  - right. by rewrite (kept_data _ _ _ Hk6).
  - exists (i ++ cin). rewrite !(kept_data _ _ _ Hk6), <- Hout, app_nil_r. split.
    + rewrite <- app_assoc, <- Hin, app_assoc. by eapply reads_trans.
    + rewrite (index_decoder_silent _ _ _ _ _ _ _ _ _ Ec Hcodes) in Hcodes. by eapply parsed_index.
Qed.

(** * The footer and the padding *)

Lemma stepped_footer rd0 dl (r : Reader R) fl a b :
  following rd0 dl r (PFooter fl) a b -> stepped rd0 dl a b (step_footer r).
Proof.
  intros Hf. pose proof (fw_matches _ _ _ _ _ _ Hf) as (M1 & M2 & M3). unfold step_footer.
  eapply stepped_readFull; [exact Hf|by intros []|apply stream_header_size_nonneg|done|].
  intros x r1 bs Hon Hx Hpre Hd. destruct (read_on_kept _ _ _ _ _ Hon) as (K1 & K2 & K3).
  destruct (FooterDecode_run x NewStreamFlags) as (err & fl' & Hdec & Hok & Hne).
  rewrite (bind_local _ _ _ _ _ _ Hdec), bind_run. unfold call at 1. rewrite Panic_spec.
  destruct err as [e|]; [eapply stepped_fail; try done; congruence|]. destruct (Hok eq_refl) as [Hl Hde].
  rewrite M2 in K2. rewrite (bind_ret _ _ _ _ _ (the_flags_run r1 fl K2)), bind_run. unfold call at 1. rewrite Panic_spec.
  destruct (Compare fl' fl) as [e|] eqn:Ecmp.
  { eapply stepped_fail; try done. intros ->. revert Ecmp. unfold Compare, NewError. by case_match. }
  exists PPadding. eapply (following_take _ _ r r1 _ (PFooter fl)); [exact Hf|by intros []|exact Hon|exact (conj stream_header_size_nonneg Hx)|exact Hpre|exact Hd|by destruct r1|..].
  - cbn. by rewrite K3.
  - intros i o Hp. by eapply parsed_footer.
Qed.

Lemma stepped_padding_loop fuel rd0 dl (r : Reader R) a b (k : unit -> M (Reader R) unit) :
  following rd0 dl r PPadding a b -> (forall r', following rd0 dl r' PPadding a b -> stepped rd0 dl a b (k tt r')) ->
  stepped rd0 dl a b ((padding_loop fuel ≫= k) r).
Proof.
  intros Hf Hk. revert r Hf. induction fuel as [|fuel IH]; intros r Hf; [done|]. cbn [padding_loop]. rewrite bind_bind.
  pose proof (fw_matches _ _ _ _ _ _ Hf) as (M1 & M2).
  eapply stepped_readFull; [exact Hf|by intros []|lia|by right|].
  intros x r1 bs Hon Hx Hpre Hd. destruct (read_on_kept _ _ _ _ _ Hon) as (K1 & K2 & K3).
  case_decide as Hz.
  - rewrite bind_bind. subst x. destruct (read_mark_run r1 a b 4 (ro_rings _ _ _ _ _ Hon)) as (r2 & E2 & O2 & D2).
    { rewrite Hd. destruct Hpre as [t ->]. rewrite zlen_app. pose proof (zlen_nonneg t). lia. }
    rewrite (bind_ret _ _ _ _ _ E2). apply IH. destruct (read_on_kept _ _ _ _ _ O2) as (J1 & J2 & J3).
    eapply (following_take _ _ r r2 r2 PPadding PPadding a b (bs ++ []) padZeros 4); [exact Hf|by intros []|by eapply read_on_trans|done| |by rewrite D2, Hd, app_nil_r|done|..].
    + by rewrite app_nil_r.
    + cbn. by rewrite J1, J3, K1, K3.
    + intros i o Hp. by apply parsed_padding.
  - rewrite bind_mret. apply Hk. eapply (following_read _ _ r r1 r1 PPadding); [exact Hf|by intros []|exact Hon|exact Hd|done| |done].
    cbn. by rewrite K1, K3.
Qed.

Lemma stepped_padding fuel rd0 dl (r : Reader R) a b :
  following rd0 dl r PPadding a b -> stepped rd0 dl a b (step_padding fuel r).
Proof.
  intros Hf. apply stepped_padding_loop; [done|]. intros r' Hf'. exists PHeader.
  eapply (following_same _ _ r' _ PPadding); [exact Hf'|by intros []|done| |].
  - cbn. split; [done|]. apply (fw_matches _ _ _ _ _ _ Hf').
  - intros i o. apply parsed_next.
Qed.

(** * Read *)

Context {IDS : IndexDecoderSpec L}.

Lemma turned_turn fuel rd0 dl cap (s : rs) ph a b :
  honest_reader -> reading rd0 dl cap s ph a b -> turned rd0 dl cap a b (read_turn fuel s).
Proof.
  intros Hhon Hs. pose proof Hs as (W & Hl & Hc & Hf). pose proof (fw_matches _ _ _ _ _ _ Hf) as Hm.
  unfold read_turn. rewrite bind_get. destruct ph; destruct Hm as [Hst Hm]; rewrite Hst.
  - eapply turned_on_r; [exact Hs|]. intros dl' Hf'. eapply stepped_header; [exact Hf'|by left].
  - eapply turned_on_r; [exact Hs|]. intros dl' Hf'. eapply stepped_header; [exact Hf'|by right].
  - by eapply turned_block.
  - by eapply turned_block.
  - eapply turned_on_r; [exact Hs|]. intros dl' Hf'. by eapply stepped_index.
  - eapply turned_on_r; [exact Hs|]. intros dl' Hf'. by eapply stepped_footer.
  - eapply turned_on_r; [exact Hs|]. intros dl' Hf'. by eapply stepped_padding.
Qed.

Lemma read_loop_run fuel rd0 dl cap (s : rs) ph a b :
  honest_reader -> reading rd0 dl cap s ph a b ->
  match read_loop fuel s with
  | (Pan (PErr None), s') => exists ph', reading rd0 dl cap s' ph' a b
  | (Pan (PErr (Some e)), s') =>
      exists W, line (rs_wr s') cap false 0 W /\ rs_cnt s' = zlen W /\ stopped rd0 (dl ++ W) (rs_r s') e
  | (NoFuel, _) => True
  | _ => False
  end.
Proof.
  intros Hhon. revert s ph. induction fuel as [|fuel IH]; intros s ph Hs; [done|]. cbn [read_loop]. rewrite bind_run.
  pose proof (turned_turn (S fuel) rd0 dl cap s ph a b Hhon Hs) as Ht.
  destruct (read_turn (S fuel) s) as [[[]|[[e|]| |]|] s1]; try done. destruct Ht as [ph1 Ht]. by eapply IH.
Qed.

(** What a call of [Read] does: the count is the number of bytes put into the
    slice; with no error the parse goes on, with an error it stopped. *)
Lemma Read_run fuel n rd0 dl (r r' : Reader R) ph a b cnt err data :
  honest_reader -> 0 <= n -> following rd0 dl r ph a b -> Read fuel n r = (Ret (cnt, err, data), r') ->
  cnt = zlen data /\ zlen data <= n /\
  match err with
  | None => exists ph', following rd0 (dl ++ data) r' ph' a b
  | Some e => stopped rd0 (dl ++ data) r' e
  end.
Proof.
  intros Hhon Hn Hf H. destruct (fw_rings _ _ _ _ _ _ Hf) as [_ _ _ _ _ Hop Hsy]. unfold Read in H. rewrite Hop, Hsy in H. cbn [negb] in H.
  set (s0 := Rs r 0 _) in H. pose proof (line_of_new (make_slice n) (make_slice_wf n Hn)) as Hl0.
  assert (Hs0 : reading rd0 dl n s0 ph a b) by (exists []; rewrite app_nil_r; by split_and!).
  pose proof (read_loop_run fuel rd0 dl n s0 ph a b Hhon Hs0) as Hrun.
  unfold with_recover in H. destruct (read_loop fuel s0) as [[?|[[e|]| |]|] s1]; try done.
  - rewrite Recover_err in H. injection H as <- <- <- <-. destruct Hrun as (W & Hl & Hc & Hst).
    rewrite (ln_written _ _ _ _ _ Hl). split; [done|]. split; [|done]. apply (line_bounds _ _ _ _ _ Hl).
  - rewrite Recover_nil in H. injection H as <- <- <- <-. destruct Hrun as (ph' & W & Hl & Hc & Hf').
    rewrite (ln_written _ _ _ _ _ Hl). split; [done|]. split; [|by exists ph']. apply (line_bounds _ _ _ _ _ Hl).
Qed.

Lemma Read_pan fuel n rd0 dl (r : Reader R) ph a b p :
  honest_reader -> 0 <= n -> following rd0 dl r ph a b -> (Read fuel n r).1 <> Pan p.
Proof.
  intros Hhon Hn Hf. destruct (fw_rings _ _ _ _ _ _ Hf) as [_ _ _ _ _ Hop Hsy]. unfold Read. rewrite Hop, Hsy. cbn [negb].
  set (s0 := Rs r 0 _). pose proof (line_of_new (make_slice n) (make_slice_wf n Hn)) as Hl0.
  assert (Hs0 : reading rd0 dl n s0 ph a b) by (exists []; rewrite app_nil_r; by split_and!).
  pose proof (read_loop_run fuel rd0 dl n s0 ph a b Hhon Hs0) as Hrun.
  unfold with_recover. destruct (read_loop fuel s0) as [[?|[[e|]| |]|] s1]; try done.
  - by rewrite Recover_err.
  - by rewrite Recover_nil.
Qed.

End parse.
