(* ===== verification/ReaderSession.v ===== *)
(** The synchronous xz reader from its constructor to the end of a file: a
    client that calls [Read] again and again. *)

From S2P Require Import Prelude Bufpipe Lines Errs Liblzma SmallLzma Lib XzConst World LibIndex Stream StreamPump XzReader ReaderParse.

Section session.
Context {BP : Bufpipe} {BI : BufpipeIo BP} {L : Liblzma} {E : Errs} {R : Type} {IR : IoReader R}.

(** Calls of [Read] with slices of these lengths, until the first error: the
    bytes that were delivered. *)
Fixpoint read_all (fuel : nat) (ns : list Z) : M (Reader R) (list Z * error) :=
  match ns with
  | [] => mret ([], None)
  | n :: ns =>
      x ← Read fuel n;
      let '(_, err, data) := x in
      match err with
      | Some _ => mret (data, err)
      | None => y ← read_all fuel ns; mret (data ++ y.1, y.2)
      end
  end.

Context {BS : BufpipeSpec BP} {BIS : BufpipeIoSpec BP BI} {LS : LiblzmaSpec L} {ES : ErrsSpec E} {RS : IoReaderSpec R}.
Context {IDS : IndexDecoderSpec L}.

(** * The constructor *)

Lemma NewReaderCustom_run (rd : R) maxBuffer (w w' : world) r e :
  NewReaderCustom rd maxBuffer WorkersSync w = (Ret (Some r, e), w') ->
  e = None /\ exists a b, following rd [] r PInit a b.
Proof.
  unfold NewReaderCustom. cbn [Z.ltb Z.eqb WorkersSync Z.compare negb]. set (r0 := ReaderV _ _ _ _ _ _ _ _ _ _ _ _).
  set (p := NewBufferPipe _ _). destruct (alloc_pipe_run (r_world r0) p) as (a & Ra & Ha).
  rewrite (bind_ret _ _ _ _ _ (on_rworld_run _ _ _ _ Ra)). set (r1 := set_rd_world _ _ r0).
  destruct (alloc_pipe_run (r_world r1) p) as (b & Rb & Hb).
  rewrite (bind_ret _ _ _ _ _ (on_rworld_run _ _ _ _ Rb)). set (r2 := set_rd_world _ _ r1).
  unfold modify. cbn [r_world set_rbufs]. intros [= <- <- _]. split; [done|]. exists a, b.
  assert (Hab : a <> b) by (intros ->; cbn in Hb; by rewrite lookup_insert_eq in Hb).
  assert (Hp : bp_Mode p = RingPoll /\ bp_Data p = []) by (split; [apply new_mode|apply ring_new_data]).
  destruct Hp as [Hm Hd].
  assert (Hla : pipes (r_world r2) !! a = Some p) by (cbn; by rewrite lookup_insert_ne, lookup_insert_eq by done).
  assert (Hlb : pipes (r_world r2) !! b = Some p) by (cbn; by rewrite lookup_insert_eq).
  assert (Hda : forall l, pipes (r_world r2) !! l = Some p -> pipe_data (r_world r2) (Some l) = []).
  { intros l Hl. unfold pipe_data, pipe_at. by rewrite Hl. }
  split; [split; try done; intros l [= <-]; by exists p|done|right; by apply Hda|].
  exists []. unfold adata. change (r_world (set_rbufs (Some a) (Some b) r2)) with (r_world r2). rewrite !Hda by done.
  split; constructor.
Qed.

(** The reader that [NewReader] makes is asynchronous, a mode [Read] does not
    have: no bytes and no error, whatever the slice, and nothing is read. *)
Lemma default_reader_reads_nothing (rd : R) (w : world) :
  exists r, NewReader rd w = (Ret (Some r, None), w) /\ forall fuel n, Read fuel n r = (Ret (0, None, []), r).
Proof. by eexists. Qed.

(** * The client *)

Lemma read_all_run fuel ns rd0 dl (r : Reader R) ph a b :
  honest_reader (R:=R) -> Forall (fun n => 0 <= n) ns -> following rd0 dl r ph a b ->
  match read_all fuel ns r with
  | (Ret (bs, None), r') => exists ph', following rd0 (dl ++ bs) r' ph' a b
  | (Ret (bs, Some e), r') => stopped rd0 (dl ++ bs) r' e
  | (Pan _, _) => False
  | (NoFuel, _) => True
  end.
Proof.
  intros Hhon Hns. revert dl r ph. induction Hns as [|n ns Hn Hns IH]; intros dl r ph Hf; cbn [read_all].
  { change (exists ph', following rd0 (dl ++ []) r ph' a b). rewrite app_nil_r. by exists ph. }
  rewrite bind_run. pose proof (Read_pan fuel n rd0 dl r ph a b) as Hpan.
  destruct (Read fuel n r) as [[[[cnt err] data]|p|] r1] eqn:Er; [|by apply (Hpan p)|done].
  destruct (Read_run fuel n rd0 dl r r1 ph a b cnt err data Hhon Hn Hf Er) as (_ & _ & Hres).
  destruct err as [e|]; [exact Hres|]. destruct Hres as [ph1 Hf1]. specialize (IH _ _ _ Hf1). rewrite bind_run.
  destruct (read_all fuel ns r1) as [[[bs [e|]]|p|] r2]; rewrite <- ?app_assoc in IH; exact IH.
Qed.


End session.
