(* ===== verification/ReaderRuns.v ===== *)
(** Runs of the synchronous xz reader on the small library, and the instances of
    the theorem about it. *)

From S2P Require Import Prelude Bufpipe Lines Errs Liblzma SmallLzma Lib XzConst Literal World LibIndex.
From S2P Require Import Stream StreamPump StreamTerm StreamRuns PipePump Ioutil Writer WriterBlock WriterSync WriterNew WriterSession WriterTotal WriterRuns.
From S2P Require Import XzReader ReaderParse ReaderSession.

(** * The pipe as an io.ReaderFrom *)
Module PlainFrom.

Fixpoint from {R} {IR : IoReader R} (fuel : nat) (cnt : Z) (p : Plain.t) (r : R) : (Z * error) * (Plain.t * R) :=
  match fuel with
  | O => ((cnt, Some ErrShortWrite), (p, r))
  | S fuel =>
      let n := Z.of_nat (Plain.room p) in
      if n =? 0 then ((cnt, Some ErrShortWrite), (p, r))
      else
        let '((bs, e), r') := rd_Read r n in
        let p' := Plain.mark_write (Plain.poke p bs) (zlen bs) in
        match e with
        | None => from fuel (cnt + zlen bs) p' r'
        | Some EOF => ((cnt + zlen bs, None), (p', r'))
        | Some _ => ((cnt + zlen bs, e), (p', r'))
        end
  end.

#[export] Instance bufpipe_io : BufpipeIo Plain.bufpipe := {
  bp_ReadFrom R IR p r := from (S (Plain.room p)) 0 p r;
}.

Lemma from_spec {R} {IR : IoReader R} {RS : IoReaderSpec R} fuel : forall cnt p (r : R) n err p' r',
  Plain.mode p = 2 -> from fuel cnt p r = ((n, err), (p', r')) ->
  exists bs, reads r bs r' /\ n = cnt + zlen bs /\ Plain.data p' = Plain.data p ++ bs /\ Plain.mode p' = 2 /\
    Plain.size p' = Plain.size p /\ err <> Some EOF.
Proof.
  induction fuel as [|fuel IH]; intros cnt p r n err p' r' Hm; cbn [from].
  { intros [= <- <- <- <-]. exists []. rewrite app_nil_r. split_and!; [constructor|rewrite zlen_nil; lia|done..]. }
  destruct (Z.eqb_spec (Z.of_nat (Plain.room p)) 0).
  { intros [= <- <- <- <-]. exists []. rewrite app_nil_r. split_and!; [constructor|rewrite zlen_nil; lia|done..]. }
  pose proof (read_count r (Z.of_nat (Plain.room p)) ltac:(lia)) as Hc.
  destruct (rd_Read r _) as [[bs e] r1] eqn:Er. cbn [fst] in Hc. set (p1 := Plain.mark_write _ _).
  assert (Hd : Plain.data p1 = Plain.data p ++ bs).
  { unfold p1. pose proof (zlen_nonneg bs). rewrite Plain.store_data by (done || lia).
    rewrite take_ge; [done|]. unfold zlen. lia. }
  assert (Hr1 : reads r bs r1) by (rewrite <- (app_nil_r bs); econstructor; [exact Er|constructor]).
  destruct e as [[]|].
  7: { intros H. destruct (IH _ p1 _ _ _ _ _ Hm H) as (bs' & I1 & I2 & I3 & I4 & I5 & I6). exists (bs ++ bs').
       rewrite I3, Hd, app_assoc, zlen_app. split_and!; try done; [by eapply reads_trans|lia]. }
  all: intros [= <- <- <- <-]; exists bs; by split_and!.
Qed.

#[export] Instance bufpipe_io_spec : BufpipeIoSpec Plain.bufpipe bufpipe_io.
Proof.
  split.
  - intros R IR RS p r n err p' r' Hm H.
    destruct (from_spec _ 0 p r n err p' r' Hm H) as (bs & H1 & H2 & H3 & H4 & H5 & H6). exists bs. unfold bp_Data. cbn.
    rewrite !app_nil_r, H5. by split_and!.
  - intros p bs. cbn. unfold Plain.write. repeat case_match; set_solver.
Qed.

End PlainFrom.

(** The small library's decoder of an index keeps the documented behaviour. *)
Module SmallIndex.
#[local] Existing Instance Small.liblzma.

Definition cell_set (m : cmem_t) (l : loc) : Prop :=
  exists a ix, cm_ixptr m !! l = Some (Some a) /\ cm_index m !! a = Some ix.
Definition decoding (l : loc) (c : Small.coder) (m : cmem_t) : Prop :=
  exists seen ended, Small.kind_of c = Small.CIndexDec l seen ended /\ (ended = true -> cell_set m l).

Lemma decoding_code l c m act inp n : decoding l c m ->
  let r := lzma_code c m act inp n in
  decoding l (cr_coder r) (cr_mem r) /\ cr_out r = [] /\ (cr_ret r = 1 -> cell_set (cr_mem r) l).
Proof.
  intros (seen & ended & Hk & Hc). cbn. unfold Small.code. rewrite Hk. cbn. destruct ended.
  { cbn. split_and!; [|by destruct (Z.to_nat n)|auto]. exists seen, true. by split; [|auto]. }
  destruct (Small.complete (seen ++ inp)) as [i|] eqn:Ec.
  - assert (Hs : cell_set (Small.new_index m l i) l).
    { exists (fresh (dom (cm_index m))), i. split; cbn; apply lookup_insert_eq. }
    cbn. split_and!; [|by destruct (Z.to_nat n)|done]. exists (seen ++ inp), true. by split.
  - assert (Hd : forall b q, decoding l (Small.Coder (Small.CIndexDec l b false) q) m) by (intros; by do 2 eexists).
    case_decide; cbn; (split_and!; [apply Hd|by destruct (Z.to_nat n)|]); [by destruct (negb _)|done].
Qed.

Lemma decoding_codes l act c m i o c' m' : codes act c m i o c' m' -> decoding l c m -> o = [] /\ decoding l c' m'.
Proof.
  induction 1 as [c m|c m inp n r ins outs c' m' -> Hc IH]; intros Hd; [done|].
  destruct (decoding_code l c m (uint32 act) inp n Hd) as (Hd1 & -> & _). destruct (IH Hd1) as [-> Hd2]. by split.
Qed.

#[export] Instance index_decoder_spec : IndexDecoderSpec Small.liblzma.
Proof.
  assert (H0 : forall m l lim c, lzma_index_decoder m l lim = (OK, c) -> decoding l c m).
  { intros m l lim c [= <-]. by exists [], false. }
  split.
  - intros m0 l lim c0 act i o c m H Hc. by eapply decoding_codes; [|eapply H0].
  - intros m0 l lim c0 act c m H (i & o & c1 & m1 & inp & n & Hc & Hr & -> & ->).
    destruct (decoding_codes l _ _ _ _ _ _ _ Hc (H0 _ _ _ _ H)) as [_ Hd].
    destruct (decoding_code l c1 m1 (uint32 act) inp n Hd) as (_ & _ & Hset). apply Hset.
    apply NewError_some in Hr as [_ Hr]. injection Hr as Hr. exact (eq_sym Hr).
Qed.

End SmallIndex.

Module ReaderRun.
Import Mem.
#[local] Existing Instance SmallIndex.index_decoder_spec.
#[local] Existing Instance Small.liblzma.
#[local] Existing Instance Small.liblzma_spec.
#[local] Existing Instance Plain.bufpipe.
#[local] Existing Instance Plain.bufpipe_spec.
#[local] Existing Instance PlainFrom.bufpipe_io.
#[local] Existing Instance PlainFrom.bufpipe_io_spec.
#[local] Existing Instance PlainErrs.errs.
#[local] Existing Instance PlainErrs.errs_spec.
#[local] Existing Instance PlainIo.ioutil.

(** The file of a session of the writer. *)
Definition file : list Z :=
  match NewWriterCustom 6 CheckCRC32 0 WorkersSync (WriterRun.sink, empty_world) with
  | (Ret (Some w, None), _) => match session 60 [[1; 2; 3]; [4]] w with (_, w') => out (w_wr w') end
  | _ => []
  end.

(** What a client gets from a source of these bytes. *)
Definition reading_of (bs : list Z) (ns : list Z) : outcome (list Z * error) :=
  match NewReaderCustom (Rd bs) 0 WorkersSync empty_world with
  | (Ret (Some r, None), _) => (read_all 60 ns r).1
  | _ => NoFuel
  end.

(** What was written is read again, also from two files with padding between. *)
Lemma file_read : reading_of file [3; 3] = Ret ([1; 2; 3; 4], Some EOF).
Proof. vm_compute. reflexivity. Qed.

Lemma files_read : reading_of (file ++ padZeros ++ file) [3; 3; 3; 3] = Ret ([1; 2; 3; 4; 1; 2; 3; 4], Some EOF).
Proof. vm_compute. reflexivity. Qed.

(** A file cut inside its block, or inside its index, looks like a complete one. *)
Lemma truncated_file_eof :
  reading_of (take 30 file) [3; 3] = Ret ([1; 2], Some EOF) /\
  reading_of (take 36 file) [3; 3] = Ret ([1; 2; 3; 4], Some EOF).
Proof. split; vm_compute; reflexivity. Qed.

Lemma reader_honest : honest_reader (R:=reader).
Proof. intros [bs] n. unfold rd_Read, mem_reader. by destruct bs. Qed.


End ReaderRun.
