(* ===== verification/FileParse.v ===== *)
(** The writer and the reader of xz together: the file that a session of the
    writer leaves is a file of the grammar along which the reader goes, and what
    the grammar says it holds is what was written. *)

From S2P Require Import Prelude Bufpipe Pool Lines Errs Liblzma SmallLzma Lib XzConst Literal World LibIndex Stream StreamPump PipePump.
From S2P Require Import Ioutil PipeClose Writer WriterBlock WriterSync WriterNew WriterSession WriterTotal AsyncWriter AsyncInv AsyncThms XzReader ReaderParse.

(** * Documented behaviour: the decoders undo the encoders *)

Section decodes.
Context {L : Liblzma}.

(** A coder that came to the end of its stream. *)
Definition at_end (c' : lzma_coder) (m' : cmem_t) : Prop :=
  exists c m inp n, let r := lzma_code c m (uint32 FINISH) inp n in
    cr_ret r = STREAM_END /\ cr_coder r = c' /\ cr_mem r = m'.

(** The block [b'] is what the header [hdr] of [blk] says. *)
Definition header_says (blk b' : block_t) (hdr : list Z) : Prop :=
  exists b0, b_version b0 = b_version blk /\ b_check b0 = b_check blk /\ b_header_size b0 = b_header_size blk /\
    lzma_block_header_decode b0 hdr = (OK, b').

(** The decoder of a block of which [b'] is the header makes [chunk] of [body]. *)
Definition body_holds (b' : block_t) (body chunk : list Z) : Prop :=
  forall l m, cm_block m !! l = Some b' -> exists c c' m',
    lzma_block_decoder m l = (OK, c) /\ codes RUN c m body chunk c' m' /\ last_call RUN c m (Some streamEnd) c' m'.
End decodes.

Class LiblzmaDecodes (L : Liblzma) : Prop := {
  stream_header_decodes fl hdr f0 :
    lzma_stream_header_encode fl = (OK, hdr) -> exists fl', lzma_stream_header_decode f0 hdr = (OK, fl') /\
      sf_version fl' = sf_version fl /\ sf_check fl' = sf_check fl;
  (** The flags of a footer agree with those that it was made from. *)
  stream_footer_decodes fl ftr f0 :
    lzma_stream_footer_encode fl = (OK, ftr) -> exists fl', lzma_stream_footer_decode f0 ftr = (OK, fl') /\
      forall fl2, sf_version fl2 = sf_version fl -> sf_check fl2 = sf_check fl -> sf_backward_size fl2 = sf_backward_size fl ->
        lzma_stream_flags_compare fl' fl2 = OK;
  (** A header of a block begins with its size, and is never empty. *)
  block_header_decodes blk hdr :
    lzma_block_header_encode blk = (OK, hdr) -> b_header_size blk mod 4 = 0 ->
    exists val, head hdr = Some val /\ 0 < val < 256 /\ lzma_block_header_size_decode val = b_header_size blk /\
      BLOCK_HEADER_SIZE_MIN <= b_header_size blk <= BLOCK_HEADER_SIZE_MAX /\
      forall b0, b_version b0 = b_version blk -> b_check b0 = b_check blk -> b_header_size b0 = b_header_size blk ->
        exists b', lzma_block_header_decode b0 hdr = (OK, b');
  (** The decoder of a block undoes the encoder. *)
  block_decodes b l m0 c0 chunk out1 c1 m1 out2 c2 m2 blk hdr b' :
    cm_block m0 !! l = Some b -> lzma_block_encoder m0 l = (OK, c0) ->
    codes RUN c0 m0 chunk out1 c1 m1 -> codes FINISH c1 m1 [] out2 c2 m2 -> at_end c2 m2 ->
    cm_block m2 !! l = Some blk -> lzma_block_header_encode blk = (OK, hdr) -> header_says blk b' hdr ->
    body_holds b' (out1 ++ out2) chunk;
  (** It decodes the LZMA2 stream of uncompressed chunks, its padding and the check. *)
  literal_decodes check chunk pad hdr b' :
    supported check = true -> lzma_block_header_encode (block (literal_header check (zlen chunk))) = (OK, hdr) ->
    header_says (block (literal_header check (zlen chunk))) b' hdr ->
    (pad < 4)%nat -> (zlen (literal_data chunk) + Z.of_nat pad) mod 4 = 0 ->
    body_holds b' (literal_data chunk ++ replicate pad 0 ++ check_bytes check chunk) chunk;
  (** The decoder of an index, with no limit on its memory, undoes the encoder. *)
  index_decodes m a i c0 bs c m' m0 l :
    cm_index m !! a = Some i -> lzma_index_encoder m a = (OK, c0) -> codes FINISH c0 m [] bs c m' -> at_end c m' ->
    cm_ixptr m0 !! l = Some None -> exists d d' m2 a' i', lzma_index_decoder m0 l (uint64 maxMemory) = (OK, d) /\ codes FINISH d m0 bs [] d' m2 /\
      last_call FINISH d m0 (Some streamEnd) d' m2 /\
      cm_ixptr m2 !! l = Some (Some a') /\ cm_index m2 !! a' = Some i' /\ lzma_index_size i' = lzma_index_size i;
}.

Section file.
Context {BP : Bufpipe} {BC : BufpipeClose BP} {L : Liblzma} {E : Errs} {IU : Ioutil} {W : Type} {IW : IoWriter W}.
Context {BS : BufpipeSpec BP} {LS : LiblzmaSpec L} {ES : ErrsSpec E} {LI : LiblzmaIdle L} {BCS : BufpipeCloseSpec BP BC}.
Context {IS : IoutilSpec IU} {WS : IoWriterSpec W} {LD : LiblzmaDecodes L}.

(** A successful session, of either mode: [out] is the writer in the end. *)
Inductive succeeded (mw : Z) (w : Writer W) (datas : list (list Z)) : W -> Prop :=
| sync_succeeded fuel w' : mw = WorkersSync -> session fuel datas w = (Ret None, w') -> succeeded mw w datas (w_wr w')
| async_succeeded NumCPU s : mw <> WorkersSync -> 1 <= NumCPU -> areachable NumCPU w datas s -> as_main s = MDone None ->
    succeeded mw w datas (w_wr (as_w s)).

(** * The parts of a file *)

Lemma take_all (bs : list Z) n : zlen bs = n -> take (Z.to_nat n) bs = bs.
Proof. intros <-. apply take_ge. unfold zlen. lia. Qed.

(** A block: its header, and its body. *)
Lemma parse_block i o fl blk hdr body chunk :
  parsed i o (PBlock fl) -> lzma_block_header_encode blk = (OK, hdr) -> b_header_size blk mod 4 = 0 ->
  b_version blk = 0 -> b_check blk = sf_check fl -> uint32 (sf_check fl) = sf_check fl ->
  (forall b', header_says blk b' hdr -> body_holds b' body chunk) ->
  parsed (i ++ hdr ++ body) (o ++ chunk) (PBlock fl).
Proof.
  intros Hp He Hm Hv Hc Hu Hb. destruct (block_header_decodes _ _ He Hm) as (val & Hh & Hval & Hsz & Hr & Hd).
  pose proof (header_encode_length _ _ He) as Hl. set (size := b_header_size blk) in *.
  destruct (HeaderSizeDecode val (NewBlock (GetCheck fl))) as [o1 b] eqn:Hs.
  assert (Hu8 : uint8 val = val) by (apply Z.mod_small; lia).
  pose proof block_header_bounds as Hbb. unfold HeaderSizeDecode in Hs. rewrite Hu8, Hsz in Hs.
  rewrite (proj2 (Z.ltb_ge _ _)), (proj2 (Z.ltb_ge _ _)) in Hs by lia. cbn [orb] in Hs.
  rewrite bind_run, set_header_size_run in Hs.
  assert (Husz : uint32 size = size) by (unfold BLOCK_HEADER_SIZE_MIN, BLOCK_HEADER_SIZE_MAX in Hr; apply uint32_id; lia).
  rewrite Husz in Hs. injection Hs as <- Hbb'.
  assert (Hcfg : b_version (block b) = b_version blk /\ b_check (block b) = b_check blk /\ b_header_size (block b) = size).
  { rewrite <- Hbb', Hv, Hc. by split_and!. }
  destruct Hcfg as (V1 & V2 & V3). destruct (Hd (block b) V1 V2 V3) as (b' & Hb').
  destruct (Hb b' ltac:(by exists (block b)) 1%positive (CMem {[1%positive := b']} ∅ ∅)) as (c & c' & m' & D1 & D2 & D3); [apply lookup_singleton_eq|].
  assert (Hdec : Block_HeaderDecode hdr b = (Ret None, BlockV b' (blk_filters b))).
  { unfold Block_HeaderDecode. rewrite bind_get, V3, (proj2 (Z.ltb_ge _ _)), Hb' by lia. by rewrite (proj2 (NewError_nil OK)). }
  rewrite app_assoc. eapply parsed_block_end; [|exact D2|exact D3].
  rewrite <- (take_all hdr size Hl). eapply parsed_block; [exact Hp| |exact Hh| |by rewrite Hl| | |exact D1].
  - lia.
  - unfold HeaderSizeDecode. rewrite Hu8, Hsz, (proj2 (Z.ltb_ge _ _)), (proj2 (Z.ltb_ge _ _)) by lia.
    cbn [orb]. by rewrite bind_run, set_header_size_run, Husz, <- Hbb'.
  - rewrite Hdec. apply lookup_singleton_eq.
  - by rewrite Hdec.
Qed.

(** What [HeaderSize] leaves of a block that the writer configured. *)
Lemma header_config (b b1 : Block) o :
  HeaderSize b = (o, b1) -> b_header_size (block b) = 0 ->
  b_version (block b1) = b_version (block b) /\ b_check (block b1) = b_check (block b) /\ b_header_size (block b1) mod 4 = 0.
Proof.
  intros H H0. rewrite HeaderSize_spec in H. destruct (lzma_block_header_size (block b)) as [ret h] eqn:Es.
  destruct (Z.eqb_spec ret OK) as [->|]; injection H as _ <-; [|by rewrite H0].
  cbn. rewrite (header_size_uint32 _ _ _ Es). split_and!; [done..|]. apply (header_size_range _ _ Es).
Qed.

(** A block of the file, as the grammar sees it. *)
Lemma parse_blk (w : Writer W) k i o fl :
  supported (sf_check fl) = true -> GetCheck (w_flags w) = sf_check fl -> block_ok w k ->
  parsed i o (PBlock fl) -> parsed (i ++ k_bytes k) (o ++ k_chunk k) (PBlock fl).
Proof.
  intros Hs Hfl (b & Hb & He) Hp. pose proof (supported_uint32 _ Hs) as Hu. rewrite Hfl in He. destruct He as [He|[He _]].
  - destruct He as (l & m0 & c0 & out1 & c1 & m1 & out2 & c2 & m2 & blk & hdr & [Em Ec] & C1 & C2 & Hend & Hblk & Hhd & -> & _).
    destruct (header_config _ _ _ Hb eq_refl) as (V1 & V2 & V3).
    destruct (codes_keep _ _ _ _ _ _ _ C1 (block_encoder_cell _ _ _ Ec)) as (Hc1 & _ & K1).
    destruct (codes_keep _ _ _ _ _ _ _ C2 Hc1) as (_ & _ & K2).
    destruct (K1 _ _ Em) as (b1 & Hb1 & S1 & S2 & S3 & _). destruct (K2 _ _ Hb1) as (b2 & Hb2 & T1 & T2 & T3 & _).
    rewrite Hblk in Hb2. injection Hb2 as <-. eapply parse_block; [exact Hp|exact Hhd| | | |exact Hu|].
    + by rewrite T1, S1.
    + by rewrite T2, S2, V1.
    + rewrite T3, S3, V2. change (uint32 (GetCheck (w_flags w)) = sf_check fl). by rewrite Hfl.
    + intros b' Hb'. eapply block_decodes; [exact Em|exact Ec|exact C1|exact C2|exact Hend|exact Hblk|exact Hhd|exact Hb'].
  - destruct He as (hdr & pad & Hhd & Hpad & Hmod & Hk & _). rewrite Hk in Hmod |- *.
    destruct (HeaderSize (literal_block (sf_check fl) (zlen (k_chunk k)))) as [r b1] eqn:El.
    assert (Hl : literal_header (sf_check fl) (zlen (k_chunk k)) = b1) by (unfold literal_header; by rewrite El).
    destruct (header_config _ _ _ El eq_refl) as (V1 & V2 & V3).
    eapply parse_block; [exact Hp|exact Hhd|by rewrite Hl|by rewrite Hl, V1|by rewrite Hl, V2|exact Hu|].
    intros b' Hb'. eapply literal_decodes; [exact Hs|exact Hhd|exact Hb'|exact Hpad|].
    destruct (check_bytes_length (sf_check fl) (k_chunk k) Hs) as (Hcl & _ & Hcm).
    rewrite !zlen_app, zlen_replicate, (header_encode_length _ _ Hhd), Hl, Hcl in Hmod.
    Z.to_euclidean_division_equations. lia.
Qed.

Lemma parse_blks (w : Writer W) ks fl : supported (sf_check fl) = true -> GetCheck (w_flags w) = sf_check fl ->
  Forall (block_ok w) ks -> forall i o, parsed i o (PBlock fl) ->
  parsed (i ++ concat (map k_bytes ks)) (o ++ chunks ks) (PBlock fl).
Proof.
  intros Hs Hfl. induction 1 as [|k ks Hk _ IH]; intros i o Hp; unfold chunks; cbn; [by rewrite !app_nil_r|].
  rewrite !app_assoc. by apply IH, (parse_blk w).
Qed.

(** * A whole file *)

(** [Write]'s contract: a short count comes with an error. *)
Hypothesis write_contract : forall (wr : W) bs n err wr', wr_Write wr bs = ((n, err), wr') -> n < zlen bs -> err <> None.

Lemma wrote_writes (wr : W) bs wr' : wrote wr bs wr' -> writes wr bs wr'.
Proof.
  intros (n & H). assert (n = zlen bs) as ->.
  { pose proof (write_count wr bs) as Hc. rewrite H in Hc. cbn in Hc.
    destruct (decide (n < zlen bs)) as [Hlt|]; [|lia]. by destruct (write_contract _ _ _ _ _ H Hlt). }
  rewrite <- (app_nil_r bs), <- (take_all bs (zlen bs) eq_refl) at 1. econstructor; [exact H|constructor].
Qed.

Lemma wrote_all_writes (wr : W) bss wr' : wrote_all wr bss wr' -> writes wr (concat bss) wr'.
Proof.
  induction 1 as [wr|wr bs wr1 bss wr2 Hw _ IH]; [constructor|]. eapply writes_trans; [by apply wrote_writes|exact IH].
Qed.

(** What either mode of the writer left in the underlying writer. *)
Lemma succeeded_file lv check cs mw (wr : W) wd w x datas out :
  honest_writer (W:=W) -> 0 <= cs -> NewWriterCustom lv check cs mw (wr, wd) = (Ret (Some w, None), x) ->
  succeeded mw w datas out ->
  exists hdr wr1 ks wr2 i, supported check = true /\ GetCheck (w_flags w) = check /\
    lzma_stream_header_encode (file_flags check) = (OK, hdr) /\ writes wr hdr wr1 /\
    chunks ks = concat datas /\ Forall (block_ok w) ks /\
    writes wr1 (concat (map k_bytes ks)) wr2 /\ footed i (file_flags check) wr2 out.
Proof.
  intros Hhon Hcs Hn Hd. destruct Hd as [fuel w' -> Hs|NumCPU s Hmw Hcpu Hr Hm].
  - destruct (NewWriterCustom_run _ _ _ _ _ _ _ Hcs Hn) as [[Hsy Ho Hc Hfl Hsup (hdr & He & Hw)] _].
    destruct (session_run _ _ _ _ _ _ Hhon Hsy Ho Hs) as (ks & wr2 & i & (full & last & -> & Hch & _) & Hwr & _ & Hblk & Hft & _).
    rewrite Hfl in Hft. exists hdr, (w_wr w), (full ++ last), wr2, i.
    split_and!; try done; [by rewrite Hfl, file_flags_check|by apply wrote_writes|by apply wrote_all_writes].
  - destruct (NewWriterCustom_async _ _ _ _ _ _ _ _ Hcs Hmw Hn) as [[[_ _ _ _ _ Hfl Hsup _] _ _] _].
    destruct (async_file _ _ _ _ _ _ _ _ _ _ _ Hhon Hcs Hmw Hcpu Hn Hr Hm)
      as (hdr & wr1 & ks & wr2 & i & He & Hw & (full & last & -> & Hch & _) & Hblk & Hwr & _ & Hft).
    exists hdr, wr1, (full ++ last), wr2, i.
    split_and!; try done; [by rewrite Hfl, file_flags_check|by apply wrote_writes].
Qed.

(** The header of the file. *)
Lemma parse_header check hdr :
  lzma_stream_header_encode (file_flags check) = (OK, hdr) -> supported check = true ->
  exists fl, parsed hdr [] (PBlock fl) /\ sf_version fl = 0 /\ sf_check fl = check.
Proof.
  intros He Hs. destruct (stream_header_decodes _ _ NewStreamFlags He) as (fl & Hd & Hv & Hc).
  pose proof (stream_header_length _ _ He) as Hl. exists fl. rewrite Hc, Hv. split; [|split; [done|by apply file_flags_check]].
  rewrite <- (take_all hdr _ Hl). apply (parsed_header [] [] PInit); [constructor|by left|by rewrite Hl|done].
Qed.

(** The index and the footer of the file. *)
Lemma parse_footer i o fl check ix (wr wr' : W) :
  parsed i o (PBlock fl) -> sf_version fl = 0 -> sf_check fl = check -> supported check = true ->
  footed ix (file_flags check) wr wr' ->
  exists bs, writes wr bs wr' /\ parsed (i ++ bs) o PPadding.
Proof.
  intros Hp Hv Hc Hs (m & a & c0 & bs & c & m' & wr1 & ftr & Ha & E1 & C1 & Hend & Hw1 & E2 & Hw2).
  destruct (index_decodes _ _ _ _ _ _ _ (CMem ∅ ∅ {[1%positive := None]}) 1%positive Ha E1 C1 Hend)
    as (d & d' & m2 & a' & i' & D1 & D2 & D3 & D4 & D5 & Hsize); [apply lookup_singleton_eq|].
  destruct (stream_footer_decodes _ _ NewStreamFlags E2) as (fl' & F1 & F2).
  pose proof (stream_footer_length _ _ E2) as Hl.
  exists (bs ++ ftr). split; [eapply writes_trans; [exact Hw1|by apply wrote_writes]|].
  rewrite app_assoc, <- (take_all ftr _ Hl). eapply parsed_footer; [|unfold STREAM_FOOTER_SIZE; lia|exact F1|].
  - eapply parsed_index; [by apply parsed_blocks_end|exact D1|exact D2|exact D3|exact D4|exact D5].
  - apply NewError_nil, F2; cbn; [done| |by rewrite Hsize]. by rewrite Hc, (supported_uint32 _ Hs).
Qed.


End file.
