(* ===== verification/ExactLzma.v ===== *)
(** A second implementation of the interface [Liblzma], on which files can be
    read back whatever their bytes are: the library of [SmallLzma] with coders of
    blocks of its own. Its decoders undo its encoders, and its decoder of a block
    reads the uncompressed chunks of LZMA2. *)

From S2P Require Import Prelude Bufpipe Pool Lines Errs Liblzma SmallLzma Lib XzConst Literal World LibIndex Stream StreamPump PipePump.
From S2P Require Import Ioutil PipeClose Writer WriterBlock WriterSync WriterNew WriterSession WriterTotal AsyncWriter AsyncInv AsyncThms XzReader ReaderParse FileParse.

Module Exact.

Abbreviation mem := Small.mem.

(** The coders of [Small], and those of a block. *)
Inductive kind : Type :=
| Old (k : Small.kind)
| Enc (b : loc) (pending : list Z) (nin nout : Z) (ended : bool)
| Dec (b : loc) (ended : bool).
Record coder : Type := Coder { kind_of : kind; stuck : bool }.

(** * The format of a block

    A byte is coded by 3 and itself, the end by 4. What begins otherwise is a
    stream of uncompressed chunks, padded to a multiple of four, and the check. *)
Definition pack (bs : list Z) : list Z := concat (map (fun b => [3; b]) bs).

Fixpoint unpack (bs : list Z) : option (list Z * Z) :=
  match bs with
  | 4 :: _ => Some ([], 1)
  | 3 :: b :: bs => match unpack bs with Some (d, k) => Some (b :: d, k + 2) | None => None end
  | _ => None
  end.

Definition unliteral (check : Z) (bs : list Z) : option (list Z * Z) :=
  match lzma2_literals (S (length bs)) bs with
  | Some (d, rest) =>
      let k := Small.round4 (zlen bs - zlen rest) + Small.check_size check in
      if k <=? zlen bs then Some (d, k) else None
  | None => None
  end.

(** What the body of a block holds, and how long it is. *)
Definition decode (check : Z) (bs : list Z) : option (list Z * Z) :=
  match bs with
  | 3 :: _ | 4 :: _ => unpack bs
  | _ => unliteral check bs
  end.

Definition check_at (m : mem) (b : loc) : Z := match cm_block m !! b with Some x => b_check x | None => 0 end.

Definition step (c : kind) (m : mem) (act : Z) (inp : list Z) (n : Z) : Z * kind * mem * Z * list Z :=
  match c with
  | Old k => let '(ret, k', m', taken, out) := Small.step k m act inp n in (ret, Old k', m', taken, out)
  | Enc b pend nin nout ended =>
      if ended then (1, c, m, 0, []) else
      let all := pend ++ pack inp ++ (if act =? 3 then [4] else []) in
      let out := take (Z.to_nat n) all in
      let rest := drop (Z.to_nat n) all in
      let nin := nin + zlen inp in let nout := nout + zlen out in
      if act =? 3 then
        if decide (rest = []) then (1, Enc b [] nin nout true, Small.set_sizes m b nout nin, zlen inp, out)
        else (if decide (out = []) then 10 else 0, Enc b (take (length rest - 1) rest) nin nout false, m, zlen inp, out)
      else (if decide (inp = [] /\ out = []) then 10 else 0, Enc b rest nin nout false, m, zlen inp, out)
  | Dec b ended =>
      if ended then (1, c, m, 0, []) else
      match decode (check_at m b) inp with
      | Some (d, k) => if zlen d <=? n then (1, Dec b true, Small.set_sizes m b k (zlen d), k, d) else (10, c, m, 0, [])
      | None => (10, c, m, 0, [])
      end
  end.

Definition code (c : coder) (m : mem) (act : Z) (inp : list Z) (n : Z) : code_result coder mem :=
  let '(ret, c', m', k, out) := step (kind_of c) m act inp n in
  CodeResult (if (ret =? 10) && negb (stuck c) then 0 else ret)
    (Coder c' (ret =? 10)) m' (Z.max 0 (Z.min k (zlen inp))) (take (Z.to_nat n) out).

Definition old (c : Small.coder) : coder := Coder (Old (Small.kind_of c)) (Small.stuck c).
Definition cell (c : coder) : option loc := match kind_of c with Old (Small.CIndexDec l _ _) => Some l | _ => None end.

#[export] Instance liblzma : Liblzma :=
  Small.library coder old code (fun l => Coder (Enc l [] 0 0 false) false) (fun l => Coder (Dec l false) false) cell.

(** * The laws of the interface *)

(** What a step does to the memory. *)
Lemma exact_step_mem c m act inp n :
  let m' := cr_mem (code c m act inp n) in
  (cm_index m' = cm_index m /\ cm_ixptr m' = cm_ixptr m /\
     (cm_block m' = cm_block m \/ exists a x y, m' = Small.set_sizes m a x y)) \/
  (exists l i, cell c = Some l /\ m' = Small.new_index m l i).
Proof.
  destruct c as [[[] | |] ?]; cbn; unfold code; cbn; repeat case_match; simplify_eq/=; auto;
    unfold cell; cbn; eauto 10.
Qed.

Lemma step_cell c m act inp n : cell (cr_coder (code c m act inp n)) = cell c.
Proof. destruct c as [[[] | |] ?]; cbn; unfold code; cbn; repeat case_match; simplify_eq/=; done. Qed.

Lemma exact_step_idle c m act inp n ret c' m' k out :
  step c m act inp n = (ret, c', m', k, out) -> 0 <= n -> ret = 0 ->
  0 < Z.max 0 (Z.min k (zlen inp)) \/ take (Z.to_nat n) out <> [].
Proof.
  intros H Hn ->. destruct c as [q|b pend nin nout ended|b ended]; cbn [step] in H.
  - destruct (Small.step q m act inp n) as [[[[ret q'] m1] k1] out1] eqn:Es. injection H as -> <- <- <- <-.
    by eapply Small.step_idle.
  - assert (Hinp : inp <> [] -> 0 < Z.max 0 (Z.min (zlen inp) (zlen inp)))
      by (destruct inp; [done|rewrite zlen_cons; pose proof (zlen_nonneg inp); lia]).
    destruct ended; [done|]. set (all := pend ++ _) in *.
    assert (Htt : take (Z.to_nat n) (take (Z.to_nat n) all) = take (Z.to_nat n) all) by (rewrite take_take; f_equal; lia).
    destruct (act =? 3); [case_decide; [done|]|]; case_decide as Hd; try done; injection H as <- <- <- <-; rewrite Htt.
    + by right.
    + destruct (decide (inp = [])) as [->|Hne]; [|left; by apply Hinp]. right. intros Hz. by apply Hd.
  - by repeat case_match.
Qed.

Lemma code_idle_exact c m act inp n :
  let r := code c m act inp n in
  0 <= n -> cr_ret r = 0 ->
  0 < cr_consumed r \/ cr_out r <> [] \/ (stuck c = false /\ stuck (cr_coder r) = true).
Proof.
  intros r Hn. unfold r, code. destruct (step (kind_of c) m act inp n) as [[[[ret c'] m'] k] out] eqn:Es. cbn.
  destruct (Z.eqb_spec ret 10) as [->|Hne]; cbn; [destruct (stuck c) eqn:Ec; [done|auto]|].
  intros ->. destruct (exact_step_idle _ _ _ _ _ _ _ _ _ _ Es Hn eq_refl); auto.
Qed.

Lemma new_index_fresh (m : mem) a x : cm_index m !! a = Some x -> fresh (dom (cm_index m)) <> a.
Proof. intros H <-. assert (Hn : fresh (dom (cm_index m)) ∉ dom (cm_index m)) by apply is_fresh. by apply not_elem_of_dom in Hn; rewrite H in Hn. Qed.

#[export] Instance liblzma_spec : LiblzmaSpec liblzma.
Proof.
  destruct Small.liblzma_spec. split; try assumption.
  - intros c m act inp n. cbn. unfold code. destruct (step _ _ _ _ _) as [[[[ret c'] m'] k] out]. cbn.
    pose proof (zlen_nonneg inp). split; [lia|]. intros Hn. unfold zlen. rewrite length_take. lia.
  - intros m act inp n. cbn. unfold code. cbn. f_equal; [pose proof (zlen_nonneg inp); lia|by destruct (Z.to_nat n)].
  - intros c m act inp n l Hl. cbn in *. destruct (exact_step_mem c m act inp n) as [(_ & E & _)|(l' & i & Hc & E)]; [by rewrite E|].
    rewrite E. cbn. rewrite lookup_insert_ne; [done|]. congruence.
  - intros c m act inp n a x Hx. cbn in *. destruct (exact_step_mem c m act inp n) as [(E & _ & _)|(l' & i & Hc & E)]; [by rewrite E|].
    rewrite E. cbn. rewrite lookup_insert_ne; [done|]. by eapply new_index_fresh.
  - intros c m act inp n l a Hl. cbn in *. destruct (exact_step_mem c m act inp n) as [(_ & E & _)|(l' & i & Hc & E)].
    { rewrite E in Hl. by left. }
    rewrite E in Hl |- *. cbn in *. destruct (decide (l' = l)) as [->|Hne].
    + rewrite lookup_insert_eq in Hl. injection Hl as <-. right. rewrite lookup_insert_eq. split; [apply not_elem_of_dom, is_fresh|eauto].
    + rewrite lookup_insert_ne in Hl by done. by left.
  - intros. apply step_cell.
  - by intros m l lim c [= <-].
  - by intros m l c [= <-].
  - intros m a c. cbn. by intros [= <-].
  - intros c m act inp n l b Hb. cbn.
    destruct (exact_step_mem c m act inp n) as [(_ & _ & [E|(a & x & y & E)])|(l' & i & Hc & E)]; rewrite E; [by eauto 10| |by eauto 10].
    by apply Small.set_sizes_keep.
Qed.

#[export] Instance liblzma_idle : LiblzmaIdle liblzma.
Proof. exists stuck. apply code_idle_exact. Defined.

(** * The decoders undo the encoders *)
#[local] Existing Instance PlainErrs.errs.
#[local] Existing Instance PlainErrs.errs_spec.

Lemma unpack_pack bs rest : unpack (pack bs ++ 4 :: rest) = Some (bs, zlen (pack bs) + 1).
Proof.
  induction bs as [|b bs IH]; [done|]. unfold pack in *. cbn [map concat app unpack]. rewrite IH.
  do 2 f_equal. rewrite !zlen_cons. lia.
Qed.

Lemma decode_pack check bs : decode check (pack bs ++ [4]) = Some (bs, zlen (pack bs ++ [4])).
Proof. rewrite zlen_app. change (zlen [4]) with 1. rewrite <- (unpack_pack bs []). by destruct bs. Qed.

Lemma literals_more f f' bs x : (f <= f')%nat -> lzma2_literals f bs = Some x -> lzma2_literals f' bs = Some x.
Proof.
  revert f' bs x. induction f as [|f IH]; intros [|f'] bs x Hle; cbn [lzma2_literals]; try done; [lia|].
  destruct bs as [|c [|hi [|lo rest]]]; try done. destruct c as [|c|c]; try done; case_match; try done.
  all: case_match; try done; destruct (lzma2_literals f _) as [[d r]|] eqn:El; try done.
  all: by rewrite (IH f' _ _ ltac:(lia) El).
Qed.

Lemma decode_literal check chunk pad :
  supported check = true -> (pad < 4)%nat -> (zlen (literal_data chunk) + Z.of_nat pad) mod 4 = 0 ->
  let body := literal_data chunk ++ replicate pad 0 ++ check_bytes check chunk in
  decode check body = Some (chunk, zlen body).
Proof.
  intros Hs Hp Hm body. destruct (check_bytes_length check chunk Hs) as (Hcl & _).
  pose proof (supported_uint32 _ Hs) as Hu. unfold CheckSize in Hcl. rewrite Hu in Hcl.
  change (zlen (check_bytes check chunk) = Small.check_size check) in Hcl.
  set (rest := replicate pad 0 ++ check_bytes check chunk) in *.
  assert (Hl : lzma2_literals (S (length body)) body = Some (chunk, rest)).
  { eapply (literals_more (S (length chunk))).
    - unfold body, literal_data. rewrite !length_app. destruct chunk as [|x chunk]; [cbn; lia|].
      pose proof (lit_chunks_length (length (x :: chunk)) (x :: chunk) ltac:(lia)) as Hlen.
      assert (0 <= (zlen (x :: chunk) + 65535) / 65536) by (apply Z.div_pos; zlen_lia).
      unfold zlen in *. lia.
    - unfold body, literal_data. rewrite <- app_assoc. by apply lzma2_literals_chunks. }
  assert (Hun : unliteral check body = Some (chunk, zlen body)).
  { unfold unliteral. rewrite Hl. assert (Hz : zlen body = zlen (literal_data chunk) + zlen rest) by apply zlen_app.
    assert (Hr : zlen rest = Z.of_nat pad + Small.check_size check) by (unfold rest; by rewrite zlen_app, zlen_replicate, Hcl).
    replace (zlen body - zlen rest) with (zlen (literal_data chunk)) by lia.
    assert (Hk : Small.round4 (zlen (literal_data chunk)) = zlen (literal_data chunk) + Z.of_nat pad).
    { unfold Small.round4. Z.to_euclidean_division_equations. lia. }
    rewrite Hk, (proj2 (Z.leb_le _ _)) by lia. do 2 f_equal. lia. }
  rewrite <- Hun. unfold decode, body, literal_data. by destruct chunk as [|x [|y chunk]].
Qed.

Lemma check_at_block (m : mem) l (b : lzma_block Z) : cm_block m !! l = Some b -> check_at m l = b_check b.
Proof. unfold check_at. by intros ->. Qed.

(** A decoder that takes everything in one call. *)
Lemma one_call act (c : lzma_coder) m inp n r :
  lzma_code c m (uint32 act) inp n = r -> cr_ret r = STREAM_END -> cr_consumed r = zlen inp ->
  codes act c m inp (cr_out r) (cr_coder r) (cr_mem r) /\
  last_call act c m (Some streamEnd) (cr_coder r) (cr_mem r).
Proof.
  intros Hr He Hk. split.
  - pose proof (codes_step act c m inp n r [] [] _ _ (eq_sym Hr) (codes_nil _ _ _)) as H.
    by rewrite Hk, !app_nil_r, (take_all inp _ eq_refl) in H.
  - exists [], [], c, m, inp, n. split; [constructor|]. rewrite Hr. split; [by rewrite He|done].
Qed.

(** The decoder of a block, in one call. *)
Lemma body_decoded (b' : block_t) body chunk :
  decode (b_check b') body = Some (chunk, zlen body) -> body_holds b' body chunk.
Proof.
  intros Hd l m Hb. set (c := Coder (Dec l false) false).
  assert (Hc : check_at m l = b_check b') by (by apply check_at_block).
  exists c, (Coder (Dec l true) false), (Small.set_sizes m l (zlen body) (zlen chunk)). split; [done|].
  apply (one_call RUN c m body (zlen chunk) (CodeResult 1 _ _ (zlen body) chunk)); [|done|done].
  cbn. unfold code. cbn [kind_of c step]. rewrite Hc, Hd, (proj2 (Z.leb_le _ _)) by lia. cbn.
  pose proof (zlen_nonneg body). rewrite (take_all chunk _ eq_refl). f_equal. lia.
Qed.

Lemma pack_app a b : pack (a ++ b) = pack a ++ pack b.
Proof. unfold pack. by rewrite map_app, concat_app. Qed.

Lemma take_taken (inp : list Z) : take (Z.to_nat (Z.max 0 (Z.min (zlen inp) (zlen inp)))) inp = inp.
Proof. apply take_ge. unfold zlen. lia. Qed.

(** What a block encoder has still to write, at the end of its input. *)
Definition left_of (pend : list Z) (ended : bool) : list Z := if ended then [] else pend ++ [4].

Lemma drop_marker n (a : list Z) :
  drop n (a ++ [4]) <> [] -> take (length (drop n (a ++ [4])) - 1) (drop n (a ++ [4])) ++ [4] = drop n (a ++ [4]).
Proof.
  intros H. assert (Hn : (n <= length a)%nat).
  { destruct (decide (n <= length a)%nat); [done|]. destruct H. apply drop_ge. rewrite length_app. cbn. lia. }
  rewrite drop_app_le by done. rewrite length_app. cbn. by rewrite Nat.add_sub, take_app_length.
Qed.

Lemma enc_runs (c c' : lzma_coder) m i o m' : codes RUN c m i o c' m' ->
  forall b p u v, kind_of c = Enc b p u v false ->
  exists p' u' v', kind_of c' = Enc b p' u' v' false /\ o ++ p' = p ++ pack i.
Proof.
  induction 1 as [c m|c m inp n r ins outs c' m' Hr Hc IH]; intros b p u v Hk; [exists p, u, v; by rewrite app_nil_r|].
  cbn in Hr. unfold code in Hr. rewrite Hk in Hr. cbn in Hr. change (uint32 0 =? 3) with false in Hr. rewrite app_nil_r in Hr. subst r. cbn in IH |- *.
  destruct (IH _ _ _ _ eq_refl) as (p' & u' & v' & Hk' & Ho). exists p', u', v'. split; [done|].
  rewrite take_taken, pack_app, <- app_assoc, Ho, take_take, Nat.min_id, app_assoc, take_drop. by rewrite app_assoc.
Qed.

Lemma enc_finishes (c c' : lzma_coder) m i o m' : codes FINISH c m i o c' m' -> i = [] ->
  forall b p u v e, kind_of c = Enc b p u v e ->
  exists p' u' v' e', kind_of c' = Enc b p' u' v' e' /\ o ++ left_of p' e' = left_of p e.
Proof.
  induction 1 as [c m|c m inp n r ins outs c' m' Hr Hc IH]; intros Hi b p u v e Hk; [by exists p, u, v, e|].
  apply app_eq_nil in Hi as [Hi ->]. specialize (IH eq_refl).
  cbn in Hr. unfold code in Hr. rewrite Hk in Hr. cbn in Hr.
  change (uint32 3 =? 3) with true in Hr. destruct e.
  { subst r. cbn in IH. destruct (IH _ _ _ _ _ eq_refl) as (p' & u' & v' & e' & Hk' & Ho). exists p', u', v', e'.
    split; [done|]. by destruct (Z.to_nat n). }
  assert (inp = []) as ->.
  { revert Hi. subst r. repeat case_match; simplify_eq/=; by rewrite take_taken. }
  cbn in Hr. set (all := p ++ [4]) in *. case_decide as Hd.
  - subst r. cbn in IH. destruct (IH _ _ _ _ _ eq_refl) as (p' & u' & v' & e' & Hk' & Ho). exists p', u', v', e'.
    split; [done|]. cbn. rewrite <- app_assoc, Ho, take_take, Nat.min_id. cbn. fold all.
    rewrite <- Hd. apply take_drop.
  - assert (exists q, kind_of (cr_coder r) = Enc b (take (length (drop (Z.to_nat n) all) - 1) (drop (Z.to_nat n) all)) (u + 0) q false /\
      cr_out r = take (Z.to_nat n) all) as (q & Hkr & Hor).
    { subst r. case_decide; cbn; eexists; (split; [done|]); by rewrite take_take, Nat.min_id. }
    destruct (IH _ _ _ _ _ Hkr) as (p' & u' & v' & e' & Hk' & Ho). exists p', u', v', e'. split; [done|].
    rewrite <- app_assoc, Ho, Hor. cbn. fold all. unfold all at 2 3 4. rewrite drop_marker by done. apply take_drop.
Qed.

(** After the call that ended it, nothing is left. *)
Lemma at_end_nothing (c : lzma_coder) m : at_end c m ->
  match kind_of c with Enc _ _ _ _ e => e = true | Old (Small.CIndexEnc rest) => rest = [] | _ => True end.
Proof.
  intros (c1 & m1 & inp & n & Hr & <- & _). revert Hr. cbn. unfold code, STREAM_END. cbn.
  destruct c1 as [[[] | |] ?]; cbn; repeat case_match; simplify_eq/=; done.
Qed.

Lemma index_finishes (c c' : lzma_coder) m i o m' : codes FINISH c m i o c' m' ->
  forall rest, kind_of c = Old (Small.CIndexEnc rest) ->
  exists rest', kind_of c' = Old (Small.CIndexEnc rest') /\ o ++ rest' = rest.
Proof.
  induction 1 as [c m|c m inp n r ins outs c' m' Hr Hc IH]; intros rest Hk; [by exists rest|].
  cbn in Hr. unfold code in Hr. rewrite Hk in Hr. cbn in Hr. subst r. cbn in IH |- *.
  destruct (IH _ eq_refl) as (rest' & Hk' & Ho). exists rest'. split; [done|].
  by rewrite <- app_assoc, Ho, take_take, Nat.min_id, take_drop.
Qed.

Lemma stream_header_exact fl hdr f0 : lzma_stream_header_encode fl = (OK, hdr) ->
  lzma_stream_header_decode f0 hdr = (OK, StreamFlagsC 0 (2 ^ 64 - 1) (sf_check fl)) /\ sf_version fl = 0.
Proof. cbn. intros H. case_match eqn:E; [|done]. injection H as <-. apply andb_true_iff in E as [E%Z.eqb_eq _]. by split. Qed.

Lemma footer_exact fl ftr f0 : lzma_stream_footer_encode fl = (OK, ftr) ->
  lzma_stream_footer_decode f0 ftr = (OK, StreamFlagsC 0 (sf_backward_size fl) (sf_check fl)).
Proof.
  cbn. intros H. injection H as <-. cbn. unfold Small.footer_dec. cbn. do 3 f_equal.
  rewrite Z.add_comm. symmetry. apply Z.div_mod. lia.
Qed.

Lemma block_header_exact (blk : lzma_block Z) hdr : Small.header_encode blk = (0, hdr) -> b_header_size blk mod 4 = 0 ->
  exists val rest, hdr = val :: 192 :: rest /\ 8 <= b_header_size blk <= 1024 /\ 4 * (val + 1) = b_header_size blk.
Proof.
  unfold Small.header_encode. intros H Hm. case_match eqn:E; [|done]. injection H as <-.
  apply andb_true_iff in E as [[E1%Z.leb_le E2%Z.leb_le]%andb_true_iff _]. unfold Small.fit.
  destruct (Z.to_nat (b_header_size blk)) as [|[|n]] eqn:En; [lia|lia|]. do 2 eexists. split; [reflexivity|]. split; [done|].
  Z.to_euclidean_division_equations. lia.
Qed.

Lemma header_decoded (b0 : lzma_block Z) val rest :
  4 * (val + 1) = b_header_size b0 -> Small.header_decode b0 (val :: 192 :: rest) = (0, b0).
Proof. intros H. cbn. by rewrite (proj2 (Z.eqb_eq _ _) H). Qed.

(** What a header says is the check of the block. *)
Lemma header_check (blk b' : block_t) hdr :
  lzma_block_header_encode blk = (OK, hdr) -> header_says blk b' hdr -> b_check b' = b_check blk.
Proof.
  intros _ (b0 & _ & Hc & _ & Hd). revert Hd. cbn. unfold Small.header_decode.
  repeat case_match; intros [= <-]; done.
Qed.

Lemma records_length n : forall bs, length bs = (4 * n)%nat -> length (Small.ix_records bs) = n.
Proof.
  induction n as [|n IH]; intros bs Hl; [by destruct bs|]. destruct bs as [|a [|b [|c [|d bs]]]]; cbn in Hl |- *; try lia.
  f_equal. apply IH. lia.
Qed.

(** The encoded index is a complete one, of as many records. *)
Lemma complete_encoded i : exists i', Small.complete (Small.ix_encode i) = Some i' /\
  zlen (Small.ix_recs i') = zlen (Small.ix_recs i) /\ zlen (Small.ix_encode i) = 2 + 4 * zlen (Small.ix_recs i).
Proof.
  unfold Small.complete, Small.ix_encode. cbn [app]. set (recs := Small.ix_recs i).
  set (bs := concat _). assert (Hl : length bs = (4 * length recs)%nat).
  { unfold bs. generalize recs. intros rs. induction rs as [|r rs IH]; cbn; [done|]. lia. }
  assert (Hz : zlen bs = 4 * zlen recs) by (unfold zlen; lia).
  rewrite (proj2 (Z.leb_le _ _)) by lia. eexists. split; [reflexivity|]. cbn [Small.ix_recs].
  rewrite take_ge by (unfold zlen; lia). unfold zlen. rewrite (records_length (length recs)) by done.
  split; [done|]. cbn [length]. lia.
Qed.

Lemma index_encoder_exact (m : mem) a (i : Small.index) : cm_index m !! a = Some i ->
  lzma_index_encoder m a = (OK, old (Small.Coder (Small.CIndexEnc (Small.ix_encode i)) false)).
Proof. intros H. cbn. by rewrite H. Qed.

(** The decoder of an index, in one call. *)
Lemma index_decoded (i : Small.index) (m0 : mem) l :
  exists d d' m2 a' i', lzma_index_decoder m0 l (uint64 maxMemory) = (OK, d) /\
    codes FINISH d m0 (Small.ix_encode i) [] d' m2 /\ last_call FINISH d m0 (Some streamEnd) d' m2 /\
    cm_ixptr m2 !! l = Some (Some a') /\ cm_index m2 !! a' = Some i' /\ lzma_index_size i' = Small.ix_size i.
Proof.
  destruct (complete_encoded i) as (i' & Hi & Hn & Hz). generalize dependent (Small.ix_encode i). intros bs Hi Hz.
  set (d := old (Small.Coder (Small.CIndexDec l [] false) false)).
  exists d, (old (Small.Coder (Small.CIndexDec l bs true) false)), (Small.new_index m0 l i'), (fresh (dom (cm_index m0))), i'.
  split; [done|].
  assert (Hr : lzma_code d m0 (uint32 FINISH) bs 0 =
    CodeResult 1 (old (Small.Coder (Small.CIndexDec l bs true) false)) (Small.new_index m0 l i') (zlen bs) []).
  { cbn -[Small.complete]. unfold code. cbn -[Small.complete]. cbn [app]. rewrite Hi. cbn. f_equal. rewrite Hz, Hn. change (zlen (@nil Z)) with 0. pose proof (zlen_nonneg (Small.ix_recs i)). lia. }
  destruct (one_call FINISH d m0 bs 0 _ Hr eq_refl eq_refl) as [H1 H2].
  split; [exact H1|]. split; [exact H2|]. split; [apply lookup_insert_eq|]. split; [apply lookup_insert_eq|].
  cbn. unfold Small.ix_size. by rewrite Hn.
Qed.

#[export] Instance liblzma_decodes : LiblzmaDecodes liblzma.
Proof.
  split.
  - intros fl hdr f0 H. destruct (stream_header_exact _ _ f0 H) as [Hd Hv]. eexists. split; [exact Hd|]. by rewrite Hv.
  - intros fl ftr f0 H. exists (StreamFlagsC 0 (sf_backward_size fl) (sf_check fl)). split; [by apply footer_exact|].
    intros fl2 _ Hc Hb. cbn. unfold Small.flags_compare. cbn. by rewrite Hc, Hb, !Z.eqb_refl.
  - intros blk hdr H Hm. destruct (block_header_exact _ _ H Hm) as (val & rest & -> & Hr & Hv).
    exists val. split; [done|]. split; [lia|]. split; [exact Hv|]. split; [exact Hr|]. intros b0 _ _ Hs. exists b0. apply header_decoded. exact (eq_trans Hv (eq_sym Hs)).
  - intros b l chunk m0 c0 out1 c1 m1 out2 c2 m2 blk hdr b' Hb [= <-] C1 C2 Hend Hblk Hh Hs.
    destruct (enc_runs _ _ _ _ _ _ C1 _ _ _ _ eq_refl) as (p & u & v & Hk1 & Ho1).
    destruct (enc_finishes _ _ _ _ _ _ C2 eq_refl _ _ _ _ _ Hk1) as (p2 & u2 & v2 & e2 & Hk2 & Ho2).
    pose proof (at_end_nothing _ _ Hend) as He. rewrite Hk2 in He. subst e2. cbn in Ho1, Ho2. rewrite app_nil_r in Ho2.
    apply body_decoded. rewrite Ho2, app_assoc, Ho1. apply decode_pack.
  - intros check chunk pad hdr b' Hsup Hh Hs Hp Hm. apply body_decoded.
    rewrite (header_check _ _ _ Hh Hs). rewrite <- decode_literal by done. f_equal.
    destruct (HeaderSize (literal_block check (zlen chunk))) as [r b1] eqn:El.
    assert (Hl : literal_header check (zlen chunk) = b1) by (unfold literal_header; by rewrite El).
    destruct (header_config _ _ _ El eq_refl) as (_ & V2 & _). rewrite Hl, V2. by apply supported_uint32.
  - intros m a i c0 bs c m' m0 l Ha Hc C1 Hend _. rewrite (index_encoder_exact _ _ _ Ha) in Hc. injection Hc as <-.
    destruct (index_finishes _ _ _ _ _ _ C1 _ eq_refl) as (rest & Hk & Ho).
    pose proof (at_end_nothing _ _ Hend) as He. rewrite Hk in He. subst rest. rewrite app_nil_r in Ho.
    rewrite Ho. apply index_decoded.
Qed.

End Exact.
