(* ===== verification/FileRuns.v ===== *)
(** A file of the writer, and what the reader makes of it, on the library of
    [ExactLzma]; and the instance of the theorem of [FileParse]. *)

From S2P Require Import Prelude Bufpipe Pool Lines Errs Liblzma SmallLzma Lib XzConst Literal World LibIndex Stream StreamPump StreamRuns PipePump.
From S2P Require Import Ioutil PipeClose Writer WriterBlock WriterSync WriterNew WriterSession WriterTotal WriterRuns AsyncWriter AsyncInv AsyncThms AsyncRuns.
From S2P Require Import XzReader ReaderParse ReaderSession ReaderRuns FileParse ExactLzma.

Module FileRun.
Import Mem.
#[local] Existing Instance Exact.liblzma.
#[local] Existing Instance Exact.liblzma_spec.
#[local] Existing Instance Exact.liblzma_idle.
#[local] Existing Instance Exact.liblzma_decodes.
#[local] Existing Instance Plain.bufpipe.
#[local] Existing Instance Plain.bufpipe_spec.
#[local] Existing Instance PlainFrom.bufpipe_io.
#[local] Existing Instance PlainClose.bufpipe_close.
#[local] Existing Instance PlainClose.bufpipe_close_spec.
#[local] Existing Instance PlainErrs.errs.
#[local] Existing Instance PlainErrs.errs_spec.
#[local] Existing Instance PlainIo.ioutil.
#[local] Existing Instance PlainIo.ioutil_spec.

(** Any bytes, also those that mark the end in the format of this library. *)
Definition datas : list (list Z) := [[4; 200; 255]; [0]].

Lemma file_demo :
  WriterRun.made (NewWriterCustom 6 CheckSHA256 0 WorkersSync (WriterRun.sink, empty_world))
    (fun w => WriterRun.succeeded (session 60 datas w)) = true.
Proof. vm_compute. reflexivity. Qed.

(** The reader itself gives back what was written. *)
Lemma file_demo_read :
  match NewWriterCustom 6 CheckSHA256 0 WorkersSync (WriterRun.sink, empty_world) with
  | (Ret (Some w, None), _) =>
      match NewReaderCustom (Rd (out (w_wr (session 60 datas w).2))) 0 WorkersSync empty_world with
      | (Ret (Some r, None), _) => (read_all 60 [3; 3] r).1
      | _ => NoFuel
      end
  | _ => NoFuel
  end = Ret (concat datas, Some EOF).
Proof. vm_compute. reflexivity. Qed.


End FileRun.
