(* ===== verification/XzpipeRuns.v ===== *)
(** Runs of [xzpipe] on the small library, and the instance of the theorem about
    compression. *)

From S2P Require Import Prelude Bufpipe Lines Pool PoolView WorkerPool Errs Liblzma SmallLzma Lib XzConst Literal World LibIndex.
From S2P Require Import Stream StreamPump StreamTerm StreamRuns PipePump Ioutil PipeClose Writer WriterBlock WriterSync WriterNew.
From S2P Require Import WriterSession WriterTotal WriterRuns AsyncWriter AsyncInv AsyncThms AsyncFinite AsyncRuns XzReader ReaderRuns Xzpipe.

Module XzpipeRun.
Import Mem WriterRun AsyncRun.
#[local] Existing Instance Small.liblzma.
#[local] Existing Instance Small.liblzma_spec.
#[local] Existing Instance Small.liblzma_idle.
#[local] Existing Instance Plain.bufpipe.
#[local] Existing Instance Plain.bufpipe_spec.
#[local] Existing Instance PlainClose.bufpipe_close.
#[local] Existing Instance PlainClose.bufpipe_close_spec.
#[local] Existing Instance PlainErrs.errs.
#[local] Existing Instance PlainErrs.errs_spec.
#[local] Existing Instance PlainIo.ioutil.
#[local] Existing Instance PlainIo.ioutil_spec.
#[local] Existing Instance PlainFrom.bufpipe_io.

(** The flags. *)
Example flags_none : Parse [] false = Some false.
Proof. reflexivity. Qed.
Example flags_dec : Parse ["-d"; "file"]%string false = Some true.
Proof. reflexivity. Qed.
Example flags_value : Parse ["--d=true"; "-d=F"; "--"; "-d"]%string false = Some false.
Proof. reflexivity. Qed.
Example flags_unknown : Parse ["-c"]%string false = None.
Proof. reflexivity. Qed.
Example flags_syntax : Parse ["---d"]%string false = None.
Proof. reflexivity. Qed.

(** A session that was started, on which [f] holds. *)
Definition starts (c : command (W:=writer)) (f : async writer -> bool) : bool :=
  match c with Compressing (Ret (s, None)) _ => f s | _ => false end.

Lemma starts_run c f : starts c f = true -> exists s x, c = Compressing (Ret (s, None)) x /\ f s = true.
Proof. destruct c as [|[[s [e|]]|p|] x|]; try done. cbn. eauto. Qed.

(** The session of an empty input, to its end. *)
Definition emptied (s : async writer) : async writer := rounds 10 everybody s.
Definition ended (s : async writer) : bool := match as_main (emptied s) with MDone None => true | _ => false end.

Lemma ended_run s : ended s = true -> as_main (emptied s) = MDone None.
Proof. unfold ended. by destruct (as_main _) as [| | | | | | |[]]. Qed.

Lemma demo_empty : starts (main 4 3 [] (Rd []) (sink, empty_world)) ended = true.
Proof. vm_compute. reflexivity. Qed.

(** The [Write]s that the caller has to make. *)
Definition todo_of (pc : main_pc) : option (list (list Z)) := match pc with MNext todo => Some todo | _ => None end.

Lemma todo_run pc todo : bool_decide (todo_of pc = Some todo) = true -> pc = MNext todo.
Proof. intros H%bool_decide_eq_true. destruct pc; try done. by injection H as ->. Qed.

Lemma demo_bytes : starts (main 4 3 ["-d=0"%string] (Rd [1; 2; 3]) (sink, empty_world)) (fun s => bool_decide (todo_of (as_main s) = Some [[1; 2; 3]])) = true.
Proof. vm_compute. reflexivity. Qed.


End XzpipeRun.
